(** * FAT32 driver of the PicoCalc firmware (src/drivers/fat32.c)

    A shallow embedding of the FAT32 engine: the block transport is a finite
    map from block numbers to 512-byte sectors, the driver's file-scope
    variables are one record that every operation threads through, and the
    C functions that return [fat32_error_t] become computations in a small
    state-and-error monad.  32-bit unsigned arithmetic is written out with
    its wrap-around. *)

From Stdlib Require Import ZArith Lia List Bool String Ascii.
From stdpp Require Import base option list gmap.

Local Open Scope Z_scope.

(** ** Machine integers *)

Definition u8 (x : Z) : Z := x mod 2 ^ 8.
Definition u16 (x : Z) : Z := x mod 2 ^ 16.
Definition u32 (x : Z) : Z := x mod 2 ^ 32.

(** ** Constants of fat32.h and sdcard.h *)

Definition SD_BLOCK_SIZE : Z := 512.
Definition FAT32_SECTOR_SIZE : Z := SD_BLOCK_SIZE.
Definition FAT32_MAX_FILENAME_LEN : Z := 255.
Definition FAT32_MAX_PATH_LEN : Z := 260.
Definition MAX_LFN_PART : Z := 20.

Definition FAT32_ATTR_READ_ONLY : Z := 0x01.
Definition FAT32_ATTR_HIDDEN : Z := 0x02.
Definition FAT32_ATTR_SYSTEM : Z := 0x04.
Definition FAT32_ATTR_VOLUME_ID : Z := 0x08.
Definition FAT32_ATTR_DIRECTORY : Z := 0x10.
Definition FAT32_ATTR_ARCHIVE : Z := 0x20.
Definition FAT32_ATTR_LONG_NAME : Z := 0x0F.

Definition FAT32_FAT_ENTRY_FREE : Z := 0x00.
Definition FAT32_FAT_ENTRY_EOC : Z := 0x0FFFFFF8.

Definition FAT32_DIR_ENTRY_SIZE : Z := 32.
Definition FAT32_DIR_ENTRY_FREE : Z := 0xE5.
Definition FAT32_DIR_ENTRY_END_MARKER : Z := 0x00.
Definition FAT32_DIR_LFN_PART_SIZE : Z := 13.

Inductive fat32_error_t : Set :=
| FAT32_OK
| FAT32_ERROR_NO_CARD
| FAT32_ERROR_INIT_FAILED
| FAT32_ERROR_READ_FAILED
| FAT32_ERROR_WRITE_FAILED
| FAT32_ERROR_INVALID_FORMAT
| FAT32_ERROR_NOT_MOUNTED
| FAT32_ERROR_FILE_NOT_FOUND
| FAT32_ERROR_INVALID_PATH
| FAT32_ERROR_NOT_A_DIRECTORY
| FAT32_ERROR_NOT_A_FILE
| FAT32_ERROR_DIR_NOT_EMPTY
| FAT32_ERROR_DIR_NOT_FOUND
| FAT32_ERROR_DISK_FULL
| FAT32_ERROR_FILE_EXISTS
| FAT32_ERROR_INVALID_POSITION
| FAT32_ERROR_INVALID_PARAMETER
| FAT32_ERROR_INVALID_SECTOR_SIZE
| FAT32_ERROR_INVALID_CLUSTER_SIZE
| FAT32_ERROR_INVALID_FATS
| FAT32_ERROR_INVALID_RESERVED_SECTORS.

#[global] Instance fat32_error_eq_dec : EqDecision fat32_error_t.
Proof. solve_decision. Defined.

(** ** Sectors and little-endian fields

    A sector is the list of its bytes.  The driver overlays packed structs
    on the sector buffer of a little-endian machine, so a 16- or 32-bit
    field is the little-endian number of the bytes at its offset. *)

Abbreviation sector := (list Z).

Definition byte_at (s : sector) (off : Z) : Z :=
  default 0 (s !! Z.to_nat off).

Definition le16 (s : sector) (off : Z) : Z :=
  Z.lor (byte_at s off) (Z.shiftl (byte_at s (off + 1)) 8).

Definition le32 (s : sector) (off : Z) : Z :=
  Z.lor (Z.lor (byte_at s off) (Z.shiftl (byte_at s (off + 1)) 8))
        (Z.lor (Z.shiftl (byte_at s (off + 2)) 16)
               (Z.shiftl (byte_at s (off + 3)) 24)).

Definition put_byte (s : sector) (off : Z) (v : Z) : sector :=
  <[Z.to_nat off := Z.land v 0xFF]> s.

Definition put_le16 (s : sector) (off : Z) (v : Z) : sector :=
  put_byte (put_byte s off v) (off + 1) (Z.shiftr v 8).

Definition put_le32 (s : sector) (off : Z) (v : Z) : sector :=
  put_byte (put_byte (put_byte (put_byte s off v)
                               (off + 1) (Z.shiftr v 8))
                     (off + 2) (Z.shiftr v 16))
           (off + 3) (Z.shiftr v 24).

Definition zero_sector : sector := replicate 512 0.

(** [poke l s] stores the bytes listed in [l] (offset, value) into [s];
    it is used to write down disk images. *)
Fixpoint poke (l : list (Z * Z)) (s : sector) : sector :=
  match l with
  | [] => s
  | (off, v) :: l' => poke l' (put_byte s off v)
  end.

(** ** Packed structures of fat32.h *)

Record fat32_boot_sector_t := {
  bytes_per_sector : Z;      (* offset 11, 2 bytes *)
  sectors_per_cluster : Z;   (* offset 13, 1 byte  *)
  reserved_sectors : Z;      (* offset 14, 2 bytes *)
  num_fats : Z;              (* offset 16, 1 byte  *)
  fat_size_16 : Z;           (* offset 22, 2 bytes *)
  total_sectors_32 : Z;      (* offset 32, 4 bytes *)
  fat_size_32 : Z;           (* offset 36, 4 bytes *)
  root_cluster : Z;          (* offset 44, 4 bytes *)
  fat32_info : Z             (* offset 48, 2 bytes *)
}.

(** [memcpy(&boot_sector, sector_buffer, sizeof(fat32_boot_sector_t))]:
    the fields the driver looks at afterwards. *)
Definition decode_boot_sector (s : sector) : fat32_boot_sector_t :=
  {| bytes_per_sector := le16 s 11;
     sectors_per_cluster := byte_at s 13;
     reserved_sectors := le16 s 14;
     num_fats := byte_at s 16;
     fat_size_16 := le16 s 22;
     total_sectors_32 := le32 s 32;
     fat_size_32 := le32 s 36;
     root_cluster := le32 s 44;
     fat32_info := le16 s 48 |}.

Record fat32_fsinfo_t := {
  lead_sig : Z;              (* offset 0   *)
  fsi_reserved1 : list Z;    (* offset 4, 480 bytes *)
  struc_sig : Z;             (* offset 484 *)
  free_count : Z;            (* offset 488 *)
  next_free : Z;             (* offset 492 *)
  fsi_reserved2 : list Z;    (* offset 496, 12 bytes *)
  trail_sig : Z              (* offset 508 *)
}.

Definition decode_fsinfo (s : sector) : fat32_fsinfo_t :=
  {| lead_sig := le32 s 0;
     fsi_reserved1 := take 480 (drop 4 s);
     struc_sig := le32 s 484;
     free_count := le32 s 488;
     next_free := le32 s 492;
     fsi_reserved2 := take 12 (drop 496 s);
     trail_sig := le32 s 508 |}.

Definition bytes_le32 (v : Z) : list Z :=
  [Z.land v 0xFF; Z.land (Z.shiftr v 8) 0xFF;
   Z.land (Z.shiftr v 16) 0xFF; Z.land (Z.shiftr v 24) 0xFF].

Definition encode_fsinfo (f : fat32_fsinfo_t) : sector :=
  bytes_le32 (lead_sig f) ++ fsi_reserved1 f ++ bytes_le32 (struc_sig f)
  ++ bytes_le32 (free_count f) ++ bytes_le32 (next_free f)
  ++ fsi_reserved2 f ++ bytes_le32 (trail_sig f).

Definition set_free_count (v : Z) (f : fat32_fsinfo_t) : fat32_fsinfo_t :=
  {| lead_sig := lead_sig f; fsi_reserved1 := fsi_reserved1 f;
     struc_sig := struc_sig f; free_count := v; next_free := next_free f;
     fsi_reserved2 := fsi_reserved2 f; trail_sig := trail_sig f |}.

Definition set_next_free (v : Z) (f : fat32_fsinfo_t) : fat32_fsinfo_t :=
  {| lead_sig := lead_sig f; fsi_reserved1 := fsi_reserved1 f;
     struc_sig := struc_sig f; free_count := free_count f; next_free := v;
     fsi_reserved2 := fsi_reserved2 f; trail_sig := trail_sig f |}.

(** File handle, [fat32_file_t]. *)
Record fat32_file_t := {
  is_open : bool;
  last_entry_read : bool;
  attributes : Z;
  start_cluster : Z;
  current_cluster : Z;
  file_size : Z;
  position : Z;
  dir_entry_sector : Z;
  dir_entry_offset : Z
}.

(** [memset(file, 0, sizeof(fat32_file_t))]. *)
Definition zero_file : fat32_file_t :=
  {| is_open := false; last_entry_read := false; attributes := 0;
     start_cluster := 0; current_cluster := 0; file_size := 0;
     position := 0; dir_entry_sector := 0; dir_entry_offset := 0 |}.

(** ** The card and the driver's file-scope state *)

Record sd_card := {
  sd_present : bool;                 (* sd_card_present() *)
  sd_init_result : fat32_error_t;    (* what sd_card_init() returns *)
  sd_blocks : gmap Z sector          (* readable and writable blocks *)
}.

Record world := {
  card : sd_card;
  fat32_mounted : bool;
  mount_status : fat32_error_t;
  boot_sector : fat32_boot_sector_t;
  fsinfo : fat32_fsinfo_t;
  volume_start_block : Z;
  first_data_sector : Z;
  data_region_sectors : Z;
  cluster_count : Z;
  bytes_per_cluster : Z;
  current_dir_cluster : Z;
  sector_buffer : sector
}.

Definition set_blocks (b : gmap Z sector) (w : world) : world :=
  {| card := {| sd_present := sd_present (card w);
                sd_init_result := sd_init_result (card w);
                sd_blocks := b |};
     fat32_mounted := fat32_mounted w; mount_status := mount_status w;
     boot_sector := boot_sector w; fsinfo := fsinfo w;
     volume_start_block := volume_start_block w;
     first_data_sector := first_data_sector w;
     data_region_sectors := data_region_sectors w;
     cluster_count := cluster_count w;
     bytes_per_cluster := bytes_per_cluster w;
     current_dir_cluster := current_dir_cluster w;
     sector_buffer := sector_buffer w |}.

Definition set_sector_buffer (s : sector) (w : world) : world :=
  {| card := card w;
     fat32_mounted := fat32_mounted w; mount_status := mount_status w;
     boot_sector := boot_sector w; fsinfo := fsinfo w;
     volume_start_block := volume_start_block w;
     first_data_sector := first_data_sector w;
     data_region_sectors := data_region_sectors w;
     cluster_count := cluster_count w;
     bytes_per_cluster := bytes_per_cluster w;
     current_dir_cluster := current_dir_cluster w;
     sector_buffer := s |}.

Definition set_fsinfo (f : fat32_fsinfo_t) (w : world) : world :=
  {| card := card w;
     fat32_mounted := fat32_mounted w; mount_status := mount_status w;
     boot_sector := boot_sector w; fsinfo := f;
     volume_start_block := volume_start_block w;
     first_data_sector := first_data_sector w;
     data_region_sectors := data_region_sectors w;
     cluster_count := cluster_count w;
     bytes_per_cluster := bytes_per_cluster w;
     current_dir_cluster := current_dir_cluster w;
     sector_buffer := sector_buffer w |}.

Definition set_mounted (b : bool) (w : world) : world :=
  {| card := card w;
     fat32_mounted := b; mount_status := mount_status w;
     boot_sector := boot_sector w; fsinfo := fsinfo w;
     volume_start_block := volume_start_block w;
     first_data_sector := first_data_sector w;
     data_region_sectors := data_region_sectors w;
     cluster_count := cluster_count w;
     bytes_per_cluster := bytes_per_cluster w;
     current_dir_cluster := current_dir_cluster w;
     sector_buffer := sector_buffer w |}.

Definition set_mount_status (e : fat32_error_t) (w : world) : world :=
  {| card := card w;
     fat32_mounted := fat32_mounted w; mount_status := e;
     boot_sector := boot_sector w; fsinfo := fsinfo w;
     volume_start_block := volume_start_block w;
     first_data_sector := first_data_sector w;
     data_region_sectors := data_region_sectors w;
     cluster_count := cluster_count w;
     bytes_per_cluster := bytes_per_cluster w;
     current_dir_cluster := current_dir_cluster w;
     sector_buffer := sector_buffer w |}.

Definition set_boot_sector (b : fat32_boot_sector_t) (w : world) : world :=
  {| card := card w;
     fat32_mounted := fat32_mounted w; mount_status := mount_status w;
     boot_sector := b; fsinfo := fsinfo w;
     volume_start_block := volume_start_block w;
     first_data_sector := first_data_sector w;
     data_region_sectors := data_region_sectors w;
     cluster_count := cluster_count w;
     bytes_per_cluster := bytes_per_cluster w;
     current_dir_cluster := current_dir_cluster w;
     sector_buffer := sector_buffer w |}.

Definition set_volume_start_block (v : Z) (w : world) : world :=
  {| card := card w;
     fat32_mounted := fat32_mounted w; mount_status := mount_status w;
     boot_sector := boot_sector w; fsinfo := fsinfo w;
     volume_start_block := v;
     first_data_sector := first_data_sector w;
     data_region_sectors := data_region_sectors w;
     cluster_count := cluster_count w;
     bytes_per_cluster := bytes_per_cluster w;
     current_dir_cluster := current_dir_cluster w;
     sector_buffer := sector_buffer w |}.

(** The four derived geometry variables are assigned together in
    [fat32_mount] and cleared together in [fat32_unmount]. *)
Definition set_geometry (fds drs cc bpc : Z) (w : world) : world :=
  {| card := card w;
     fat32_mounted := fat32_mounted w; mount_status := mount_status w;
     boot_sector := boot_sector w; fsinfo := fsinfo w;
     volume_start_block := volume_start_block w;
     first_data_sector := fds;
     data_region_sectors := drs;
     cluster_count := cc;
     bytes_per_cluster := bpc;
     current_dir_cluster := current_dir_cluster w;
     sector_buffer := sector_buffer w |}.

Definition set_current_dir_cluster (v : Z) (w : world) : world :=
  {| card := card w;
     fat32_mounted := fat32_mounted w; mount_status := mount_status w;
     boot_sector := boot_sector w; fsinfo := fsinfo w;
     volume_start_block := volume_start_block w;
     first_data_sector := first_data_sector w;
     data_region_sectors := data_region_sectors w;
     cluster_count := cluster_count w;
     bytes_per_cluster := bytes_per_cluster w;
     current_dir_cluster := v;
     sector_buffer := sector_buffer w |}.

(** ** The monad of driver operations

    A C function returning [fat32_error_t] is a computation over the state
    it can change: [Ret a s] is a return of [FAT32_OK] with result [a],
    [Fail e s] the return of the error code [e] (the state keeps what was
    changed before the return), and [Stop r] a call without a result:
    [Timeout], a loop that did not finish within the iterations the model
    allotted to it, or [Undefined], a step whose effect the C language
    does not define (a store outside an array) or whose result it leaves
    open (a read of a byte that was never written).  Functions that work
    on the driver's variables alone run over [world]; functions that also
    update a caller's file handle run over the handle and the world. *)

Inductive stop : Type :=
| OutOfFuel
| UndefinedBehaviour.

Inductive outcome (S A : Type) : Type :=
| Ret (a : A) (s : S)
| Fail (e : fat32_error_t) (s : S)
| Stop (r : stop).
Arguments Ret {S A} a s.
Arguments Fail {S A} e s.
Arguments Stop {S A} r.

Abbreviation Timeout := (Stop OutOfFuel).
Abbreviation Undefined := (Stop UndefinedBehaviour).

Definition Mst (S A : Type) : Type := S -> outcome S A.

Definition ret {S A} (a : A) : Mst S A := fun s => Ret a s.

Definition bind {S A B} (m : Mst S A) (k : A -> Mst S B) : Mst S B :=
  fun s =>
    match m s with
    | Ret a s' => k a s'
    | Fail e s' => Fail e s'
    | Stop r => Stop r
    end.

Declare Scope fat_scope.
Delimit Scope fat_scope with fat.
Notation "x ← y ; z" := (bind y (fun x : _ => z))
  (at level 20, y at level 100, z at level 200, only parsing) : fat_scope.
Notation "x ;; z" := (bind x (fun _ => z))
  (at level 100, z at level 200, only parsing, right associativity)
  : fat_scope.
Local Open Scope fat_scope.

Abbreviation M := (Mst world).
Abbreviation MF := (Mst (fat32_file_t * world)).

Definition fail {S A} (e : fat32_error_t) : Mst S A := fun s => Fail e s.
Definition get {S} : Mst S S := fun s => Ret s s.
Definition modify {S} (f : S -> S) : Mst S unit := fun s => Ret tt (f s).

(** A computation on the driver's variables, run inside an operation on a
    file handle. *)
Definition liftw {A} (m : M A) : MF A := fun s =>
  match m (snd s) with
  | Ret a w => Ret a (fst s, w)
  | Fail e w => Fail e (fst s, w)
  | Stop r => Stop r
  end.

(** An operation on a handle that is a local variable of the caller: it
    starts from [f], and the caller continues with the handle it left. *)
Definition with_file {A} (f : fat32_file_t) (m : MF A) : M (A * fat32_file_t) :=
  fun w =>
    match m (f, w) with
    | Ret a s => Ret (a, fst s) (snd s)
    | Fail e s => Fail e (snd s)
    | Stop r => Stop r
    end.

Definition get_file : MF fat32_file_t := fun s => Ret (fst s) s.
Definition get_world : MF world := fun s => Ret (snd s) s.
Definition modify_file (g : fat32_file_t -> fat32_file_t) : MF unit :=
  fun s => Ret tt (g (fst s), snd s).

(** [RETURN_ON_ERROR(expr)] for an [expr] that is a plain error code. *)
Definition return_on_error {S} (e : fat32_error_t) : Mst S unit :=
  match e with FAT32_OK => ret tt | _ => fail e end.

(** The error code a C caller sees, and the state it is left with. *)
Definition code {S A} (o : outcome S A) : option fat32_error_t :=
  match o with
  | Ret _ _ => Some FAT32_OK
  | Fail e _ => Some e
  | Stop _ => None
  end.

Definition final {S A} (o : outcome S A) : option S :=
  match o with
  | Ret _ s => Some s
  | Fail _ s => Some s
  | Stop _ => None
  end.

(** [e = f()] for a call whose error code the caller inspects instead of
    returning it. *)
Definition try {S A} (m : Mst S A) : Mst S (fat32_error_t + A) := fun s =>
  match m s with
  | Ret a s' => Ret (inr a) s'
  | Fail e s' => Ret (inl e) s'
  | Stop r => Stop r
  end.

(** ** Sector-level access *)

Definition sd_read_block (block : Z) : M sector := fun w =>
  match sd_blocks (card w) !! block with
  | Some s => Ret s w
  | None => Fail FAT32_ERROR_READ_FAILED w
  end.

Definition sd_write_block (block : Z) (buffer : sector) : M unit := fun w =>
  match sd_blocks (card w) !! block with
  | Some _ => Ret tt (set_blocks (<[block := buffer]> (sd_blocks (card w))) w)
  | None => Fail FAT32_ERROR_WRITE_FAILED w
  end.

Definition cluster_to_sector (cluster : Z) : M Z :=
  w ← get;
  ret (u32 (u32 ((cluster - 2) * sectors_per_cluster (boot_sector w))
             + first_data_sector w)).

(** [read_sector(sector, sector_buffer)]: every caller reads into the one
    scratch buffer. *)
Definition read_sector (sec : Z) : M unit :=
  w ← get;
  s ← sd_read_block (u32 (volume_start_block w + sec));
  modify (set_sector_buffer s).

Definition write_sector (sec : Z) (buffer : sector) : M unit :=
  w ← get;
  sd_write_block (u32 (volume_start_block w + sec)) buffer.

Definition update_fsinfo : M unit :=
  w ← get;
  write_sector (fat32_info (boot_sector w)) (encode_fsinfo (fsinfo w)).

(** ** FAT entries *)

Definition fat_sector_of (w : world) (cluster : Z) : Z :=
  u32 (reserved_sectors (boot_sector w)
       + u32 (cluster * 4) / FAT32_SECTOR_SIZE).

Definition fat_offset_of (cluster : Z) : Z :=
  u32 (cluster * 4) mod FAT32_SECTOR_SIZE.

Definition read_cluster_fat_entry (cluster : Z) : M Z :=
  if cluster <? 2 then fail FAT32_ERROR_INVALID_PARAMETER
  else
    w ← get;
    let fat_sector := fat_sector_of w cluster in
    let entry_offset := fat_offset_of cluster in
    read_sector fat_sector;;
    w ← get;
    let entry := le32 (sector_buffer w) entry_offset in
    ret (Z.land entry 0x0FFFFFFF).

Definition write_cluster_fat_entry (cluster value : Z) : M unit :=
  if cluster <? 2 then fail FAT32_ERROR_INVALID_PARAMETER
  else
    w ← get;
    let fat_sector := fat_sector_of w cluster in
    let entry_offset := fat_offset_of cluster in
    read_sector fat_sector;;
    w ← get;
    let buf := sector_buffer w in
    let entry := Z.land (le32 buf entry_offset) 0xF0000000 in
    let entry := Z.lor entry (Z.land value 0x0FFFFFFF) in
    let buf := put_le32 buf entry_offset entry in
    modify (set_sector_buffer buf);;
    write_sector fat_sector buf.

(** [for (i = start_cluster; i < cluster_count + 2; i++)]: the loop counter
    runs over at most [cluster_count + 2 - start_cluster] values. *)
Fixpoint get_next_free_cluster_from (n : nat) (i : Z) : M Z :=
  match n with
  | O => fail FAT32_ERROR_DISK_FULL
  | S n' =>
      value ← read_cluster_fat_entry i;
      if value =? FAT32_FAT_ENTRY_FREE then ret i
      else get_next_free_cluster_from n' (u32 (i + 1))
  end.

Definition get_next_free_cluster : M Z :=
  w ← get;
  let start_cluster :=
    if negb (next_free (fsinfo w) =? 0xFFFFFFFF) then next_free (fsinfo w)
    else 2 in
  get_next_free_cluster_from
    (Z.to_nat (u32 (cluster_count w + 2) - start_cluster)) start_cluster.

(** The [while (cluster < FAT32_FAT_ENTRY_EOC)] loop of
    [release_cluster_chain], with its three locals. *)
Fixpoint release_cluster_chain_loop (fuel : nat)
    (cluster total_clusters lowest_cluster : Z) : M (Z * Z) :=
  if negb (cluster <? FAT32_FAT_ENTRY_EOC) then
    ret (total_clusters, lowest_cluster)
  else
    match fuel with
    | O => fun _ => Timeout
    | S fuel' =>
        next_cluster ← read_cluster_fat_entry cluster;
        write_cluster_fat_entry cluster FAT32_FAT_ENTRY_FREE;;
        let total_clusters := u32 (total_clusters + 1) in
        let lowest_cluster :=
          if cluster <? lowest_cluster then cluster else lowest_cluster in
        release_cluster_chain_loop fuel' next_cluster
                                   total_clusters lowest_cluster
    end.

Definition release_cluster_chain (fuel : nat) (start_cluster : Z) : M unit :=
  if start_cluster <? 2 then fail FAT32_ERROR_INVALID_PARAMETER
  else
    r ← release_cluster_chain_loop fuel start_cluster 0 0xFFFFFFFF;
    let total_clusters := fst r in
    let lowest_cluster := snd r in
    modify (fun w =>
      set_fsinfo (set_free_count (u32 (free_count (fsinfo w) + total_clusters))
                                 (fsinfo w)) w);;
    modify (fun w =>
      if lowest_cluster <? next_free (fsinfo w)
      then set_fsinfo (set_next_free lowest_cluster (fsinfo w)) w
      else w);;
    w ← get;
    write_sector (fat32_info (boot_sector w)) (encode_fsinfo (fsinfo w)).

(** [for (i = 1; i < count; i++)]: [n] is the number of iterations left. *)
Fixpoint find_last_cluster_loop (n : nat) (last_cluster : Z) : M Z :=
  match n with
  | O => ret last_cluster
  | S n' =>
      next_cluster ← read_cluster_fat_entry last_cluster;
      find_last_cluster_loop n' next_cluster
  end.

Definition find_last_cluster (start_cluster count : Z) : M Z :=
  find_last_cluster_loop (Z.to_nat (count - 1)) start_cluster.

(** The decrement of the free-count hint that follows every allocation. *)
Definition decrease_free_count : M unit :=
  w ← get;
  if negb (free_count (fsinfo w) =? 0xFFFFFFFF) then
    modify (set_fsinfo (set_free_count (u32 (free_count (fsinfo w) - 1))
                                       (fsinfo w)));;
    (* the result of update_fsinfo() is not checked *)
    _ ← try update_fsinfo;
    ret tt
  else ret tt.

Definition allocate_and_link_cluster (last_cluster : Z) : M Z :=
  new_cluster ← get_next_free_cluster;
  write_cluster_fat_entry last_cluster new_cluster;;
  write_cluster_fat_entry new_cluster FAT32_FAT_ENTRY_EOC;;
  decrease_free_count;;
  ret new_cluster.

Fixpoint clear_cluster_loop (n : nat) (sec : Z) : M unit :=
  match n with
  | O => ret tt
  | S n' =>
      w ← get;
      write_sector sec (sector_buffer w);;
      clear_cluster_loop n' (u32 (sec + 1))
  end.

Definition clear_cluster (cluster : Z) : M unit :=
  sec ← cluster_to_sector cluster;
  modify (set_sector_buffer zero_sector);;
  w ← get;
  clear_cluster_loop (Z.to_nat (sectors_per_cluster (boot_sector w))) sec.

Fixpoint seek_to_cluster_loop (n : nat) (cluster : Z) : M Z :=
  match n with
  | O => ret cluster
  | S n' =>
      next_cluster ← read_cluster_fat_entry cluster;
      if negb (next_cluster <? FAT32_FAT_ENTRY_EOC)
      then fail FAT32_ERROR_INVALID_POSITION
      else seek_to_cluster_loop n' next_cluster
  end.

Definition seek_to_cluster (start_cluster offset : Z) : M Z :=
  seek_to_cluster_loop (Z.to_nat offset) start_cluster.

(** ** Mounting the volume *)

Definition is_sector_mbr (s : sector) : bool :=
  if negb (byte_at s 510 =? 0x55) || negb (byte_at s 511 =? 0xAA) then false
  else
    (* at least one partition-table entry with a non-zero type *)
    existsb (fun i => negb (byte_at s (446 + i * 16 + 4) =? 0x00))
            [0; 1; 2; 3].

Definition is_sector_boot_sector (s : sector) : bool :=
  if negb (byte_at s 510 =? 0x55) || negb (byte_at s 511 =? 0xAA) then false
  else if negb (byte_at s 0 =? 0xEB) && negb (byte_at s 0 =? 0xE9) then false
  else
    let bps := u16 (Z.lor (byte_at s 11) (Z.shiftl (byte_at s 12) 8)) in
    if negb (bps =? 512) && negb (bps =? 1024)
       && negb (bps =? 2048) && negb (bps =? 4096)
    then false
    else true.

Definition is_valid_fat32_boot_sector (bs : fat32_boot_sector_t)
  : fat32_error_t :=
  if negb (bytes_per_sector bs =? FAT32_SECTOR_SIZE)
  then FAT32_ERROR_INVALID_FORMAT
  else
    let spc := sectors_per_cluster bs in
    if (spc =? 0) || (128 <? spc) || negb (Z.land spc (spc - 1) =? 0)
    then FAT32_ERROR_INVALID_FORMAT
    else if (num_fats bs =? 0) || (2 <? num_fats bs)
    then FAT32_ERROR_INVALID_FORMAT
    else if reserved_sectors bs =? 0
    then FAT32_ERROR_INVALID_FORMAT
    else if negb (fat_size_16 bs =? 0) || (fat_size_32 bs =? 0)
    then FAT32_ERROR_INVALID_FORMAT
    else if total_sectors_32 bs =? 0
    then FAT32_ERROR_INVALID_FORMAT
    else FAT32_OK.

Definition fat32_unmount : M unit :=
  modify (set_mounted false);;
  modify (set_mount_status FAT32_ERROR_NO_CARD);;
  modify (set_volume_start_block 0);;
  modify (set_geometry 0 0 0 0);;
  modify (set_current_dir_cluster 0).

(** [sd_read_block(block, sector_buffer)], without the volume offset. *)
Definition sd_read_into_buffer (block : Z) : M unit :=
  s ← sd_read_block block;
  modify (set_sector_buffer s).

(** The loop over the four partition-table entries of the MBR held in the
    sector buffer; [entries] are the indices still to visit. *)
Fixpoint scan_partitions (entries : list Z) : M unit :=
  match entries with
  | [] => ret tt
  | i :: rest =>
      w ← get;
      let partition_entry := 446 + i * 16 in
      let boot_indicator := byte_at (sector_buffer w) partition_entry in
      let partition_type := byte_at (sector_buffer w) (partition_entry + 4) in
      let start_lba := le32 (sector_buffer w) (partition_entry + 8) in
      if negb (boot_indicator =? 0x00) && negb (boot_indicator =? 0x80)
      then scan_partitions rest
      else if (partition_type =? 0x0B) || (partition_type =? 0x0C)
      then
        modify (set_volume_start_block start_lba);;
        sd_read_into_buffer start_lba
      else scan_partitions rest
  end.

Definition fsinfo_signatures_ok (f : fat32_fsinfo_t) : bool :=
  (lead_sig f =? 0x41615252) && (struc_sig f =? 0x61417272)
  && (trail_sig f =? 0xAA550000).

(** "Read boot sector": after this step the sector buffer holds the boot
    sector of the volume and [volume_start_block] is where it begins. *)
Definition fat32_mount_find_volume : M unit :=
  sd_read_into_buffer 0;;
  w ← get;
  if is_sector_mbr (sector_buffer w) then
    modify (set_volume_start_block 0);;
    scan_partitions [0; 1; 2; 3];;
    w ← get;
    if volume_start_block w =? 0
    then fail FAT32_ERROR_INVALID_FORMAT
    else ret tt
  else if is_sector_boot_sector (sector_buffer w) then
    modify (set_volume_start_block 0)
  else fail FAT32_ERROR_INVALID_FORMAT.

(** "Cache the FSInfo sector". *)
Definition fat32_mount_fsinfo : M unit :=
  w ← get;
  read_sector (fat32_info (boot_sector w));;
  w ← get;
  let fsi := decode_fsinfo (sector_buffer w) in
  modify (set_fsinfo fsi);;
  if negb (fsinfo_signatures_ok fsi)
  then fail FAT32_ERROR_INVALID_FORMAT
  else modify (set_mounted true).

(** The cluster count [fat32_mount] derives from a boot sector. *)
Definition mount_cluster_count (bs : fat32_boot_sector_t) : Z :=
  u32 (total_sectors_32 bs - u32 (num_fats bs * fat_size_32 bs))
  / sectors_per_cluster bs.

Definition fat32_mount : M unit :=
  w ← get;
  if negb (sd_present (card w)) then
    fat32_unmount;;
    fail FAT32_ERROR_NO_CARD
  else if fat32_mounted w then ret tt
  else
    return_on_error (sd_init_result (card w));;
    fat32_mount_find_volume;;
    w ← get;
    let bs := decode_boot_sector (sector_buffer w) in
    modify (set_boot_sector bs);;
    return_on_error (is_valid_fat32_boot_sector bs);;
    let fats := u32 (num_fats bs * fat_size_32 bs) in
    let bpc := u32 (sectors_per_cluster bs * FAT32_SECTOR_SIZE) in
    let fds := u32 (reserved_sectors bs + fats) in
    let drs := u32 (total_sectors_32 bs - fats) in
    let cc := mount_cluster_count bs in
    modify (set_geometry fds drs cc bpc);;
    if cc <? 65525 then fail FAT32_ERROR_INVALID_FORMAT
    else
      modify (set_current_dir_cluster (root_cluster bs));;
      fat32_mount_fsinfo.

Definition fat32_is_mounted : M bool :=
  w ← get; ret (fat32_mounted w).

Definition fat32_is_ready : M bool :=
  w ← get;
  (if sd_present (card w) then
     if negb (fat32_mounted w) then
       r ← try fat32_mount;
       modify (set_mount_status
                 (match r with inl e => e | inr _ => FAT32_OK end))
     else ret tt
   else
     (if fat32_mounted w then fat32_unmount else ret tt);;
     modify (set_mount_status FAT32_ERROR_NO_CARD));;
  w ← get;
  ret (bool_decide (mount_status w = FAT32_OK)).

(** [if (!fat32_is_ready()) return mount_status;] *)
Definition require_ready : M unit :=
  ready ← fat32_is_ready;
  if (ready : bool) then ret tt
  else w ← get; fail (mount_status w).

(** ** Names

    A C string is the list of its characters before the terminating NUL;
    [char] is unsigned on the target, so a character is a number in
    [1, 255].  [str] writes such a list down as a literal. *)

Definition str (s : string) : list Z :=
  map (fun a => Z.of_N (N_of_ascii a)) (list_ascii_of_string s).

Definition strlen (s : list Z) : Z := Z.of_nat (length s).

(** The characters of a [char] array up to its first NUL. *)
Fixpoint cstr (buf : list Z) : list Z :=
  match buf with
  | [] => []
  | c :: buf' => if c =? 0 then [] else c :: cstr buf'
  end.

(** Index of the first, respectively last, occurrence of [c]. *)
Fixpoint strchr (s : list Z) (c : Z) : option nat :=
  match s with
  | [] => None
  | x :: s' => if x =? c then Some O else S <$> strchr s' c
  end.

Fixpoint strrchr (s : list Z) (c : Z) : option nat :=
  match s with
  | [] => None
  | x :: s' =>
      match strrchr s' c with
      | Some i => Some (S i)
      | None => if x =? c then Some O else None
      end
  end.

Definition toupper (c : Z) : Z :=
  if (97 <=? c) && (c <=? 122) then c - 32 else c.

Definition tolower (c : Z) : Z :=
  if (65 <=? c) && (c <=? 90) then c + 32 else c.

(** [strcasecmp(a, b) == 0] *)
Definition strcasecmp_eq (a b : list Z) : bool :=
  bool_decide (map tolower a = map tolower b).

Definition utf16_to_utf8 (utf16 : Z) : Z :=
  if utf16 <? 0x80 then utf16 else 63.

Definition utf8_to_utf16 (utf8 : Z) : Z := utf8.

Definition utf8_to_lfn_ch (utf8 index len : Z) : Z :=
  if index =? len then 0
  else if len <? index then 0xFFFF
  else utf8_to_utf16 utf8.

(** [memset(buf, ' ', n)] followed by [memcpy(buf, src, strlen(src))],
    for a [src] of at most [n] characters. *)
Definition pad_spaces (n : nat) (src : list Z) : list Z :=
  take n (src ++ replicate n 32).

Definition filename_to_shortname (filename : list Z) : list Z :=
  let dot := strrchr filename 46 in
  let name_len := match dot with Some d => d | None => length filename end in
  let name := map toupper (take (name_len `min` 8) filename) in
  let ext :=
    match dot with
    | Some d => map toupper (take 3 (drop (S d) filename))
    | None => []
    end in
  pad_spaces 8 name ++ pad_spaces 3 ext.

(** The characters of [s] before its first space. *)
Fixpoint until_space (s : list Z) : list Z :=
  match s with
  | [] => []
  | c :: s' => if c =? 32 then [] else c :: until_space s'
  end.

Definition shortname_to_filename (shortname : list Z) : list Z :=
  let not_space := fun c : Z => negb (c =? 32) in
  let name := map tolower (until_space (take 8 shortname)) in
  let ext := map tolower (List.filter not_space (take 3 (drop 8 shortname))) in
  cstr (name ++ match ext with [] => [] | _ => 46 :: ext end).

(** The sixteen characters of the array [forbidden] in [valid_shortname]:
    double quote, then * + , . / : ; < = > ? [ \ ] and |. *)
Definition forbidden : list Z :=
  [34; 42; 43; 44; 46; 47; 58; 59; 60; 61; 62; 63; 91; 92; 93; 124].

Definition shortname_char_allowed (c : Z) : bool :=
  negb ((c <=? 0x20) || bool_decide (c ∈ forbidden)).

Definition valid_shortname (filename : list Z) : bool :=
  let len := strlen filename in
  if (len <? 1) || (12 <? len) then false
  else
    let dot := strchr filename 46 in
    if bool_decide (is_Some dot ∧ dot ≠ strrchr filename 46) then false
    else if bool_decide (dot = Some O) then false
    else
      let name_len :=
        match dot with Some d => Z.of_nat d | None => len end in
      let ext_len :=
        match dot with Some _ => len - name_len - 1 | None => 0 end in
      if (name_len <? 1) || (8 <? name_len) then false
      else if (ext_len <? 0) || (3 <? ext_len) then false
      else
        forallb shortname_char_allowed (take (Z.to_nat name_len) filename)
        && match dot with
           | Some d =>
               forallb shortname_char_allowed
                       (take (Z.to_nat ext_len) (drop (S d) filename))
           | None => true
           end.

(** The thirteen UTF-16 units of each long-name part; the driver builds
    them in [lfn_buffer]. *)
Definition filename_to_lfn (filename : list Z) : list (list Z) :=
  let len := strlen filename in
  let part_count := (len + 12) / 13 in
  map (fun i =>
         map (fun k =>
                let j := i * 13 + k in
                utf8_to_lfn_ch (nth (Z.to_nat j) filename 0) (u8 j) (u8 len))
             (seqZ 0 13))
      (seqZ 0 part_count).

Definition shortname_checksum (shortname : list Z) : Z :=
  fold_left (fun sum c =>
               u8 ((if Z.land sum 1 =? 0 then 0 else 0x80)
                   + Z.shiftr sum 1 + u8 c))
            (take 11 (shortname ++ replicate 11 0)) 0.

(** The thirteen characters of a long-name slot held at [off] in [s]. *)
Definition lfn_to_str (s : sector) (off : Z) : list Z :=
  map (fun k => utf16_to_utf8 (le16 s (off + k)))
      [1; 3; 5; 7; 9; 14; 16; 18; 20; 22; 24; 28; 30].

(** The characters [snprintf] prints for ["%d"] and a positive [n]. *)
Fixpoint decimal_loop (fuel : nat) (n : Z) (acc : list Z) : list Z :=
  match fuel with
  | O => acc
  | S fuel' =>
      let acc' := (48 + n mod 10) :: acc in
      if n / 10 =? 0 then acc' else decimal_loop fuel' (n / 10) acc'
  end.

Definition decimal (n : Z) : list Z := decimal_loop 11 n [].

(** [memcpy(buf + off, src, length src)] *)
Fixpoint store_bytes (buf : list Z) (off : Z) (src : list Z) : list Z :=
  match src with
  | [] => buf
  | b :: src' => store_bytes (put_byte buf off b) (off + 1) src'
  end.

(** ** Directory entries *)

(** [fat32_entry_t]; the fields carry the prefix [e_] because a file
    handle has fields of the same names. *)
Record fat32_entry_t := {
  e_filename : list Z;
  e_size : Z;
  e_date : Z;
  e_time : Z;
  e_start_cluster : Z;
  e_attr : Z;
  e_sector : Z;
  e_offset : Z
}.

(** [memset(dir_entry, 0, sizeof(fat32_entry_t))] *)
Definition zero_entry : fat32_entry_t :=
  {| e_filename := []; e_size := 0; e_date := 0; e_time := 0;
     e_start_cluster := 0; e_attr := 0; e_sector := 0; e_offset := 0 |}.

Definition set_e_start_cluster (v : Z) (e : fat32_entry_t) : fat32_entry_t :=
  {| e_filename := e_filename e; e_size := e_size e; e_date := e_date e;
     e_time := e_time e; e_start_cluster := v; e_attr := e_attr e;
     e_sector := e_sector e; e_offset := e_offset e |}.

Definition set_e_filename (v : list Z) (e : fat32_entry_t) : fat32_entry_t :=
  {| e_filename := v; e_size := e_size e; e_date := e_date e;
     e_time := e_time e; e_start_cluster := e_start_cluster e;
     e_attr := e_attr e; e_sector := e_sector e; e_offset := e_offset e |}.

Definition set_e_attr (v : Z) (e : fat32_entry_t) : fat32_entry_t :=
  {| e_filename := e_filename e; e_size := e_size e; e_date := e_date e;
     e_time := e_time e; e_start_cluster := e_start_cluster e; e_attr := v;
     e_sector := e_sector e; e_offset := e_offset e |}.

Definition set_e_location (sec off : Z) (e : fat32_entry_t) : fat32_entry_t :=
  {| e_filename := e_filename e; e_size := e_size e; e_date := e_date e;
     e_time := e_time e; e_start_cluster := e_start_cluster e;
     e_attr := e_attr e; e_sector := sec; e_offset := off |}.

(** Updates of a file handle. *)
Definition set_position (v : Z) (f : fat32_file_t) : fat32_file_t :=
  {| is_open := is_open f; last_entry_read := last_entry_read f;
     attributes := attributes f; start_cluster := start_cluster f;
     current_cluster := current_cluster f; file_size := file_size f;
     position := v; dir_entry_sector := dir_entry_sector f;
     dir_entry_offset := dir_entry_offset f |}.

Definition set_current_cluster (v : Z) (f : fat32_file_t) : fat32_file_t :=
  {| is_open := is_open f; last_entry_read := last_entry_read f;
     attributes := attributes f; start_cluster := start_cluster f;
     current_cluster := v; file_size := file_size f;
     position := position f; dir_entry_sector := dir_entry_sector f;
     dir_entry_offset := dir_entry_offset f |}.

Definition set_start_cluster (v : Z) (f : fat32_file_t) : fat32_file_t :=
  {| is_open := is_open f; last_entry_read := last_entry_read f;
     attributes := attributes f; start_cluster := v;
     current_cluster := current_cluster f; file_size := file_size f;
     position := position f; dir_entry_sector := dir_entry_sector f;
     dir_entry_offset := dir_entry_offset f |}.

Definition set_file_size (v : Z) (f : fat32_file_t) : fat32_file_t :=
  {| is_open := is_open f; last_entry_read := last_entry_read f;
     attributes := attributes f; start_cluster := start_cluster f;
     current_cluster := current_cluster f; file_size := v;
     position := position f; dir_entry_sector := dir_entry_sector f;
     dir_entry_offset := dir_entry_offset f |}.

Definition set_last_entry_read (v : bool) (f : fat32_file_t) : fat32_file_t :=
  {| is_open := is_open f; last_entry_read := v;
     attributes := attributes f; start_cluster := start_cluster f;
     current_cluster := current_cluster f; file_size := file_size f;
     position := position f; dir_entry_sector := dir_entry_sector f;
     dir_entry_offset := dir_entry_offset f |}.

(** The handle the driver builds on its stack to scan the directory that
    starts at [cluster]. *)
Definition dir_handle (cluster : Z) : fat32_file_t :=
  {| is_open := true; last_entry_read := false;
     attributes := FAT32_ATTR_DIRECTORY; start_cluster := cluster;
     current_cluster := cluster; file_size := 0; position := 0;
     dir_entry_sector := 0; dir_entry_offset := 0 |}.

(** [fat32_close]: [None] is the NULL pointer; the result is what the
    pointer refers to afterwards. *)
Definition fat32_close (file : option fat32_file_t)
  : M (option fat32_file_t) :=
  match file with
  | Some f => if is_open f then ret (Some zero_file) else ret (Some f)
  | None => ret None
  end.

(** [buf[i] = v] for an array of [length buf] elements.  The C code does
    not check the index; a store outside the array has no defined
    behaviour, and the result is [None]. *)
Definition array_store {A} (buf : list A) (i : Z) (v : A)
  : option (list A) :=
  if (0 <=? i) && (i <? Z.of_nat (length buf))
  then Some (<[Z.to_nat i := v]> buf) else None.

Fixpoint array_store_all {A} (buf : list A) (i : Z) (src : list A)
  : option (list A) :=
  match src with
  | [] => Some buf
  | v :: src' =>
      match array_store buf i v with
      | Some buf' => array_store_all buf' (i + 1) src'
      | None => None
      end
  end.

(** [char filename[FAT32_MAX_FILENAME_LEN + 1]; filename[0] = '\0';] in
    [fat32_dir_read]: a local array of which only the first byte is
    written.  [None] is a byte that has not been written yet. *)
Definition fresh_name_buffer : list (option Z) :=
  Some 0 :: replicate 255 None.

(** [memset(filename, 0, sizeof(filename))] *)
Definition cleared_name_buffer : list (option Z) := replicate 256 (Some 0).

(** The string a [strcpy] from [buf] copies: the characters before the
    first NUL.  There is none when a byte that was never written, or the
    end of the array, comes before a NUL. *)
Fixpoint read_string (buf : list (option Z)) : option (list Z) :=
  match buf with
  | [] => None
  | None :: _ => None
  | Some c :: buf' =>
      if c =? 0 then Some []
      else match read_string buf' with
           | Some str => Some (c :: str)
           | None => None
           end
  end.

(** The locals of [fat32_dir_read] that live across loop iterations, and
    the caller's entry [*dir_entry]. *)
Record dir_read_locals := {
  lfn_filename : list (option Z);       (* char filename[256] *)
  expected_checksum : Z;
  current_sector : Z;
  dir_entry : fat32_entry_t
}.

(** What one directory slot at [off] of the sector buffer does to the
    locals, and whether it is the end marker; [None] where the C code
    has no defined result.  A slot that does not begin with the end
    marker and has the long-name attribute is taken for a long-name slot
    whatever its first byte is, also the 0xE5 of a deleted slot. *)
Definition dir_read_slot (sec off : Z) (buf : sector) (l : dir_read_locals)
  : option (bool * dir_read_locals) :=
  let first := byte_at buf off in
  let entry_attr := byte_at buf (off + 11) in
  if first =? FAT32_DIR_ENTRY_END_MARKER then Some (true, l)
  else if entry_attr =? FAT32_ATTR_LONG_NAME then
    let seq := byte_at buf off in
    let checksum := byte_at buf (off + 13) in
    let starts := negb (Z.land seq 0x40 =? 0) in
    let name := if starts then cleared_name_buffer else lfn_filename l in
    let expected := if starts then checksum else expected_checksum l in
    let stored :=
      if checksum =? expected then
        array_store_all name ((Z.land seq 0x3F - 1) * FAT32_DIR_LFN_PART_SIZE)
                        (map Some (lfn_to_str buf off))
      else Some name in
    match stored with
    | Some name =>
        Some (false, {| lfn_filename := name; expected_checksum := expected;
                        current_sector := current_sector l;
                        dir_entry := dir_entry l |})
    | None => None
    end
  else if negb (first =? FAT32_DIR_ENTRY_FREE) then
    let shortname := take 11 (drop (Z.to_nat off) buf) in
    let checksum := shortname_checksum shortname in
    let long_name :=
      match lfn_filename l with
      | Some c :: _ => Some (negb (c =? 0) && (expected_checksum l =? checksum))
      | _ => None
      end in
    let copied :=
      match long_name with
      | Some true => read_string (lfn_filename l)
      | Some false => Some (shortname_to_filename shortname)
      | None => None
      end in
    match copied with
    | Some name =>
        Some (false, {| lfn_filename := lfn_filename l;
                        expected_checksum := expected_checksum l;
                        current_sector := current_sector l;
                        dir_entry :=
                          {| e_filename := name;
                             e_size := le32 buf (off + 28);
                             e_date := le16 buf (off + 24);
                             e_time := le16 buf (off + 22);
                             e_start_cluster :=
                               u32 (Z.lor (Z.shiftl (le16 buf (off + 20)) 16)
                                          (le16 buf (off + 26)));
                             e_attr := entry_attr;
                             e_sector := sec;
                             e_offset := off |} |})
    | None => None
    end
  else Some (false, l).

Fixpoint fat32_dir_read_loop (fuel : nat) (l : dir_read_locals)
  : MF fat32_entry_t :=
  f ← get_file;
  if last_entry_read f || negb (bool_decide (e_filename (dir_entry l) = []))
  then ret (dir_entry l)
  else
    match fuel with
    | O => fun _ => Timeout
    | S fuel' =>
        w ← get_world;
        let cluster_offset := position f mod bytes_per_cluster w in
        let sector_in_cluster := cluster_offset / FAT32_SECTOR_SIZE in
        first ← liftw (cluster_to_sector (current_cluster f));
        let sec := u32 (first + sector_in_cluster) in
        (if negb (sec =? current_sector l)
         then liftw (read_sector sec) else ret tt);;
        w ← get_world;
        let off := position f mod FAT32_SECTOR_SIZE in
        match dir_read_slot sec off (sector_buffer w)
                {| lfn_filename := lfn_filename l;
                   expected_checksum := expected_checksum l;
                   current_sector := sec;
                   dir_entry := dir_entry l |} with
        | None => fun _ => Undefined
        | Some r =>
            (if fst r then modify_file (set_last_entry_read true)
             else ret tt);;
            modify_file (fun f => set_position (u32 (position f + 32)) f);;
            f ← get_file;
            if position f mod bytes_per_cluster w =? 0 then
              next_cluster ←
                liftw (read_cluster_fat_entry (current_cluster f));
              if negb (next_cluster <? FAT32_FAT_ENTRY_EOC) then
                modify_file (set_last_entry_read true);;
                ret (dir_entry (snd r))
              else
                modify_file (set_current_cluster next_cluster);;
                fat32_dir_read_loop fuel' (snd r)
            else fat32_dir_read_loop fuel' (snd r)
        end
    end.

(** [fat32_dir_read(dir, dir_entry)] for non-NULL pointers; [entry] is
    what the caller's [*dir_entry] holds on entry, the result is what it
    holds on return.  [memset(dir_entry, 0, sizeof(fat32_dir_entry_t))]
    clears the first 32 characters of the name and nothing else, so the
    name becomes the empty string and every other field keeps its value
    until a short-name record is read.  The entry returned at the end of
    the directory has the empty name. *)
Definition fat32_dir_read (fuel : nat) (entry : fat32_entry_t)
  : MF fat32_entry_t :=
  f ← get_file;
  if negb (is_open f) then fail FAT32_ERROR_READ_FAILED
  else if Z.land (attributes f) FAT32_ATTR_DIRECTORY =? 0
  then fail FAT32_ERROR_NOT_A_DIRECTORY
  else
    liftw require_ready;;
    let entry := set_e_filename [] entry in
    if last_entry_read f then ret entry
    else
      fat32_dir_read_loop fuel
        {| lfn_filename := fresh_name_buffer; expected_checksum := 0;
           current_sector := 0xFFFFFFFF; dir_entry := entry |}.

(** ** Path resolution *)

(** The tokens [strtok_r(path, "/", ...)] yields one after the other:
    the maximal runs of characters other than the slash. *)
Fixpoint strtok_all (s : list Z) (cur : list Z) : list (list Z) :=
  match s with
  | [] => match cur with [] => [] | _ => [rev cur] end
  | c :: s' =>
      if c =? 47 then
        match cur with
        | [] => strtok_all s' []
        | _ => rev cur :: strtok_all s' []
        end
      else strtok_all s' (c :: cur)
  end.

(** How the scan of one directory for one path component ends. *)
Inductive scan_result : Type :=
| ScanReturn (entry : fat32_entry_t)   (* last component found *)
| ScanDescend (cluster : Z)            (* intermediate directory found *)
| ScanEnd.                             (* the directory has no such entry *)

(** [while (fat32_dir_read(&dir, &entry) == FAT32_OK && entry.filename[0])]
    in [find_entry]; [n] bounds the number of entries read and [entry] is
    what the local [entry] holds before the call. *)
Fixpoint find_entry_scan (n fuel : nat) (token : list Z) (is_last : bool)
    (entry : fat32_entry_t) : MF scan_result :=
  match n with
  | O => fun _ => Timeout
  | S n' =>
      r ← try (fat32_dir_read fuel entry);
      match r with
      | inl _ => ret ScanEnd
      | inr entry =>
          if bool_decide (e_filename entry = []) then ret ScanEnd
          else if strcasecmp_eq (e_filename entry) token then
            if is_last then ret (ScanReturn entry)
            else if negb (Z.land (e_attr entry) FAT32_ATTR_DIRECTORY =? 0)
            then
              w ← get_world;
              ret (ScanDescend (if e_start_cluster entry =? 0
                                then root_cluster (boot_sector w)
                                else e_start_cluster entry))
            else find_entry_scan n' fuel token is_last entry
          else find_entry_scan n' fuel token is_last entry
      end
  end.

(** The loop over the path components.  The local [entry] of the C code
    is not initialised; the scan looks at none of its fields before
    [fat32_dir_read] has written them, so its outcome is the same for
    every first content (lemma [find_entry_scan_entry]), and the model
    starts it from [zero_entry]. *)
Fixpoint find_entry_walk (fuel : nat) (tokens : list (list Z)) (cluster : Z)
  : M fat32_entry_t :=
  match tokens with
  | [] => fail FAT32_ERROR_FILE_NOT_FOUND
  | token :: rest =>
      let is_last := bool_decide (rest = []) in
      r ← with_file (dir_handle cluster)
                    (find_entry_scan fuel fuel token is_last zero_entry);
      match fst r with
      | ScanReturn entry => ret entry
      | ScanDescend c => find_entry_walk fuel rest c
      | ScanEnd =>
          if negb is_last then fail FAT32_ERROR_DIR_NOT_FOUND
          else find_entry_walk fuel rest cluster
      end
  end.

(** [find_entry(dir_entry, path)] for non-NULL pointers. *)
Definition find_entry (fuel : nat) (path : list Z) : M fat32_entry_t :=
  w ← get;
  let directory := fun c =>
    set_e_attr FAT32_ATTR_DIRECTORY (set_e_start_cluster c zero_entry) in
  if bool_decide (path = [47]) then
    ret (directory (root_cluster (boot_sector w)))
  else if bool_decide (path = [])
          || ((bool_decide (path = [46]) || bool_decide (path = [46; 46]))
              && (current_dir_cluster w =? root_cluster (boot_sector w)))
  then ret (directory (current_dir_cluster w))
  else
    let absolute := bool_decide (head path = Some 47) in
    let cluster :=
      if absolute then root_cluster (boot_sector w)
      else current_dir_cluster w in
    let path_copy :=
      take (Z.to_nat (FAT32_MAX_PATH_LEN - 1))
           (if absolute then drop 1 path else path) in
    find_entry_walk fuel (strtok_all path_copy []) cluster.

(** ** Opening a file: [fat32_open(file, path)] for non-NULL pointers *)

Definition fat32_open (fuel : nat) (path : list Z) : MF unit :=
  if FAT32_MAX_PATH_LEN <? strlen path then fail FAT32_ERROR_INVALID_PATH
  else
    liftw require_ready;;
    modify_file (fun _ => zero_file);;
    entry ← liftw (find_entry fuel path);
    if negb (Z.land (e_attr entry) FAT32_ATTR_VOLUME_ID =? 0)
    then fail FAT32_ERROR_NOT_A_FILE
    else
      w ← get_world;
      let is_dir := negb (Z.land (e_attr entry) FAT32_ATTR_DIRECTORY =? 0) in
      let start :=
        if is_dir then
          if e_start_cluster entry =? 0 then root_cluster (boot_sector w)
          else e_start_cluster entry
        else e_start_cluster entry in
      modify_file (fun _ =>
        {| is_open := true; last_entry_read := false;
           attributes := e_attr entry; start_cluster := start;
           current_cluster := start;
           file_size := if is_dir then 0 else e_size entry;
           position := 0; dir_entry_sector := e_sector entry;
           dir_entry_offset := e_offset entry |}).

(** ** Short-name generation *)

(** [while (fat32_dir_read(&scan, &entry) == FAT32_OK && entry.filename[0])]
    in [shortname_exists]; [entry] is what the local [entry] holds before
    the call. *)
Fixpoint shortname_exists_scan (n fuel : nat) (shortname : list Z)
    (entry : fat32_entry_t) : MF bool :=
  match n with
  | O => fun _ => Timeout
  | S n' =>
      r ← try (fat32_dir_read fuel entry);
      match r with
      | inl _ => ret false
      | inr entry =>
          if bool_decide (e_filename entry = []) then ret false
          else if bool_decide (filename_to_shortname (e_filename entry)
                               = take 11 shortname)
          then ret true
          else shortname_exists_scan n' fuel shortname entry
      end
  end.

(** The local [entry] is not initialised in C and is started from
    [zero_entry] here, as in [find_entry_walk] (lemma
    [shortname_exists_scan_entry]). *)
Definition shortname_exists (fuel : nat) (shortname : list Z)
    (dir : fat32_file_t) : M bool :=
  r ← with_file (set_position 0 dir)
                (shortname_exists_scan fuel fuel shortname zero_entry);
  ret (fst r).

(** The characters a generated short name keeps; the others become an
    underscore. *)
Definition shortname_keeps (c : Z) : bool :=
  ((65 <=? c) && (c <=? 90)) || ((48 <=? c) && (c <=? 57))
  || bool_decide (c ∈ str "$%'-_@~`!(){}^#&").

Definition shortname_clean (l : list Z) : list Z :=
  map (fun c => if shortname_keeps c then c else 95) l.

(** The candidate with the numeric tail [~n]. *)
Definition tail_candidate (base ext : list Z) (n : Z) : list Z :=
  let tail := take 7 (126 :: decimal n) in
  let tail_len := length tail in
  let base_len := ((8 - tail_len) `min` length base)%nat in
  pad_spaces 8 (take base_len base ++ tail) ++ pad_spaces 3 ext.

(** [for (int n = 1; n < 1000000; n++)]: [count] is the number of values of
    [n] still to try. *)
Fixpoint unique_shortname_tail (count : nat) (fuel : nat)
    (dir : fat32_file_t) (base ext : list Z) (n : Z) : M (list Z) :=
  match count with
  | O => fail FAT32_ERROR_DISK_FULL
  | S count' =>
      let candidate := tail_candidate base ext n in
      taken ← shortname_exists fuel candidate dir;
      if (taken : bool) then
        unique_shortname_tail count' fuel dir base ext (n + 1)
      else ret candidate
  end.

(** [while ( *p == '.') p++;] *)
Fixpoint skip_dots (s : list Z) : list Z :=
  match s with
  | [] => []
  | c :: s' => if c =? 46 then skip_dots s' else s
  end.

Definition unique_shortname (fuel : nat) (dir : fat32_file_t)
    (longname : list Z) : M (list Z) :=
  (* Steps 1 and 2: upper case *)
  let upper := map toupper longname in
  (* Step 3: strip spaces *)
  let temp := List.filter (fun c => negb (c =? 32)) upper in
  (* Step 4: strip leading periods *)
  let p := skip_dots temp in
  (* Step 5: up to 8 characters before the last dot *)
  let dot := match strrchr p 46 with Some O => None | d => d end in
  let stem := match dot with Some d => take d p | None => p end in
  let base := shortname_clean (take 8 stem) in
  let name_len := length base in
  let lossy_base := negb (forallb shortname_keeps (take 8 stem)) in
  (* Extension: up to 3 characters after the last dot *)
  let ext_src := match dot with Some d => take 3 (drop (S d) p) | None => [] end in
  let ext := shortname_clean ext_src in
  let ext_len := length ext in
  let lossy := lossy_base || negb (forallb shortname_keeps ext_src) in
  let candidate := pad_spaces 8 base ++ pad_spaces 3 ext in
  if lossy || (8 <? Z.of_nat name_len) || (3 <? Z.of_nat ext_len)
  then unique_shortname_tail (Z.to_nat 999999) fuel dir base ext 1
  else
    taken ← shortname_exists fuel candidate dir;
    if (taken : bool)
    then unique_shortname_tail (Z.to_nat 999999) fuel dir base ext 1
    else ret candidate.

(** ** Unlinking and linking directory entries *)

(** [for (int i = 1; i <= MAX_LFN_PART; i++)] of [unlink_entry]: the scan
    backwards over the slots before [offset] in the sector buffer; [n] is
    the number of values of [i] left. *)
Fixpoint unlink_entry_scan (n : nat) (i : Z) (offset : Z) (buf : sector)
  : sector :=
  match n with
  | O => buf
  | S n' =>
      if offset <? i * 32 then buf
      else if byte_at buf (offset - i * 32 + 11) =? FAT32_ATTR_LONG_NAME
      then unlink_entry_scan n' (i + 1) offset
             (put_byte buf (offset - i * 32) FAT32_DIR_ENTRY_FREE)
      else buf
  end.

(** [unlink_entry(entry)]; [None] is the NULL pointer. *)
Definition unlink_entry (entry : option fat32_entry_t) : M unit :=
  match entry with
  | None => fail FAT32_ERROR_INVALID_PARAMETER
  | Some entry =>
      if e_start_cluster entry =? 0 then fail FAT32_ERROR_INVALID_PARAMETER
      else
        let sec := e_sector entry in
        let offset := e_offset entry in
        read_sector sec;;
        w ← get;
        let buf := unlink_entry_scan (Z.to_nat MAX_LFN_PART) 1 offset
                                     (sector_buffer w) in
        let buf := put_byte buf offset FAT32_DIR_ENTRY_FREE in
        modify (set_sector_buffer buf);;
        write_sector sec buf
  end.

(** The 32 bytes of a long-name slot ([fat32_lfn_entry_t]). *)
Definition encode_lfn_entry (seq checksum : Z) (units : list Z) : list Z :=
  let unit_bytes := fun u => [Z.land u 0xFF; Z.land (Z.shiftr u 8) 0xFF] in
  let name := fun from count =>
    concat (map unit_bytes (take count (drop from (units ++ replicate 13 0)))) in
  [u8 seq] ++ name 0%nat 5%nat
  ++ [FAT32_ATTR_LONG_NAME; 0; u8 checksum]
  ++ name 5%nat 6%nat ++ [0; 0] ++ name 11%nat 2%nat.

(** The 32 bytes of a short-name record ([fat32_dir_entry_t]) as
    [link_entry] fills it in. *)
Definition encode_dir_entry (shortname : list Z) (entry_attr cluster fsize : Z)
  : list Z :=
  let hi := u16 (Z.shiftr cluster 16) in
  let lo := Z.land cluster 0xFFFF in
  take 11 (shortname ++ replicate 11 0)
  ++ [u8 entry_attr; 0; 0; 0; 0; 0; 0; 0; 0]
  ++ [Z.land hi 0xFF; Z.shiftr hi 8]
  ++ [0; 0; 0; 0]
  ++ [Z.land lo 0xFF; Z.shiftr lo 8]
  ++ bytes_le32 fsize.

(** The run of free slots [link_entry] has found so far. *)
Record free_run := {
  free_entry_pos : Z;
  free_entry_cluster : Z;
  free_slots : Z          (* the local [free_count] *)
}.

(** [for (i = 0; i < FAT32_SECTOR_SIZE; i += 32)] over the slots of the
    sector buffer; the boolean is [found]. *)
Fixpoint link_entry_scan_sector (slots : list Z) (buf : sector)
    (entry_pos cluster needed_entries : Z) (run : free_run)
  : bool * free_run :=
  match slots with
  | [] => (false, run)
  | i :: rest =>
      let first := byte_at buf i in
      if (first =? FAT32_DIR_ENTRY_FREE)
         || (first =? FAT32_DIR_ENTRY_END_MARKER)
      then
        let run :=
          if free_slots run =? 0
          then {| free_entry_pos := u32 (entry_pos + i);
                  free_entry_cluster := cluster;
                  free_slots := free_slots run |}
          else run in
        let run := {| free_entry_pos := free_entry_pos run;
                      free_entry_cluster := free_entry_cluster run;
                      free_slots := u32 (free_slots run + 1) |} in
        if needed_entries <? free_slots run then (true, run)
        else link_entry_scan_sector rest buf entry_pos cluster
                                    needed_entries run
      else
        link_entry_scan_sector rest buf entry_pos cluster needed_entries
          {| free_entry_pos := free_entry_pos run;
             free_entry_cluster := free_entry_cluster run;
             free_slots := 0 |}
  end.

Definition slot_offsets : list Z := map (fun k => 32 * k) (seqZ 0 16).

(** [while (!found)] of [link_entry]. *)
Fixpoint link_entry_find_slots (fuel : nat) (needed_entries : Z)
    (entry_pos cluster : Z) (run : free_run) : M free_run :=
  match fuel with
  | O => fun _ => Timeout
  | S fuel' =>
      w ← get;
      let cluster_offset := entry_pos mod bytes_per_cluster w in
      let sector_in_cluster := cluster_offset / FAT32_SECTOR_SIZE in
      first ← cluster_to_sector cluster;
      read_sector (u32 (first + sector_in_cluster));;
      w ← get;
      let r := link_entry_scan_sector slot_offsets (sector_buffer w)
                 entry_pos cluster needed_entries run in
      if fst r then ret (snd r)
      else
        let entry_pos := u32 (entry_pos + FAT32_SECTOR_SIZE) in
        if entry_pos mod bytes_per_cluster w =? 0 then
          let extend :=
            new_dir_cluster ← allocate_and_link_cluster cluster;
            clear_cluster new_dir_cluster;;
            link_entry_find_slots fuel' needed_entries entry_pos
                                  new_dir_cluster (snd r) in
          n ← try (read_cluster_fat_entry cluster);
          match n with
          | inr next_cluster =>
              if next_cluster <? FAT32_FAT_ENTRY_EOC
              then link_entry_find_slots fuel' needed_entries entry_pos
                                         next_cluster (snd r)
              else extend
          | inl _ => extend
          end
        else link_entry_find_slots fuel' needed_entries entry_pos
                                   cluster (snd r)
  end.

(** [while (entry_sector_in_cluster >= boot_sector.sectors_per_cluster)]
    when a long-name slot is placed. *)
Fixpoint link_entry_advance (n : nat) (current_cluster sector_in_cluster : Z)
  : M (Z * Z) :=
  w ← get;
  if sector_in_cluster <? sectors_per_cluster (boot_sector w)
  then ret (current_cluster, sector_in_cluster)
  else
    match n with
    | O => fun _ => Timeout
    | S n' =>
        r ← try (read_cluster_fat_entry current_cluster);
        match r with
        | inr next_cluster =>
            if next_cluster <? FAT32_FAT_ENTRY_EOC then
              link_entry_advance n' next_cluster
                (u32 (sector_in_cluster - sectors_per_cluster (boot_sector w)))
            else fail FAT32_ERROR_DISK_FULL
        | inl _ => fail FAT32_ERROR_DISK_FULL
        end
    end.

(** [for (int i = 0; i < needed_entries; i++)]: the long-name slots, last
    part first; [todo] are the values of [i] still to do. *)
Fixpoint link_entry_write_lfn (todo : list Z) (parts : list (list Z))
    (needed_entries checksum : Z) (run : free_run) : M unit :=
  match todo with
  | [] => ret tt
  | i :: rest =>
      w ← get;
      let index := u8 (needed_entries - i - 1) in
      let entry_offset := u32 (free_entry_pos run + i * 32) in
      let entry_cluster_offset := entry_offset mod bytes_per_cluster w in
      let entry_sector_in_cluster := entry_cluster_offset / FAT32_SECTOR_SIZE in
      let entry_byte_in_sector := entry_cluster_offset mod FAT32_SECTOR_SIZE in
      r ← link_entry_advance (S (Z.to_nat entry_sector_in_cluster))
                             (free_entry_cluster run) entry_sector_in_cluster;
      first ← cluster_to_sector (fst r);
      let entry_sector := u32 (first + snd r) in
      read_sector entry_sector;;
      w ← get;
      let seq := if i =? 0 then Z.lor (index + 1) 0x40 else index + 1 in
      let lfn_entry :=
        encode_lfn_entry seq checksum (nth (Z.to_nat index) parts []) in
      let buf := store_bytes (sector_buffer w) entry_byte_in_sector lfn_entry in
      modify (set_sector_buffer buf);;
      write_sector entry_sector buf;;
      link_entry_write_lfn rest parts needed_entries checksum run
  end.

(** "Allocate a new cluster for the file, if needed". *)
Definition link_entry_start_cluster (entry : fat32_entry_t)
  : M fat32_entry_t :=
  if e_start_cluster entry =? 0 then
    c ← get_next_free_cluster;
    write_cluster_fat_entry c FAT32_FAT_ENTRY_EOC;;
    decrease_free_count;;
    ret (set_e_start_cluster c entry)
  else ret entry.

(** "Write 8.3 entry". *)
Definition link_entry_write_record (entry : fat32_entry_t)
    (shortname : list Z) (needed_entries : Z) (run : free_run)
  : M fat32_entry_t :=
  w ← get;
  let dir_entry := encode_dir_entry shortname (e_attr entry)
                     (e_start_cluster entry) (e_size entry) in
  let raw_offset := u32 (free_entry_pos run + needed_entries * 32) in
  first ← cluster_to_sector (free_entry_cluster run);
  let sec := u32 (first + (raw_offset mod bytes_per_cluster w)
                            / FAT32_SECTOR_SIZE) in
  let off := raw_offset mod FAT32_SECTOR_SIZE in
  read_sector sec;;
  w ← get;
  let buf := store_bytes (sector_buffer w) off dir_entry in
  modify (set_sector_buffer buf);;
  write_sector sec buf;;
  ret (set_e_location sec off entry).

(** [link_entry(entry, path)] for non-NULL pointers; the result is the
    entry as the caller finds it after a successful return. *)
Definition link_entry (fuel : nat) (entry : fat32_entry_t) (path : list Z)
  : M fat32_entry_t :=
  require_ready;;
  found ← try (find_entry fuel path);
  match found with
  | inr _ => fail FAT32_ERROR_FILE_EXISTS
  | inl FAT32_ERROR_FILE_NOT_FOUND =>
      (* split the path into parent and file name *)
      let path_copy := take (Z.to_nat (FAT32_MAX_PATH_LEN - 1)) path in
      let slash := strrchr path_copy 47 in
      let filename :=
        match slash with Some i => drop (S i) path_copy | None => path_copy end in
      let parent_path :=
        match slash with Some i => take i path_copy | None => [] end in
      (* open the parent directory *)
      d ← with_file zero_file (fat32_open fuel parent_path);
      let dir := snd d in
      (* short and long names *)
      let parts := filename_to_lfn filename in
      let needed_entries := u8 (Z.of_nat (length parts)) in
      shortname ←
        (if valid_shortname filename then ret (filename_to_shortname filename)
         else unique_shortname fuel dir filename);
      (* enough free directory slots *)
      run ← link_entry_find_slots fuel needed_entries 0 (current_cluster dir)
            {| free_entry_pos := 0;
               free_entry_cluster := current_cluster dir;
               free_slots := 0 |};
      let checksum := shortname_checksum shortname in
      link_entry_write_lfn (seqZ 0 needed_entries) parts needed_entries
                           checksum run;;
      entry ← link_entry_start_cluster entry;
      link_entry_write_record entry shortname needed_entries run
  | inl e => fail e
  end.

(** ** File operations (handles are non-NULL unless said otherwise) *)

Definition new_entry (fuel : nat) (path : list Z) (entry_attr : Z) : MF unit :=
  modify_file (fun _ => zero_file);;
  entry ← liftw (link_entry fuel (set_e_attr entry_attr zero_entry) path);
  modify_file (fun _ =>
    {| is_open := true; last_entry_read := false;
       attributes := e_attr entry;
       start_cluster := e_start_cluster entry;
       current_cluster := e_start_cluster entry;
       file_size := 0; position := 0;
       dir_entry_sector := e_sector entry;
       dir_entry_offset := e_offset entry |}).

Definition fat32_create (fuel : nat) (path : list Z) : MF unit :=
  new_entry fuel path FAT32_ATTR_ARCHIVE.

(** [while (total_read < size)] of [fat32_read]; every iteration copies at
    least one byte, so [size] iterations are enough.  The result is
    [total_read] and the bytes stored in the caller's buffer. *)
Fixpoint fat32_read_loop (n : nat) (size total_read : Z) (dest : list Z)
  : MF (Z * list Z) :=
  if negb (total_read <? size) then ret (total_read, dest)
  else
    match n with
    | O => fun _ => Timeout
    | S n' =>
        f ← get_file;
        w ← get_world;
        let cluster_offset := position f mod bytes_per_cluster w in
        let sector_in_cluster := cluster_offset / FAT32_SECTOR_SIZE in
        let byte_in_sector := cluster_offset mod FAT32_SECTOR_SIZE in
        first ← liftw (cluster_to_sector (current_cluster f));
        liftw (read_sector (u32 (first + sector_in_cluster)));;
        w ← get_world;
        let bytes_to_copy :=
          if size - total_read <? FAT32_SECTOR_SIZE - byte_in_sector
          then size - total_read else FAT32_SECTOR_SIZE - byte_in_sector in
        let dest :=
          dest ++ map (byte_at (sector_buffer w))
                      (seqZ byte_in_sector bytes_to_copy) in
        let total_read := total_read + bytes_to_copy in
        modify_file (fun f => set_position (u32 (position f + bytes_to_copy)) f);;
        f ← get_file;
        if (position f mod bytes_per_cluster w =? 0) && (total_read <? size)
        then
          next_cluster ← liftw (read_cluster_fat_entry (current_cluster f));
          if negb (next_cluster <? FAT32_FAT_ENTRY_EOC)
          then ret (total_read, dest)
          else
            modify_file (set_current_cluster next_cluster);;
            fat32_read_loop n' size total_read dest
        else fat32_read_loop n' size total_read dest
    end.

(** [fat32_read(file, buffer, size, bytes_read)]; [buffer] tells whether
    the buffer pointer is non-NULL.  The result is the value stored in
    [*bytes_read] and the bytes stored in the buffer. *)
Definition fat32_read (buffer : bool) (size : Z) : MF (Z * list Z) :=
  f ← get_file;
  if negb (is_open f) || negb buffer then fail FAT32_ERROR_INVALID_PARAMETER
  else if negb (Z.land (attributes f) FAT32_ATTR_DIRECTORY =? 0)
  then fail FAT32_ERROR_NOT_A_FILE
  else
    liftw require_ready;;
    if negb (position f <? file_size f) then ret (0, [])
    else
      let remaining := file_size f - position f in
      let size := if remaining <? size then remaining else size in
      w ← get_world;
      cluster ← liftw (seek_to_cluster (start_cluster f)
                                       (position f / bytes_per_cluster w));
      modify_file (set_current_cluster cluster);;
      fat32_read_loop (Z.to_nat size) size 0 [].

(** The first loop of [fat32_write]: walk to the cluster of the current
    position, allocating where the chain ends. *)
Fixpoint fat32_write_walk (n : nat) (cluster : Z) : M Z :=
  match n with
  | O => ret cluster
  | S n' =>
      next_cluster ← read_cluster_fat_entry cluster;
      if negb (next_cluster <? FAT32_FAT_ENTRY_EOC) then
        new_cluster ← allocate_and_link_cluster cluster;
        fat32_write_walk n' new_cluster
      else fat32_write_walk n' next_cluster
  end.

(** [for (i = current_clusters; i < needed_clusters; i++)]: [n] is the
    number of iterations left. *)
Fixpoint fat32_write_allocate (n : nat) (i current_clusters last_cluster : Z)
  : MF unit :=
  match n with
  | O => ret tt
  | S n' =>
      new_cluster ←
        (if (0 <? current_clusters) || (0 <? i)
         then liftw (allocate_and_link_cluster last_cluster)
         else
           (* first cluster for an empty file *)
           c ← liftw get_next_free_cluster;
           liftw (write_cluster_fat_entry c FAT32_FAT_ENTRY_EOC);;
           liftw decrease_free_count;;
           modify_file (set_start_cluster c);;
           ret c);
      fat32_write_allocate n' (u32 (i + 1)) current_clusters new_cluster
  end.

(** [while (total_written < size)] of [fat32_write]; the result is
    [total_written] and [pos_in_file]. *)
Fixpoint fat32_write_loop (n : nat) (src : list Z)
    (size total_written pos_in_file cluster : Z) : MF (Z * Z) :=
  if negb (total_written <? size) then ret (total_written, pos_in_file)
  else
    match n with
    | O => fun _ => Timeout
    | S n' =>
        w ← get_world;
        let offset_in_cluster := pos_in_file mod bytes_per_cluster w in
        let sector_in_cluster := offset_in_cluster / FAT32_SECTOR_SIZE in
        let byte_in_sector := offset_in_cluster mod FAT32_SECTOR_SIZE in
        first ← liftw (cluster_to_sector cluster);
        let sec := u32 (first + sector_in_cluster) in
        liftw (read_sector sec);;
        w ← get_world;
        let bytes_to_write :=
          if size - total_written <? FAT32_SECTOR_SIZE - byte_in_sector
          then size - total_written else FAT32_SECTOR_SIZE - byte_in_sector in
        let buf :=
          store_bytes (sector_buffer w) byte_in_sector
            (take (Z.to_nat bytes_to_write) (drop (Z.to_nat total_written) src)) in
        liftw (modify (set_sector_buffer buf));;
        liftw (write_sector sec buf);;
        let total_written := total_written + bytes_to_write in
        let pos_in_file := u32 (pos_in_file + bytes_to_write) in
        if (pos_in_file mod bytes_per_cluster w =? 0)
           && (total_written <? size)
        then
          r ← liftw (try (read_cluster_fat_entry cluster));
          match r with
          | inr next_cluster =>
              if next_cluster <? FAT32_FAT_ENTRY_EOC then
                modify_file (set_current_cluster next_cluster);;
                fat32_write_loop n' src size total_written pos_in_file
                                 next_cluster
              else fail FAT32_ERROR_DISK_FULL
          | inl _ => fail FAT32_ERROR_DISK_FULL
          end
        else fat32_write_loop n' src size total_written pos_in_file cluster
    end.

(** "Truncate cluster chain if file shrank". *)
Definition fat32_write_truncate (fuel : nat) (old_file_size : Z) : MF unit :=
  f ← get_file;
  w ← get_world;
  let bpc := bytes_per_cluster w in
  if file_size f <? old_file_size then
    let needed_clusters :=
      if file_size f =? 0 then 0 else u32 (file_size f + bpc - 1) / bpc in
    let current_clusters :=
      if old_file_size =? 0 then 0 else u32 (old_file_size + bpc - 1) / bpc in
    if (needed_clusters <? current_clusters) && (2 <=? start_cluster f) then
      if 0 <? needed_clusters then
        r ← liftw (try (seek_to_cluster (start_cluster f)
                                        (needed_clusters - 1)));
        match r with
        | inr last_cluster_to_keep =>
            r ← liftw (try (read_cluster_fat_entry last_cluster_to_keep));
            match r with
            | inr first_cluster_to_free =>
                _ ← liftw (try (write_cluster_fat_entry last_cluster_to_keep
                                                        FAT32_FAT_ENTRY_EOC));
                _ ← liftw (try (release_cluster_chain fuel
                                                      first_cluster_to_free));
                ret tt
            | inl _ => ret tt
            end
        | inl _ => ret tt
        end
      else
        _ ← liftw (try (release_cluster_chain fuel (start_cluster f)));
        modify_file (set_start_cluster 0)
    else ret tt
  else ret tt.

(** "Update directory entry file size on disk". *)
Definition fat32_write_update_entry : MF unit :=
  f ← get_file;
  if negb (dir_entry_sector f =? 0)
     && (dir_entry_offset f <? FAT32_SECTOR_SIZE)
  then
    liftw (read_sector (dir_entry_sector f));;
    w ← get_world;
    let buf := put_le32 (sector_buffer w) (dir_entry_offset f + 28)
                        (file_size f) in
    liftw (modify (set_sector_buffer buf));;
    liftw (write_sector (dir_entry_sector f) buf)
  else ret tt.

(** [fat32_write(file, buffer, size, bytes_written)]: [buffer] is [None]
    for a NULL pointer and otherwise the [size] bytes to write.  The result
    is the value stored in [*bytes_written]. *)
Definition fat32_write (fuel : nat) (buffer : option (list Z)) : MF Z :=
  f ← get_file;
  match buffer with
  | None => fail FAT32_ERROR_INVALID_PARAMETER
  | Some src =>
      if negb (is_open f) then fail FAT32_ERROR_INVALID_PARAMETER
      else if negb (Z.land (attributes f) FAT32_ATTR_DIRECTORY =? 0)
      then fail FAT32_ERROR_NOT_A_FILE
      else
        liftw require_ready;;
        w ← get_world;
        let size := strlen src in
        let bpc := bytes_per_cluster w in
        let old_file_size := file_size f in
        (* the cluster of the current position *)
        let cluster_offset := position f / bpc in
        cluster ← liftw (fat32_write_walk (Z.to_nat cluster_offset)
                                          (start_cluster f));
        modify_file (set_current_cluster cluster);;
        (* clusters needed for the write *)
        let end_pos := u32 (position f + size) in
        let needed_clusters := u32 (end_pos + bpc - 1) / bpc in
        let current_clusters :=
          if file_size f =? 0 then 1 else u32 (file_size f + bpc - 1) / bpc in
        last_cluster ←
          (if 0 <? current_clusters
           then liftw (find_last_cluster (start_cluster f) current_clusters)
           else ret (start_cluster f));
        fat32_write_allocate (Z.to_nat (needed_clusters - current_clusters))
                             current_clusters current_clusters last_cluster;;
        (* the cluster for file->position *)
        f ← get_file;
        cluster ← liftw (seek_to_cluster (start_cluster f) cluster_offset);
        modify_file (set_current_cluster cluster);;
        r ← fat32_write_loop (Z.to_nat size) src size 0 (position f) cluster;
        let total_written := fst r in
        modify_file (set_position (snd r));;
        modify_file (fun f =>
          if file_size f <? position f then set_file_size (position f) f
          else f);;
        fat32_write_truncate fuel old_file_size;;
        fat32_write_update_entry;;
        ret total_written
  end.

Definition fat32_seek (pos : Z) : MF unit :=
  f ← get_file;
  if negb (is_open f) then fail FAT32_ERROR_INVALID_PARAMETER
  else modify_file (set_position pos).

(** [while (fat32_dir_read(&dir, &sub_entry) == FAT32_OK &&
    sub_entry.filename[0])] in [delete_entry]: is there an entry other
    than the two dot entries? *)
Fixpoint delete_entry_scan (n fuel : nat) (sub_entry : fat32_entry_t)
  : MF bool :=
  match n with
  | O => fun _ => Timeout
  | S n' =>
      r ← try (fat32_dir_read fuel sub_entry);
      match r with
      | inl _ => ret false
      | inr sub_entry =>
          if bool_decide (e_filename sub_entry = []) then ret false
          else if negb (bool_decide (e_filename sub_entry = [46]))
                  && negb (bool_decide (e_filename sub_entry = [46; 46]))
          then ret true
          else delete_entry_scan n' fuel sub_entry
      end
  end.

(** The local [sub_entry] is not initialised in C and is started from
    [zero_entry] here, as in [find_entry_walk] (lemma
    [delete_entry_scan_entry]). *)
Definition delete_entry (fuel : nat) (path : list Z) : M unit :=
  entry ← find_entry fuel path;
  (if negb (Z.land (e_attr entry) FAT32_ATTR_DIRECTORY =? 0) then
     d ← with_file zero_file
           (fat32_open fuel path;; delete_entry_scan fuel fuel zero_entry);
     if (fst d : bool) then fail FAT32_ERROR_DIR_NOT_EMPTY else ret tt
   else ret tt);;
  unlink_entry (Some entry);;
  release_cluster_chain fuel (e_start_cluster entry).

(** [fat32_delete(path)] for a non-NULL path. *)
Definition fat32_delete (fuel : nat) (path : list Z) : M unit :=
  if bool_decide (path = []) then fail FAT32_ERROR_INVALID_PARAMETER
  else
    require_ready;;
    delete_entry fuel path.

(** ** Vocabulary of the statements

    The block that holds the FAT entry of a cluster, and the entry the
    driver reads there: [None] when the cluster number is rejected or the
    block cannot be read. *)

Definition fat_block (w : world) (cluster : Z) : Z :=
  u32 (volume_start_block w + fat_sector_of w cluster).

Definition fat_entry (w : world) (cluster : Z) : option Z :=
  if cluster <? 2 then None
  else
    match sd_blocks (card w) !! fat_block w cluster with
    | Some s => Some (Z.land (le32 s (fat_offset_of cluster)) 0x0FFFFFFF)
    | None => None
    end.

(** The sector [write_cluster_fat_entry] writes back. *)
Definition fat_sector_update (s : sector) (cluster value : Z) : sector :=
  put_le32 s (fat_offset_of cluster)
    (Z.lor (Z.land (le32 s (fat_offset_of cluster)) 0xF0000000)
           (Z.land value 0x0FFFFFFF)).


(** The volume is mounted and the card is in place: [fat32_is_ready]
    answers true without doing anything. *)
Definition ready (w : world) : Prop :=
  sd_present (card w) = true /\ fat32_mounted w = true
  /\ mount_status w = FAT32_OK.

(** The block of sector [j] of a cluster, as [cluster_to_sector] and
    [read_sector] compute it. *)
Definition data_block (w : world) (cluster j : Z) : Z :=
  u32 (volume_start_block w
       + u32 (u32 (u32 ((cluster - 2) * sectors_per_cluster (boot_sector w))
                   + first_data_sector w)
              + j)).

(** [linked w cs]: in the FAT, every cluster of [cs] points to the next
    one of the list. *)
Fixpoint linked (w : world) (cs : list Z) : Prop :=
  match cs with
  | c :: rest =>
      match rest with
      | c' :: _ =>
          fat_entry w c = Some c' /\ c' < FAT32_FAT_ENTRY_EOC /\ linked w rest
      | [] => True
      end
  | [] => True
  end.

(** [chain w start cs]: the cluster chain that starts at [start] is
    exactly [cs]; the entry of its last cluster is an end-of-chain mark. *)
Definition chain (w : world) (start : Z) (cs : list Z) : Prop :=
  head cs = Some start /\ linked w cs
  /\ exists c v, last cs = Some c /\ fat_entry w c = Some v
                 /\ FAT32_FAT_ENTRY_EOC <= v.

(** Every sector of every cluster of [cs] can be read and written. *)
Definition clusters_on_card (w : world) (cs : list Z) : Prop :=
  forall c j, c ∈ cs -> 0 <= j < sectors_per_cluster (boot_sector w) ->
              is_Some (sd_blocks (card w) !! data_block w c j).

(** Two handles that differ at most in position and current cluster. *)
Definition same_file (f f' : fat32_file_t) : Prop :=
  is_open f' = is_open f /\ last_entry_read f' = last_entry_read f
  /\ attributes f' = attributes f /\ start_cluster f' = start_cluster f
  /\ file_size f' = file_size f
  /\ dir_entry_sector f' = dir_entry_sector f
  /\ dir_entry_offset f' = dir_entry_offset f.

(** *** Well-formed volumes and files *)

(** The clusters of the volume. *)
Definition in_range (w : world) (c : Z) : Prop :=
  2 <= c < cluster_count w + 2.

(** What an operation on a mounted volume never changes. *)
Definition volume_of (w : world)
  : bool * bool * fat32_error_t * fat32_boot_sector_t * Z * Z * Z * Z :=
  (sd_present (card w), fat32_mounted w, mount_status w, boot_sector w,
   volume_start_block w, first_data_sector w, cluster_count w,
   bytes_per_cluster w).

(** The layout a mounted FAT32 volume has: the FSInfo sector lies in the
    reserved area, the FAT entries of all clusters lie between the
    reserved area and the data region, cluster numbers stay below the
    end-of-chain marks, sector numbers fit 32 bits, and a cluster has at
    most 128 sectors. *)
Definition layout_ok (w : world) : Prop :=
  let bs := boot_sector w in
  0 < sectors_per_cluster bs
  /\ bytes_per_cluster w = sectors_per_cluster bs * 512
  /\ 0 <= cluster_count w
  /\ cluster_count w + 2 <= FAT32_FAT_ENTRY_EOC
  /\ 0 <= fat32_info bs < reserved_sectors bs
  /\ reserved_sectors bs + (cluster_count w + 2) * 4 / 512
     < first_data_sector w
  /\ first_data_sector w + cluster_count w * sectors_per_cluster bs
     <= 2 ^ 32
  /\ sectors_per_cluster bs <= 128.

(** The FAT sectors that are on the card are whole sectors. *)
Definition fat_blocks_ok (w : world) : Prop :=
  forall c s, in_range w c ->
              sd_blocks (card w) !! fat_block w c = Some s ->
              length s = 512%nat.

Definition volume_ok (w : world) : Prop :=
  ready w /\ layout_ok w /\ fat_blocks_ok w.

(** The number of clusters the driver keeps for a file of [size] bytes:
    one for an empty file, and enough to hold the bytes otherwise. *)
Definition clusters_for (w : world) (size : Z) : Z :=
  Z.max 1 ((size + bytes_per_cluster w - 1) / bytes_per_cluster w).

(** The chain from [start] is [cs], a list of distinct clusters of the
    volume. *)
Definition file_chain (w : world) (start : Z) (cs : list Z) : Prop :=
  chain w start cs /\ NoDup cs /\ Forall (in_range w) cs.

(** The clusters of [cs] are in use: their FAT entries are not free. *)
Definition in_use (w : world) (cs : list Z) : Prop :=
  forall c, c ∈ cs -> exists v, fat_entry w c = Some v /\ v <> 0.

(** An open regular file whose cluster chain is [cs], with its directory
    record in the data region. *)
Definition file_ok (w : world) (f : fat32_file_t) (cs : list Z) : Prop :=
  is_open f = true
  /\ Z.land (attributes f) FAT32_ATTR_DIRECTORY = 0
  /\ 0 <= file_size f
  /\ file_size f + bytes_per_cluster w <= 2 ^ 32
  /\ first_data_sector w <= dir_entry_sector f < 2 ^ 32
  /\ file_chain w (start_cluster f) cs.

(** Runs of successful seeks and non-empty writes on one handle. *)
Inductive file_steps (fuel : nat)
  : fat32_file_t * world -> fat32_file_t * world -> Prop :=
| file_steps_done s : file_steps fuel s s
| file_steps_write s src n s' s'' :
    src <> [] ->
    0 <= position (fst s) ->
    position (fst s) + strlen src + bytes_per_cluster (snd s) <= 2 ^ 32 ->
    fat32_write fuel (Some src) s = Ret n s' ->
    file_steps fuel s' s'' ->
    file_steps fuel s s''
| file_steps_seek s pos s' s'' :
    fat32_seek pos s = Ret tt s' ->
    file_steps fuel s' s'' ->
    file_steps fuel s s''.

(** [fat_step changed w w']: the volume is the same and still well
    formed, and the FAT entries of all clusters outside [changed] are as
    they were. *)
Definition fat_step (changed : list Z) (w w' : world) : Prop :=
  volume_ok w'
  /\ volume_of w' = volume_of w
  /\ forall c, in_range w c -> c ∉ changed ->
               fat_entry w' c = fat_entry w c.

(** The invariant of the allocation loops: a linked list of distinct
    clusters of the volume, all in use, that starts at [start]. *)
Definition growing (w : world) (start : Z) (cs : list Z) : Prop :=
  head cs = Some start /\ linked w cs /\ NoDup cs
  /\ Forall (in_range w) cs /\ in_use w cs.


(** ** A small volume for the examples

    32 reserved sectors, one FAT of 512 sectors, two sectors per cluster,
    65530 clusters; the root directory is cluster 2 and is empty. *)

Definition demo_boot_image : sector :=
  put_le16 (put_le32 (put_le32 (put_le32 (put_le16 (put_le16 (put_le16
    (poke [(0, 0xEB); (13, 2); (16, 1); (510, 0x55); (511, 0xAA)]
          zero_sector)
    11 512) 14 32) 22 0) 32 131572) 36 512) 44 2) 48 1.

Definition fsinfo_image (free next : Z) : sector :=
  put_le32 (put_le32 (put_le32 (put_le32 (put_le32 zero_sector
    0 0x41615252) 484 0x61417272) 488 free) 492 next) 508 0xAA550000.

(** First FAT sector: the two reserved entries and the root directory's
    one-cluster chain. *)
Definition demo_fat_image : sector :=
  put_le32 (put_le32 (put_le32 zero_sector 0 0x0FFFFFF8) 4 0x0FFFFFFF)
           8 0x0FFFFFFF.

Definition demo_blocks (fsinfo_sector : sector) : gmap Z sector :=
  list_to_map
    ([(0, demo_boot_image); (1, fsinfo_sector); (32, demo_fat_image)]
     ++ map (fun b => (b, zero_sector)) (seqZ 544 12)).

Definition demo_card (fsinfo_sector : sector) : sd_card :=
  {| sd_present := true; sd_init_result := FAT32_OK;
     sd_blocks := demo_blocks fsinfo_sector |}.

(** The driver's variables before the first mount: static storage is
    zero-initialised, [mount_status] starts as [FAT32_OK]. *)
Definition power_on (c : sd_card) : world :=
  {| card := c; fat32_mounted := false; mount_status := FAT32_OK;
     boot_sector :=
       {| bytes_per_sector := 0; sectors_per_cluster := 0;
          reserved_sectors := 0; num_fats := 0; fat_size_16 := 0;
          total_sectors_32 := 0; fat_size_32 := 0; root_cluster := 0;
          fat32_info := 0 |};
     fsinfo :=
       {| lead_sig := 0; fsi_reserved1 := replicate 480 0; struc_sig := 0;
          free_count := 0; next_free := 0; fsi_reserved2 := replicate 12 0;
          trail_sig := 0 |};
     volume_start_block := 0; first_data_sector := 0;
     data_region_sectors := 0; cluster_count := 0; bytes_per_cluster := 0;
     current_dir_cluster := 0; sector_buffer := zero_sector |}.

(** The state an operation leaves behind, whatever its error code. *)
Definition after {S A} (default : S) (o : outcome S A) : S :=
  match final o with Some s => s | None => default end.

(** The demo volume, mounted. *)
Definition demo_world (free next : Z) : world :=
  let w := power_on (demo_card (fsinfo_image free next)) in
  after w (fat32_mount w).

(** A file name of 200 characters: sixteen long-name slots and the
    short-name record do not fit the sixteen slots of one sector. *)
Definition long_name_200 : list Z := replicate 200 97.

(** The first bytes of the sixteen slots of a directory sector. *)
Definition slot_marks (w : world) (block : Z) : list Z :=
  map (fun k => byte_at (default [] (sd_blocks (card w) !! block)) (32 * k))
      (seqZ 0 16).

(** A new file on the demo volume, and the same file after a write of
    1500 bytes, a seek past its end and a write of three more bytes. *)
Definition demo_created : fat32_file_t * world :=
  let s := (zero_file, demo_world 65529 3) in
  after s (fat32_create 100 (str "a.txt") s).

Definition demo_grown : fat32_file_t * world :=
  after demo_created (fat32_write 100 (Some (replicate 1500 65)) demo_created).

Definition demo_sought : fat32_file_t * world :=
  after demo_grown (fat32_seek 3000 demo_grown).

Definition demo_regrown : fat32_file_t * world :=
  after demo_sought (fat32_write 100 (Some (str "xyz")) demo_sought).

(** The file of 1500 bytes with the position moved back to byte 1000. *)
Definition demo_rewound : fat32_file_t * world :=
  after demo_grown (fat32_seek 1000 demo_grown).

(** The new file filled to exactly one cluster, and then written to once
    more with no bytes at all. *)
Definition demo_full : fat32_file_t * world :=
  after demo_created (fat32_write 100 (Some (replicate 1024 65)) demo_created).

Definition demo_touched : fat32_file_t * world :=
  after demo_full (fat32_write 100 (Some []) demo_full).

(** ** More of the driver

    The value an operation hands back through its out-parameter, when it
    returns [FAT32_OK]. *)
Definition value {S A} (o : outcome S A) : option A :=
  match o with
  | Ret a _ => Some a
  | _ => None
  end.

(** The card taken out of its slot: [sd_card_present()] answers false from
    now on; the driver's variables are as they were. *)
Definition card_removed (w : world) : world :=
  {| card := {| sd_present := false;
                sd_init_result := sd_init_result (card w);
                sd_blocks := sd_blocks (card w) |};
     fat32_mounted := fat32_mounted w; mount_status := mount_status w;
     boot_sector := boot_sector w; fsinfo := fsinfo w;
     volume_start_block := volume_start_block w;
     first_data_sector := first_data_sector w;
     data_region_sectors := data_region_sectors w;
     cluster_count := cluster_count w;
     bytes_per_cluster := bytes_per_cluster w;
     current_dir_cluster := current_dir_cluster w;
     sector_buffer := sector_buffer w |}.

(** [fat32_get_status()] *)
Definition fat32_get_status : M fat32_error_t :=
  _ ← fat32_is_ready;
  w ← get;
  ret (mount_status w).

(** The body of the timer callback [on_sd_card_detect]. *)
Definition on_sd_card_detect : M unit :=
  w ← get;
  if negb (sd_present (card w)) && fat32_mounted w then
    fat32_unmount;;
    modify (set_mount_status FAT32_ERROR_NO_CARD)
  else ret tt.

(** The handle [fat32_get_volume_name] builds on its stack: zeroed, then
    [is_open], [start_cluster], [current_cluster] and [position] set. *)
Definition volume_name_handle (cluster : Z) : fat32_file_t :=
  {| is_open := true; last_entry_read := false;
     attributes := 0; start_cluster := cluster;
     current_cluster := cluster; file_size := 0; position := 0;
     dir_entry_sector := 0; dir_entry_offset := 0 |}.

(** [while (fat32_dir_read(&dir, &entry) == FAT32_OK && entry.filename[0])]
    in [fat32_get_volume_name]; the result is the string left in [name],
    [n] bounds the number of entries read and [entry] is what the local
    [entry] holds before the call. *)
Fixpoint fat32_get_volume_name_scan (n fuel : nat) (name_len : Z)
    (entry : fat32_entry_t) : MF (list Z) :=
  match n with
  | O => fun _ => Timeout
  | S n' =>
      r ← try (fat32_dir_read fuel entry);
      match r with
      | inl _ => ret []
      | inr entry =>
          if bool_decide (e_filename entry = []) then ret []
          else if negb (Z.land (e_attr entry) FAT32_ATTR_VOLUME_ID =? 0)
          then ret (take (Z.to_nat (name_len - 1)) (e_filename entry))
          else fat32_get_volume_name_scan n' fuel name_len entry
      end
  end.

(** [fat32_get_volume_name(name, name_len)]; [name] tells whether the
    pointer is non-NULL.  The local [entry] is not initialised in C and is
    started from [zero_entry] here, as in [find_entry_walk] (lemma
    [fat32_get_volume_name_scan_entry]). *)
Definition fat32_get_volume_name (fuel : nat) (name : bool) (name_len : Z)
  : M (list Z) :=
  if negb name || (name_len <? 12) then fail FAT32_ERROR_INVALID_PARAMETER
  else
    require_ready;;
    w ← get;
    r ← with_file (volume_name_handle (root_cluster (boot_sector w)))
                  (fat32_get_volume_name_scan fuel fuel name_len zero_entry);
    ret (fst r).

(** An operation that leaves the card as it found it, however it ends. *)
Definition card_kept {A} (m : M A) : Prop :=
  forall w w', final (m w) = Some w' -> card w' = card w.

Definition card_kept_file {A} (m : MF A) : Prop :=
  forall s s', final (m s) = Some s' -> card s'.2 = card s.2.

(** Listing the root directory of the demo volume that holds the new
    file, with an entry that is zero before the first call: the state
    after the first [fat32_dir_read] and the entry it returns, which is
    the file, and the state after the second, which returns the end of
    the directory. *)
Definition demo_listed : fat32_file_t * world :=
  let s := (dir_handle 2, demo_created.2) in
  after s (fat32_dir_read 100 zero_entry s).

Definition demo_listed_entry : fat32_entry_t :=
  let s := (dir_handle 2, demo_created.2) in
  default zero_entry (value (fat32_dir_read 100 zero_entry s)).

Definition demo_listed_end : fat32_file_t * world :=
  after demo_listed (fat32_dir_read 100 demo_listed_entry demo_listed).

(** The directory record of the new file of the demo volume, as
    [find_entry] returns it, and the sector that holds it. *)
Definition demo_entry : fat32_entry_t :=
  default zero_entry (value (find_entry 100 (str "a.txt") demo_created.2)).

Definition demo_directory_sector : sector :=
  default [] (sd_blocks (card demo_created.2)
                !! u32 (volume_start_block demo_created.2
                        + e_sector demo_entry)).

(** *** The bytes of a file

    The sector that holds byte [p] of a file whose cluster chain is [cs],
    and that byte: cluster [p / bytes_per_cluster] of the chain, sector
    and byte within the cluster as [fat32_read] and [fat32_write] compute
    them. *)
Definition file_sector (w : world) (cs : list Z) (p : Z) : option sector :=
  match cs !! Z.to_nat (p / bytes_per_cluster w) with
  | Some c =>
      sd_blocks (card w)
        !! data_block w c ((p mod bytes_per_cluster w) / FAT32_SECTOR_SIZE)
  | None => None
  end.

Definition file_byte (w : world) (cs : list Z) (p : Z) : Z :=
  byte_at (default [] (file_sector w cs p))
          ((p mod bytes_per_cluster w) mod FAT32_SECTOR_SIZE).

(** The sectors of all clusters of the volume hold in [w'] what they hold
    in [w]. *)
Definition data_kept (w w' : world) : Prop :=
  forall c j, in_range w c ->
              0 <= j < sectors_per_cluster (boot_sector w) ->
              sd_blocks (card w') !! data_block w c j
              = sd_blocks (card w) !! data_block w c j.

(** Cluster [d] is in use and is none of the clusters [cs]. *)
Definition used_elsewhere (w : world) (cs : list Z) (d : Z) : Prop :=
  in_range w d /\ (d ∉ cs) /\ exists v, fat_entry w d = Some v /\ v <> 0.

(** The state after the sector that holds position [pos] of a file, in
    cluster [cluster], has been overwritten with [buf] by way of the
    sector buffer. *)
Definition sector_written (w : world) (cluster pos : Z) (buf : sector)
  : world :=
  set_blocks
    (<[data_block w cluster ((pos mod bytes_per_cluster w) / 512) := buf]>
       (sd_blocks (card w)))
    (set_sector_buffer buf w).

(** The file of 1500 bytes with the position at byte 1000, after a write
    of 43 characters that crosses from its first cluster into its
    second. *)
Definition demo_sentence : list Z :=
  str "The quick brown fox jumps over the lazy dog".

Definition demo_patched : fat32_file_t * world :=
  after demo_rewound (fat32_write 100 (Some demo_sentence) demo_rewound).

(** The demo volume after the lookup of the new file. *)
Definition demo_found : world :=
  after demo_created.2 (find_entry 100 (str "a.txt") demo_created.2).

(** The volume with the file of 1500 bytes after the lookup of the file,
    the record the lookup returns, and the sector that holds it. *)
Definition demo_grown_found : world :=
  after demo_grown.2 (find_entry 100 (str "a.txt") demo_grown.2).

Definition demo_grown_entry : fat32_entry_t :=
  default zero_entry (value (find_entry 100 (str "a.txt") demo_grown.2)).

Definition demo_grown_directory_sector : sector :=
  default [] (sd_blocks (card demo_grown_found)
                !! data_block demo_grown_found 2 0).


(** [fat32_rename(old_path, new_path)] for non-NULL paths.  The record
    found for the old path is unlinked and linked again under the new
    path; [link_entry] works on the caller's local copy of the record,
    which is dropped on return. *)
Definition fat32_rename (fuel : nat) (old_path new_path : list Z) : M unit :=
  if bool_decide (old_path = []) || bool_decide (new_path = [])
  then fail FAT32_ERROR_INVALID_PARAMETER
  else
    require_ready;;
    entry ← find_entry fuel old_path;
    found ← try (find_entry fuel new_path);
    match found with
    | inr _ => fail FAT32_ERROR_FILE_EXISTS
    | inl FAT32_ERROR_FILE_NOT_FOUND =>
        unlink_entry (Some entry);;
        link_entry fuel entry new_path;;
        ret tt
    | inl e => fail e
    end.

(** Every failure of [m] carries one of [codes]. *)
Definition fails_with {A} (codes : list fat32_error_t) (m : M A) : Prop :=
  forall w e w', m w = Fail e w' -> e ∈ codes.

(** The codes of a failed access to the card or to the FAT. *)
Definition access_errors : list fat32_error_t :=
  [FAT32_ERROR_INVALID_PARAMETER; FAT32_ERROR_READ_FAILED;
   FAT32_ERROR_WRITE_FAILED].

(** The demo volume with an empty file as other systems make it: the
    record of the new file with its start cluster set to 0. *)
Definition demo_foreign : world :=
  let w := demo_created.2 in
  let b := data_block w 2 0 in
  let s := default [] (sd_blocks (card w) !! b) in
  let off := e_offset demo_entry in
  set_blocks (<[b := put_le16 (put_le16 s (off + 20) 0) (off + 26) 0]>
                (sd_blocks (card w))) w.

Definition demo_foreign_found : world :=
  after demo_foreign (find_entry 100 (str "a.txt") demo_foreign).

Definition demo_foreign_entry : fat32_entry_t :=
  default zero_entry (value (find_entry 100 (str "a.txt") demo_foreign)).

Definition demo_foreign_missing : world :=
  after demo_foreign_found
        (find_entry 100 (str "b.txt") demo_foreign_found).

(** A card put into the slot: the driver's variables are as they were. *)
Definition card_inserted (c : sd_card) (w : world) : world :=
  {| card := c;
     fat32_mounted := fat32_mounted w; mount_status := mount_status w;
     boot_sector := boot_sector w; fsinfo := fsinfo w;
     volume_start_block := volume_start_block w;
     first_data_sector := first_data_sector w;
     data_region_sectors := data_region_sectors w;
     cluster_count := cluster_count w;
     bytes_per_cluster := bytes_per_cluster w;
     current_dir_cluster := current_dir_cluster w;
     sector_buffer := sector_buffer w |}.

(** The card taken out, a tick of the card-detect timer, and the card [c]
    put in. *)
Definition card_swapped (c : sd_card) (w : world) : world :=
  card_inserted c (after (card_removed w)
                         (on_sd_card_detect (card_removed w))).

(** *** Free space *)

Definition u64 (x : Z) : Z := x mod 2 ^ 64.

(** The inner loop of [fat32_get_free_space]: how many of the 128 entries
    of a FAT sector have their low 28 bits all zero. *)
Definition free_entries_in (s : sector) : Z :=
  Z.of_nat (length (List.filter
                      (fun i => Z.land (le32 s (4 * i)) 0x0FFFFFFF =? 0)
                      (seqZ 0 128))).

(** [for (sector = 0; sector < boot_sector.fat_size_32; sector++)]; [n] is
    the number of iterations left. *)
Fixpoint fat32_get_free_space_count (n : nat) (sec free_clusters : Z)
  : M Z :=
  match n with
  | O => ret free_clusters
  | S n' =>
      w ← get;
      read_sector (u32 (reserved_sectors (boot_sector w) + sec));;
      w ← get;
      let free_clusters :=
        u64 (free_clusters + free_entries_in (sector_buffer w)) in
      fat32_get_free_space_count n' (u32 (sec + 1)) free_clusters
  end.

(** [fat32_get_free_space(&free_space)]; the result is the value stored
    in [free_space]. *)
Definition fat32_get_free_space : M Z :=
  require_ready;;
  w ← get;
  if negb (free_count (fsinfo w) =? 0xFFFFFFFF)
     && (free_count (fsinfo w) <=? cluster_count w)
  then ret (u64 (free_count (fsinfo w) * bytes_per_cluster w))
  else
    free_clusters ←
      fat32_get_free_space_count
        (Z.to_nat (fat_size_32 (boot_sector w))) 0 0;
    modify (fun w =>
      set_fsinfo (set_free_count (u32 free_clusters) (fsinfo w)) w);;
    w ← get;
    write_sector (fat32_info (boot_sector w)) (encode_fsinfo (fsinfo w));;
    w ← get;
    ret (u64 (free_clusters * bytes_per_cluster w)).

(** Sector [k] of the first FAT, and the entry at position [c] of the
    FAT: 128 entries to a sector. *)
Definition fat_sector_block (w : world) (k : Z) : Z :=
  u32 (volume_start_block w + u32 (reserved_sectors (boot_sector w) + k)).

Definition fat_word (w : world) (c : Z) : option Z :=
  match sd_blocks (card w) !! fat_sector_block w (c / 128) with
  | Some s => Some (Z.land (le32 s (4 * (c mod 128))) 0x0FFFFFFF)
  | None => None
  end.

(** The number of positions of the first FAT that hold a zero entry. *)
Definition free_fat_entries (w : world) : Z :=
  Z.of_nat (length (List.filter
                      (fun c => bool_decide (fat_word w c = Some 0))
                      (seqZ 0 (128 * fat_size_32 (boot_sector w))))).

(** The demo card with all 512 sectors of its FAT, and the volume mounted
    from it with an FSInfo sector whose hints are unknown. *)
Definition demo_whole_card : sd_card :=
  {| sd_present := true; sd_init_result := FAT32_OK;
     sd_blocks :=
       list_to_map (map (fun b => (b, zero_sector)) (seqZ 33 511))
       ∪ demo_blocks (fsinfo_image 0xFFFFFFFF 0xFFFFFFFF) |}.

Definition demo_whole : world :=
  let w := power_on demo_whole_card in
  after w (fat32_mount w).

(** *** Partitions *)

(** Entry [i] of the partition table in [s] is one [fat32_mount] takes:
    its boot indicator is 0x00 or 0x80 and its type is 0x0B or 0x0C. *)
Definition partition_matches (s : sector) (i : Z) : bool :=
  ((byte_at s (446 + i * 16) =? 0x00) || (byte_at s (446 + i * 16) =? 0x80))
  && ((byte_at s (446 + i * 16 + 4) =? 0x0B)
      || (byte_at s (446 + i * 16 + 4) =? 0x0C)).

(** A card with a partition table: the second entry is a FAT32 partition
    that starts at block 2048 and holds the demo volume; the first entry
    is a partition of another type. *)
Definition demo_mbr_image : sector :=
  put_le32 (poke [(450, 0x83); (462, 0x80); (466, 0x0C);
                  (510, 0x55); (511, 0xAA)] zero_sector)
           470 2048.

Definition demo_partitioned_card : sd_card :=
  {| sd_present := true; sd_init_result := FAT32_OK;
     sd_blocks :=
       list_to_map [(0, demo_mbr_image); (2048, demo_boot_image);
                    (2049, fsinfo_image 65529 3)] |}.

Definition demo_partitioned : world :=
  let w := power_on demo_partitioned_card in
  after w (fat32_mount w).

(** A card without a partition table whose boot sector has a non-zero
    byte where a partition table would hold the type of its first
    entry. *)
Definition demo_boot_code_card : sd_card :=
  {| sd_present := true; sd_init_result := FAT32_OK;
     sd_blocks :=
       <[0 := poke [(450, 0x90)] demo_boot_image]>
         (demo_blocks (fsinfo_image 65529 3)) |}.

(** *** The cluster count of the volume geometry

    The data region of a volume is what follows the reserved area and the
    FATs: it begins at the first data sector and ends with the volume.
    Its sectors divided by the sectors per cluster are the clusters of
    the volume.  The numbers are plain integers here, not 32-bit
    words. *)
Definition data_region_cluster_count (bs : fat32_boot_sector_t) : Z :=
  (total_sectors_32 bs
   - (reserved_sectors bs + num_fats bs * fat_size_32 bs))
  / sectors_per_cluster bs.

(** The boot sector of the demo volume with 32 sectors more: the data
    region then holds 65530 clusters. *)
Definition roomy_boot_image : sector := put_le32 demo_boot_image 32 131604.

Definition roomy_card (fsinfo_sector : sector) : sd_card :=
  {| sd_present := true; sd_init_result := FAT32_OK;
     sd_blocks := <[0 := roomy_boot_image]> (demo_blocks fsinfo_sector) |}.

(** The same boot sector with 2000 sectors in all. *)
Definition tiny_boot_image : sector := put_le32 demo_boot_image 32 2000.

Definition tiny_card : sd_card :=
  {| sd_present := true; sd_init_result := FAT32_OK;
     sd_blocks :=
       <[0 := tiny_boot_image]> (demo_blocks (fsinfo_image 65529 3)) |}.

(** The driver after [fat32_unmount], as [fat32_init] leaves it, and a
    direct call of [fat32_mount] on the demo card. *)
Definition demo_direct_mount : world :=
  let w := power_on (demo_card (fsinfo_image 65529 3)) in
  let w0 := after w (fat32_unmount w) in
  after w0 (fat32_mount w0).

(** * Properties *)

(** ** Bytes and little-endian fields *)

Lemma length_put_byte (s : sector) off v :
  length (put_byte s off v) = length s.
Proof. unfold put_byte. apply length_insert. Qed.

Lemma byte_at_put_byte_eq (s : sector) off v :
  0 <= off -> (Z.to_nat off < length s)%nat ->
  byte_at (put_byte s off v) off = Z.land v 0xFF.
Proof.
  intros Hoff Hlen. unfold byte_at, put_byte.
  by rewrite list_lookup_insert_eq.
Qed.

Lemma byte_at_put_byte_ne (s : sector) off off' v :
  0 <= off -> 0 <= off' -> off <> off' ->
  byte_at (put_byte s off v) off' = byte_at s off'.
Proof.
  intros Hoff Hoff' Hne. unfold byte_at, put_byte.
  rewrite list_lookup_insert_ne; [done | lia].
Qed.

Lemma length_put_le32 (s : sector) off v :
  length (put_le32 s off v) = length s.
Proof. unfold put_le32. by rewrite !length_put_byte. Qed.

Lemma byte_at_put_le32_other (s : sector) off v i :
  0 <= off -> 0 <= i -> ~ (off <= i < off + 4) ->
  byte_at (put_le32 s off v) i = byte_at s i.
Proof.
  intros Hoff Hi Hout. unfold put_le32.
  rewrite !byte_at_put_byte_ne by lia. reflexivity.
Qed.

Lemma testbit_255 n : 0 <= n -> Z.testbit 0xFF n = (n <? 8).
Proof.
  intros Hn. change 0xFF with (Z.ones 8).
  apply Z.testbit_ones_nonneg; lia.
Qed.

(** The four bytes [put_le32] stores decode to the low 32 bits of the
    value stored. *)
Lemma le32_bytes (v : Z) :
  Z.lor (Z.lor (Z.land v 0xFF) (Z.shiftl (Z.land (Z.shiftr v 8) 0xFF) 8))
        (Z.lor (Z.shiftl (Z.land (Z.shiftr v 16) 0xFF) 16)
               (Z.shiftl (Z.land (Z.shiftr v 24) 0xFF) 24))
  = Z.land v 0xFFFFFFFF.
Proof.
  apply Z.bits_inj'. intros n Hn.
  rewrite !Z.lor_spec, !Z.land_spec.
  change 0xFFFFFFFF with (Z.ones 32).
  rewrite Z.testbit_ones_nonneg by lia.
  rewrite testbit_255 by lia.
  destruct (Z.ltb_spec n 8).
  { rewrite !Z.shiftl_spec_low by lia.
    rewrite andb_true_r, !orb_false_r.
    destruct (Z.ltb_spec n 32); [by rewrite andb_true_r | lia]. }
  rewrite andb_false_r, orb_false_l.
  rewrite (Z.shiftl_spec _ 8) by lia.
  rewrite Z.land_spec, Z.shiftr_spec, testbit_255 by lia.
  replace (n - 8 + 8) with n by lia.
  destruct (Z.ltb_spec (n - 8) 8).
  { rewrite !Z.shiftl_spec_low by lia.
    rewrite andb_true_r, !orb_false_r.
    destruct (Z.ltb_spec n 32); [by rewrite andb_true_r | lia]. }
  rewrite andb_false_r, orb_false_l.
  rewrite (Z.shiftl_spec _ 16) by lia.
  rewrite Z.land_spec, Z.shiftr_spec, testbit_255 by lia.
  replace (n - 16 + 16) with n by lia.
  destruct (Z.ltb_spec (n - 16) 8).
  { rewrite !Z.shiftl_spec_low by lia.
    rewrite andb_true_r, !orb_false_r.
    destruct (Z.ltb_spec n 32); [by rewrite andb_true_r | lia]. }
  rewrite andb_false_r, orb_false_l.
  rewrite (Z.shiftl_spec _ 24) by lia.
  rewrite Z.land_spec, Z.shiftr_spec, testbit_255 by lia.
  replace (n - 24 + 24) with n by lia.
  destruct (Z.ltb_spec (n - 24) 8).
  { rewrite andb_true_r.
    destruct (Z.ltb_spec n 32); [by rewrite andb_true_r | lia]. }
  rewrite andb_false_r.
  destruct (Z.ltb_spec n 32); [lia | by rewrite andb_false_r].
Qed.

Lemma le32_put_le32 (s : sector) off v :
  0 <= off -> (Z.to_nat off + 3 < length s)%nat ->
  le32 (put_le32 s off v) off = Z.land v 0xFFFFFFFF.
Proof.
  intros Hoff Hlen. unfold le32, put_le32.
  rewrite (byte_at_put_byte_eq _ (off + 3)) by (rewrite ?length_put_byte; lia).
  rewrite (byte_at_put_byte_ne _ (off + 3) (off + 2)) by lia.
  rewrite (byte_at_put_byte_eq _ (off + 2)) by (rewrite ?length_put_byte; lia).
  rewrite (byte_at_put_byte_ne _ (off + 3) (off + 1)) by lia.
  rewrite (byte_at_put_byte_ne _ (off + 2) (off + 1)) by lia.
  rewrite (byte_at_put_byte_eq _ (off + 1)) by (rewrite ?length_put_byte; lia).
  rewrite (byte_at_put_byte_ne _ (off + 3) off) by lia.
  rewrite (byte_at_put_byte_ne _ (off + 2) off) by lia.
  rewrite (byte_at_put_byte_ne _ (off + 1) off) by lia.
  rewrite (byte_at_put_byte_eq _ off) by lia.
  apply le32_bytes.
Qed.

Lemma le32_put_le32_other (s : sector) off off' v :
  0 <= off -> 0 <= off' -> (off' + 4 <= off \/ off + 4 <= off') ->
  le32 (put_le32 s off v) off' = le32 s off'.
Proof.
  intros Hoff Hoff' Hdisj. unfold le32.
  rewrite !byte_at_put_le32_other by lia. reflexivity.
Qed.

(** The word [write_cluster_fat_entry] stores: the reserved top four bits
    of the old word, the low 28 bits of the new value. *)
Lemma fat_word_low (old value : Z) :
  Z.land (Z.lor (Z.land old 0xF0000000) (Z.land value 0x0FFFFFFF)) 0x0FFFFFFF
  = Z.land value 0x0FFFFFFF.
Proof.
  rewrite Z.land_lor_distr_l.
  rewrite <- !Z.land_assoc. simpl (Z.land 0xF0000000 _).
  simpl (Z.land 0x0FFFFFFF _).
  rewrite Z.land_0_r. apply Z.lor_0_l.
Qed.

Lemma fat_word_high (old value : Z) :
  Z.land (Z.lor (Z.land old 0xF0000000) (Z.land value 0x0FFFFFFF)) 0xF0000000
  = Z.land old 0xF0000000.
Proof.
  rewrite Z.land_lor_distr_l.
  rewrite <- !Z.land_assoc. simpl (Z.land 0xF0000000 _).
  simpl (Z.land 0x0FFFFFFF _).
  rewrite Z.land_0_r. apply Z.lor_0_r.
Qed.

Lemma fat_word_32 (old value : Z) :
  Z.land (Z.lor (Z.land old 0xF0000000) (Z.land value 0x0FFFFFFF)) 0xFFFFFFFF
  = Z.lor (Z.land old 0xF0000000) (Z.land value 0x0FFFFFFF).
Proof.
  rewrite Z.land_lor_distr_l.
  rewrite <- !Z.land_assoc. reflexivity.
Qed.

Lemma land_28 (x : Z) : Z.land x 0x0FFFFFFF = x mod 2 ^ 28.
Proof. change 0x0FFFFFFF with (Z.ones 28). by apply Z.land_ones. Qed.

Lemma land_32 (x : Z) : Z.land x 0xFFFFFFFF = u32 x.
Proof. change 0xFFFFFFFF with (Z.ones 32). by apply Z.land_ones. Qed.

Lemma land_28_range (x : Z) : 0 <= Z.land x 0x0FFFFFFF < 2 ^ 28.
Proof. rewrite land_28. apply Z.mod_pos_bound. lia. Qed.

Lemma u32_range (x : Z) : 0 <= u32 x < 2 ^ 32.
Proof. apply Z.mod_pos_bound. lia. Qed.

Lemma u32_small (x : Z) : 0 <= x < 2 ^ 32 -> u32 x = x.
Proof. apply Z.mod_small. Qed.

(** ** FAT entries *)

Lemma read_cluster_fat_entry_low (cluster : Z) (w : world) :
  cluster < 2 ->
  read_cluster_fat_entry cluster w = Fail FAT32_ERROR_INVALID_PARAMETER w.
Proof.
  intros H. unfold read_cluster_fat_entry.
  destruct (Z.ltb_spec cluster 2); [done | lia].
Qed.

Lemma write_cluster_fat_entry_low (cluster value : Z) (w : world) :
  cluster < 2 ->
  write_cluster_fat_entry cluster value w
  = Fail FAT32_ERROR_INVALID_PARAMETER w.
Proof.
  intros H. unfold write_cluster_fat_entry.
  destruct (Z.ltb_spec cluster 2); [done | lia].
Qed.

Lemma read_cluster_fat_entry_block (cluster : Z) (w : world) (s : sector) :
  2 <= cluster ->
  sd_blocks (card w) !! fat_block w cluster = Some s ->
  read_cluster_fat_entry cluster w
  = Ret (Z.land (le32 s (fat_offset_of cluster)) 0x0FFFFFFF)
        (set_sector_buffer s w).
Proof.
  intros Hc Hs. unfold read_cluster_fat_entry.
  destruct (Z.ltb_spec cluster 2); [lia|].
  unfold bind, get, read_sector, bind, get, sd_read_block, modify.
  unfold fat_block in Hs. rewrite Hs. reflexivity.
Qed.

Lemma read_cluster_fat_entry_missing (cluster : Z) (w : world) :
  2 <= cluster ->
  sd_blocks (card w) !! fat_block w cluster = None ->
  read_cluster_fat_entry cluster w = Fail FAT32_ERROR_READ_FAILED w.
Proof.
  intros Hc Hs. unfold read_cluster_fat_entry.
  destruct (Z.ltb_spec cluster 2); [lia|].
  unfold bind, get, read_sector, bind, get, sd_read_block, modify.
  unfold fat_block in Hs. rewrite Hs. reflexivity.
Qed.

Lemma write_cluster_fat_entry_block (cluster value : Z) (w : world)
    (s : sector) :
  2 <= cluster ->
  sd_blocks (card w) !! fat_block w cluster = Some s ->
  write_cluster_fat_entry cluster value w
  = Ret tt (set_blocks (<[fat_block w cluster :=
                           fat_sector_update s cluster value]>
                          (sd_blocks (card w)))
                       (set_sector_buffer (fat_sector_update s cluster value)
                                          w)).
Proof.
  intros Hc Hs. unfold write_cluster_fat_entry.
  destruct (Z.ltb_spec cluster 2); [lia|].
  unfold bind, get, read_sector, write_sector, bind, get, sd_read_block,
    sd_write_block, modify.
  unfold fat_block in *. rewrite Hs. simpl. rewrite Hs. reflexivity.
Qed.

Lemma fat_offset_range (cluster : Z) :
  0 <= fat_offset_of cluster <= 508.
Proof.
  unfold fat_offset_of, FAT32_SECTOR_SIZE, SD_BLOCK_SIZE, u32.
  set (x := (cluster * 4) mod 2 ^ 32).
  assert (H4 : x mod 4 = 0).
  { subst x. rewrite Z.mod_mod_divide by (exists (2 ^ 30); lia).
    apply Z.mod_mul. lia. }
  pose proof (Z.mod_pos_bound x 512 ltac:(lia)) as Hb.
  assert (H5 : (x mod 512) mod 4 = 0)
    by (rewrite Z.mod_mod_divide by (exists 128; lia); exact H4).
  split; [lia|].
  apply Z.mod_divide in H5; [|lia]. destruct H5 as [k Hk]. lia.
Qed.

(** C9.  A FAT entry read returns the stored 32-bit word with its top
    four bits masked off; a write replaces the low 28 bits of the stored
    word, keeps its top four bits and every other byte of the sector; both
    reject a cluster number below 2 with invalid-parameter. *)
Theorem fat_entry_access_masks (w : world) (cluster value : Z) :
  (cluster < 2 ->
   read_cluster_fat_entry cluster w = Fail FAT32_ERROR_INVALID_PARAMETER w
   /\ write_cluster_fat_entry cluster value w
      = Fail FAT32_ERROR_INVALID_PARAMETER w)
  /\ (2 <= cluster ->
      forall s : sector,
        sd_blocks (card w) !! fat_block w cluster = Some s ->
        length s = 512%nat ->
        let off := fat_offset_of cluster in
        let stored := le32 s off in
        read_cluster_fat_entry cluster w
        = Ret (Z.land stored 0x0FFFFFFF) (set_sector_buffer s w)
        /\ exists s' : sector,
            write_cluster_fat_entry cluster value w
            = Ret tt (set_blocks (<[fat_block w cluster := s']>
                                    (sd_blocks (card w)))
                                 (set_sector_buffer s' w))
            /\ length s' = 512%nat
            /\ Z.land (le32 s' off) 0xF0000000 = Z.land stored 0xF0000000
            /\ Z.land (le32 s' off) 0x0FFFFFFF = Z.land value 0x0FFFFFFF
            /\ (forall i, 0 <= i -> ~ (off <= i < off + 4) ->
                          byte_at s' i = byte_at s i)).
Proof.
  split.
  - intros H. split.
    + by apply read_cluster_fat_entry_low.
    + by apply write_cluster_fat_entry_low.
  - intros Hc s Hs Hlen off stored. split.
    + by apply read_cluster_fat_entry_block.
    + exists (fat_sector_update s cluster value).
      pose proof (fat_offset_range cluster) as Hoff. fold off in Hoff.
      assert (Hw : le32 (fat_sector_update s cluster value) off
                   = Z.lor (Z.land stored 0xF0000000)
                           (Z.land value 0x0FFFFFFF)).
      { unfold fat_sector_update. fold off. fold stored.
        rewrite le32_put_le32 by lia. apply fat_word_32. }
      split; [by apply write_cluster_fat_entry_block|].
      split; [unfold fat_sector_update; by rewrite length_put_le32|].
      split; [rewrite Hw; apply fat_word_high|].
      split; [rewrite Hw; apply fat_word_low|].
      intros i Hi Hout. unfold fat_sector_update. fold off.
      apply byte_at_put_le32_other; lia.
Qed.

(** ** Mounting *)

(** Finding the volume changes neither the card nor the mounted flag. *)
Lemma scan_partitions_frame (entries : list Z) (w w1 : world) :
  scan_partitions entries w = Ret tt w1 ->
  card w1 = card w /\ fat32_mounted w1 = fat32_mounted w.
Proof.
  revert w. induction entries as [|i rest IH]; intros w; cbn [scan_partitions].
  - cbv [ret]. intros H; inversion H; auto.
  - cbv [bind get]. 
    destruct (negb (byte_at (sector_buffer w) (446 + i * 16) =? 0)
              && negb (byte_at (sector_buffer w) (446 + i * 16) =? 128));
      [apply IH|].
    destruct ((byte_at (sector_buffer w) (446 + i * 16 + 4) =? 11)
              || (byte_at (sector_buffer w) (446 + i * 16 + 4) =? 12));
      [|apply IH].
    cbv [modify sd_read_into_buffer bind sd_read_block].
    cbn [card set_volume_start_block].
    destruct (sd_blocks (card w) !! _); [|discriminate].
    intros H; inversion H; auto.
Qed.

Lemma fat32_mount_find_volume_frame (w w1 : world) :
  fat32_mount_find_volume w = Ret tt w1 ->
  card w1 = card w /\ fat32_mounted w1 = fat32_mounted w.
Proof.
  unfold fat32_mount_find_volume, sd_read_into_buffer.
  cbv [bind get ret modify fail sd_read_block].
  destruct (sd_blocks (card w) !! 0) as [s0|]; [|discriminate].
  cbn [sector_buffer set_sector_buffer].
  destruct (is_sector_mbr s0).
  - destruct (scan_partitions [0; 1; 2; 3] _) as [[] w2| |] eqn:Hscan;
      try discriminate.
    apply scan_partitions_frame in Hscan. cbn in Hscan.
    destruct (volume_start_block w2 =? 0); [discriminate|].
    intros H; inversion H; subst; auto.
  - destruct (is_sector_boot_sector s0); [|discriminate].
    intros H; inversion H; subst; auto.
Qed.

(** What [fat32_mount] does once the boot sector has been found and has
    passed validation. *)
Lemma fat32_mount_steps (w w1 : world) :
  sd_present (card w) = true ->
  fat32_mounted w = false ->
  sd_init_result (card w) = FAT32_OK ->
  fat32_mount_find_volume w = Ret tt w1 ->
  let bs := decode_boot_sector (sector_buffer w1) in
  let fats := u32 (num_fats bs * fat_size_32 bs) in
  let w2 :=
    set_geometry (u32 (reserved_sectors bs + fats))
                 (u32 (total_sectors_32 bs - fats))
                 (mount_cluster_count bs)
                 (u32 (sectors_per_cluster bs * FAT32_SECTOR_SIZE))
                 (set_boot_sector bs w1) in
  fat32_mount w =
    match is_valid_fat32_boot_sector bs with
    | FAT32_OK =>
        if mount_cluster_count bs <? 65525
        then Fail FAT32_ERROR_INVALID_FORMAT w2
        else fat32_mount_fsinfo (set_current_dir_cluster (root_cluster bs) w2)
    | e => Fail e (set_boot_sector bs w1)
    end.
Proof.
  intros Hp Hm Hi Hf bs fats w2.
  unfold fat32_mount. cbv [bind get].
  rewrite Hp, Hm, Hi. cbn [negb return_on_error ret].
  rewrite Hf. cbv [modify]. fold bs.
  destruct (is_valid_fat32_boot_sector bs); cbn [return_on_error fail ret];
    try reflexivity.
  fold fats. fold w2.
  destruct (mount_cluster_count bs <? 65525); reflexivity.
Qed.

Lemma fat32_mount_fsinfo_steps (w : world) (s : sector) :
  sd_blocks (card w) !! u32 (volume_start_block w + fat32_info (boot_sector w))
  = Some s ->
  let w' := set_fsinfo (decode_fsinfo s) (set_sector_buffer s w) in
  fat32_mount_fsinfo w =
    if fsinfo_signatures_ok (decode_fsinfo s)
    then Ret tt (set_mounted true w')
    else Fail FAT32_ERROR_INVALID_FORMAT w'.
Proof.
  intros Hs w'. unfold fat32_mount_fsinfo, read_sector.
  cbv [bind get sd_read_block modify]. rewrite Hs.
  cbn [sector_buffer set_sector_buffer].
  destruct (fsinfo_signatures_ok (decode_fsinfo s)); reflexivity.
Qed.

(** C1, as the driver has it.  With the card present, the volume not yet
    mounted and the boot sector found and valid with at least 65525
    clusters, an FSInfo sector whose signatures are not all valid makes the
    mount fail with invalid-format: the mounted flag stays clear, and the
    two hints hold whatever the sector contained. *)
Theorem mount_rejects_invalid_fsinfo (w w1 : world) (s : sector) :
  sd_present (card w) = true ->
  fat32_mounted w = false ->
  sd_init_result (card w) = FAT32_OK ->
  fat32_mount_find_volume w = Ret tt w1 ->
  is_valid_fat32_boot_sector (decode_boot_sector (sector_buffer w1))
  = FAT32_OK ->
  65525 <= mount_cluster_count (decode_boot_sector (sector_buffer w1)) ->
  sd_blocks (card w1)
    !! u32 (volume_start_block w1
            + fat32_info (decode_boot_sector (sector_buffer w1))) = Some s ->
  fsinfo_signatures_ok (decode_fsinfo s) = false ->
  exists w' : world,
    fat32_mount w = Fail FAT32_ERROR_INVALID_FORMAT w'
    /\ fat32_mounted w' = false
    /\ free_count (fsinfo w') = le32 s 488
    /\ next_free (fsinfo w') = le32 s 492.
Proof.
  intros Hp Hm Hi Hf Hv Hcc Hs Hsig.
  pose proof (fat32_mount_find_volume_frame _ _ Hf) as [Hcard Hmnt].
  rewrite (fat32_mount_steps w w1 Hp Hm Hi Hf), Hv.
  destruct (Z.ltb_spec (mount_cluster_count
                          (decode_boot_sector (sector_buffer w1))) 65525);
    [lia|].
  erewrite fat32_mount_fsinfo_steps by exact Hs.
  rewrite Hsig. eexists. split; [reflexivity|].
  cbn. rewrite Hmnt, Hm. auto.
Qed.

Lemma mount_rejects_invalid_fsinfo_witness :
  exists w' : world,
    fat32_mount (power_on (demo_card zero_sector))
    = Fail FAT32_ERROR_INVALID_FORMAT w'
    /\ fat32_mounted w' = false
    /\ free_count (fsinfo w') = le32 zero_sector 488
    /\ next_free (fsinfo w') = le32 zero_sector 492.
Proof.
  eapply (mount_rejects_invalid_fsinfo
            (power_on (demo_card zero_sector))
            (set_volume_start_block 0
               (set_sector_buffer demo_boot_image
                  (power_on (demo_card zero_sector))))
            zero_sector);
    try reflexivity.
  vm_compute. discriminate.
Defined.

(** The claim itself fails on the demo volume with a zeroed FSInfo sector:
    every premise holds, and the mount neither returns OK nor sets the
    mounted flag. *)
Lemma mount_invalid_fsinfo_counterexample :
  let w := power_on (demo_card zero_sector) in
  sd_present (card w) = true
  /\ is_valid_fat32_boot_sector (decode_boot_sector demo_boot_image)
     = FAT32_OK
  /\ 65525 <= mount_cluster_count (decode_boot_sector demo_boot_image)
  /\ fsinfo_signatures_ok (decode_fsinfo zero_sector) = false
  /\ code (fat32_mount w) = Some FAT32_ERROR_INVALID_FORMAT
  /\ fat32_mounted (after w (fat32_mount w)) = false
  /\ free_count (fsinfo (after w (fat32_mount w))) <> 0xFFFFFFFF.
Proof.
  cbv zeta. repeat split; try reflexivity; vm_compute; discriminate.
Qed.

(** What the field validations tell about the two factors of the
    geometry. *)
Lemma valid_boot_sector_factors (bs : fat32_boot_sector_t) :
  is_valid_fat32_boot_sector bs = FAT32_OK ->
  1 <= sectors_per_cluster bs <= 128 /\ num_fats bs <= 2.
Proof.
  unfold is_valid_fat32_boot_sector.
  destruct (negb (bytes_per_sector bs =? FAT32_SECTOR_SIZE)); [done|].
  destruct (Z.eqb_spec (sectors_per_cluster bs) 0); [done|].
  destruct (Z.ltb_spec 128 (sectors_per_cluster bs)); [done|].
  cbn [orb].
  destruct (Z.eqb_spec (Z.land (sectors_per_cluster bs)
                               (sectors_per_cluster bs - 1)) 0) as [Hpow|];
    [|done].
  cbn [negb].
  destruct (Z.eqb_spec (num_fats bs) 0); [done|].
  destruct (Z.ltb_spec 2 (num_fats bs)); [done|]. intros _.
  split; [|lia]. split; [|lia].
  destruct (Z.lt_ge_cases (sectors_per_cluster bs) 0) as [Hneg|]; [|lia].
  assert (Hland : Z.land (sectors_per_cluster bs)
                         (sectors_per_cluster bs - 1) < 0)
    by (apply Z.land_neg; lia).
  lia.
Qed.

(** The driver's cluster count on both sides of its test against 65525. *)
Lemma mount_cluster_count_bounds (bs : fat32_boot_sector_t) :
  1 <= sectors_per_cluster bs ->
  0 <= num_fats bs -> 0 <= reserved_sectors bs -> 0 <= fat_size_32 bs ->
  0 <= total_sectors_32 bs < 2 ^ 32 ->
  (65525 <= data_region_cluster_count bs ->
   65525 <= mount_cluster_count bs)
  /\ (num_fats bs * fat_size_32 bs <= total_sectors_32 bs ->
      total_sectors_32 bs / sectors_per_cluster bs < 65525 ->
      mount_cluster_count bs < 65525).
Proof.
  intros Hspc Hnf Hres Hfs Htotal.
  assert (Hfats : 0 <= num_fats bs * fat_size_32 bs) by nia.
  unfold mount_cluster_count, data_region_cluster_count. split.
  - intros Hcount.
    assert (Hroom : 65525 * sectors_per_cluster bs
                    <= total_sectors_32 bs
                       - (reserved_sectors bs
                          + num_fats bs * fat_size_32 bs)).
    { destruct (Z.le_gt_cases
                  (65525 * sectors_per_cluster bs)
                  (total_sectors_32 bs
                   - (reserved_sectors bs + num_fats bs * fat_size_32 bs)))
        as [|Hlt]; [done|].
      assert ((total_sectors_32 bs
               - (reserved_sectors bs + num_fats bs * fat_size_32 bs))
              / sectors_per_cluster bs < 65525)
        by (apply Z.div_lt_upper_bound; lia).
      lia. }
    rewrite (u32_small (num_fats bs * fat_size_32 bs)) by lia.
    rewrite u32_small by lia.
    apply Z.div_le_lower_bound; lia.
  - intros Hfit Hsmall.
    rewrite (u32_small (num_fats bs * fat_size_32 bs)) by lia.
    rewrite u32_small by lia.
    eapply Z.le_lt_trans; [|exact Hsmall].
    apply Z.div_le_mono; lia.
Qed.




Lemma fat_entry_access_masks_witness :
  let w := demo_world 65529 3 in
  (read_cluster_fat_entry 1 w = Fail FAT32_ERROR_INVALID_PARAMETER w
   /\ write_cluster_fat_entry 1 5 w = Fail FAT32_ERROR_INVALID_PARAMETER w)
  /\ read_cluster_fat_entry 2 w
     = Ret 0x0FFFFFFF (set_sector_buffer demo_fat_image w).
Proof.
  cbv zeta. split.
  - apply (fat_entry_access_masks (demo_world 65529 3) 1 5). lia.
  - destruct (fat_entry_access_masks (demo_world 65529 3) 2 5) as [_ H].
    destruct (H ltac:(lia) demo_fat_image eq_refl eq_refl) as [Hr _].
    exact Hr.
Defined.

(** ** Closing a handle *)

(** C10.  [fat32_close] returns OK on every input and leaves the driver's
    state, the card included, as it was: a NULL handle and a closed handle
    are left alone, an open handle has every field zeroed. *)
Theorem close_always_succeeds (file : option fat32_file_t) (w : world) :
  exists file' : option fat32_file_t,
    fat32_close file w = Ret file' w
    /\ match file with
       | None => file' = None
       | Some f =>
           if is_open f then
             exists f', file' = Some f'
               /\ is_open f' = false /\ last_entry_read f' = false
               /\ attributes f' = 0 /\ start_cluster f' = 0
               /\ current_cluster f' = 0 /\ file_size f' = 0
               /\ position f' = 0 /\ dir_entry_sector f' = 0
               /\ dir_entry_offset f' = 0
           else file' = Some f
       end.
Proof.
  destruct file as [f|]; cbn [fat32_close].
  - destruct (is_open f) eqn:Hopen.
    + exists (Some zero_file). split; [reflexivity|].
      exists zero_file. repeat split.
    + exists (Some f). by split.
  - exists None. by split.
Qed.

(** ** Where the driver departs from the specification *)

(** C3.  ["LONGFILENAME.TXT"] is not a valid 8.3 name, so [link_entry]
    asks [unique_shortname] for one; in the empty root directory the name
    it gets has the base truncated to eight characters and no numeric
    tail, where the specification expects [LONGFI~1.TXT]. *)
Theorem unique_shortname_truncated_without_tail :
  let w := demo_world 65529 3 in
  valid_shortname (str "LONGFILENAME.TXT") = false
  /\ (exists w',
        unique_shortname 100 (dir_handle 2) (str "LONGFILENAME.TXT") w
        = Ret (str "LONGFILETXT") w')
  /\ str "LONGFILETXT" <> str "LONGFI~1TXT".
Proof.
  cbv zeta. split; [vm_compute; reflexivity|]. split.
  - eexists. vm_compute. reflexivity.
  - vm_compute. discriminate.
Qed.

(** C4.  A file with a 200-character name is created in the empty root
    directory of the demo volume: its sixteen long-name slots fill the
    first sector of the directory and its short-name record is the first
    slot of the second sector.  Unlinking the entry [find_entry] returns
    for it marks that record deleted and leaves all sixteen long-name
    slots of the preceding sector as they were. *)
Theorem unlink_entry_leaves_fragments_of_previous_sector :
  let w := demo_world 65529 3 in
  let created := fat32_create 100 long_name_200 (zero_file, w) in
  let w1 := snd (after (zero_file, w) created) in
  let found := find_entry 100 long_name_200 w1 in
  let w2 := after w1 found in
  let entry := match found with Ret e _ => Some e | _ => None end in
  let unlinked := unlink_entry entry w2 in
  let w3 := after w2 unlinked in
  code created = Some FAT32_OK
  /\ code found = Some FAT32_OK
  /\ e_sector <$> entry = Some 545 /\ e_offset <$> entry = Some 0
  /\ code unlinked = Some FAT32_OK
  /\ slot_marks w2 544
     = [0x50; 15; 14; 13; 12; 11; 10; 9; 8; 7; 6; 5; 4; 3; 2; 1]
  /\ slot_marks w3 544 = slot_marks w2 544
  /\ byte_at (default [] (sd_blocks (card w3) !! 545)) 0
     = FAT32_DIR_ENTRY_FREE.
Proof.
  cbv zeta. repeat apply conj; vm_compute; reflexivity.
Qed.

(** C5.  On the demo volume with both hints unknown, a file is created
    (cluster 3) and its one-cluster chain released: the free-count hint,
    which was the sentinel [0xFFFFFFFF], is now the number 0. *)
Theorem release_cluster_chain_wraps_unknown_free_count :
  let w := demo_world 0xFFFFFFFF 0xFFFFFFFF in
  let created := fat32_create 100 (str "a.txt") (zero_file, w) in
  let f := fst (after (zero_file, w) created) in
  let w1 := snd (after (zero_file, w) created) in
  let released := release_cluster_chain 10 (start_cluster f) w1 in
  let w2 := after w1 released in
  code created = Some FAT32_OK
  /\ start_cluster f = 3
  /\ fat_entry w1 3 = Some FAT32_FAT_ENTRY_EOC
  /\ free_count (fsinfo w1) = 0xFFFFFFFF
  /\ code released = Some FAT32_OK
  /\ fat_entry w2 3 = Some FAT32_FAT_ENTRY_FREE
  /\ free_count (fsinfo w2) = 0
  /\ next_free (fsinfo w2) = 3.
Proof.
  cbv zeta. repeat apply conj; vm_compute; reflexivity.
Qed.

(** ** Short names *)

Lemma tolower_toupper (c : Z) : tolower (toupper c) = tolower c.
Proof.
  unfold tolower, toupper.
  repeat match goal with
         | |- context [?a <=? ?b] => destruct (Z.leb_spec a b)
         end; cbn in *; lia.
Qed.

Lemma map_tolower_toupper (l : list Z) :
  map tolower (map toupper l) = map tolower l.
Proof.
  rewrite map_map. apply map_ext. intros c. apply tolower_toupper.
Qed.

Lemma shortname_char_allowed_spec (c : Z) :
  shortname_char_allowed c = true -> 32 < c /\ c <> 46.
Proof.
  unfold shortname_char_allowed. intros H.
  apply negb_true_iff, orb_false_iff in H as [H1 H2].
  apply Z.leb_gt in H1. split; [lia|].
  intros ->. vm_compute in H2. discriminate.
Qed.

Lemma toupper_visible (c : Z) : 32 < c -> 32 < toupper c.
Proof.
  unfold toupper. intros H.
  destruct (Z.leb_spec 97 c), (Z.leb_spec c 122); cbn; lia.
Qed.

Lemma tolower_visible (c : Z) : 32 < c -> 32 < tolower c.
Proof.
  unfold tolower. intros H.
  destruct (Z.leb_spec 65 c), (Z.leb_spec c 90); cbn; lia.
Qed.

Lemma strchr_None (l : list Z) (c : Z) :
  strchr l c = None <-> c ∉ l.
Proof.
  induction l as [|x l IH]; cbn.
  - split; [intros _; apply not_elem_of_nil | done].
  - destruct (Z.eqb_spec x c) as [->|Hne].
    + split; [discriminate | intros H; exfalso; apply H; left].
    + rewrite not_elem_of_cons. destruct (strchr l c); cbn.
      * split; [discriminate|]. intros [_ H]. by apply IH in H.
      * split; [|done]. intros _. split; [congruence | by apply IH].
Qed.

Lemma strrchr_None (l : list Z) (c : Z) :
  strrchr l c = None <-> c ∉ l.
Proof.
  induction l as [|x l IH]; cbn.
  - split; [intros _; apply not_elem_of_nil | done].
  - rewrite not_elem_of_cons. destruct (strrchr l c).
    + split; [discriminate|]. intros [_ H]. by apply IH in H.
    + destruct (Z.eqb_spec x c) as [->|Hne].
      * split; [discriminate | intros [H _]; congruence].
      * split; [|done]. intros _. split; [congruence | by apply IH].
Qed.

Lemma strchr_Some (l : list Z) (c : Z) (d : nat) :
  strchr l c = Some d ->
  l = take d l ++ c :: drop (S d) l /\ c ∉ take d l.
Proof.
  revert d. induction l as [|x l IH]; intros d; cbn; [discriminate|].
  destruct (Z.eqb_spec x c) as [->|Hne].
  - intros [= <-]. cbn. rewrite drop_0. split; [done | apply not_elem_of_nil].
  - destruct (strchr l c) as [d'|] eqn:Hd; cbn; [|discriminate].
    intros [= <-]. destruct (IH d' eq_refl) as [Hl Hn]. cbn.
    split; [by rewrite <- Hl|]. rewrite not_elem_of_cons. split; [congruence|done].
Qed.

Lemma strrchr_app (name ext : list Z) (c : Z) :
  c ∉ ext -> strrchr (name ++ c :: ext) c = Some (length name).
Proof.
  intros Hext. induction name as [|x name IH]; cbn.
  - apply strrchr_None in Hext. rewrite Hext.
    by destruct (Z.eqb_spec c c).
  - by rewrite IH.
Qed.

Lemma strrchr_Some_tail (l : list Z) (c : Z) (d : nat) :
  strrchr l c = Some d -> c ∉ drop (S d) l.
Proof.
  revert d. induction l as [|x l IH]; intros d; cbn; [discriminate|].
  destruct (strrchr l c) as [d'|] eqn:Hd.
  - intros [= <-]. by apply IH.
  - destruct (Z.eqb_spec x c); [|discriminate].
    intros [= <-]. cbn. rewrite drop_0. by apply strrchr_None.
Qed.

Lemma pad_spaces_short (n : nat) (l : list Z) :
  (length l <= n)%nat ->
  pad_spaces n l = l ++ replicate (n - length l) 32.
Proof.
  intros H. unfold pad_spaces.
  rewrite take_app_ge by lia. f_equal.
  rewrite take_replicate. f_equal. lia.
Qed.

Lemma until_space_app (l : list Z) (n : nat) :
  Forall (fun c => 32 < c) l ->
  until_space (l ++ replicate n 32) = l.
Proof.
  induction 1 as [|c l Hc _ IH]; cbn.
  - by destruct n.
  - destruct (Z.eqb_spec c 32); [lia|]. by rewrite IH.
Qed.

Lemma filter_spaces_app (l : list Z) (n : nat) :
  Forall (fun c => 32 < c) l ->
  List.filter (fun c => negb (c =? 32)) (l ++ replicate n 32) = l.
Proof.
  induction 1 as [|c l Hc _ IH]; cbn.
  - induction n as [|n IHn]; cbn; [done|]. exact IHn.
  - destruct (Z.eqb_spec c 32); [lia|]. cbn. by rewrite IH.
Qed.

Lemma cstr_visible (l : list Z) :
  Forall (fun c => 32 < c) l -> cstr l = l.
Proof.
  induction 1 as [|c l Hc _ IH]; cbn; [done|].
  destruct (Z.eqb_spec c 0); [lia|]. by rewrite IH.
Qed.

Lemma Forall_visible_upper (l : list Z) :
  Forall (fun c => shortname_char_allowed c = true) l ->
  Forall (fun c => 32 < c) (map toupper l).
Proof.
  intros H. apply Forall_map. eapply Forall_impl; [exact H|].
  intros c Hc. apply toupper_visible. by apply shortname_char_allowed_spec.
Qed.

Lemma Forall_visible_lower (l : list Z) :
  Forall (fun c => shortname_char_allowed c = true) l ->
  Forall (fun c => 32 < c) (map tolower l).
Proof.
  intros H. apply Forall_map. eapply Forall_impl; [exact H|].
  intros c Hc. apply tolower_visible. by apply shortname_char_allowed_spec.
Qed.

Lemma forallb_true_Forall {A} (f : A -> bool) (l : list A) :
  forallb f l = true -> Forall (fun x => f x = true) l.
Proof.
  induction l as [|x l IH]; cbn; [by constructor|].
  intros H. apply andb_true_iff in H as [Hx Hl]. constructor; auto.
Qed.

(** A valid 8.3 name is a base of one to eight allowed characters, or
    such a base, a dot and at most three allowed characters. *)
Lemma valid_shortname_shape (filename : list Z) :
  valid_shortname filename = true ->
  ((46 ∉ filename) /\ (1 <= length filename <= 8)%nat
   /\ Forall (fun c => shortname_char_allowed c = true) filename)
  \/ (exists name ext,
        filename = name ++ 46 :: ext
        /\ (46 ∉ ext)
        /\ (1 <= length name <= 8)%nat /\ (length ext <= 3)%nat
        /\ Forall (fun c => shortname_char_allowed c = true) name
        /\ Forall (fun c => shortname_char_allowed c = true) ext).
Proof.
  unfold valid_shortname, strlen.
  destruct (_ || _) eqn:Hlen; [discriminate|].
  apply orb_false_iff in Hlen as [Hl1 Hl2].
  apply Z.ltb_ge in Hl1, Hl2.
  destruct (strchr filename 46) as [d|] eqn:Hdot.
  - case_bool_decide as Hsame; [discriminate|].
    case_bool_decide as Hfirst; [discriminate|].
    assert (Hr : strrchr filename 46 = Some d).
    { destruct (decide (Some d = strrchr filename 46)) as [<-|Hne]; [done|].
      exfalso. apply Hsame. split; [by eexists | done]. }
    destruct (_ || _) eqn:Hn; [discriminate|].
    apply orb_false_iff in Hn as [Hn1 Hn2]. apply Z.ltb_ge in Hn1, Hn2.
    destruct (_ || _) eqn:He; [discriminate|].
    apply orb_false_iff in He as [He1 He2]. apply Z.ltb_ge in He1, He2.
    intros Hall. apply andb_true_iff in Hall as [Hname Hext].
    apply strchr_Some in Hdot as [Hsplit Hnodot].
    right. exists (take d filename), (drop (S d) filename).
    assert (Hd : (d < length filename)%nat).
    { destruct (decide (d < length filename)%nat); [done|].
      rewrite (drop_ge filename (S d)) in Hsplit by lia.
      apply (f_equal length) in Hsplit.
      rewrite length_app, length_take in Hsplit. cbn in Hsplit. lia. }
    split; [exact Hsplit|].
    split; [by apply strrchr_Some_tail|].
    rewrite length_take, length_drop.
    split; [lia|]. split; [lia|].
    rewrite Nat2Z.id in Hname.
    split; [by apply forallb_true_Forall|].
    replace (Z.to_nat (Z.of_nat (length filename) - Z.of_nat d - 1))
      with (length (drop (S d) filename)) in Hext
      by (rewrite length_drop; lia).
    rewrite firstn_all in Hext. by apply forallb_true_Forall.
  - case_bool_decide as Hsame; [by destruct Hsame as [[? ?] _]|].
    case_bool_decide as Hfirst; [discriminate|].
    destruct (_ || _) eqn:Hn; [discriminate|].
    apply orb_false_iff in Hn as [Hn1 Hn2]. apply Z.ltb_ge in Hn1, Hn2.
    cbn [orb Z.ltb Z.compare]. rewrite andb_true_r.
    rewrite Nat2Z.id, firstn_all. intros Hall.
    left. split; [by apply strchr_None|]. split; [lia|].
    by apply forallb_true_Forall.
Qed.


Lemma length_pad_spaces (n : nat) (l : list Z) : length (pad_spaces n l) = n.
Proof.
  unfold pad_spaces.
  rewrite length_take, length_app, length_replicate. lia.
Qed.

(** Decoding a space-padded name and extension. *)
Lemma shortname_to_filename_padded (name ext : list Z) :
  (length name <= 8)%nat -> (length ext <= 3)%nat ->
  Forall (fun c => 32 < c) name -> Forall (fun c => 32 < c) ext ->
  shortname_to_filename (pad_spaces 8 name ++ pad_spaces 3 ext)
  = cstr (map tolower name
          ++ match map tolower ext with
             | [] => []
             | _ => 46 :: map tolower ext
             end).
Proof.
  intros Hn He Hname Hext. unfold shortname_to_filename.
  rewrite take_app_length' by (by rewrite length_pad_spaces).
  rewrite drop_app_length' by (by rewrite length_pad_spaces).
  rewrite (take_ge (pad_spaces 3 ext)) by (by rewrite length_pad_spaces).
  rewrite !pad_spaces_short by lia.
  rewrite until_space_app by done.
  by rewrite filter_spaces_app.
Qed.

Lemma drop_past_separator (name ext : list Z) (c : Z) :
  drop (S (length name)) (name ++ c :: ext) = ext.
Proof. induction name as [|x name IH]; cbn; [by rewrite drop_0 | exact IH]. Qed.

(** C8, as the driver has it.  For a valid 8.3 name that does not end in
    a dot, converting to the 11-byte short name and back gives the name in
    lower case: the two conversions are inverses up to letter case. *)
Theorem shortname_roundtrip (filename : list Z) :
  valid_shortname filename = true ->
  last filename <> Some 46 ->
  shortname_to_filename (filename_to_shortname filename)
  = map tolower filename.
Proof.
  intros Hvalid Hlast.
  destruct (valid_shortname_shape _ Hvalid)
    as [(Hnodot & Hlen & Hall)
       | (name & ext & -> & Hext & Hn & He & Hname & Hall)].
  - unfold filename_to_shortname.
    apply strrchr_None in Hnodot. rewrite Hnodot.
    rewrite Nat.min_l by lia. rewrite firstn_all.
    rewrite shortname_to_filename_padded;
      [| by rewrite length_map; lia | cbn; lia
       | by apply Forall_visible_upper | constructor].
    cbn. rewrite app_nil_r, map_tolower_toupper.
    apply cstr_visible. by apply Forall_visible_lower.
  - destruct ext as [|e ext].
    { exfalso. apply Hlast. by rewrite last_snoc. }
    unfold filename_to_shortname.
    rewrite strrchr_app by done.
    rewrite Nat.min_l by lia.
    rewrite take_app_length.
    rewrite drop_past_separator.
    rewrite (take_ge (e :: ext)) by lia.
    rewrite shortname_to_filename_padded;
      [| by rewrite length_map; lia | by rewrite length_map; lia
       | by apply Forall_visible_upper | by apply Forall_visible_upper].
    rewrite !map_tolower_toupper.
    cbn [map]. rewrite map_app. cbn [map].
    replace (tolower 46) with 46 by reflexivity.
    apply cstr_visible.
    apply Forall_app. split; [by apply Forall_visible_lower|].
    constructor; [lia|].
    apply (Forall_visible_lower (e :: ext) Hall).
Qed.

Lemma shortname_roundtrip_witness :
  shortname_to_filename (filename_to_shortname (str "ReadMe.TXT"))
  = map tolower (str "ReadMe.TXT").
Proof.
  apply shortname_roundtrip.
  - vm_compute. reflexivity.
  - vm_compute. discriminate.
Defined.

(** The claim as stated fails for a valid name that ends in its dot: the
    dot is lost on the way back. *)
Lemma shortname_roundtrip_counterexample :
  valid_shortname (str "A.") = true
  /\ shortname_to_filename (filename_to_shortname (str "A.")) = str "a"
  /\ map tolower (shortname_to_filename (filename_to_shortname (str "A.")))
     <> map tolower (str "A.").
Proof.
  split; [vm_compute; reflexivity|].
  split; [vm_compute; reflexivity|].
  vm_compute. discriminate.
Qed.

(** ** Reading *)

Lemma set_sector_buffer_idem (s : sector) (w : world) :
  set_sector_buffer s (set_sector_buffer (sector_buffer w) w)
  = set_sector_buffer s w.
Proof. reflexivity. Qed.

Lemma set_sector_buffer_same (w : world) :
  set_sector_buffer (sector_buffer w) w = w.
Proof. by destruct w. Qed.

Lemma require_ready_ready (w : world) :
  ready w -> require_ready w = Ret tt w.
Proof.
  intros (Hp & Hm & Hs). unfold require_ready, fat32_is_ready.
  cbv [bind get ret]. rewrite Hp, Hm. cbn. rewrite Hs.
  by rewrite bool_decide_eq_true_2.
Qed.

Lemma read_cluster_fat_entry_view (cluster v : Z) (w : world) :
  fat_entry w cluster = Some v ->
  exists s, read_cluster_fat_entry cluster w = Ret v (set_sector_buffer s w).
Proof.
  unfold fat_entry. destruct (Z.ltb_spec cluster 2); [discriminate|].
  destruct (sd_blocks (card w) !! fat_block w cluster) as [s|] eqn:Hs;
    [|discriminate].
  intros [= <-]. exists s. by apply read_cluster_fat_entry_block.
Qed.

Lemma linked_tail (w : world) (c : Z) (cs : list Z) :
  linked w (c :: cs) -> linked w cs.
Proof. destruct cs as [|c' cs]; [done|]. by intros (_ & _ & H). Qed.

Lemma fat_entry_buffer (w : world) (s : sector) (c : Z) :
  fat_entry (set_sector_buffer s w) c = fat_entry w c.
Proof. reflexivity. Qed.

Lemma linked_buffer (w : world) (s : sector) (cs : list Z) :
  linked (set_sector_buffer s w) cs <-> linked w cs.
Proof.
  induction cs as [|c cs IH]; [done|].
  destruct cs as [|c' cs]; [done|].
  change (linked ?w (c :: c' :: cs))
    with (fat_entry w c = Some c' /\ c' < FAT32_FAT_ENTRY_EOC
          /\ linked w (c' :: cs)).
  rewrite fat_entry_buffer. by rewrite IH.
Qed.

Lemma linked_step (w : world) (cs : list Z) (i : nat) (c c' : Z) :
  linked w cs -> cs !! i = Some c -> cs !! S i = Some c' ->
  fat_entry w c = Some c' /\ c' < FAT32_FAT_ENTRY_EOC.
Proof.
  revert i. induction cs as [|x cs IH]; intros i Hl Hi Hi'; [done|].
  destruct i as [|i].
  - cbn in Hi, Hi'. injection Hi as ->. destruct cs as [|y cs]; [done|].
    cbn in Hi'. injection Hi' as ->. destruct Hl as (H1 & H2 & _). done.
  - apply (IH i); [by eapply linked_tail | done | done].
Qed.

(** [seek_to_cluster] along a linked list of clusters. *)
Lemma seek_to_cluster_loop_linked (w : world) (cs : list Z) (n : nat)
    (c0 cn : Z) :
  linked w cs -> cs !! O = Some c0 -> cs !! n = Some cn ->
  exists s',
    seek_to_cluster_loop n c0 w = Ret cn (set_sector_buffer s' w).
Proof.
  revert w cs c0. induction n as [|n IH]; intros w cs c0 Hl H0 Hn.
  - exists (sector_buffer w). rewrite H0 in Hn. injection Hn as ->.
    by rewrite set_sector_buffer_same.
  - destruct cs as [|x cs]; [done|]. cbn in H0. injection H0 as ->.
    destruct cs as [|c1 cs]; [done|].
    destruct Hl as (Hfat & Hlt & Hl).
    destruct (read_cluster_fat_entry_view c0 c1 w Hfat) as [s1 Hread].
    cbn [seek_to_cluster_loop]. cbv [bind]. rewrite Hread.
    destruct (Z.ltb_spec c1 FAT32_FAT_ENTRY_EOC); [|lia]. cbn [negb].
    destruct (IH (set_sector_buffer s1 w) (c1 :: cs) c1) as [s' Hs'];
      [by apply linked_buffer | done | done |].
    exists s'. exact Hs'.
Qed.

Ltac world_simpl :=
  cbn [card fat32_mounted mount_status boot_sector fsinfo volume_start_block
       first_data_sector data_region_sectors cluster_count bytes_per_cluster
       current_dir_cluster sector_buffer set_sector_buffer set_blocks
       set_fsinfo set_mounted set_mount_status set_boot_sector
       set_volume_start_block set_geometry set_current_dir_cluster
       sd_present sd_init_result sd_blocks fst snd
       is_open last_entry_read attributes start_cluster current_cluster
       file_size position dir_entry_sector dir_entry_offset
       set_position set_current_cluster set_start_cluster set_file_size
       set_last_entry_read] in *.

Lemma read_sector_data (w : world) (c j : Z) (s s1 : sector) :
  sd_blocks (card w) !! data_block w c j = Some s1 ->
  read_sector
    (u32 (u32 (u32 ((c - 2) * sectors_per_cluster (boot_sector w))
               + first_data_sector w) + j))
    (set_sector_buffer s w)
  = Ret tt (set_sector_buffer s1 w).
Proof.
  intros H. unfold read_sector. cbv [bind get sd_read_block modify].
  world_simpl. unfold data_block in H. rewrite H. reflexivity.
Qed.

(** One iteration of the read loop. *)
Lemma fat32_read_loop_step (w : world) (n : nat) (size total : Z)
    (dest : list Z) (f : fat32_file_t) (s s1 : sector) :
  total < size ->
  let bpc := bytes_per_cluster w in
  let byte_in_sector := (position f mod bpc) mod FAT32_SECTOR_SIZE in
  let bytes_to_copy :=
    if size - total <? FAT32_SECTOR_SIZE - byte_in_sector
    then size - total else FAT32_SECTOR_SIZE - byte_in_sector in
  let dest1 := dest ++ map (byte_at s1) (seqZ byte_in_sector bytes_to_copy) in
  let f1 := set_position (u32 (position f + bytes_to_copy)) f in
  sd_blocks (card w)
    !! data_block w (current_cluster f)
                  ((position f mod bpc) / FAT32_SECTOR_SIZE) = Some s1 ->
  fat32_read_loop (S n) size total dest (f, set_sector_buffer s w)
  = if (position f1 mod bpc =? 0) && (total + bytes_to_copy <? size) then
      match read_cluster_fat_entry (current_cluster f)
                                   (set_sector_buffer s1 w) with
      | Ret next w' =>
          if negb (next <? FAT32_FAT_ENTRY_EOC)
          then Ret (total + bytes_to_copy, dest1) (f1, w')
          else fat32_read_loop n size (total + bytes_to_copy) dest1
                               (set_current_cluster next f1, w')
      | Fail e w' => Fail e (f1, w')
      | Stop r => Stop r
      end
    else fat32_read_loop n size (total + bytes_to_copy) dest1
                         (f1, set_sector_buffer s1 w).
Proof.
  intros Hlt bpc bis btc dest1 f1 Hblock.
  subst bpc bis btc dest1 f1.
  cbn [fat32_read_loop].
  destruct (Z.ltb_spec total size); [|lia]. cbn [negb].
  cbv [bind get_file get_world liftw cluster_to_sector get ret].
  world_simpl.
  rewrite (read_sector_data w _ _ s s1 Hblock).
  cbv [modify_file]. world_simpl.
  match goal with
  | |- (if ?c then _ else _) _ = _ => destruct c; [|reflexivity]
  end.
  cbv beta. world_simpl.
  destruct (read_cluster_fat_entry (current_cluster f) (set_sector_buffer s1 w))
    as [next w'| |]; try reflexivity.
  world_simpl.
  destruct (negb (next <? FAT32_FAT_ENTRY_EOC)); reflexivity.
Qed.

Lemma advance_in_cluster (bpc P d : Z) :
  0 < bpc -> 0 <= P -> 0 < d -> P mod bpc + d <= bpc ->
  (P mod bpc + d = bpc -> (P + d) mod bpc = 0 /\ (P + d) / bpc = P / bpc + 1)
  /\ (P mod bpc + d < bpc ->
      (P + d) mod bpc = P mod bpc + d /\ (P + d) / bpc = P / bpc).
Proof.
  intros Hb HP Hd Hle.
  pose proof (Z.div_mod P bpc ltac:(lia)) as HPd.
  pose proof (Z.mod_pos_bound P bpc Hb) as Hr.
  split; intros H.
  - assert (Heq : P + d = (P / bpc + 1) * bpc + 0) by nia.
    split.
    + symmetry. eapply (Z.mod_unique_pos (P + d) bpc (P / bpc + 1) 0); lia.
    + symmetry. eapply (Z.div_unique_pos (P + d) bpc (P / bpc + 1) 0); lia.
  - assert (Heq : P + d = (P / bpc) * bpc + (P mod bpc + d)) by nia.
    split.
    + symmetry. eapply (Z.mod_unique_pos (P + d) bpc (P / bpc)); lia.
    + symmetry. eapply (Z.div_unique_pos (P + d) bpc (P / bpc) (P mod bpc + d)); lia.
Qed.

(** Within a cluster of [spc] sectors, a position splits into a sector
    and a byte of that sector. *)
Lemma sector_of_position (spc P : Z) :
  0 < spc -> 0 <= P ->
  let r := P mod (spc * 512) in
  0 <= r / 512 < spc /\ 0 <= r mod 512 < 512
  /\ r = r / 512 * 512 + r mod 512.
Proof.
  intros Hspc HP r.
  pose proof (Z.mod_pos_bound P (spc * 512) ltac:(lia)) as Hr. fold r in Hr.
  pose proof (Z.div_mod r 512 ltac:(lia)) as Hd.
  pose proof (Z.mod_pos_bound r 512 ltac:(lia)) as Hm.
  assert (0 <= r / 512) by (apply Z.div_pos; lia).
  assert (r / 512 < spc) by (apply Z.div_lt_upper_bound; lia).
  lia.
Qed.

Section Read.
Variable w : world.
Variable cs : list Z.
Hypothesis Hbpc :
  bytes_per_cluster w = sectors_per_cluster (boot_sector w) * 512.
Hypothesis Hspc : 0 < sectors_per_cluster (boot_sector w).
Hypothesis Hlinked : linked w cs.
Hypothesis Hcard : clusters_on_card w cs.

Lemma fat32_read_loop_ok (n : nat) (size total : Z) (dest : list Z)
    (f : fat32_file_t) (s : sector) :
  (Z.to_nat (size - total) <= n)%nat ->
  0 <= total <= size ->
  0 <= position f ->
  position f + (size - total) < 2 ^ 32 ->
  position f + (size - total) <= Z.of_nat (length cs) * (bytes_per_cluster w) ->
  (total < size ->
   cs !! Z.to_nat (position f / (bytes_per_cluster w)) = Some (current_cluster f)) ->
  exists dest' f' s',
    fat32_read_loop n size total dest (f, set_sector_buffer s w)
    = Ret (size, dest') (f', set_sector_buffer s' w)
    /\ length dest' = (length dest + Z.to_nat (size - total))%nat
    /\ position f' = position f + (size - total)
    /\ same_file f f'.
Proof.
  revert total dest f s.
  induction n as [|n IH]; intros total dest f s Hn Htot Hpos Hmax Hcover Hcur.
  - assert (total = size) as -> by lia.
    exists dest, f, s. cbn [fat32_read_loop].
    rewrite Z.ltb_irrefl. cbn [negb].
    split; [reflexivity|]. split; [lia|]. split; [lia|]. by repeat split.
  - destruct (Z.ltb_spec total size) as [Hlt|Hge].
    2:{ assert (total = size) as -> by lia.
        exists dest, f, s. cbn [fat32_read_loop].
        rewrite Z.ltb_irrefl. cbn [negb].
        split; [reflexivity|]. split; [lia|]. split; [lia|]. by repeat split. }
    specialize (Hcur Hlt).
    pose proof (sector_of_position (sectors_per_cluster (boot_sector w)) (position f) Hspc Hpos) as Hsec.
    cbv zeta in Hsec. rewrite <- Hbpc in Hsec.
    destruct Hsec as (Hsic & Hbis & Hsplit).
    assert (Hin : current_cluster f ∈ cs) by (by eapply list_elem_of_lookup_2).
    destruct (Hcard _ _ Hin Hsic) as [s1 Hs1].
    rewrite (fat32_read_loop_step w n size total dest f s s1 Hlt Hs1).
    set (bis := (position f mod (bytes_per_cluster w)) mod FAT32_SECTOR_SIZE) in *.
    set (btc := if size - total <? FAT32_SECTOR_SIZE - bis
                then size - total else FAT32_SECTOR_SIZE - bis).
    set (dest1 := dest ++ map (byte_at s1) (seqZ bis btc)).
    assert (Hbtc : 0 < btc <= size - total /\ btc <= 512 - bis).
    { subst btc. unfold FAT32_SECTOR_SIZE, SD_BLOCK_SIZE in *.
      destruct (Z.ltb_spec (size - total) (512 - bis)); lia. }
    assert (Hu : u32 (position f + btc) = position f + btc)
      by (apply u32_small; lia).
    rewrite Hu.
    assert (Hlen1 : length dest1 = (length dest + Z.to_nat btc)%nat).
    { subst dest1. rewrite length_app, length_map, length_seqZ. lia. }
    assert (Hroom : position f mod (bytes_per_cluster w) + btc <= (bytes_per_cluster w)).
    { unfold FAT32_SECTOR_SIZE, SD_BLOCK_SIZE in *. nia. }
    assert (Hbpos : 0 < (bytes_per_cluster w)) by lia.
    destruct (advance_in_cluster (bytes_per_cluster w) (position f) btc Hbpos Hpos
                ltac:(lia) Hroom) as [Hcross Hstay].
    set (f1 := set_position (position f + btc) f).
    assert (Hsame1 : forall f', same_file f1 f' -> same_file f f')
      by (intros f' Hf'; exact Hf').
    change (position f1) with (position f + btc).
    destruct (Z.ltb_spec (total + btc) size) as [Hmore|Hdone].
    + (* more to read *)
      destruct (Z.eqb_spec ((position f + btc) mod (bytes_per_cluster w)) 0) as [Hz|Hnz];
        cbn [andb].
      * (* next cluster *)
        assert (Heq : position f mod (bytes_per_cluster w) + btc = (bytes_per_cluster w)).
        { destruct (Z.eq_dec (position f mod (bytes_per_cluster w) + btc) (bytes_per_cluster w)); [done|].
          destruct Hstay as [Hm _]; [lia|].
          pose proof (Z.mod_pos_bound (position f) (bytes_per_cluster w) Hbpos). lia. }
        destruct (Hcross Heq) as [_ Hdiv].
        assert (Hq : 0 <= position f / (bytes_per_cluster w)) by (apply Z.div_pos; lia).
        assert (Hnext : (Z.to_nat (position f / (bytes_per_cluster w) + 1) < length cs)%nat).
        { pose proof (Z.div_mod (position f) (bytes_per_cluster w) ltac:(lia)). nia. }
        destruct (lookup_lt_is_Some_2 cs _ Hnext) as [c' Hc'].
        replace (Z.to_nat (position f / (bytes_per_cluster w) + 1))
          with (S (Z.to_nat (position f / (bytes_per_cluster w)))) in Hc' by lia.
        destruct (linked_step w cs _ _ _ Hlinked Hcur Hc') as [Hfat Hlt'].
        destruct (read_cluster_fat_entry_view _ _ (set_sector_buffer s1 w) Hfat)
          as [s2 Hread].
        rewrite Hread.
        destruct (Z.ltb_spec c' FAT32_FAT_ENTRY_EOC); [|lia]. cbn [negb].
        destruct (IH (total + btc) dest1 (set_current_cluster c' f1) s2)
          as (dest' & f' & s' & Hloop & Hlen & Hp & Hsame);
          try (cbn [position set_current_cluster f1 set_position]; lia).
        { intros _. cbn [position current_cluster set_current_cluster
                         f1 set_position].
          rewrite Hdiv.
          replace (Z.to_nat (position f / (bytes_per_cluster w) + 1))
            with (S (Z.to_nat (position f / (bytes_per_cluster w)))) by lia.
          exact Hc'. }
        exists dest', f', s'.
        change (set_sector_buffer s2 (set_sector_buffer s1 w))
          with (set_sector_buffer s2 w).
        rewrite Hloop.
        split; [reflexivity|]. split; [lia|].
        split; [cbn in Hp; lia | exact Hsame].
      * (* same cluster *)
        assert (Hless : position f mod (bytes_per_cluster w) + btc < (bytes_per_cluster w)).
        { destruct (Z.eq_dec (position f mod (bytes_per_cluster w) + btc) (bytes_per_cluster w)) as [Heq|];
            [|lia].
          destruct (Hcross Heq) as [Hm _]. lia. }
        destruct (Hstay Hless) as [_ Hdiv].
        destruct (IH (total + btc) dest1 f1 s1)
          as (dest' & f' & s' & Hloop & Hlen & Hp & Hsame);
          try (cbn [position f1 set_position]; lia).
        { intros _. cbn [position current_cluster f1 set_position].
          by rewrite Hdiv. }
        exists dest', f', s'. rewrite Hloop.
        split; [reflexivity|]. split; [lia|].
        split; [cbn in Hp; lia | exact Hsame].
    + (* the last piece *)
      rewrite andb_false_r.
      destruct (IH (total + btc) dest1 f1 s1)
        as (dest' & f' & s' & Hloop & Hlen & Hp & Hsame);
        try (cbn [position f1 set_position]; lia).
      exists dest', f', s'. rewrite Hloop.
      split; [reflexivity|]. split; [lia|].
      split; [cbn in Hp; lia | exact Hsame].
Qed.
End Read.

(** C6.  On an open handle of a regular file, with the volume ready: a
    read at or past the end of the file returns OK and zero bytes and
    changes nothing; a read below the end returns exactly the smaller of
    the request and the remaining [file_size - position] bytes, provided
    the clusters [cs] of the file cover its size and are on the card. *)
Theorem read_at_eof_and_clipping (f : fat32_file_t) (w : world) (size : Z) :
  is_open f = true ->
  Z.land (attributes f) FAT32_ATTR_DIRECTORY = 0 ->
  ready w ->
  (file_size f <= position f ->
   fat32_read true size (f, w) = Ret (0, []) (f, w))
  /\ (0 <= position f < file_size f ->
      file_size f < 2 ^ 32 ->
      0 <= size ->
      forall cs : list Z,
        bytes_per_cluster w = sectors_per_cluster (boot_sector w) * 512 ->
        0 < sectors_per_cluster (boot_sector w) ->
        head cs = Some (start_cluster f) ->
        linked w cs ->
        clusters_on_card w cs ->
        file_size f <= Z.of_nat (length cs) * bytes_per_cluster w ->
        exists data f' w',
          fat32_read true size (f, w)
          = Ret (Z.min size (file_size f - position f), data) (f', w')
          /\ length data
             = Z.to_nat (Z.min size (file_size f - position f))
          /\ position f'
             = position f + Z.min size (file_size f - position f)
          /\ same_file f f'
          /\ sd_blocks (card w') = sd_blocks (card w)).
Proof.
  intros Hopen Hfile Hready. split.
  - intros Heof. unfold fat32_read.
    cbv [bind get_file liftw]. world_simpl.
    rewrite Hopen, Hfile. cbn [negb orb Z.eqb]. world_simpl.
    rewrite (require_ready_ready w Hready).
    destruct (Z.ltb_spec (position f) (file_size f)); [lia|]. reflexivity.
  - intros Hpos Hmax Hsize cs Hbpc Hspc Hhead Hlinked Hcard Hcover.
    unfold fat32_read.
    cbv [bind get_file get_world liftw]. world_simpl.
    rewrite Hopen, Hfile. cbn [negb orb Z.eqb]. world_simpl.
    rewrite (require_ready_ready w Hready).
    destruct (Z.ltb_spec (position f) (file_size f)); [|lia]. cbn [negb].
    cbv [get_world]. world_simpl.
    set (remaining := file_size f - position f).
    set (size' := if remaining <? size then remaining else size).
    assert (Hsize' : size' = Z.min size remaining).
    { subst size'. destruct (Z.ltb_spec remaining size); lia. }
    assert (Hbpos : 0 < bytes_per_cluster w) by lia.
    assert (Hq : 0 <= position f / bytes_per_cluster w)
      by (apply Z.div_pos; lia).
    assert (Hidx : (Z.to_nat (position f / bytes_per_cluster w)
                    < length cs)%nat).
    { pose proof (Z.div_mod (position f) (bytes_per_cluster w) ltac:(lia)).
      pose proof (Z.mod_pos_bound (position f) (bytes_per_cluster w) Hbpos).
      nia. }
    destruct (lookup_lt_is_Some_2 cs _ Hidx) as [c Hc].
    assert (H0 : cs !! O = Some (start_cluster f)).
    { destruct cs; [done|]. cbn in Hhead. by injection Hhead as ->. }
    unfold seek_to_cluster.
    destruct (seek_to_cluster_loop_linked w cs _ _ _ Hlinked H0 Hc)
      as [s1 Hseek].
    rewrite Hseek. cbv [modify_file]. world_simpl.
    destruct (fat32_read_loop_ok w cs Hbpc Hspc Hlinked Hcard
                (Z.to_nat size') size' 0 [] (set_current_cluster c f) s1)
      as (data & f' & s' & Hloop & Hlen & Hp & Hsame);
      try (world_simpl; lia).
    { intros _. exact Hc. }
    exists data, f', (set_sector_buffer s' w).
    rewrite Hloop. rewrite <- Hsize'.
    split; [reflexivity|].
    split; [cbn in Hlen; lia|].
    split; [cbn in Hp; lia|].
    split; [exact Hsame | reflexivity].
Qed.

Lemma elem_of_two (c a b : Z) : c ∈ [a; b] -> c = a \/ c = b.
Proof.
  intros H. apply elem_of_cons in H as [->|H]; [by left|].
  apply elem_of_cons in H as [->|H]; [by right|].
  by apply elem_of_nil in H.
Qed.

(** The file of 1500 bytes on the demo volume: a read at its end gives no
    bytes, and a read of 4096 bytes at byte 1000 gives the last 500. *)
Lemma read_at_eof_and_clipping_witness :
  (let f := demo_grown.1 in
   let w := demo_grown.2 in
   fat32_read true 10 (f, w) = Ret (0, []) (f, w))
  /\ (let f := demo_rewound.1 in
      let w := demo_rewound.2 in
      exists data f' w',
        fat32_read true 4096 (f, w)
        = Ret (Z.min 4096 (file_size f - position f), data) (f', w')
        /\ length data = Z.to_nat (Z.min 4096 (file_size f - position f))
        /\ position f' = position f + Z.min 4096 (file_size f - position f)
        /\ same_file f f'
        /\ sd_blocks (card w') = sd_blocks (card w)).
Proof.
  split; cbv zeta.
  - assert (Hopen : is_open demo_grown.1 = true) by (vm_compute; reflexivity).
    assert (Hfile : Z.land (attributes demo_grown.1) FAT32_ATTR_DIRECTORY = 0)
      by (vm_compute; reflexivity).
    assert (Hready : ready demo_grown.2)
      by (repeat apply conj; vm_compute; reflexivity).
    destruct (read_at_eof_and_clipping demo_grown.1 demo_grown.2 10
                Hopen Hfile Hready) as [Heof _].
    apply Heof. vm_compute. discriminate.
  - assert (Hopen : is_open demo_rewound.1 = true)
      by (vm_compute; reflexivity).
    assert (Hfile : Z.land (attributes demo_rewound.1) FAT32_ATTR_DIRECTORY
                    = 0) by (vm_compute; reflexivity).
    assert (Hready : ready demo_rewound.2)
      by (repeat apply conj; vm_compute; reflexivity).
    destruct (read_at_eof_and_clipping demo_rewound.1 demo_rewound.2 4096
                Hopen Hfile Hready) as [_ Hclip].
    apply (fun H1 H2 H3 => Hclip H1 H2 H3 [3; 4]).
    + split; vm_compute; first [reflexivity | discriminate].
    + vm_compute. reflexivity.
    + vm_compute. discriminate.
    + vm_compute. reflexivity.
    + vm_compute. reflexivity.
    + vm_compute. reflexivity.
    + split; [vm_compute; reflexivity|].
      split; [vm_compute; reflexivity | exact I].
    + intros c j Hc Hj.
      assert (Hspc : sectors_per_cluster (boot_sector demo_rewound.2) = 2)
        by (vm_compute; reflexivity).
      rewrite Hspc in Hj. clear Hspc.
      assert (Hj' : j = 0 \/ j = 1) by lia. clear Hj.
      destruct (elem_of_two _ _ _ Hc) as [-> | ->];
        destruct Hj' as [-> | ->]; vm_compute; eexists; reflexivity.
    + vm_compute. discriminate.
Defined.

(** ** The FAT as a table of clusters *)

Lemma u32_add_cancel (a b c : Z) :
  0 <= b < 2 ^ 32 -> 0 <= c < 2 ^ 32 -> u32 (a + b) = u32 (a + c) -> b = c.
Proof.
  unfold u32. intros Hb Hc H.
  assert (Hd : (b - c) mod 2 ^ 32 = 0).
  { replace (b - c) with ((a + b) - (a + c)) by lia.
    rewrite Zminus_mod, H, Z.sub_diag. reflexivity. }
  apply Z.mod_divide in Hd; [|lia]. destruct Hd as [k Hk]. lia.
Qed.

Section Layout.
Variable w : world.
Hypothesis Hlayout : layout_ok w.

Lemma fat_sector_in_range (c : Z) :
  in_range w c ->
  fat_sector_of w c = reserved_sectors (boot_sector w) + c * 4 / 512
  /\ reserved_sectors (boot_sector w) <= fat_sector_of w c < first_data_sector w.
Proof.
  destruct Hlayout as (_ & _ & Hcc & Heoc & Hinfo & Hfat & Hdata & _).
  intros [Hc1 Hc2]. unfold fat_sector_of, FAT32_SECTOR_SIZE, SD_BLOCK_SIZE.
  unfold FAT32_FAT_ENTRY_EOC in Heoc.
  assert (H4 : u32 (c * 4) = c * 4) by (apply u32_small; lia).
  rewrite H4.
  assert (Hq : 0 <= c * 4 / 512 <= (cluster_count w + 2) * 4 / 512).
  { split; [apply Z.div_pos; lia | apply Z.div_le_mono; lia]. }
  assert (Hd : first_data_sector w <= 2 ^ 32).
  { destruct Hlayout as (Hspc & _). nia. }
  rewrite u32_small by lia. lia.
Qed.

Lemma fat_offset_in_range (c : Z) :
  in_range w c -> fat_offset_of c = c * 4 mod 512.
Proof.
  destruct Hlayout as (_ & _ & Hcc & Heoc & _).
  intros [Hc1 Hc2]. unfold fat_offset_of, FAT32_SECTOR_SIZE, SD_BLOCK_SIZE.
  unfold FAT32_FAT_ENTRY_EOC in Heoc.
  by rewrite u32_small by lia.
Qed.

(** Two clusters whose entries are in the same FAT block have entries
    at least four bytes apart. *)
Lemma fat_entries_apart (c c' : Z) :
  in_range w c -> in_range w c' -> c <> c' ->
  fat_block w c = fat_block w c' ->
  fat_offset_of c' + 4 <= fat_offset_of c
  \/ fat_offset_of c + 4 <= fat_offset_of c'.
Proof.
  intros Hc Hc' Hne Hblock.
  destruct (fat_sector_in_range c Hc) as [Hs Hr].
  destruct (fat_sector_in_range c' Hc') as [Hs' Hr'].
  unfold fat_block in Hblock.
  assert (Hd : first_data_sector w <= 2 ^ 32).
  { destruct Hlayout as (Hspc & _ & Hcc & _ & _ & _ & Hdata & _). nia. }
  assert (Hres : 0 <= reserved_sectors (boot_sector w))
    by (destruct Hlayout as (_ & _ & _ & _ & Hinfo & _); lia).
  apply u32_add_cancel in Hblock; [|lia|lia].
  rewrite Hs, Hs' in Hblock.
  rewrite !fat_offset_in_range by done.
  pose proof (Z.div_mod (c * 4) 512 ltac:(lia)).
  pose proof (Z.div_mod (c' * 4) 512 ltac:(lia)).
  pose proof (Z.mod_pos_bound (c * 4) 512 ltac:(lia)).
  pose proof (Z.mod_pos_bound (c' * 4) 512 ltac:(lia)).
  assert (Hm : (c * 4 mod 512) mod 4 = 0).
  { rewrite Z.mod_mod_divide by (exists 128; lia).
    apply Z.mod_mul. lia. }
  assert (Hm' : (c' * 4 mod 512) mod 4 = 0).
  { rewrite Z.mod_mod_divide by (exists 128; lia).
    apply Z.mod_mul. lia. }
  apply Z.mod_divide in Hm; [|lia]. apply Z.mod_divide in Hm'; [|lia].
  destruct Hm as [k Hk], Hm' as [k' Hk']. lia.
Qed.

(** A sector of the data region, or the FSInfo sector, holds no FAT
    entry. *)
Lemma data_sector_not_fat (sec c : Z) :
  in_range w c ->
  (first_data_sector w <= sec < 2 ^ 32
   \/ 0 <= sec < reserved_sectors (boot_sector w)) ->
  u32 (volume_start_block w + sec) <> fat_block w c.
Proof.
  intros Hc Hsec Heq.
  destruct (fat_sector_in_range c Hc) as [Hs Hr].
  assert (Hd : first_data_sector w <= 2 ^ 32).
  { destruct Hlayout as (Hspc & _ & Hcc & _ & _ & _ & Hdata & _). nia. }
  destruct Hlayout as (_ & _ & _ & _ & Hinfo & _).
  unfold fat_block in Heq.
  apply u32_add_cancel in Heq; lia.
Qed.

Lemma cluster_sector_in_data (c j : Z) :
  in_range w c -> 0 <= j < sectors_per_cluster (boot_sector w) ->
  let sec := u32 (u32 (u32 ((c - 2) * sectors_per_cluster (boot_sector w))
                       + first_data_sector w) + j) in
  first_data_sector w <= sec < 2 ^ 32.
Proof.
  intros [Hc1 Hc2] Hj sec.
  destruct Hlayout as (Hspc & _ & Hcc & Heoc & Hinfo & Hfat & Hdata & _).
  assert (Hf : 0 <= first_data_sector w).
  { assert (0 <= (cluster_count w + 2) * 4 / 512)
      by (apply Z.div_pos; lia). lia. }
  subst sec.
  rewrite (u32_small ((c - 2) * sectors_per_cluster (boot_sector w))) by nia.
  rewrite (u32_small ((c - 2) * sectors_per_cluster (boot_sector w)
                      + first_data_sector w)) by nia.
  rewrite u32_small by nia. nia.
Qed.
End Layout.

Lemma volume_of_ready (w w' : world) :
  volume_of w' = volume_of w -> ready w -> ready w'.
Proof.
  unfold volume_of, ready. intros [= -> -> -> _ _ _ _ _]. done.
Qed.

Lemma volume_of_layout (w w' : world) :
  volume_of w' = volume_of w -> layout_ok w -> layout_ok w'.
Proof.
  unfold volume_of, layout_ok. intros [= _ _ _ -> _ -> -> ->]. done.
Qed.

Lemma volume_of_in_range (w w' : world) (c : Z) :
  volume_of w' = volume_of w -> in_range w' c <-> in_range w c.
Proof.
  unfold volume_of, in_range. intros [= _ _ _ _ _ _ -> _]. done.
Qed.

Lemma volume_of_fat_block (w w' : world) (c : Z) :
  volume_of w' = volume_of w -> fat_block w' c = fat_block w c.
Proof.
  unfold volume_of, fat_block, fat_sector_of. intros [= _ _ _ -> -> _ _ _].
  done.
Qed.

Lemma fat_entry_same_blocks (w w' : world) (c : Z) :
  volume_of w' = volume_of w ->
  sd_blocks (card w') = sd_blocks (card w) ->
  fat_entry w' c = fat_entry w c.
Proof.
  intros Hv Hb. unfold fat_entry.
  by rewrite (volume_of_fat_block _ _ _ Hv), Hb.
Qed.

Lemma fat_step_refl (w : world) : volume_ok w -> fat_step [] w w.
Proof. intros H. split; [done|]. split; done. Qed.

Lemma fat_step_trans (l1 l2 : list Z) (w w1 w2 : world) :
  fat_step l1 w w1 -> fat_step l2 w1 w2 -> fat_step (l1 ++ l2) w w2.
Proof.
  intros (Hok1 & Hv1 & Hf1) (Hok2 & Hv2 & Hf2).
  split; [done|]. split; [congruence|].
  intros c Hc Hn. rewrite not_elem_of_app in Hn. destruct Hn as [Hn1 Hn2].
  rewrite Hf2; [by apply Hf1 | by apply (volume_of_in_range w w1) | done].
Qed.

Lemma fat_step_weaken (l l' : list Z) (w w' : world) :
  l ⊆ l' -> fat_step l w w' -> fat_step l' w w'.
Proof.
  intros Hsub (Hok & Hv & Hf). split; [done|]. split; [done|].
  intros c Hc Hn. apply Hf; [done|]. intros Hin. apply Hn. by apply Hsub.
Qed.

(** Changes that leave every block of the card alone. *)
Lemma fat_step_same_blocks (w w' : world) :
  volume_ok w -> volume_of w' = volume_of w ->
  sd_blocks (card w') = sd_blocks (card w) ->
  fat_step [] w w'.
Proof.
  intros (Hr & Hl & Hb) Hv Hblocks. split; [|split; [done|]].
  - split; [by eapply volume_of_ready|].
    split; [by eapply volume_of_layout|].
    intros c s Hc. rewrite (volume_of_fat_block _ _ _ Hv), Hblocks.
    apply Hb. by apply (volume_of_in_range w w').
  - intros c _ _. by apply fat_entry_same_blocks.
Qed.

Lemma fat_step_buffer (w : world) (s : sector) :
  volume_ok w -> fat_step [] w (set_sector_buffer s w).
Proof. intros H. by apply fat_step_same_blocks. Qed.

Lemma fat_step_fsinfo (w : world) (f : fat32_fsinfo_t) :
  volume_ok w -> fat_step [] w (set_fsinfo f w).
Proof. intros H. by apply fat_step_same_blocks. Qed.

(** A write to a sector of the data region or of the reserved area. *)
Lemma fat_step_write_sector (w w' : world) (sec : Z) (buf : sector) :
  volume_ok w ->
  (first_data_sector w <= sec < 2 ^ 32
   \/ 0 <= sec < reserved_sectors (boot_sector w)) ->
  write_sector sec buf w = Ret tt w' ->
  fat_step [] w w'.
Proof.
  intros (Hr & Hl & Hb) Hsec. unfold write_sector, sd_write_block.
  cbv [bind get].
  destruct (sd_blocks (card w) !! _) as [old|]; [|discriminate].
  intros [= <-].
  assert (Hne : forall c, in_range w c ->
                  u32 (volume_start_block w + sec) <> fat_block w c)
    by (intros c Hc; by apply data_sector_not_fat).
  split; [|split; [done|]].
  - split; [done|]. split; [done|].
    intros c s Hc. cbn. change (fat_block (set_blocks _ w) c)
      with (fat_block w c).
    rewrite lookup_insert_ne by by apply Hne. by apply Hb.
  - intros c Hc _. unfold fat_entry. cbn.
    change (fat_block (set_blocks _ w) c) with (fat_block w c).
    by rewrite lookup_insert_ne by by apply Hne.
Qed.

Lemma read_sector_inv (w w' : world) (sec : Z) :
  read_sector sec w = Ret tt w' ->
  exists s, sd_blocks (card w) !! u32 (volume_start_block w + sec) = Some s
            /\ w' = set_sector_buffer s w.
Proof.
  unfold read_sector, sd_read_block. cbv [bind get modify].
  destruct (sd_blocks (card w) !! _) as [s|]; [|discriminate].
  intros [= <-]. by exists s.
Qed.

Lemma read_cluster_fat_entry_inv (c v : Z) (w w' : world) :
  read_cluster_fat_entry c w = Ret v w' ->
  fat_entry w c = Some v /\ exists s, w' = set_sector_buffer s w.
Proof.
  unfold read_cluster_fat_entry, fat_entry.
  destruct (Z.ltb_spec c 2); [discriminate|].
  cbv [bind get ret]. unfold read_sector, sd_read_block.
  cbv [bind get modify]. fold (fat_block w c).
  destruct (sd_blocks (card w) !! fat_block w c) as [s|]; [|discriminate].
  intros [= <- <-]. split; [done | by exists s].
Qed.

Lemma write_cluster_fat_entry_inv (c v : Z) (w w' : world) :
  write_cluster_fat_entry c v w = Ret tt w' ->
  2 <= c
  /\ exists s,
      sd_blocks (card w) !! fat_block w c = Some s
      /\ w' = set_blocks (<[fat_block w c := fat_sector_update s c v]>
                            (sd_blocks (card w)))
                         (set_sector_buffer (fat_sector_update s c v) w).
Proof.
  intros H. destruct (Z.ltb_spec c 2) as [Hlt|Hge].
  { rewrite write_cluster_fat_entry_low in H by done. discriminate. }
  split; [done|].
  destruct (sd_blocks (card w) !! fat_block w c) as [s|] eqn:Hs.
  - exists s. split; [done|].
    rewrite (write_cluster_fat_entry_block c v w s Hge Hs) in H.
    by injection H as <-.
  - exfalso. unfold write_cluster_fat_entry in H.
    destruct (Z.ltb_spec c 2); [lia|].
    unfold read_sector, sd_read_block in H. cbv [bind get modify] in H.
    fold (fat_block w c) in H. rewrite Hs in H. discriminate.
Qed.

(** Writing the FAT entry of a cluster of the volume. *)
Lemma fat_step_write_entry (c v : Z) (w w' : world) :
  volume_ok w -> in_range w c ->
  write_cluster_fat_entry c v w = Ret tt w' ->
  fat_step [c] w w' /\ fat_entry w' c = Some (Z.land v 0x0FFFFFFF).
Proof.
  intros (Hr & Hl & Hb) Hc Hw.
  destruct (write_cluster_fat_entry_inv _ _ _ _ Hw) as (Hc2 & s & Hs & ->).
  pose proof (Hb c s Hc Hs) as Hlen.
  pose proof (fat_offset_range c) as Hoff.
  assert (Hnew : le32 (fat_sector_update s c v) (fat_offset_of c)
                 = Z.lor (Z.land (le32 s (fat_offset_of c)) 0xF0000000)
                         (Z.land v 0x0FFFFFFF)).
  { unfold fat_sector_update. rewrite le32_put_le32 by lia.
    apply fat_word_32. }
  split.
  - split; [|split; [done|]].
    + split; [done|]. split; [done|].
      intros c' s' Hc'. cbn.
      change (fat_block (set_blocks _ _) c') with (fat_block w c').
      destruct (decide (fat_block w c = fat_block w c')) as [Heq|Hne].
      * rewrite Heq, lookup_insert_eq. intros [= <-].
        unfold fat_sector_update. by rewrite length_put_le32.
      * rewrite lookup_insert_ne by done. by apply Hb.
    + intros c' Hc' Hn. rewrite not_elem_of_cons in Hn.
      destruct Hn as [Hn _]. unfold fat_entry.
      destruct (Z.ltb_spec c' 2); [done|]. cbn.
      change (fat_block (set_blocks _ _) c') with (fat_block w c').
      destruct (decide (fat_block w c = fat_block w c')) as [Heq|Hne].
      * rewrite Heq, lookup_insert_eq. rewrite <- Heq, Hs.
        f_equal. f_equal. unfold fat_sector_update.
        apply le32_put_le32_other; [lia | by destruct (fat_offset_range c')|].
        by apply (fat_entries_apart w Hl c c').
      * by rewrite lookup_insert_ne.
  - unfold fat_entry. destruct (Z.ltb_spec c 2); [lia|]. cbn.
    change (fat_block (set_blocks _ _) c) with (fat_block w c).
    rewrite lookup_insert_eq, Hnew. by rewrite fat_word_low.
Qed.

(** ** Cluster chains *)

Lemma fat_entry_Some_ge (w : world) (c v : Z) :
  fat_entry w c = Some v -> 2 <= c.
Proof.
  unfold fat_entry. destruct (Z.ltb_spec c 2); [discriminate | done].
Qed.

Lemma fat_entry_range (w : world) (c v : Z) :
  fat_entry w c = Some v -> 0 <= v < 2 ^ 28.
Proof.
  unfold fat_entry. destruct (c <? 2); [discriminate|].
  destruct (sd_blocks (card w) !! fat_block w c); [|discriminate].
  intros [= <-]. apply land_28_range.
Qed.

Lemma linked_cons (w : world) (c c' : Z) (cs : list Z) :
  linked w (c :: c' :: cs)
  <-> fat_entry w c = Some c' /\ c' < FAT32_FAT_ENTRY_EOC
      /\ linked w (c' :: cs).
Proof. reflexivity. Qed.

Lemma linked_app_l (w : world) (a b : list Z) :
  linked w (a ++ b) -> linked w a.
Proof.
  induction a as [|x a IH]; [done|].
  destruct a as [|y a]; [done|].
  cbn [app]. rewrite !linked_cons. intros (H1 & H2 & H3).
  split; [done|]. split; [done|]. by apply IH.
Qed.

Lemma linked_snoc (w : world) (pre : list Z) (l n : Z) :
  linked w (pre ++ [l]) -> fat_entry w l = Some n ->
  n < FAT32_FAT_ENTRY_EOC ->
  linked w (pre ++ [l; n]).
Proof.
  intros Hl Hn Hlt. induction pre as [|x pre IH].
  - cbn. done.
  - destruct pre as [|y pre].
    + cbn [app] in *. rewrite linked_cons in Hl. rewrite !linked_cons.
      destruct Hl as (H1 & H2 & _). done.
    + cbn [app] in *. rewrite linked_cons in Hl. rewrite linked_cons.
      destruct Hl as (H1 & H2 & H3). split; [done|]. split; [done|].
      by apply IH.
Qed.

Lemma linked_frame (w w' : world) (cs : list Z) :
  (forall c, c ∈ cs -> fat_entry w' c = fat_entry w c) ->
  linked w cs -> linked w' cs.
Proof.
  induction cs as [|x cs IH]; [done|].
  destruct cs as [|y cs]; [done|].
  intros Hsame. rewrite !linked_cons. intros (H1 & H2 & H3).
  split; [rewrite Hsame; [done | left]|]. split; [done|].
  apply IH; [|done]. intros c Hc. apply Hsame. by right.
Qed.

(** In a linked list of clusters of the volume that ends in a cluster in
    use, every cluster is in use. *)
Lemma linked_in_use (w : world) (pre : list Z) (l : Z) :
  linked w (pre ++ [l]) -> Forall (in_range w) (pre ++ [l]) ->
  (exists v, fat_entry w l = Some v /\ v <> 0) ->
  in_use w (pre ++ [l]).
Proof.
  intros Hl Hr Hlast. induction pre as [|x pre IH].
  - intros c Hc. apply list_elem_of_singleton in Hc as ->. done.
  - cbn [app] in *. apply Forall_cons in Hr as [Hx Hr].
    assert (Hrest : linked w (pre ++ [l])).
    { destruct (pre ++ [l]) as [|y r] eqn:E; [done|].
      rewrite linked_cons in Hl. by destruct Hl as (_ & _ & Hl). }
    intros c Hc. apply elem_of_cons in Hc as [->|Hc]; [|by apply IH].
    destruct (pre ++ [l]) as [|y r] eqn:E.
    { by destruct pre. }
    rewrite linked_cons in Hl. destruct Hl as (Hy & _ & _).
    exists y. split; [done|].
    apply Forall_cons in Hr as [[Hy2 _] _]. lia.
Qed.

Lemma chain_in_use (w : world) (start : Z) (cs : list Z) :
  file_chain w start cs -> in_use w cs.
Proof.
  intros ((Hhead & Hl & c & v & Hlast & Hv & Heoc) & _ & Hr).
  destruct cs as [|x cs] using rev_ind; [done|]. clear IHcs.
  rewrite last_snoc in Hlast. injection Hlast as ->.
  apply linked_in_use; [done | done|].
  exists v. split; [done|]. unfold FAT32_FAT_ENTRY_EOC in Heoc. lia.
Qed.

Lemma in_use_not_free (w : world) (cs : list Z) (c : Z) :
  in_use w cs -> fat_entry w c = Some 0 -> c ∉ cs.
Proof.
  intros Hu Hc Hin. destruct (Hu c Hin) as (v & Hv & Hne). congruence.
Qed.

(** ** Allocation *)

Lemma get_next_free_cluster_from_inv (n : nat) (i c : Z) (w w' : world) :
  i + Z.of_nat n <= 2 ^ 32 ->
  get_next_free_cluster_from n i w = Ret c w' ->
  fat_entry w c = Some 0 /\ i <= c < i + Z.of_nat n
  /\ exists s, w' = set_sector_buffer s w.
Proof.
  revert i w. induction n as [|n IH]; intros i w Hb; cbn [get_next_free_cluster_from].
  - discriminate.
  - cbv [bind].
    destruct (read_cluster_fat_entry i w) as [v w1| |] eqn:Hread;
      try discriminate.
    apply read_cluster_fat_entry_inv in Hread as [Hv [s ->]].
    unfold FAT32_FAT_ENTRY_FREE.
    destruct (Z.eqb_spec v 0) as [->|Hne].
    + intros [= <- <-]. split; [done|]. split; [lia | by exists s].
    + pose proof (fat_entry_Some_ge _ _ _ Hv) as Hi.
      destruct n as [|n]; [discriminate|].
      rewrite (u32_small (i + 1)) by lia.
      intros H. apply IH in H; [|lia].
      destruct H as (Hc & Hr & s' & ->).
      split; [done|]. split; [lia | by exists s'].
Qed.

Lemma get_next_free_cluster_inv (c : Z) (w w' : world) :
  layout_ok w ->
  get_next_free_cluster w = Ret c w' ->
  fat_entry w c = Some 0 /\ in_range w c
  /\ exists s, w' = set_sector_buffer s w.
Proof.
  intros (_ & _ & Hcc & Heoc & _) H.
  unfold get_next_free_cluster in H. cbv [bind get] in H.
  unfold FAT32_FAT_ENTRY_EOC in Heoc.
  rewrite (u32_small (cluster_count w + 2)) in H by lia.
  set (start := if negb (next_free (fsinfo w) =? 4294967295)
                then next_free (fsinfo w) else 2) in H.
  destruct (Z.le_gt_cases (cluster_count w + 2) start) as [Hle|Hgt].
  { replace (Z.to_nat (cluster_count w + 2 - start)) with O in H by lia.
    discriminate. }
  apply get_next_free_cluster_from_inv in H; [|lia].
  destruct H as (Hc & Hr & Hw). split; [done|]. split; [|done].
  pose proof (fat_entry_Some_ge _ _ _ Hc). unfold in_range. lia.
Qed.

Lemma decrease_free_count_step (w w' : world) :
  volume_ok w ->
  decrease_free_count w = Ret tt w' ->
  fat_step [] w w'.
Proof.
  intros Hok. unfold decrease_free_count. cbv [bind get].
  destruct (negb (free_count (fsinfo w) =? 4294967295)).
  - cbv [modify try ret update_fsinfo bind get].
    cbn [boot_sector set_fsinfo fsinfo].
    set (w1 := set_fsinfo _ w).
    assert (Hok1 : fat_step [] w w1) by (by apply fat_step_fsinfo).
    destruct (write_sector _ _ w1) as [[] w2|e w2|] eqn:Hw; try discriminate.
    + intros [= <-].
      apply (fat_step_trans [] [] w w1 w2); [done|].
      apply (fat_step_write_sector w1 w2 _ _ (proj1 Hok1)) in Hw; [done|].
      right. destruct Hok as (_ & (_ & _ & _ & _ & Hinfo & _) & _).
      exact Hinfo.
    + intros [= <-].
      unfold write_sector, sd_write_block in Hw. cbv [bind get] in Hw.
      destruct (sd_blocks (card w1) !! _); [discriminate|].
      by injection Hw as _ <-.
  - intros [= <-]. by apply fat_step_refl.
Qed.

(** A successful [allocate_and_link_cluster]: the new cluster was free, it
    now ends the chain and the last cluster points to it. *)
Lemma allocate_and_link_cluster_inv (last new : Z) (w w' : world) :
  volume_ok w -> in_range w last ->
  (exists v, fat_entry w last = Some v /\ v <> 0) ->
  allocate_and_link_cluster last w = Ret new w' ->
  fat_entry w new = Some 0 /\ in_range w new /\ new <> last
  /\ fat_step [last; new] w w'
  /\ fat_entry w' last = Some new
  /\ fat_entry w' new = Some FAT32_FAT_ENTRY_EOC.
Proof.
  intros Hok Hlast (v & Hv & Hne). unfold allocate_and_link_cluster.
  cbv [bind].
  destruct (get_next_free_cluster w) as [c w1| |] eqn:Hfree; try discriminate.
  apply get_next_free_cluster_inv in Hfree as (Hc0 & Hc & s & ->);
    [|by destruct Hok as (_ & ? & _)].
  assert (Hcl : c <> last) by (intros ->; congruence).
  pose proof (fat_step_buffer w s Hok) as Hs1.
  destruct (write_cluster_fat_entry last c _) as [[] w2| |] eqn:Hw1;
    try discriminate.
  apply fat_step_write_entry in Hw1 as [Hs2 Hl2]; [|by destruct Hs1|done].
  destruct (write_cluster_fat_entry c _ w2) as [[] w3| |] eqn:Hw2;
    try discriminate.
  apply fat_step_write_entry in Hw2 as [Hs3 Hc3];
    [|by destruct Hs2|].
  2:{ apply (volume_of_in_range (set_sector_buffer s w) w2);
        [by destruct Hs2 as (_ & ? & _) | exact Hc]. }
  destruct (decrease_free_count w3) as [[] w4| |] eqn:Hd; try discriminate.
  apply decrease_free_count_step in Hd; [|by destruct Hs3].
  cbv [ret]. intros [= <- <-].
  assert (Hc28 : Z.land c 0x0FFFFFFF = c).
  { rewrite land_28. apply Z.mod_small.
    destruct Hok as (_ & (_ & _ & _ & Heoc & _) & _).
    unfold FAT32_FAT_ENTRY_EOC in Heoc. unfold in_range in Hc. lia. }
  assert (Hv2 : volume_of w2 = volume_of w) by (by destruct Hs2 as (_ & ? & _)).
  assert (Hv3 : volume_of w3 = volume_of w) by (destruct Hs3 as (_ & ? & _); congruence).
  assert (Hr2 : forall x, in_range w x -> in_range w2 x)
    by (intros x Hx; by apply (volume_of_in_range w w2)).
  assert (Hr3 : forall x, in_range w x -> in_range w3 x)
    by (intros x Hx; by apply (volume_of_in_range w w3)).
  split; [done|]. split; [done|]. split; [done|].
  split; [|split].
  - apply (fat_step_weaken ([last] ++ [c] ++ [])); [set_solver|].
    eapply fat_step_trans; [exact Hs2|].
    eapply fat_step_trans; [exact Hs3 | exact Hd].
  - destruct Hd as (_ & _ & Hd). rewrite Hd; [|by apply Hr3|set_solver].
    destruct Hs3 as (_ & _ & Hs3).
    rewrite Hs3; [|by apply Hr2|].
    2:{ intros Hin. apply list_elem_of_singleton in Hin. congruence. }
    by rewrite Hl2, Hc28.
  - destruct Hd as (_ & _ & Hd). rewrite Hd; [|by apply Hr3|set_solver].
    rewrite Hc3. reflexivity.
Qed.

Lemma file_chain_growing (w : world) (start : Z) (cs : list Z) :
  file_chain w start cs -> growing w start cs.
Proof.
  intros Hc. pose proof (chain_in_use _ _ _ Hc) as Hu.
  destruct Hc as ((Hh & Hl & _) & Hn & Hr). by repeat split.
Qed.

Lemma growing_file_chain (w : world) (start last : Z) (pre : list Z) :
  growing w start (pre ++ [last]) ->
  fat_entry w last = Some FAT32_FAT_ENTRY_EOC ->
  file_chain w start (pre ++ [last]).
Proof.
  intros (Hh & Hl & Hn & Hr & Hu) Hlast.
  split; [|done]. split; [done|]. split; [done|].
  exists last, FAT32_FAT_ENTRY_EOC. by rewrite last_snoc.
Qed.

(** Linking a freshly allocated cluster to the end of the list. *)
Lemma growing_extend (w w' : world) (start last new : Z) (pre : list Z) :
  volume_ok w ->
  growing w start (pre ++ [last]) ->
  fat_entry w new = Some 0 -> in_range w new ->
  fat_step [last; new] w w' ->
  fat_entry w' last = Some new ->
  fat_entry w' new = Some FAT32_FAT_ENTRY_EOC ->
  growing w' start ((pre ++ [last]) ++ [new]).
Proof.
  intros Hok (Hh & Hl & Hn & Hr & Hu) Hfree Hnew (Hok' & Hv & Hframe)
         Hlast' Hnew'.
  assert (Hnotin : new ∉ pre ++ [last]) by (by eapply in_use_not_free).
  assert (Heoc : new < FAT32_FAT_ENTRY_EOC).
  { destruct Hok as (_ & (_ & _ & _ & Heoc & _) & _).
    unfold in_range in Hnew. lia. }
  pose proof Hn as Hn'.
  apply NoDup_app in Hn' as (Hn1 & Hn2 & _).
  assert (Hpre : forall c, c ∈ pre -> fat_entry w' c = fat_entry w c).
  { intros c Hc. apply Hframe.
    - rewrite Forall_forall in Hr. apply Hr. set_solver.
    - intros Hin. apply elem_of_cons in Hin as [->|Hin].
      + apply (Hn2 last); [done | set_solver].
      + apply list_elem_of_singleton in Hin as ->. set_solver. }
  split; [by destruct pre|]. split; [|split; [|split]].
  - rewrite <- app_assoc. cbn [app]. apply linked_snoc; [|done|done].
    destruct pre as [|p pre] using rev_ind; [done|]. clear IHpre.
    rewrite <- app_assoc. cbn [app].
    apply linked_snoc.
    + apply (linked_frame w); [|by eapply linked_app_l].
      intros c Hc. by apply Hpre.
    + rewrite Hpre by set_solver.
      rewrite <- app_assoc in Hl. cbn [app] in Hl.
      clear -Hl. induction pre as [|x pre IH].
      * cbn in Hl. by destruct Hl.
      * apply IH. destruct (pre ++ [p; last]) as [|y r] eqn:E;
          [by destruct pre|].
        cbn [app] in Hl. rewrite E, linked_cons in Hl. by destruct Hl as (_ & _ & ?).
    + rewrite Forall_forall in Hr.
      destruct (Hr last ltac:(set_solver)) as [_ Hlt].
      destruct Hok as (_ & (_ & _ & _ & Heoc' & _) & _). lia.
  - apply NoDup_app. split; [|split].
    + done.
    + intros x Hx Hx'. apply list_elem_of_singleton in Hx' as ->. done.
    + apply NoDup_singleton.
  - apply Forall_app. split.
    + eapply Forall_impl; [exact Hr|]. intros x Hx.
      by apply (volume_of_in_range w w').
    + constructor; [|constructor]. by apply (volume_of_in_range w w').
  - intros c Hc. apply elem_of_app in Hc as [Hc|Hc].
    + apply elem_of_app in Hc as [Hc|Hc].
      * rewrite Hpre by done. apply Hu. set_solver.
      * apply list_elem_of_singleton in Hc as ->.
        exists new. split; [done|]. unfold in_range in Hnew. lia.
    + apply list_elem_of_singleton in Hc as ->.
      exists FAT32_FAT_ENTRY_EOC. split; [done | discriminate].
Qed.

(** ** Cluster chains under the steps of a write *)

Lemma growing_fat_step (w w' : world) (start : Z) (cs : list Z) :
  fat_step [] w w' -> growing w start cs -> growing w' start cs.
Proof.
  intros (Hok & Hv & Hf) (Hh & Hl & Hn & Hr & Hu).
  assert (Hsame : forall c, c ∈ cs -> fat_entry w' c = fat_entry w c).
  { intros c Hc. apply Hf; [|set_solver].
    rewrite Forall_forall in Hr. by apply Hr. }
  split; [done|]. split; [by apply (linked_frame w)|]. split; [done|].
  split.
  - eapply Forall_impl; [exact Hr|]. intros x Hx.
    by apply (volume_of_in_range w w').
  - intros c Hc. rewrite Hsame by done. by apply Hu.
Qed.

Lemma file_chain_fat_step (w w' : world) (start : Z) (cs : list Z) :
  fat_step [] w w' -> file_chain w start cs -> file_chain w' start cs.
Proof.
  intros Hstep Hc.
  pose proof (growing_fat_step _ _ _ _ Hstep (file_chain_growing _ _ _ Hc))
    as (Hh & Hl & Hn & Hr & Hu).
  destruct Hstep as (Hok & Hv & Hf).
  destruct Hc as ((_ & _ & c & v & Hlast & Hfat & Heoc) & _ & Hr0).
  split; [|done]. split; [done|]. split; [done|].
  exists c, v. split; [done|]. split; [|done].
  rewrite Hf; [done| |set_solver].
  rewrite Forall_forall in Hr0. apply Hr0.
  destruct cs as [|x cs] using rev_ind; [done|].
  rewrite last_snoc in Hlast. injection Hlast as ->. set_solver.
Qed.

Lemma linked_next (w : world) (pre rest : list Z) (c r : Z) :
  linked w (pre ++ c :: r :: rest) ->
  fat_entry w c = Some r /\ r < FAT32_FAT_ENTRY_EOC.
Proof.
  induction pre as [|x pre IH].
  - cbn [app]. rewrite linked_cons. tauto.
  - intros Hl. apply IH. cbn [app] in Hl.
    destruct (pre ++ c :: r :: rest) as [|y l] eqn:E; [by destruct pre|].
    rewrite linked_cons in Hl. tauto.
Qed.

(** The FAT entry of a cluster of a chain tells whether it is the last. *)
Lemma file_chain_next (w : world) (start c v : Z) (pre rest : list Z) :
  file_chain w start (pre ++ c :: rest) -> fat_entry w c = Some v ->
  if v <? FAT32_FAT_ENTRY_EOC then exists rest', rest = v :: rest'
  else rest = [].
Proof.
  intros ((_ & Hl & l & lv & Hlast & Hlv & Heoc) & _) Hv.
  destruct rest as [|r rest].
  - rewrite last_snoc in Hlast. injection Hlast as <-.
    rewrite Hv in Hlv. injection Hlv as <-.
    by destruct (Z.ltb_spec v FAT32_FAT_ENTRY_EOC); [lia|].
  - apply linked_next in Hl as [Hr Hlt]. rewrite Hv in Hr.
    injection Hr as ->.
    destruct (Z.ltb_spec r FAT32_FAT_ENTRY_EOC); [by exists rest | lia].
Qed.

Lemma volume_ok_buffer (w : world) (s : sector) :
  volume_ok w -> volume_ok (set_sector_buffer s w).
Proof. intros H. by destruct (fat_step_buffer w s H). Qed.

Lemma file_chain_buffer (w : world) (s : sector) (start : Z) (cs : list Z) :
  volume_ok w -> file_chain w start cs ->
  file_chain (set_sector_buffer s w) start cs.
Proof. intros H. apply file_chain_fat_step. by apply fat_step_buffer. Qed.

(** Linking a new cluster to the last cluster of a chain gives a chain
    that is one cluster longer. *)
Lemma allocate_extends_chain (w w' : world) (start last new : Z)
    (pre : list Z) :
  volume_ok w ->
  growing w start (pre ++ [last]) ->
  allocate_and_link_cluster last w = Ret new w' ->
  file_chain w' start ((pre ++ [last]) ++ [new])
  /\ volume_ok w' /\ volume_of w' = volume_of w.
Proof.
  intros Hok Hg Halloc.
  pose proof Hg as (_ & _ & _ & Hr & Hu).
  apply allocate_and_link_cluster_inv in Halloc
    as (Hfree & Hnew & Hne & Hstep & Hlast' & Hnew'); [|done| |].
  - split; [|by destruct Hstep as (? & ? & _)].
    apply growing_file_chain; [|done].
    by apply (growing_extend w w' start last new pre).
  - rewrite Forall_forall in Hr. apply Hr. set_solver.
  - apply Hu. set_solver.
Qed.

(** The walk to the cluster of the file position in [fat32_write]: it
    follows the chain and appends a cluster for every step past its end. *)
Lemma fat32_write_walk_inv (n : nat) :
  forall (w w' : world) (start c0 c : Z) (pre rest : list Z),
    volume_ok w -> file_chain w start (pre ++ c0 :: rest) ->
    fat32_write_walk n c0 w = Ret c w' ->
    exists extra,
      file_chain w' start (pre ++ c0 :: rest ++ extra)
      /\ (c0 :: rest ++ extra) !! n = Some c
      /\ ((n < length (c0 :: rest))%nat -> extra = [])
      /\ ((length (c0 :: rest) <= n)%nat ->
          length (c0 :: rest ++ extra) = S n)
      /\ volume_ok w' /\ volume_of w' = volume_of w.
Proof.
  induction n as [|n IH]; intros w w' start c0 c pre rest Hok Hc Hwalk.
  - cbn in Hwalk. injection Hwalk as <- <-. exists [].
    rewrite app_nil_r. split; [done|]. split; [done|]. split; [done|].
    split; [|done]. cbn. lia.
  - cbn [fat32_write_walk] in Hwalk. cbv [bind] in Hwalk.
    destruct (read_cluster_fat_entry c0 w) as [v w1| |] eqn:Hread;
      try discriminate.
    apply read_cluster_fat_entry_inv in Hread as (Hv & s & ->).
    pose proof (file_chain_next _ _ _ _ _ _ Hc Hv) as Hnext.
    assert (Hok1 := volume_ok_buffer w s Hok).
    assert (Hc1 := file_chain_buffer w s _ _ Hok Hc).
    destruct (Z.ltb_spec v FAT32_FAT_ENTRY_EOC); cbn [negb] in Hwalk.
    + destruct Hnext as [rest' ->].
      replace (pre ++ c0 :: v :: rest') with ((pre ++ [c0]) ++ v :: rest')
        in Hc1 by (by rewrite <- app_assoc).
      destruct (IH _ _ _ _ _ _ _ Hok1 Hc1 Hwalk)
        as (extra & Hc' & Hn & Hshort & Hlong & Hok' & Hvol).
      exists extra. rewrite <- app_assoc in Hc'. cbn [app] in Hc'.
      split; [done|]. split; [done|].
      split; [intros; apply Hshort; cbn in *; lia|].
      split; [intros Hlen; cbn in *; f_equal; apply Hlong; lia|].
      done.
    + subst rest.
      destruct (allocate_and_link_cluster c0 (set_sector_buffer s w))
        as [new w2| |] eqn:Halloc; try discriminate.
      apply (allocate_extends_chain _ _ start c0 new pre) in Halloc
        as (Hc2 & Hok2 & Hvol2);
        [|done | by apply file_chain_growing].
      destruct (IH _ _ _ _ _ _ _ Hok2 Hc2 Hwalk)
        as (extra & Hc' & Hn & Hshort & Hlong & Hok' & Hvol).
      exists (new :: extra). cbn [app] in *.
      rewrite <- app_assoc in Hc'. cbn [app] in Hc'.
      split; [done|]. split; [done|].
      split; [cbn; lia|].
      split; [|split; [done | by rewrite Hvol, Hvol2]].
      intros _. cbn [length] in *.
      destruct (decide (n < 1)%nat) as [Hlt|Hge].
      * rewrite Hshort by done. cbn. lia.
      * f_equal. apply Hlong. lia.
Qed.

(** ** Inversion of the monad's combinators *)

Lemma bind_inv {S A B : Type} (m : Mst S A) (k : A -> Mst S B) (s s' : S)
    (b : B) :
  bind m k s = Ret b s' ->
  exists a s1, m s = Ret a s1 /\ k a s1 = Ret b s'.
Proof.
  unfold bind. destruct (m s) as [a s1| |]; try discriminate.
  intros H. by exists a, s1.
Qed.

Lemma liftw_inv {A : Type} (m : M A) (s s' : fat32_file_t * world) (a : A) :
  liftw m s = Ret a s' -> s'.1 = s.1 /\ m s.2 = Ret a s'.2.
Proof.
  unfold liftw. destruct (m s.2) as [a' w'| |]; try discriminate.
  by intros [= <- <-].
Qed.

Lemma try_inv {S A : Type} (m : Mst S A) (s s' : S) (a : A) :
  try m s = Ret (inr a) s' -> m s = Ret a s'.
Proof.
  unfold try. destruct (m s) as [a' s1| |]; try discriminate.
  by intros [= <- <-].
Qed.

(** ** The allocation loop of [fat32_write] *)

Lemma find_last_cluster_loop_linked (w : world) (cs : list Z) (n : nat)
    (c0 cn : Z) :
  linked w cs -> cs !! O = Some c0 -> cs !! n = Some cn ->
  exists s',
    find_last_cluster_loop n c0 w = Ret cn (set_sector_buffer s' w).
Proof.
  revert w cs c0. induction n as [|n IH]; intros w cs c0 Hl H0 Hn.
  - exists (sector_buffer w). rewrite H0 in Hn. injection Hn as ->.
    by rewrite set_sector_buffer_same.
  - destruct cs as [|x cs]; [done|]. cbn in H0. injection H0 as ->.
    destruct cs as [|c1 cs]; [done|].
    destruct Hl as (Hfat & Hlt & Hl).
    destruct (read_cluster_fat_entry_view c0 c1 w Hfat) as [s1 Hread].
    cbn [find_last_cluster_loop]. cbv [bind]. rewrite Hread.
    destruct (IH (set_sector_buffer s1 w) (c1 :: cs) c1) as [s' Hs'];
      [by apply linked_buffer | done | done |].
    exists s'. exact Hs'.
Qed.

Lemma fat32_write_allocate_inv (n : nat) :
  forall (i current last start : Z) (pre : list Z) (f f' : fat32_file_t)
         (w w' : world),
    0 < current -> volume_ok w -> growing w start (pre ++ [last]) ->
    fat32_write_allocate n i current last (f, w) = Ret tt (f', w') ->
    f' = f /\ volume_ok w' /\ volume_of w' = volume_of w
    /\ match n with
       | O => w' = w
       | S _ => exists ms, length ms = n
                           /\ file_chain w' start ((pre ++ [last]) ++ ms)
       end.
Proof.
  induction n as [|n IH];
    intros i current last start pre f f' w w' Hcur Hok Hg Hrun.
  - cbn in Hrun. by injection Hrun as <- <-.
  - cbn [fat32_write_allocate] in Hrun.
    destruct (Z.ltb_spec 0 current); [|lia]. cbn [orb] in Hrun.
    apply bind_inv in Hrun as (new & [f1 w1] & Ha & Hrest).
    apply liftw_inv in Ha as [Hf Ha]. cbn [fst snd] in Hf, Ha. subst f1.
    apply (allocate_extends_chain _ _ start last new pre) in Ha
      as (Hc2 & Hok2 & Hvol2); [|done|done].
    apply (IH _ _ _ start (pre ++ [last])) in Hrest
      as (-> & Hok' & Hvol' & Hm);
      [|done | done | by apply file_chain_growing].
    split; [done|]. split; [done|]. split; [by rewrite Hvol', Hvol2|].
    destruct n as [|n].
    + subst w'. by exists [new].
    + destruct Hm as (ms & Hlen & Hc'). exists (new :: ms).
      split; [cbn; lia|]. by rewrite <- app_assoc in Hc'.
Qed.

(** ** The copy loop of [fat32_write] *)

Lemma volume_of_bytes_per_cluster (w w' : world) :
  volume_of w' = volume_of w -> bytes_per_cluster w' = bytes_per_cluster w.
Proof. unfold volume_of. by intros [= _ _ _ _ _ _ _ ->]. Qed.

Lemma volume_of_first_data_sector (w w' : world) :
  volume_of w' = volume_of w -> first_data_sector w' = first_data_sector w.
Proof. unfold volume_of. by intros [= _ _ _ _ _ -> _ _]. Qed.

(** The bytes one iteration copies end in the sector, and so in the
    cluster, they start in. *)
Lemma bytes_to_write_range (spc pos left : Z) :
  0 < spc -> 0 <= pos -> 0 < left ->
  let r := pos mod (spc * 512) in
  let n := if left <? 512 - r mod 512 then left else 512 - r mod 512 in
  0 < n <= left /\ r + n <= spc * 512 /\ 0 <= r / 512 < spc.
Proof.
  intros Hspc Hpos Hleft r n.
  destruct (sector_of_position spc pos Hspc Hpos) as (Hs & Hb & Hr).
  fold r in Hs, Hb, Hr. subst n.
  destruct (Z.ltb_spec left (512 - r mod 512)); nia.
Qed.

Lemma same_file_refl (f : fat32_file_t) : same_file f f.
Proof. by repeat split. Qed.

Lemma same_file_trans (f g h : fat32_file_t) :
  same_file f g -> same_file g h -> same_file f h.
Proof.
  unfold same_file. intros (?&?&?&?&?&?&?) (?&?&?&?&?&?&?).
  repeat split; congruence.
Qed.

Lemma fat32_write_loop_inv (n : nat) :
  forall (src : list Z) (size total pos cluster start : Z) (final : list Z)
         (f f' : fat32_file_t) (w w' : world) (r : Z * Z),
    volume_ok w -> file_chain w start final ->
    0 <= total <= size -> 0 <= pos ->
    pos + (size - total) <= Z.of_nat (length final) * bytes_per_cluster w ->
    pos + (size - total) < 2 ^ 32 ->
    (total < size ->
     final !! Z.to_nat (pos / bytes_per_cluster w) = Some cluster) ->
    fat32_write_loop n src size total pos cluster (f, w) = Ret r (f', w') ->
    r = (size, pos + (size - total)) /\ fat_step [] w w' /\ same_file f f'.
Proof.
  induction n as [|n IH];
    intros src size total pos cluster start final f f' w w' r
           Hok Hc Htot Hpos Hcover Hfit Hcl Hrun.
  - cbn [fat32_write_loop] in Hrun.
    destruct (Z.ltb_spec total size); [discriminate|]. cbn in Hrun.
    injection Hrun as <- <- <-.
    split; [f_equal; lia|]. split; [by apply fat_step_refl|].
    apply same_file_refl.
  - cbn [fat32_write_loop] in Hrun.
    destruct (Z.ltb_spec total size) as [Hlt|Hge]; cbn [negb] in Hrun.
    2:{ injection Hrun as <- <- <-.
        split; [f_equal; lia|]. split; [by apply fat_step_refl|].
        apply same_file_refl. }
    specialize (Hcl Hlt).
    cbv [bind get_world liftw cluster_to_sector get ret] in Hrun.
    world_simpl.
    match type of Hrun with
    | context [read_sector ?s w] => set (sec := s) in *
    end.
    destruct (read_sector sec w) as [[] w1| |] eqn:Hread; try discriminate.
    apply read_sector_inv in Hread as (s1 & Hs1 & ->).
    cbv [modify] in Hrun. world_simpl.
    match type of Hrun with
    | context [write_sector sec ?b _] => set (buf := b) in *
    end.
    match type of Hrun with
    | context [write_sector sec buf ?x] => change x with (set_sector_buffer buf w) in Hrun
    end.
    destruct (write_sector sec buf (set_sector_buffer buf w))
      as [[] w2| |] eqn:Hwrite; try discriminate.
    world_simpl.
    pose proof Hok as (_ & Hlay & _).
    pose proof Hlay as (Hspc & Hbpc & _).
    match type of Hrun with
    | context [total + ?b <? size] => set (btw := b) in *
    end.
    destruct (bytes_to_write_range (sectors_per_cluster (boot_sector w))
                pos (size - total) Hspc Hpos ltac:(lia))
      as (Hbtw & Hin & Hsic).
    rewrite <- Hbpc in Hbtw, Hin, Hsic.
    unfold FAT32_SECTOR_SIZE, SD_BLOCK_SIZE in btw, sec. fold btw in Hbtw, Hin.
    assert (Hbpos : 0 < bytes_per_cluster w) by lia.
    assert (Hrange : in_range w cluster).
    { destruct Hc as (_ & _ & Hr). rewrite Forall_forall in Hr.
      apply Hr. by eapply list_elem_of_lookup_2. }
    assert (Hstep : fat_step [] w w2).
    { apply (fat_step_trans [] [] w (set_sector_buffer buf w));
        [by apply fat_step_buffer|].
      apply (fat_step_write_sector _ _ sec buf);
        [by apply volume_ok_buffer | | done].
      left. by apply (cluster_sector_in_data w Hlay cluster). }
    pose proof Hstep as (Hok2 & Hvol2 & _).
    pose proof (volume_of_bytes_per_cluster _ _ Hvol2) as Hbpc2.
    pose proof (file_chain_fat_step _ _ _ _ Hstep Hc) as Hc2.
    rewrite (u32_small (pos + btw)) in Hrun by lia.
    destruct (advance_in_cluster (bytes_per_cluster w) pos btw
                Hbpos Hpos ltac:(lia) Hin) as [Hfull Hpart].
    assert (Hdone : forall (g : fat32_file_t) (w3 : world) (c : Z),
               fat_step [] w2 w3 ->
               (total + btw < size ->
                final !! Z.to_nat ((pos + btw) / bytes_per_cluster w)
                = Some c) ->
               fat32_write_loop n src size (total + btw) (pos + btw) c
                                (g, w3) = Ret r (f', w') ->
               r = (size, pos + (size - total)) /\ fat_step [] w w'
               /\ same_file g f').
    { intros g w3 c Hstep3 Hc3 Hloop.
      pose proof Hstep3 as (Hok3 & Hvol3 & _).
      pose proof (volume_of_bytes_per_cluster _ _ Hvol3) as Hbpc3.
      apply (IH _ _ _ _ _ start final) in Hloop as (-> & Hstep' & Hsame).
      - split; [f_equal; lia|]. split; [|done].
        apply (fat_step_trans [] [] w w3); [|done].
        by apply (fat_step_trans [] [] w w2).
      - done.
      - by apply (file_chain_fat_step w2).
      - lia.
      - lia.
      - rewrite Hbpc3, Hbpc2. lia.
      - lia.
      - rewrite Hbpc3, Hbpc2. done. }
    destruct (Z.eqb_spec ((pos + btw) mod bytes_per_cluster w) 0)
      as [Hz|Hnz];
      destruct (Z.ltb_spec (total + btw) size) as [Hmore|Hend];
      cbn [andb] in Hrun.
    + cbv beta in Hrun. cbn [fst snd] in Hrun. unfold try in Hrun.
      destruct (read_cluster_fat_entry cluster w2) as [next w3| |] eqn:Hread;
        try discriminate.
      apply read_cluster_fat_entry_inv in Hread as (Hnext & s3 & ->).
      destruct (Z.ltb_spec next FAT32_FAT_ENTRY_EOC); [|discriminate].
      cbv [modify_file] in Hrun. cbn [fst snd] in Hrun.
      apply Hdone in Hrun as (Hr & Hst & Hsame).
      * split; [done|]. split; [done|].
        destruct Hsame as (?&?&?&?&?&?&?). by repeat split.
      * by apply fat_step_buffer.
      * intros _.
        assert (Hfull' : pos mod bytes_per_cluster w + btw
                         = bytes_per_cluster w).
        { destruct (Z.lt_ge_cases (pos mod bytes_per_cluster w + btw)
                                  (bytes_per_cluster w)) as [Hl|Hg]; [|lia].
          destruct (Hpart Hl) as [Hm _].
          pose proof (Z.mod_pos_bound pos (bytes_per_cluster w) Hbpos). lia. }
        destruct (Hfull Hfull') as [_ Hdiv]. rewrite Hdiv.
        assert (Hq : 0 <= pos / bytes_per_cluster w)
          by (apply Z.div_pos; lia).
        assert (Hlen : (pos + btw) / bytes_per_cluster w
                       < Z.of_nat (length final)).
        { apply Z.div_lt_upper_bound; [lia|]. nia. }
        rewrite Hdiv in Hlen.
        replace (Z.to_nat (pos / bytes_per_cluster w + 1))
          with (S (Z.to_nat (pos / bytes_per_cluster w))) by lia.
        destruct (lookup_lt_is_Some_2 final
                    (S (Z.to_nat (pos / bytes_per_cluster w))))
          as [c' Hc']; [lia|].
        destruct Hc2 as ((_ & Hl2 & _) & _).
        destruct (linked_step w2 final _ cluster c' Hl2 Hcl Hc') as [Hfat _].
        rewrite Hfat in Hnext. by injection Hnext as <-.
    + by apply (Hdone f w2 cluster); [apply fat_step_refl | lia |].
    + apply (Hdone f w2 cluster); [by apply fat_step_refl | | done].
      intros _.
      destruct (Z.lt_ge_cases (pos mod bytes_per_cluster w + btw)
                              (bytes_per_cluster w)) as [Hl|Hg].
      * destruct (Hpart Hl) as [_ ->]. done.
      * destruct (Hfull ltac:(lia)) as [Hm _]. lia.
    + by apply (Hdone f w2 cluster); [apply fat_step_refl | lia |].
Qed.

(** ** Cluster counts *)

Lemma ceil_bounds (b x : Z) :
  0 < b -> ((x + b - 1) / b - 1) * b < x <= (x + b - 1) / b * b.
Proof.
  intros Hb.
  pose proof (Z.div_mod (x + b - 1) b ltac:(lia)).
  pose proof (Z.mod_pos_bound (x + b - 1) b Hb). nia.
Qed.

Lemma ceil_unique (b x k : Z) :
  0 < b -> (k - 1) * b < x <= k * b -> (x + b - 1) / b = k.
Proof.
  intros Hb Hk. symmetry.
  apply (Z.div_unique_pos (x + b - 1) b k (x + b - 1 - k * b)); lia.
Qed.

Lemma ceil_mono (b x y : Z) :
  0 < b -> x <= y -> (x + b - 1) / b <= (y + b - 1) / b.
Proof. intros Hb Hxy. apply Z.div_le_mono; lia. Qed.

(** [current_clusters] of [fat32_write]. *)
Lemma current_clusters_for (w : world) (size : Z) :
  0 < bytes_per_cluster w -> 0 <= size ->
  size + bytes_per_cluster w <= 2 ^ 32 ->
  (if size =? 0 then 1
   else u32 (size + bytes_per_cluster w - 1) / bytes_per_cluster w)
  = clusters_for w size.
Proof.
  intros Hb Hs Hfit. unfold clusters_for.
  pose proof (ceil_bounds (bytes_per_cluster w) size Hb).
  destruct (Z.eqb_spec size 0) as [->|Hne].
  - rewrite (ceil_unique (bytes_per_cluster w) 0 0) by lia. lia.
  - rewrite u32_small by lia. nia.
Qed.

(** The clusters a write of [size > 0] bytes at [pos] needs reach past the
    cluster of [pos] and hold the last byte written. *)
Lemma needed_clusters_range (b pos size : Z) :
  0 < b -> 0 <= pos -> 0 < size ->
  pos / b + 1 <= (pos + size + b - 1) / b
  /\ pos + size <= (pos + size + b - 1) / b * b.
Proof.
  intros Hb Hpos Hsize.
  pose proof (ceil_bounds b (pos + size) Hb).
  pose proof (Z.div_mod pos b ltac:(lia)).
  pose proof (Z.mod_pos_bound pos b Hb).
  split; [nia | lia].
Qed.

(** The length of the chain after the write, from its length before. *)
Lemma clusters_for_after_write (w : world) (old pos size : Z) :
  0 < bytes_per_cluster w -> 0 <= old -> 0 <= pos -> 0 < size ->
  let needed :=
    (pos + size + bytes_per_cluster w - 1) / bytes_per_cluster w in
  clusters_for w (Z.max old (pos + size))
  = Z.max (clusters_for w old) needed.
Proof.
  intros Hb Hold Hpos Hsize needed. unfold clusters_for.
  pose proof (ceil_bounds (bytes_per_cluster w) (pos + size) Hb).
  pose proof (ceil_bounds (bytes_per_cluster w) old Hb).
  fold needed in H.
  destruct (Z.max_spec old (pos + size)) as [[Hlt ->]|[Hge ->]].
  - pose proof (ceil_mono (bytes_per_cluster w) old (pos + size) Hb
                  ltac:(lia)). fold needed in H1. lia.
  - pose proof (ceil_mono (bytes_per_cluster w) (pos + size) old Hb
                  ltac:(lia)). fold needed in H1. lia.
Qed.

(** ** [fat32_write] as a whole *)

Lemma growing_prefix (w : world) (start : Z) (a b : list Z) :
  a <> [] -> growing w start (a ++ b) -> growing w start a.
Proof.
  intros Ha (Hh & Hl & Hn & Hr & Hu).
  split; [by destruct a|]. split; [by eapply linked_app_l|].
  split; [by apply NoDup_app in Hn as (? & _)|].
  split; [by apply Forall_app in Hr as (? & _)|].
  intros c Hc. apply Hu. set_solver.
Qed.

(** The file never shrinks in a write, so nothing is truncated. *)
Lemma fat32_write_truncate_grown (fuel : nat) (old : Z) (f : fat32_file_t)
    (w : world) :
  old <= file_size f ->
  fat32_write_truncate fuel old (f, w) = Ret tt (f, w).
Proof.
  intros Hle. unfold fat32_write_truncate. cbv [bind get_file get_world].
  cbn [fst snd]. by destruct (Z.ltb_spec (file_size f) old); [lia|].
Qed.

Lemma fat32_write_update_entry_inv (f f' : fat32_file_t) (w w' : world) :
  volume_ok w -> first_data_sector w <= dir_entry_sector f < 2 ^ 32 ->
  fat32_write_update_entry (f, w) = Ret tt (f', w') ->
  f' = f /\ fat_step [] w w'.
Proof.
  intros Hok Hsec. unfold fat32_write_update_entry.
  cbv [bind get_file]. cbn [fst snd].
  destruct (_ && _).
  - cbv [liftw get_world modify]. cbn [fst snd].
    destruct (read_sector (dir_entry_sector f) w) as [[] w1| |] eqn:Hread;
      try discriminate.
    apply read_sector_inv in Hread as (s1 & _ & ->).
    cbn [fst snd sector_buffer set_sector_buffer].
    match goal with
    | |- context [write_sector _ ?b ?x] =>
        change x with (set_sector_buffer b w)
    end.
    destruct (write_sector _ _ _) as [[] w2| |] eqn:Hwrite; try discriminate.
    intros [= <- <-]. split; [done|].
    match type of Hwrite with
    | write_sector _ _ ?x = _ => apply (fat_step_trans [] [] w x w2)
    end; [by apply fat_step_buffer|].
    eapply fat_step_write_sector; [by apply volume_ok_buffer | | exact Hwrite].
    by left.
  - intros [= <- <-]. split; [done | by apply fat_step_refl].
Qed.

Lemma fat32_write_inv (fuel : nat) (src : list Z) (f f' : fat32_file_t)
    (w w' : world) (cs : list Z) (n : Z) :
  volume_ok w -> file_ok w f cs ->
  Z.of_nat (length cs) = clusters_for w (file_size f) ->
  src <> [] -> 0 <= position f ->
  position f + strlen src + bytes_per_cluster w <= 2 ^ 32 ->
  fat32_write fuel (Some src) (f, w) = Ret n (f', w') ->
  exists cs',
    file_ok w' f' cs'
    /\ Z.of_nat (length cs') = clusters_for w' (file_size f')
    /\ volume_ok w' /\ volume_of w' = volume_of w
    /\ n = strlen src
    /\ position f' = position f + strlen src
    /\ file_size f' = Z.max (file_size f) (position f + strlen src)
    /\ start_cluster f' = start_cluster f
    /\ cs `prefix_of` cs'.
Proof.
  intros Hok (Hopen & Hattr & Hsize0 & Hsizefit & Hdes & Hchain) Hlen Hsrc
         Hpos Hfit Hrun.
  pose proof Hok as (Hready & Hlay & _).
  pose proof Hlay as (Hspc & Hbpc & _).
  assert (Hb : 0 < bytes_per_cluster w) by lia.
  assert (Hlensrc : 0 < strlen src).
  { unfold strlen. destruct src; [done | cbn; lia]. }
  unfold fat32_write in Hrun.
  apply bind_inv in Hrun as (f0 & s0 & Hget & Hrun).
  injection Hget as <- <-. rewrite Hopen, Hattr in Hrun.
  cbn [negb Z.eqb] in Hrun.
  apply bind_inv in Hrun as ([] & [f1 w1] & Hrdy & Hrun).
  apply liftw_inv in Hrdy as [Hf Hrdy]. cbn [fst snd] in Hf, Hrdy.
  rewrite require_ready_ready in Hrdy by done.
  injection Hrdy as <-. subst f1.
  apply bind_inv in Hrun as (w0 & s0 & Hget & Hrun).
  injection Hget as <- <-.
  (* the walk to the cluster of the position *)
  apply bind_inv in Hrun as (cluster & [f1 w1] & Hwalk & Hrun).
  apply liftw_inv in Hwalk as [Hf Hwalk]. cbn [fst snd] in Hf, Hwalk.
  subst f1.
  destruct cs as [|c0 rest]; [by destruct Hchain as ((? & _) & _)|].
  assert (c0 = start_cluster f) as ->.
  { destruct Hchain as ((Hh & _) & _). by injection Hh. }
  apply (fat32_write_walk_inv _ _ _ (start_cluster f) _ _ [] rest) in Hwalk
    as (extra & Hc1 & Hq & Hshort & Hlong & Hok1 & Hvol1); [|done|done].
  cbn [app] in Hc1.
  apply bind_inv in Hrun as ([] & [f1 w1'] & Hm & Hrun).
  injection Hm as <- <-.
  rewrite current_clusters_for in Hrun by lia.
  rewrite <- Hlen in Hrun.
  rewrite (u32_small (position f + strlen src)) in Hrun by lia.
  rewrite (u32_small (position f + strlen src + bytes_per_cluster w - 1))
    in Hrun by lia.
  destruct (needed_clusters_range (bytes_per_cluster w) (position f)
              (strlen src) Hb Hpos Hlensrc) as [Hneed1 Hneed2].
  pose proof (clusters_for_after_write w (file_size f) (position f)
                (strlen src) Hb Hsize0 Hpos Hlensrc) as Hafter.
  cbv zeta in Hafter. rewrite <- Hlen in Hafter.
  set (needed := (position f + strlen src + bytes_per_cluster w - 1)
                 / bytes_per_cluster w) in *.
  set (q := position f / bytes_per_cluster w) in *.
  assert (Hq0 : 0 <= q) by (apply Z.div_pos; lia).
  destruct (Z.ltb_spec 0 (Z.of_nat (length (start_cluster f :: rest))))
    as [Hcur|Hbad]; [|cbn in Hbad; lia].
  (* the last cluster of the chain the file had *)
  apply bind_inv in Hrun as (lastc & [f1 w2] & Hfind & Hrun).
  apply liftw_inv in Hfind as [Hf Hfind]. cbn [fst snd] in Hf, Hfind.
  subst f1. unfold find_last_cluster in Hfind.
  destruct (exists_last (l := start_cluster f :: rest) ltac:(done))
    as (pre0 & lastc0 & Hcs).
  assert (Hlen0 : length (start_cluster f :: rest) = S (length pre0)).
  { rewrite Hcs, length_app. cbn. lia. }
  replace (Z.to_nat (Z.of_nat (length (start_cluster f :: rest)) - 1))
    with (length pre0) in Hfind by lia.
  change (start_cluster f :: rest ++ extra)
    with ((start_cluster f :: rest) ++ extra) in Hc1, Hq, Hlong.
  destruct (find_last_cluster_loop_linked w1
              ((start_cluster f :: rest) ++ extra) (length pre0)
              (start_cluster f) lastc0) as [s2 Hfind'].
  { by destruct Hc1 as ((_ & ? & _) & _). }
  { done. }
  { rewrite Hcs, <- app_assoc. by apply (list_lookup_middle pre0 extra). }
  rewrite Hfind' in Hfind. injection Hfind as <- <-.
  (* the allocation loop *)
  apply bind_inv in Hrun as ([] & [f2 w3] & Halloc & Hrun).
  apply (fat32_write_allocate_inv _ _ _ _ (start_cluster f) pre0) in Halloc
    as (-> & Hok3 & Hvol3 & Hms);
    [|done | by apply volume_ok_buffer |].
  2:{ apply (growing_fat_step w1); [by apply fat_step_buffer|].
      apply (growing_prefix _ _ _ extra); [by destruct pre0|].
      rewrite <- Hcs. by apply file_chain_growing. }
  assert (Hfin : exists fin,
             file_chain w3 (start_cluster f) fin
             /\ (start_cluster f :: rest) `prefix_of` fin
             /\ Z.of_nat (length fin)
                = Z.max (Z.of_nat (length (start_cluster f :: rest))) needed).
  { destruct (Z.to_nat (needed - Z.of_nat (length (start_cluster f :: rest))))
      as [|k] eqn:Hk.
    - subst w3. exists (start_cluster f :: rest).
      rewrite Hshort in Hc1 by lia. rewrite app_nil_r in Hc1.
      split; [by apply file_chain_buffer|]. split; [done | lia].
    - destruct Hms as (ms & Hlenms & Hc3). rewrite <- Hcs in Hc3.
      exists ((start_cluster f :: rest) ++ ms).
      split; [done|]. split; [by apply prefix_app_r|].
      rewrite length_app. lia. }
  destruct Hfin as (fin & Hc3 & Hprefix & Hlenfin).
  assert (Hbpc3 : bytes_per_cluster w3 = bytes_per_cluster w).
  { apply volume_of_bytes_per_cluster. by rewrite Hvol3. }
  assert (Hvol3' : volume_of w3 = volume_of w) by (by rewrite Hvol3).
  (* the cluster of the position, and the copy *)
  apply bind_inv in Hrun as (f0 & s0 & Hget & Hrun).
  injection Hget as <- <-. cbn [fst] in Hrun.
  apply bind_inv in Hrun as (cq & [f1 w4] & Hseek & Hrun).
  apply liftw_inv in Hseek as [Hf Hseek]. cbn [fst snd] in Hf, Hseek.
  subst f1. unfold seek_to_cluster in Hseek. world_simpl.
  destruct (lookup_lt_is_Some_2 fin (Z.to_nat q)) as [cq' Hcq]; [lia|].
  destruct (seek_to_cluster_loop_linked w3 fin (Z.to_nat q)
              (start_cluster f) cq') as [s4 Hseek'].
  { by destruct Hc3 as ((_ & ? & _) & _). }
  { destruct Hc3 as ((Hh & _) & _). by destruct fin. }
  { done. }
  rewrite Hseek' in Hseek. injection Hseek as <- <-.
  apply bind_inv in Hrun as ([] & s0 & Hm & Hrun).
  injection Hm as <-. cbn [fst snd] in Hrun.
  apply bind_inv in Hrun as (r & [f5 w5] & Hloop & Hrun).
  apply (fat32_write_loop_inv _ _ _ _ _ _ (start_cluster f) fin) in Hloop
    as (-> & Hstep5 & Hsame);
    [| by apply volume_ok_buffer | by apply file_chain_buffer
     | lia | done | world_simpl; nia | lia
     | intros _; world_simpl; rewrite Hbpc3; exact Hcq].
  cbn [fst snd] in Hrun.
  apply bind_inv in Hrun as ([] & s0 & Hm & Hrun).
  injection Hm as <-. cbn [fst snd] in Hrun.
  apply bind_inv in Hrun as ([] & s0 & Hm & Hrun).
  injection Hm as <-. cbn [fst snd] in Hrun.
  destruct Hsame as (Ho5 & Hl5 & Ha5 & Hs5 & Hz5 & Hd5 & Hdo5).
  world_simpl.
  replace (strlen src - 0) with (strlen src) in Hrun by lia.
  match type of Hrun with
  | bind _ _ (?g0, w5) = _ => set (g := g0) in *
  end.
  assert (Hg : is_open g = true
               /\ Z.land (attributes g) FAT32_ATTR_DIRECTORY = 0
               /\ start_cluster g = start_cluster f
               /\ dir_entry_sector g = dir_entry_sector f
               /\ position g = position f + strlen src
               /\ file_size g
                  = Z.max (file_size f) (position f + strlen src)).
  { subst g.
    destruct (Z.ltb_spec (file_size f5) (position f + strlen src));
      world_simpl; rewrite ?Ho5, ?Ha5; repeat split; try done; lia. }
  destruct Hg as (Hgo & Hga & Hgs & Hgd & Hgp & Hgz).
  clearbody g.
  apply bind_inv in Hrun as ([] & s0 & Htr & Hrun).
  rewrite fat32_write_truncate_grown in Htr by lia. injection Htr as <-.
  apply bind_inv in Hrun as ([] & [f6 w6] & Hup & Hrun).
  injection Hrun as <- <- <-.
  pose proof Hstep5 as (Hok5 & Hvol5 & _).
  apply fat32_write_update_entry_inv in Hup as (-> & Hstep6); [|done|].
  2:{ rewrite Hgd, (volume_of_first_data_sector w w5); [done|].
      by rewrite Hvol5. }
  pose proof Hstep6 as (Hok6 & Hvol6 & _).
  assert (Hvol : volume_of w6 = volume_of w) by (by rewrite Hvol6, Hvol5).
  pose proof (volume_of_bytes_per_cluster _ _ Hvol) as Hbpc6.
  exists fin. unfold file_ok, clusters_for.
  rewrite Hbpc6, Hgz, Hgs.
  split; [|by rewrite Hlenfin, <- Hafter].
  split; [done|]. split; [done|]. split; [lia|]. split; [lia|].
  split.
  - rewrite Hgd, (volume_of_first_data_sector w w6); done.
  - apply (file_chain_fat_step w5); [done|].
    apply (file_chain_fat_step (set_sector_buffer s4 w3)); [done|].
    by apply file_chain_buffer.
Qed.

(** ** The start cluster of a new file *)

Lemma write_sector_inv (sec : Z) (buf : sector) (w w' : world) :
  write_sector sec buf w = Ret tt w' ->
  w' = set_blocks (<[u32 (volume_start_block w + sec) := buf]>
                     (sd_blocks (card w))) w.
Proof.
  unfold write_sector, sd_write_block. cbv [bind get].
  destruct (sd_blocks (card w) !! _); [|discriminate]. by intros [= <-].
Qed.

Lemma get_next_free_cluster_from_buffer (n : nat) (i c : Z) (w w' : world) :
  get_next_free_cluster_from n i w = Ret c w' ->
  exists s, w' = set_sector_buffer s w.
Proof.
  revert i w. induction n as [|n IH]; intros i w;
    cbn [get_next_free_cluster_from]; [discriminate|].
  cbv [bind].
  destruct (read_cluster_fat_entry i w) as [v w1| |] eqn:Hread;
    try discriminate.
  apply read_cluster_fat_entry_inv in Hread as [_ [s ->]].
  destruct (v =? FAT32_FAT_ENTRY_FREE).
  - intros [= <- <-]. by exists s.
  - intros H. apply IH in H as [s' ->]. by exists s'.
Qed.

Lemma get_next_free_cluster_buffer (c : Z) (w w' : world) :
  get_next_free_cluster w = Ret c w' -> exists s, w' = set_sector_buffer s w.
Proof.
  unfold get_next_free_cluster. cbv [bind get].
  apply get_next_free_cluster_from_buffer.
Qed.

(** The decrement of the free count writes the FSInfo sector only. *)
Lemma decrease_free_count_blocks (w w' : world) :
  decrease_free_count w = Ret tt w' ->
  volume_of w' = volume_of w
  /\ forall b,
      b <> u32 (volume_start_block w + fat32_info (boot_sector w)) ->
      sd_blocks (card w') !! b = sd_blocks (card w) !! b.
Proof.
  unfold decrease_free_count. cbv [bind get].
  destruct (negb (free_count (fsinfo w) =? 4294967295)).
  - cbv [modify try ret update_fsinfo bind get].
    cbn [boot_sector set_fsinfo fsinfo].
    set (w1 := set_fsinfo _ w).
    destruct (write_sector _ _ w1) as [[] w2|e w2|] eqn:Hw; try discriminate.
    + intros [= <-]. apply write_sector_inv in Hw as ->.
      split; [done|]. intros b Hb. cbn. by rewrite lookup_insert_ne.
    + intros [= <-].
      unfold write_sector, sd_write_block in Hw. cbv [bind get] in Hw.
      destruct (sd_blocks (card w1) !! _); [discriminate|].
      by injection Hw as _ <-.
  - by intros [= <-].
Qed.

(** The short-name record is written to the sector the entry names. *)
Lemma link_entry_write_record_inv (entry e : fat32_entry_t)
    (shortname : list Z) (needed_entries : Z) (run : free_run)
    (w w' : world) :
  link_entry_write_record entry shortname needed_entries run w = Ret e w' ->
  e_start_cluster e = e_start_cluster entry /\ e_attr e = e_attr entry
  /\ volume_of w' = volume_of w
  /\ forall b,
      b <> u32 (volume_start_block w + e_sector e) ->
      sd_blocks (card w') !! b = sd_blocks (card w) !! b.
Proof.
  unfold link_entry_write_record.
  cbv [bind get cluster_to_sector ret modify].
  destruct (read_sector _ w) as [[] w1| |] eqn:Hread; try discriminate.
  apply read_sector_inv in Hread as (s1 & _ & ->).
  destruct (write_sector _ _ _) as [[] w2| |] eqn:Hwrite; try discriminate.
  apply write_sector_inv in Hwrite as ->.
  intros [= <- <-]. split; [done|]. split; [done|]. split; [done|].
  intros b Hb. cbn in *. by rewrite lookup_insert_ne.
Qed.

(** The cluster [link_entry] allocates for a new file ends a chain of its
    own when the record has been written. *)
Lemma new_file_start_cluster (entry entry' e : fat32_entry_t)
    (shortname : list Z) (needed_entries : Z) (run : free_run)
    (w wf w' : world) :
  e_start_cluster entry = 0 ->
  link_entry_start_cluster entry w = Ret entry' wf ->
  link_entry_write_record entry' shortname needed_entries run wf = Ret e w' ->
  volume_ok w' ->
  first_data_sector w' <= e_sector e < 2 ^ 32 ->
  in_range w' (e_start_cluster e)
  /\ fat_entry w' (e_start_cluster e) = Some FAT32_FAT_ENTRY_EOC
  /\ e_attr e = e_attr entry.
Proof.
  intros Hzero Hstart Hrec (Hready & Hlay & Hblocks) Hsec.
  apply link_entry_write_record_inv in Hrec as (Hc & Hattr & Hvol' & Hrec).
  unfold link_entry_start_cluster in Hstart. rewrite Hzero in Hstart.
  cbn [Z.eqb] in Hstart.
  apply bind_inv in Hstart as (c & w1 & Hfree & Hstart).
  apply bind_inv in Hstart as ([] & w2 & Hwrite & Hstart).
  apply bind_inv in Hstart as ([] & w3 & Hdec & Hstart).
  injection Hstart as <- <-. cbn in Hc, Hattr. rewrite Hc, Hattr.
  destruct (decrease_free_count_blocks _ _ Hdec) as [Hvol3 Hdec'].
  destruct (write_cluster_fat_entry_inv _ _ _ _ Hwrite)
    as (Hc2 & s & Hs & ->).
  destruct (get_next_free_cluster_buffer _ _ _ Hfree) as [s1 ->].
  assert (Hvol : volume_of w' = volume_of w) by (by rewrite Hvol', Hvol3).
  assert (Hlayw : layout_ok w) by (by apply (volume_of_layout w' w)).
  apply get_next_free_cluster_inv in Hfree as (_ & Hrange & _); [|done].
  assert (Hrange' : in_range w' c) by (by apply (volume_of_in_range w w')).
  split; [done|]. split; [|done].
  assert (Hblock : sd_blocks (card w') !! fat_block w' c
                   = Some (fat_sector_update s c FAT32_FAT_ENTRY_EOC)).
  { rewrite (volume_of_fat_block w w') by done.
    rewrite Hrec, Hdec'.
    - cbn. apply lookup_insert_eq.
    - cbn [volume_start_block boot_sector set_blocks set_sector_buffer].
      apply not_eq_sym, (data_sector_not_fat w Hlayw); [done|].
      right. by destruct Hlayw as (_ & _ & _ & _ & ? & _).
    - replace (volume_start_block w3) with (volume_start_block w).
      + apply not_eq_sym, (data_sector_not_fat w Hlayw); [done|].
        left. by rewrite <- (volume_of_first_data_sector w w').
      + unfold volume_of in Hvol3. by injection Hvol3. }
  pose proof (Hblocks c _ Hrange' Hblock) as Hlen.
  unfold fat_sector_update in Hlen. rewrite length_put_le32 in Hlen.
  pose proof (fat_offset_range c) as Hoff.
  unfold fat_entry. destruct (Z.ltb_spec c 2); [lia|].
  rewrite Hblock. unfold fat_sector_update.
  rewrite le32_put_le32 by lia. rewrite fat_word_32, fat_word_low.
  reflexivity.
Qed.

(** A successful [link_entry] ends with the allocation of the start
    cluster and the write of the short-name record. *)
Lemma link_entry_inv (fuel : nat) (entry e : fat32_entry_t) (path : list Z)
    (w w' : world) :
  link_entry fuel entry path w = Ret e w' ->
  exists entry' shortname needed_entries run wa wf,
    link_entry_start_cluster entry wa = Ret entry' wf
    /\ link_entry_write_record entry' shortname needed_entries run wf
       = Ret e w'.
Proof.
  unfold link_entry. intros H.
  apply bind_inv in H as ([] & w1 & _ & H).
  apply bind_inv in H as (found & w2 & _ & H).
  destruct found as [err|]; [|discriminate].
  destruct err; try discriminate.
  cbv zeta in H.
  apply bind_inv in H as (d & w3 & _ & H).
  apply bind_inv in H as (shortname & w4 & _ & H).
  apply bind_inv in H as (run & w5 & _ & H).
  apply bind_inv in H as ([] & w6 & _ & H).
  apply bind_inv in H as (entry' & w7 & Hstart & H).
  by eexists entry', shortname, _, run, w6, w7.
Qed.

(** The handle and the chain [fat32_create] leaves: an empty file that
    owns one cluster. *)
Lemma fat32_create_inv (fuel : nat) (path : list Z) (f0 f : fat32_file_t)
    (w0 w : world) :
  fat32_create fuel path (f0, w0) = Ret tt (f, w) ->
  volume_ok w ->
  first_data_sector w <= dir_entry_sector f < 2 ^ 32 ->
  file_ok w f [start_cluster f]
  /\ file_size f = 0 /\ position f = 0 /\ in_range w (start_cluster f).
Proof.
  unfold fat32_create, new_entry. intros H Hok Hsec.
  apply bind_inv in H as ([] & s1 & Hz & H). injection Hz as <-.
  apply bind_inv in H as (e & [f1 w1] & Hlink & H).
  apply liftw_inv in Hlink as [_ Hlink]. cbn [fst snd] in Hlink.
  injection H as <- <-. cbn [dir_entry_sector] in Hsec.
  apply link_entry_inv in Hlink
    as (entry' & shortname & needed & run & wa & wf & Hstart & Hrec).
  destruct (new_file_start_cluster
              (set_e_attr FAT32_ATTR_ARCHIVE zero_entry) _ _ _ _ _ _ _ _
              eq_refl Hstart Hrec Hok Hsec) as (Hrange & Hfat & Hattr).
  cbn [start_cluster file_size position]. split; [|done].
  pose proof Hok as (_ & (Hspc & Hbpc & _ & _ & _ & _ & _ & Hmax) & _).
  split; [done|]. split; [by rewrite Hattr|]. split; [done|].
  split; [cbn [file_size]; lia|]. split; [done|].
  split; [|split; [apply NoDup_singleton | by constructor]].
  split; [done|]. split; [done|].
  exists (e_start_cluster e), FAT32_FAT_ENTRY_EOC. by repeat split.
Qed.

(** ** Runs of seeks and writes *)

Lemma fat32_seek_inv (pos : Z) (f f' : fat32_file_t) (w w' : world) :
  fat32_seek pos (f, w) = Ret tt (f', w') ->
  f' = set_position pos f /\ w' = w.
Proof.
  unfold fat32_seek. cbv [bind get_file]. cbn [fst].
  destruct (is_open f); [|discriminate]. by intros [= <- <-].
Qed.

(** What every successful seek and every successful non-empty write
    keeps: the handle is an open file on a well-formed volume and its
    chain has the clusters its size calls for.  The size does not
    decrease, and the clusters the file had stay at the head of its
    chain. *)
Lemma file_steps_invariant (fuel : nat) (s s' : fat32_file_t * world) :
  file_steps fuel s s' ->
  forall cs,
    volume_ok s.2 -> file_ok s.2 s.1 cs ->
    Z.of_nat (length cs) = clusters_for s.2 (file_size s.1) ->
    exists cs',
      volume_ok s'.2 /\ file_ok s'.2 s'.1 cs'
      /\ Z.of_nat (length cs') = clusters_for s'.2 (file_size s'.1)
      /\ file_size s.1 <= file_size s'.1
      /\ start_cluster s'.1 = start_cluster s.1
      /\ cs `prefix_of` cs'.
Proof.
  induction 1 as [s|[f w] src n [f1 w1] s'' Hsrc Hpos Hfit Hwrite Hrest IH
                  |[f w] pos [f1 w1] s'' Hseek Hrest IH];
    intros cs Hok Hfile Hlen.
  - exists cs. split; [done|]. split; [done|]. split; [done|].
    split; [lia|]. by split.
  - cbn [fst snd] in *.
    destruct (fat32_write_inv _ _ _ _ _ _ _ _ Hok Hfile Hlen Hsrc Hpos Hfit
                Hwrite)
      as (cs1 & Hfile1 & Hlen1 & Hok1 & _ & _ & _ & Hsize & Hstart & Hpre).
    destruct (IH cs1 Hok1 Hfile1 Hlen1)
      as (cs' & Hok' & Hfile' & Hlen' & Hsize' & Hstart' & Hpre').
    exists cs'. split; [done|]. split; [done|]. split; [done|].
    split; [lia|]. split; [congruence|]. by etrans.
  - cbn [fst snd] in *. apply fat32_seek_inv in Hseek as [-> ->].
    destruct (IH cs Hok) as (cs' & H'); [|done|by exists cs'].
    exact Hfile.
Qed.

(** ** The cluster chain of a file and its size *)

Lemma fat_blocks_ok_whole (w : world) :
  map_Forall (fun _ s => length s = 512%nat) (sd_blocks (card w)) ->
  fat_blocks_ok w.
Proof. intros H c s _ Hs. exact (H _ _ Hs). Qed.




(** Why the writes of the theorem are non-empty: with the position at the
    end of a file that fills its clusters exactly, a write of no bytes
    still walks to the cluster of the position and appends one, so the
    file of 1024 bytes ends up with a chain of two clusters. *)
Lemma zero_length_write_appends_cluster :
  code (fat32_write 100 (Some []) demo_full) = Some FAT32_OK
  /\ file_size demo_full.1 = 1024
  /\ position demo_full.1 = 1024
  /\ bytes_per_cluster demo_full.2 = 1024
  /\ fat_entry demo_full.2 3 = Some FAT32_FAT_ENTRY_EOC
  /\ file_size demo_touched.1 = 1024
  /\ fat_entry demo_touched.2 3 = Some 4
  /\ fat_entry demo_touched.2 4 = Some FAT32_FAT_ENTRY_EOC.
Proof. repeat apply conj; vm_compute; reflexivity. Qed.

(** ** The data region

    The sectors of the clusters lie apart from the FAT and from the
    FSInfo sector, so the steps that maintain the FAT leave them alone. *)

Lemma volume_of_data_block (w w' : world) (c j : Z) :
  volume_of w' = volume_of w -> data_block w' c j = data_block w c j.
Proof.
  unfold volume_of, data_block. intros [= _ _ _ -> -> -> _ _]. done.
Qed.

Lemma volume_of_spc (w w' : world) :
  volume_of w' = volume_of w ->
  sectors_per_cluster (boot_sector w') = sectors_per_cluster (boot_sector w).
Proof. unfold volume_of. by intros [= _ _ _ -> _ _ _ _]. Qed.

Lemma data_kept_refl (w : world) : data_kept w w.
Proof. by intros c j _ _. Qed.

Lemma data_kept_trans (w w1 w2 : world) :
  volume_of w1 = volume_of w ->
  data_kept w w1 -> data_kept w1 w2 -> data_kept w w2.
Proof.
  intros Hv H1 H2 c j Hc Hj.
  rewrite <- (H1 c j Hc Hj), <- (volume_of_data_block w w1 c j Hv).
  apply H2; [by apply (volume_of_in_range w w1) |
             by rewrite (volume_of_spc w w1)].
Qed.

Lemma data_kept_same_blocks (w w' : world) :
  sd_blocks (card w') = sd_blocks (card w) -> data_kept w w'.
Proof. intros H c j _ _. by rewrite H. Qed.

(** A sector of a cluster is neither a FAT sector nor the FSInfo
    sector. *)
Lemma data_block_not_fat (w : world) (c j c' : Z) :
  layout_ok w -> in_range w c ->
  0 <= j < sectors_per_cluster (boot_sector w) -> in_range w c' ->
  data_block w c j <> fat_block w c'.
Proof.
  intros Hlay Hc Hj Hc'. unfold data_block.
  apply (data_sector_not_fat w Hlay); [done|]. left.
  by apply (cluster_sector_in_data w Hlay).
Qed.

Lemma data_block_not_fsinfo (w : world) (c j : Z) :
  layout_ok w -> in_range w c ->
  0 <= j < sectors_per_cluster (boot_sector w) ->
  data_block w c j
  <> u32 (volume_start_block w + fat32_info (boot_sector w)).
Proof.
  intros Hlay Hc Hj Heq. unfold data_block in Heq.
  pose proof (cluster_sector_in_data w Hlay c j Hc Hj) as Hsec.
  cbv zeta in Hsec.
  destruct Hlay as (_ & _ & Hcc & _ & Hinfo & Hfat & _).
  assert (0 <= (cluster_count w + 2) * 4 / 512) by (apply Z.div_pos; lia).
  apply u32_add_cancel in Heq; lia.
Qed.

Lemma cluster_sector_value (w : world) (c j : Z) :
  layout_ok w -> in_range w c ->
  0 <= j < sectors_per_cluster (boot_sector w) ->
  u32 (u32 (u32 ((c - 2) * sectors_per_cluster (boot_sector w))
            + first_data_sector w) + j)
  = (c - 2) * sectors_per_cluster (boot_sector w) + first_data_sector w + j.
Proof.
  intros Hlay [Hc1 Hc2] Hj.
  destruct Hlay as (Hspc & _ & Hcc & Heoc & Hinfo & Hfat & Hdata & _).
  assert (Hf : 0 <= first_data_sector w).
  { assert (0 <= (cluster_count w + 2) * 4 / 512)
      by (apply Z.div_pos; lia). lia. }
  rewrite (u32_small ((c - 2) * sectors_per_cluster (boot_sector w))) by nia.
  rewrite (u32_small ((c - 2) * sectors_per_cluster (boot_sector w)
                      + first_data_sector w)) by nia.
  rewrite u32_small by nia. reflexivity.
Qed.

(** Different sectors of the clusters of the volume are different
    blocks. *)
Lemma data_block_inj (w : world) (c j c' j' : Z) :
  layout_ok w -> in_range w c -> in_range w c' ->
  0 <= j < sectors_per_cluster (boot_sector w) ->
  0 <= j' < sectors_per_cluster (boot_sector w) ->
  data_block w c j = data_block w c' j' -> c = c' /\ j = j'.
Proof.
  intros Hlay Hc Hc' Hj Hj' Heq. unfold data_block in Heq.
  pose proof (cluster_sector_in_data w Hlay c j Hc Hj) as Hs.
  pose proof (cluster_sector_in_data w Hlay c' j' Hc' Hj') as Hs'.
  cbv zeta in Hs, Hs'.
  assert (Hf : 0 <= first_data_sector w).
  { destruct Hlay as (_ & _ & Hcc & _ & Hinfo & Hfat & _).
    assert (0 <= (cluster_count w + 2) * 4 / 512)
      by (apply Z.div_pos; lia). lia. }
  apply u32_add_cancel in Heq; [|lia|lia].
  rewrite !cluster_sector_value in Heq by done.
  clear Hs Hs'. destruct Hlay as (Hspc & _).
  assert (c = c').
  { destruct (Z.lt_trichotomy c c') as [Hlt|[Heq'|Hgt]]; [|done|].
    - assert (sectors_per_cluster (boot_sector w)
              <= (c' - c) * sectors_per_cluster (boot_sector w)) by nia.
      lia.
    - assert (sectors_per_cluster (boot_sector w)
              <= (c - c') * sectors_per_cluster (boot_sector w)) by nia.
      lia. }
  subst c'. split; [done | lia].
Qed.

Lemma write_cluster_fat_entry_data (c v : Z) (w w' : world) :
  layout_ok w -> in_range w c ->
  write_cluster_fat_entry c v w = Ret tt w' -> data_kept w w'.
Proof.
  intros Hlay Hc Hw.
  apply write_cluster_fat_entry_inv in Hw as (_ & s & _ & ->).
  intros c' j Hc' Hj. cbn.
  rewrite lookup_insert_ne; [done|].
  intros Heq. by apply (data_block_not_fat w c' j c).
Qed.

Lemma decrease_free_count_data (w w' : world) :
  layout_ok w -> decrease_free_count w = Ret tt w' -> data_kept w w'.
Proof.
  intros Hlay Hd. apply decrease_free_count_blocks in Hd as [_ Hb].
  intros c j Hc Hj. apply Hb. by apply data_block_not_fsinfo.
Qed.


(** * Further properties of the driver *)

(** Proofs by evaluation that a concrete state is a well-formed volume. *)
Ltac volume_ok_by_evaluation :=
  split; [|split];
  [ repeat apply conj; vm_compute; reflexivity
  | repeat apply conj; vm_compute; first [reflexivity | discriminate]
  | match goal with
    | |- fat_blocks_ok ?w =>
        apply fat_blocks_ok_whole;
        let H := fresh in
        assert (H : bool_decide
                      (map_Forall (fun (_ : Z) (s : sector) =>
                                     length s = 512%nat)
                                  (sd_blocks (card w))))
          by (vm_compute; exact I);
        exact (bool_decide_unpack _ H)
    end ].

(** ** FAT entries *)

Lemma read_cluster_fat_entry_value (c : Z) (w : world) :
  value (read_cluster_fat_entry c w) = fat_entry w c.
Proof.
  unfold fat_entry. destruct (Z.ltb_spec c 2).
  - by rewrite read_cluster_fat_entry_low.
  - destruct (sd_blocks (card w) !! fat_block w c) as [s|] eqn:Hs.
    + by rewrite (read_cluster_fat_entry_block c w s).
    + by rewrite read_cluster_fat_entry_missing.
Qed.

(** X1.  On a well-formed volume, writing the FAT entry of a cluster whose
    FAT sector is on the card succeeds; a read of that entry then gives the
    low 28 bits of the value written, a read of the entry of any other
    cluster of the volume gives what it gave before, and the volume is
    still well formed. *)
Theorem fat_entry_write_then_read (w : world) (c v : Z) :
  volume_ok w -> in_range w c ->
  is_Some (sd_blocks (card w) !! fat_block w c) ->
  exists w',
    write_cluster_fat_entry c v w = Ret tt w'
    /\ volume_ok w'
    /\ value (read_cluster_fat_entry c w') = Some (Z.land v 0x0FFFFFFF)
    /\ forall c', in_range w c' -> c' <> c ->
                  value (read_cluster_fat_entry c' w')
                  = value (read_cluster_fat_entry c' w).
Proof.
  intros Hok Hc [s Hs].
  pose proof (write_cluster_fat_entry_block c v w s (proj1 Hc) Hs) as Hw.
  eexists. split; [exact Hw|].
  destruct (fat_step_write_entry _ _ _ _ Hok Hc Hw) as ((Hok' & _ & Hf) & Hr).
  split; [done|]. rewrite !read_cluster_fat_entry_value.
  split; [done|]. intros c' Hc' Hne.
  rewrite !read_cluster_fat_entry_value. apply Hf; [done|].
  intros Hin. apply list_elem_of_singleton in Hin. done.
Qed.

Lemma fat_entry_write_then_read_witness :
  exists w',
    write_cluster_fat_entry 5 0xF0000007 (demo_world 65529 3) = Ret tt w'
    /\ volume_ok w'
    /\ value (read_cluster_fat_entry 5 w') = Some (Z.land 0xF0000007 0x0FFFFFFF)
    /\ forall c', in_range (demo_world 65529 3) c' -> c' <> 5 ->
                  value (read_cluster_fat_entry c' w')
                  = value (read_cluster_fat_entry c' (demo_world 65529 3)).
Proof.
  apply (fat_entry_write_then_read (demo_world 65529 3) 5 0xF0000007).
  - volume_ok_by_evaluation.
  - split; vm_compute; first [reflexivity | discriminate].
  - vm_compute. eexists. reflexivity.
Defined.

(** ** The search for a free cluster *)

Lemma read_cluster_fat_entry_cases (c : Z) (w : world) :
  (exists v s, read_cluster_fat_entry c w = Ret v (set_sector_buffer s w)
               /\ fat_entry w c = Some v)
  \/ (exists e, read_cluster_fat_entry c w = Fail e w
                /\ e <> FAT32_ERROR_DISK_FULL /\ fat_entry w c = None).
Proof.
  unfold fat_entry. destruct (Z.ltb_spec c 2).
  - right. exists FAT32_ERROR_INVALID_PARAMETER.
    by rewrite read_cluster_fat_entry_low.
  - destruct (sd_blocks (card w) !! fat_block w c) as [s|] eqn:Hs.
    + left. eexists _, s. by rewrite (read_cluster_fat_entry_block c w s).
    + right. exists FAT32_ERROR_READ_FAILED.
      by rewrite read_cluster_fat_entry_missing.
Qed.

Lemma get_next_free_cluster_from_spec (n : nat) :
  forall (i : Z) (w : world),
    i + Z.of_nat n <= 2 ^ 32 ->
    match get_next_free_cluster_from n i w with
    | Ret c w' =>
        i <= c < i + Z.of_nat n /\ fat_entry w c = Some 0
        /\ (forall j, i <= j < c ->
                      exists v, fat_entry w j = Some v /\ v <> 0)
        /\ exists s, w' = set_sector_buffer s w
    | Fail e w' =>
        (e = FAT32_ERROR_DISK_FULL
         /\ forall j, i <= j < i + Z.of_nat n ->
                      exists v, fat_entry w j = Some v /\ v <> 0)
        \/ (e <> FAT32_ERROR_DISK_FULL
            /\ exists j, i <= j < i + Z.of_nat n /\ fat_entry w j = None)
    | Stop _ => False
    end.
Proof.
  induction n as [|n IH]; intros i w Hb; cbn [get_next_free_cluster_from].
  - left. split; [done|]. intros j Hj. lia.
  - cbv [bind].
    destruct (read_cluster_fat_entry_cases i w)
      as [(v & s & -> & Hv)|(e & -> & He & Hnone)].
    + unfold FAT32_FAT_ENTRY_FREE.
      destruct (Z.eqb_spec v 0) as [->|Hne].
      * cbv [ret]. split; [lia|]. split; [done|].
        split; [intros j Hj; lia | by exists s].
      * pose proof (fat_entry_Some_ge _ _ _ Hv) as Hi.
        destruct n as [|n].
        { cbn. left. split; [done|]. intros j Hj.
          assert (j = i) as -> by lia. by exists v. }
        rewrite (u32_small (i + 1)) by lia.
        specialize (IH (i + 1) (set_sector_buffer s w) ltac:(lia)).
        destruct (get_next_free_cluster_from (S n) (i + 1)
                                             (set_sector_buffer s w))
          as [c w'|e w'|]; [| |done].
        -- destruct IH as (Hr & Hc & Hlow & s' & ->).
           split; [lia|]. split; [done|]. split; [|by exists s'].
           intros j Hj. destruct (decide (j = i)) as [->|Hji].
           ++ by exists v.
           ++ apply Hlow. lia.
        -- destruct IH as [[-> Hall]|[He (j & Hj & Hnone)]].
           ++ left. split; [done|]. intros j Hj.
              destruct (decide (j = i)) as [->|Hji]; [by exists v|].
              apply Hall. lia.
           ++ right. split; [done|]. exists j. split; [lia | done].
    + right. split; [done|]. exists i. split; [lia | done].
Qed.

(** X2.  [get_next_free_cluster] searches upward from the next-free hint
    (from cluster 2 when the hint is unknown) and does not wrap around.
    When it succeeds, the cluster it returns is the lowest free cluster at
    or above the start of the search, and only the sector buffer has
    changed.  When every cluster from the start of the search to the last
    cluster of the volume is in use, it fails with disk-full, whatever is
    free below the hint. *)
Theorem free_cluster_search_is_first_fit (w : world) :
  layout_ok w ->
  let start :=
    if next_free (fsinfo w) =? 0xFFFFFFFF then 2 else next_free (fsinfo w) in
  (forall c w',
      get_next_free_cluster w = Ret c w' ->
      start <= c < cluster_count w + 2
      /\ value (read_cluster_fat_entry c w) = Some FAT32_FAT_ENTRY_FREE
      /\ (forall j, start <= j < c ->
                    exists v, value (read_cluster_fat_entry j w) = Some v
                              /\ v <> FAT32_FAT_ENTRY_FREE)
      /\ exists s, w' = set_sector_buffer s w)
  /\ ((forall j, start <= j < cluster_count w + 2 ->
                 exists v, value (read_cluster_fat_entry j w) = Some v
                           /\ v <> FAT32_FAT_ENTRY_FREE) ->
      exists w', get_next_free_cluster w = Fail FAT32_ERROR_DISK_FULL w').
Proof.
  intros (_ & _ & Hcc & Heoc & _) start.
  unfold FAT32_FAT_ENTRY_EOC in Heoc. unfold FAT32_FAT_ENTRY_FREE.
  unfold get_next_free_cluster. cbv [bind get].
  rewrite (u32_small (cluster_count w + 2)) by lia.
  replace (if negb (next_free (fsinfo w) =? 4294967295)
           then next_free (fsinfo w) else 2) with start
    by (subst start; by destruct (next_free (fsinfo w) =? 4294967295)).
  set (n := Z.to_nat (cluster_count w + 2 - start)).
  destruct (Z.le_gt_cases (cluster_count w + 2) start) as [Hle|Hgt].
  - replace n with O by lia. cbn. split; [discriminate|].
    intros _. by eexists.
  - pose proof (get_next_free_cluster_from_spec n start w ltac:(lia)) as H.
    destruct (get_next_free_cluster_from n start w) as [c w1|e w1|]; [| |done].
    + split; [|intros Hall].
      * intros c' w' [= <- <-]. destruct H as (Hr & Hc & Hlow & Hs).
        split; [lia|]. rewrite read_cluster_fat_entry_value.
        split; [done|]. split; [|done].
        intros j Hj. rewrite read_cluster_fat_entry_value. by apply Hlow.
      * exfalso. destruct H as (Hr & Hc & _).
        destruct (Hall c ltac:(lia)) as (v & Hv & Hne).
        rewrite read_cluster_fat_entry_value in Hv. congruence.
    + split; [discriminate|]. intros Hall.
      destruct H as [[-> _]|[_ (j & Hj & Hnone)]]; [by eexists|].
      exfalso. destruct (Hall j ltac:(lia)) as (v & Hv & _).
      rewrite read_cluster_fat_entry_value in Hv. congruence.
Qed.

Lemma free_cluster_search_is_first_fit_witness :
  let w := demo_world 65529 3 in
  let start :=
    if next_free (fsinfo w) =? 0xFFFFFFFF then 2 else next_free (fsinfo w) in
  (forall c w',
      get_next_free_cluster w = Ret c w' ->
      start <= c < cluster_count w + 2
      /\ value (read_cluster_fat_entry c w) = Some FAT32_FAT_ENTRY_FREE
      /\ (forall j, start <= j < c ->
                    exists v, value (read_cluster_fat_entry j w) = Some v
                              /\ v <> FAT32_FAT_ENTRY_FREE)
      /\ exists s, w' = set_sector_buffer s w)
  /\ ((forall j, start <= j < cluster_count w + 2 ->
                 exists v, value (read_cluster_fat_entry j w) = Some v
                           /\ v <> FAT32_FAT_ENTRY_FREE) ->
      exists w', get_next_free_cluster w = Fail FAT32_ERROR_DISK_FULL w').
Proof.
  apply (free_cluster_search_is_first_fit (demo_world 65529 3)).
  repeat apply conj; vm_compute; first [reflexivity | discriminate].
Defined.

(** ** Linking a new cluster *)

(** X3.  A successful [allocate_and_link_cluster] on a well-formed volume,
    for a cluster [last] that is in use: the cluster it returns was free
    and is not [last]; afterwards the entry of [last] is the new cluster,
    the entry of the new cluster is the end-of-chain mark, the entry of
    every other cluster of the volume reads as before, and the volume is
    still well formed. *)
Theorem allocate_and_link_appends_free_cluster (w w' : world) (last new : Z) :
  volume_ok w -> in_range w last ->
  (exists v, value (read_cluster_fat_entry last w) = Some v
             /\ v <> FAT32_FAT_ENTRY_FREE) ->
  allocate_and_link_cluster last w = Ret new w' ->
  value (read_cluster_fat_entry new w) = Some FAT32_FAT_ENTRY_FREE
  /\ in_range w new /\ new <> last
  /\ volume_ok w'
  /\ value (read_cluster_fat_entry last w') = Some new
  /\ value (read_cluster_fat_entry new w') = Some FAT32_FAT_ENTRY_EOC
  /\ forall c, in_range w c -> c <> last -> c <> new ->
               value (read_cluster_fat_entry c w')
               = value (read_cluster_fat_entry c w).
Proof.
  intros Hok Hlast (v & Hv & Hne) Halloc.
  rewrite read_cluster_fat_entry_value in Hv.
  destruct (allocate_and_link_cluster_inv last new w w' Hok Hlast
              ltac:(by exists v) Halloc)
    as (Hfree & Hnew & Hdiff & (Hok' & _ & Hframe) & Hl & Hn).
  rewrite !read_cluster_fat_entry_value.
  split; [done|]. split; [done|]. split; [done|]. split; [done|].
  split; [done|]. split; [done|].
  intros c Hc Hcl Hcn. rewrite !read_cluster_fat_entry_value.
  apply Hframe; [done|]. intros Hin.
  apply elem_of_cons in Hin as [->|Hin]; [done|].
  apply list_elem_of_singleton in Hin. done.
Qed.

Lemma allocate_and_link_appends_free_cluster_witness :
  let w := demo_created.2 in
  exists new w',
    allocate_and_link_cluster 3 w = Ret new w'
    /\ value (read_cluster_fat_entry new w) = Some FAT32_FAT_ENTRY_FREE
    /\ in_range w new /\ new <> 3
    /\ volume_ok w'
    /\ value (read_cluster_fat_entry 3 w') = Some new
    /\ value (read_cluster_fat_entry new w') = Some FAT32_FAT_ENTRY_EOC
    /\ forall c, in_range w c -> c <> 3 -> c <> new ->
                 value (read_cluster_fat_entry c w')
                 = value (read_cluster_fat_entry c w).
Proof.
  cbv zeta.
  assert (H : allocate_and_link_cluster 3 demo_created.2
              = Ret 4 (after demo_created.2
                             (allocate_and_link_cluster 3 demo_created.2)))
    by (vm_compute; reflexivity).
  exists 4, (after demo_created.2 (allocate_and_link_cluster 3 demo_created.2)).
  split; [exact H|].
  apply (allocate_and_link_appends_free_cluster demo_created.2 _ 3 4);
    [| | |exact H].
  - volume_ok_by_evaluation.
  - split; vm_compute; first [reflexivity | discriminate].
  - exists FAT32_FAT_ENTRY_EOC. split; [vm_compute; reflexivity | discriminate].
Defined.

(** ** Walking a chain *)

Lemma seek_to_cluster_loop_past_end (w : world) (cs : list Z) :
  forall (c0 : Z) (n : nat),
    linked w (c0 :: cs) ->
    (exists c v, last (c0 :: cs) = Some c /\ fat_entry w c = Some v
                 /\ FAT32_FAT_ENTRY_EOC <= v) ->
    (length (c0 :: cs) <= n)%nat ->
    exists s,
      seek_to_cluster_loop n c0 w
      = Fail FAT32_ERROR_INVALID_POSITION (set_sector_buffer s w).
Proof.
  revert w. induction cs as [|c1 cs IH]; intros w c0 n Hl Hlast Hn.
  - destruct n as [|n]; [cbn in Hn; lia|].
    destruct Hlast as (c & v & [= <-] & Hv & Heoc).
    destruct (read_cluster_fat_entry_view c0 v w Hv) as [s Hread].
    cbn [seek_to_cluster_loop]. cbv [bind]. rewrite Hread.
    destruct (Z.ltb_spec v FAT32_FAT_ENTRY_EOC); [lia|]. by exists s.
  - destruct n as [|n]; [cbn in Hn; lia|].
    destruct Hl as (Hfat & Hlt & Hl).
    destruct (read_cluster_fat_entry_view c0 c1 w Hfat) as [s Hread].
    cbn [seek_to_cluster_loop]. cbv [bind]. rewrite Hread.
    destruct (Z.ltb_spec c1 FAT32_FAT_ENTRY_EOC); [|lia]. cbn [negb].
    destruct (IH (set_sector_buffer s w) c1 n) as [s' Hs'].
    + by apply linked_buffer.
    + destruct Hlast as (c & v & Hc & Hv & Heoc). exists c, v.
      split; [|done]. by destruct cs.
    + cbn in *. lia.
    + by exists s'.
Qed.

(** X4.  [seek_to_cluster] along the chain [cs] that begins at [start]:
    an offset inside the chain gives the cluster at that place of the
    chain, and an offset at or past its end fails with invalid-position.
    Either way only the sector buffer changes. *)
Theorem seek_to_cluster_follows_chain (w : world) (start : Z) (cs : list Z)
    (offset : Z) :
  chain w start cs -> 0 <= offset ->
  (offset < Z.of_nat (length cs) ->
   exists c s,
     cs !! Z.to_nat offset = Some c
     /\ seek_to_cluster start offset w = Ret c (set_sector_buffer s w))
  /\ (Z.of_nat (length cs) <= offset ->
      exists s,
        seek_to_cluster start offset w
        = Fail FAT32_ERROR_INVALID_POSITION (set_sector_buffer s w)).
Proof.
  intros (Hhead & Hl & Hlast) Hoff. unfold seek_to_cluster.
  destruct cs as [|c0 cs]; [done|]. injection Hhead as ->.
  split; intros Hlen.
  - destruct (lookup_lt_is_Some_2 (start :: cs) (Z.to_nat offset))
      as [c Hc]; [lia|].
    destruct (seek_to_cluster_loop_linked w (start :: cs) (Z.to_nat offset)
                start c Hl eq_refl Hc) as [s Hs].
    by exists c, s.
  - apply (seek_to_cluster_loop_past_end w cs); [done | done | lia].
Qed.

Lemma seek_to_cluster_follows_chain_witness :
  let w := demo_grown.2 in
  (1 < Z.of_nat (length [3; 4]) ->
   exists c s,
     [3; 4] !! Z.to_nat 1 = Some c
     /\ seek_to_cluster 3 1 w = Ret c (set_sector_buffer s w))
  /\ (Z.of_nat (length [3; 4]) <= 1 ->
      exists s,
        seek_to_cluster 3 1 w
        = Fail FAT32_ERROR_INVALID_POSITION (set_sector_buffer s w)).
Proof.
  apply (seek_to_cluster_follows_chain demo_grown.2 3 [3; 4] 1);
    [|vm_compute; discriminate].
  split; [reflexivity|]. split.
  - split; [vm_compute; reflexivity|].
    split; [vm_compute; reflexivity | exact I].
  - exists 4, FAT32_FAT_ENTRY_EOC. split; [reflexivity|].
    split; [vm_compute; reflexivity|]. vm_compute. discriminate.
Defined.

(** ** Releasing a chain *)

Lemma foldl_min_spec (cs : list Z) :
  forall init : Z,
    let m := foldl Z.min init cs in
    m <= init /\ (forall c, c ∈ cs -> m <= c) /\ (m = init \/ m ∈ cs).
Proof.
  induction cs as [|c cs IH]; intros init; cbn [foldl].
  - split; [lia|]. split; [|by left]. intros c Hc. by apply elem_of_nil in Hc.
  - destruct (IH (Z.min init c)) as (Hle & Hall & Hin).
    split; [lia|]. split.
    + intros x Hx. apply elem_of_cons in Hx as [->|Hx]; [lia | by apply Hall].
    + destruct Hin as [Heq|Hin].
      * destruct (Z.min_spec init c) as [[_ Hm]|[_ Hm]].
        -- left. by rewrite Heq.
        -- right. rewrite Heq, Hm. apply elem_of_cons. by left.
      * right. apply elem_of_cons. by right.
Qed.

Lemma fat_entry_is_Some_block (w : world) (c v : Z) :
  fat_entry w c = Some v ->
  2 <= c /\ exists s, sd_blocks (card w) !! fat_block w c = Some s.
Proof.
  unfold fat_entry. destruct (Z.ltb_spec c 2); [discriminate|].
  destruct (sd_blocks (card w) !! fat_block w c) as [s|]; [|discriminate].
  intros _. split; [done | by exists s].
Qed.

(** The loop of [release_cluster_chain] on a chain of distinct clusters of
    the volume. *)
Lemma release_cluster_chain_loop_spec (cs : list Z) :
  forall (c0 : Z) (w : world) (fuel : nat) (total lowest : Z),
    volume_ok w -> linked w (c0 :: cs) -> NoDup (c0 :: cs) ->
    Forall (in_range w) (c0 :: cs) ->
    (exists c v, last (c0 :: cs) = Some c /\ fat_entry w c = Some v
                 /\ FAT32_FAT_ENTRY_EOC <= v) ->
    (length (c0 :: cs) <= fuel)%nat ->
    0 <= total -> total + Z.of_nat (length (c0 :: cs)) < 2 ^ 32 ->
    exists w',
      release_cluster_chain_loop fuel c0 total lowest w
      = Ret (total + Z.of_nat (length (c0 :: cs)),
             foldl Z.min lowest (c0 :: cs)) w'
      /\ fat_step (c0 :: cs) w w'
      /\ (forall c, c ∈ c0 :: cs -> fat_entry w' c = Some 0)
      /\ fsinfo w' = fsinfo w
      /\ (forall b, is_Some (sd_blocks (card w) !! b) ->
                    is_Some (sd_blocks (card w') !! b))
      /\ data_kept w w'.
Proof.
  induction cs as [|c1 cs IH];
    intros c0 w fuel total lowest Hok Hl Hnd Hr Hlast Hfuel Htot Hfit.
  - (* the last cluster of the chain *)
    destruct fuel as [|fuel]; [cbn in Hfuel; lia|].
    destruct Hlast as (c & v & [= <-] & Hv & Heoc).
    apply Forall_cons in Hr as [Hc0 _].
    pose proof Hok as (_ & (_ & _ & _ & Hmax & _) & _).
    cbn [release_cluster_chain_loop].
    destruct (Z.ltb_spec c0 FAT32_FAT_ENTRY_EOC);
      [|unfold in_range in Hc0; lia].
    cbn [negb]. cbv [bind].
    destruct (read_cluster_fat_entry_view c0 v w Hv) as [s ->].
    destruct (fat_entry_is_Some_block w c0 v Hv) as (Hc2 & s0 & Hs0).
    pose proof (write_cluster_fat_entry_block c0 FAT32_FAT_ENTRY_FREE
                  (set_sector_buffer s w) s0 Hc2 Hs0) as Hw.
    rewrite Hw.
    destruct (fat_step_write_entry _ _ _ _ (volume_ok_buffer w s Hok) Hc0 Hw)
      as (Hstep & Hfree).
    destruct fuel as [|fuel]; cbn [release_cluster_chain_loop];
      (destruct (Z.ltb_spec v FAT32_FAT_ENTRY_EOC); [lia|]); cbn [negb ret].
    all: eexists; split;
      [f_equal; f_equal;
       [rewrite u32_small by (cbn in Hfit; lia); cbn; lia
       |cbn [foldl]; destruct (Z.ltb_spec c0 lowest); lia]|].
    all: split;
      [apply (fat_step_trans [] [c0] w (set_sector_buffer s w));
       [by apply fat_step_buffer | exact Hstep]|].
    all: split;
      [intros c Hc; apply list_elem_of_singleton in Hc as ->; exact Hfree|].
    all: split; [reflexivity|].
    all: split; [intros b Hb; cbn; by apply lookup_insert_is_Some'; right|].
    all: exact (write_cluster_fat_entry_data c0 _ (set_sector_buffer s w) _
                  (proj1 (proj2 Hok)) Hc0 Hw).
  - (* a cluster with a successor *)
    destruct fuel as [|fuel]; [cbn in Hfuel; lia|].
    destruct Hl as (Hfat & Hlt & Hl).
    apply Forall_cons in Hr as [Hc0 Hr].
    apply NoDup_cons in Hnd as [Hnotin Hnd].
    pose proof Hok as (_ & (_ & _ & _ & Hmax & _) & _).
    cbn [release_cluster_chain_loop].
    destruct (Z.ltb_spec c0 FAT32_FAT_ENTRY_EOC);
      [|unfold in_range in Hc0; lia].
    cbn [negb]. cbv [bind].
    destruct (read_cluster_fat_entry_view c0 c1 w Hfat) as [s ->].
    destruct (fat_entry_is_Some_block w c0 c1 Hfat) as (Hc2 & s0 & Hs0).
    pose proof (write_cluster_fat_entry_block c0 FAT32_FAT_ENTRY_FREE
                  (set_sector_buffer s w) s0 Hc2 Hs0) as Hw.
    rewrite Hw.
    destruct (fat_step_write_entry _ _ _ _ (volume_ok_buffer w s Hok) Hc0 Hw)
      as (Hstep & Hfree).
    set (w1 := set_blocks _ _) in *.
    pose proof Hstep as (Hok1 & Hvol1 & Hframe1).
    assert (Hsame : forall c, c ∈ c1 :: cs -> fat_entry w1 c = fat_entry w c).
    { intros c Hc. apply Hframe1.
      - rewrite Forall_forall in Hr. by apply Hr.
      - intros Hin. apply list_elem_of_singleton in Hin as ->. done. }
    destruct (IH c1 w1 fuel (u32 (total + 1))
                (if c0 <? lowest then c0 else lowest))
      as (w' & Hloop & Hstep' & Hfree' & Hfs & Hdom & Hdata').
    + done.
    + by apply (linked_frame w).
    + done.
    + eapply Forall_impl; [exact Hr|]. intros x Hx.
      by apply (volume_of_in_range (set_sector_buffer s w) w1).
    + destruct Hlast as (c & v & Hc & Hv & Heoc). exists c, v.
      split; [done|]. split; [|done]. rewrite Hsame; [done|].
      change (last (c0 :: c1 :: cs)) with (last (c1 :: cs)) in Hc.
      by apply last_Some_elem_of.
    + cbn in *. lia.
    + pose proof (u32_range (total + 1)). lia.
    + rewrite u32_small by (cbn in Hfit; lia). cbn in *. lia.
    + exists w'. split.
      { rewrite Hloop. f_equal. f_equal.
        - rewrite u32_small by (cbn in Hfit; lia). cbn [length]. lia.
        - cbn [foldl]. f_equal. destruct (Z.ltb_spec c0 lowest); lia. }
      split.
      { apply (fat_step_trans [c0] (c1 :: cs) w w1); [|done].
        apply (fat_step_trans [] [c0] w (set_sector_buffer s w));
          [by apply fat_step_buffer | exact Hstep]. }
      split.
      { intros c Hc. apply elem_of_cons in Hc as [->|Hc]; [|by apply Hfree'].
        destruct Hstep' as (_ & _ & Hframe').
        rewrite Hframe'; [done | | done].
        by apply (volume_of_in_range (set_sector_buffer s w) w1). }
      split; [by rewrite Hfs|].
      split.
      { intros b Hb. apply Hdom. subst w1. cbn.
        by apply lookup_insert_is_Some'; right. }
      apply (data_kept_trans w w1); [exact Hvol1 | | exact Hdata'].
      exact (write_cluster_fat_entry_data c0 _ (set_sector_buffer s w) _
               (proj1 (proj2 Hok)) Hc0 Hw).
Qed.

Lemma volume_of_boot_sector (w w' : world) :
  volume_of w' = volume_of w ->
  boot_sector w' = boot_sector w
  /\ volume_start_block w' = volume_start_block w.
Proof. unfold volume_of. by intros [= _ _ _ -> -> _ _ _]. Qed.

Lemma chain_length_bound (w : world) (cs : list Z) :
  NoDup cs -> Forall (in_range w) cs ->
  Z.of_nat (length cs) <= Z.max 0 (cluster_count w).
Proof.
  intros Hnd Hr.
  assert (Hsub : cs ⊆+ seqZ 2 (cluster_count w)).
  { apply NoDup_submseteq; [done|]. intros x Hx.
    rewrite Forall_forall in Hr. specialize (Hr x Hx).
    apply elem_of_seqZ. unfold in_range in Hr. lia. }
  apply submseteq_length in Hsub. rewrite length_seqZ in Hsub. lia.
Qed.

(** [release_cluster_chain] on the chain of a file: it always succeeds,
    frees the chain and nothing else, keeps the data region, and brings
    the hints of the FSInfo sector up to date. *)
Lemma release_cluster_chain_total (fuel : nat) (w : world)
    (start : Z) (cs : list Z) :
  volume_ok w -> file_chain w start cs -> (length cs <= fuel)%nat ->
  is_Some (sd_blocks (card w)
             !! u32 (volume_start_block w + fat32_info (boot_sector w))) ->
  exists w',
    release_cluster_chain fuel start w = Ret tt w'
    /\ volume_ok w' /\ volume_of w' = volume_of w /\ data_kept w w'
    /\ (forall b, is_Some (sd_blocks (card w) !! b) ->
                  is_Some (sd_blocks (card w') !! b))
    /\ (forall c, c ∈ cs ->
          value (read_cluster_fat_entry c w') = Some FAT32_FAT_ENTRY_FREE)
    /\ (forall c, in_range w c -> c ∉ cs ->
          value (read_cluster_fat_entry c w')
          = value (read_cluster_fat_entry c w))
    /\ free_count (fsinfo w')
       = u32 (free_count (fsinfo w) + Z.of_nat (length cs))
    /\ next_free (fsinfo w') <= next_free (fsinfo w)
    /\ (forall c, c ∈ cs -> next_free (fsinfo w') <= c)
    /\ (next_free (fsinfo w') = next_free (fsinfo w)
        \/ next_free (fsinfo w') ∈ cs).
Proof.
  intros Hok ((Hhead & Hl & Hlast) & Hnd & Hr) Hfuel Hinfo.
  destruct cs as [|c0 cs]; [done|]. injection Hhead as ->.
  pose proof (chain_length_bound w _ Hnd Hr) as Hbound.
  pose proof Hok as (_ & (_ & _ & Hcc & Hmax & Hfsi & _) & _).
  unfold FAT32_FAT_ENTRY_EOC in Hmax.
  destruct (release_cluster_chain_loop_spec cs start w fuel 0 0xFFFFFFFF
              Hok Hl Hnd Hr Hlast Hfuel ltac:(lia) ltac:(lia))
    as (w1 & Hloop & Hstep & Hfree & Hfs & Hdom & Hdata1).
  pose proof (foldl_min_spec (start :: cs) 0xFFFFFFFF) as (Hm1 & Hm2 & Hm3).
  set (m := foldl Z.min 4294967295 (start :: cs)) in *.
  assert (Hstart : in_range w start) by (by apply Forall_cons in Hr as [? _]).
  assert (Hmin : m ∈ start :: cs).
  { destruct Hm3 as [Hm3|Hm3]; [|done].
    specialize (Hm2 start ltac:(apply elem_of_cons; by left)).
    unfold in_range in Hstart. lia. }
  unfold release_cluster_chain.
  destruct (Z.ltb_spec start 2); [unfold in_range in Hstart; lia|].
  cbv [bind]. rewrite Hloop. cbv [modify get]. cbn [fst snd].
  pose proof Hstep as (Hok1 & Hvol1 & Hframe1).
  match goal with
  | |- context [write_sector ?sec ?buf ?x] =>
      set (w2 := x); set (info := sec); set (image := buf)
  end.
  assert (Hstep2 : fat_step [] w1 w2).
  { subst w2. replace (0 + Z.of_nat (length (start :: cs)))
      with (Z.of_nat (length (start :: cs))) by lia.
    destruct (m <? _).
    - apply fat_step_same_blocks; done.
    - apply fat_step_same_blocks; done. }
  pose proof Hstep2 as (Hok2 & Hvol2 & _).
  destruct (volume_of_boot_sector _ _ Hvol1) as [Hbs1 Hvs1].
  assert (Hbs2 : boot_sector w2 = boot_sector w1
                 /\ volume_start_block w2 = volume_start_block w1
                 /\ sd_blocks (card w2) = sd_blocks (card w1))
    by (subst w2; by destruct (m <? _)).
  destruct Hbs2 as (Hbs2 & Hvs2 & Hblocks2).
  assert (Hinfo_eq : info = fat32_info (boot_sector w)).
  { transitivity (fat32_info (boot_sector w2)); [reflexivity|].
    by rewrite Hbs2, Hbs1. }
  assert (Hinfo2 : is_Some (sd_blocks (card w2)
                              !! u32 (volume_start_block w2 + info))).
  { rewrite Hinfo_eq, Hblocks2, Hvs2, Hvs1. by apply Hdom. }
  destruct Hinfo2 as [old Hold].
  assert (Hwrite : write_sector info image w2
                   = Ret tt (set_blocks
                               (<[u32 (volume_start_block w2 + info) := image]>
                                  (sd_blocks (card w2))) w2)).
  { unfold write_sector, sd_write_block. cbv [bind get]. by rewrite Hold. }
  match goal with
  | |- context [write_sector ?a ?b ?c] =>
      change (write_sector a b c) with (write_sector info image w2)
  end.
  rewrite Hwrite. eexists. split; [reflexivity|].
  assert (Hstep3 : fat_step [] w2 (set_blocks
                     (<[u32 (volume_start_block w2 + info) := image]>
                        (sd_blocks (card w2))) w2)).
  { apply (fat_step_write_sector w2 _ info image Hok2); [|exact Hwrite].
    right. rewrite Hinfo_eq, Hbs2, Hbs1. exact Hfsi. }
  assert (Hall : fat_step (start :: cs) w (set_blocks
                     (<[u32 (volume_start_block w2 + info) := image]>
                        (sd_blocks (card w2))) w2)).
  { apply (fat_step_weaken ((start :: cs) ++ [] ++ [])).
    - by rewrite !app_nil_r.
    - eapply fat_step_trans; [exact Hstep|].
      eapply fat_step_trans; [exact Hstep2 | exact Hstep3]. }
  destruct Hall as (Hok' & Hvol' & Hframe').
  split; [done|]. split; [done|].
  split.
  { apply (data_kept_trans w w1); [done | done|].
    apply (data_kept_trans w1 w2); [done | by apply data_kept_same_blocks|].
    intros c j Hc Hj. cbn. apply lookup_insert_ne. apply not_eq_sym.
    rewrite Hinfo_eq.
    replace (volume_start_block w2) with (volume_start_block w)
      by (by rewrite Hvs2, Hvs1).
    rewrite (volume_of_data_block w w2) by (by rewrite Hvol2).
    apply data_block_not_fsinfo.
    - by destruct Hok as (_ & ? & _).
    - apply (volume_of_in_range w w2); [by rewrite Hvol2 | done].
    - by rewrite <- (volume_of_spc w w2) by (by rewrite Hvol2). }
  split.
  { intros b Hb. cbn. apply lookup_insert_is_Some'. right.
    rewrite Hblocks2. by apply Hdom. }
  assert (Hkeep : forall c, in_range w c ->
             fat_entry (set_blocks
                          (<[u32 (volume_start_block w2 + info) := image]>
                             (sd_blocks (card w2))) w2) c = fat_entry w1 c).
  { intros c Hc.
    destruct Hstep3 as (_ & _ & Hf3). rewrite Hf3.
    - destruct Hstep2 as (_ & _ & Hf2). apply Hf2; [|apply not_elem_of_nil].
      by apply (volume_of_in_range w w1).
    - apply (volume_of_in_range w1 w2); [done|].
      by apply (volume_of_in_range w w1).
    - apply not_elem_of_nil. }
  split.
  { intros c Hc. rewrite read_cluster_fat_entry_value, Hkeep.
    - by apply Hfree.
    - rewrite Forall_forall in Hr. by apply Hr. }
  split.
  { intros c Hc Hnotin. rewrite !read_cluster_fat_entry_value.
    by apply Hframe'. }
  cbn [fsinfo set_blocks]. subst w2.
  destruct (Z.ltb_spec m (next_free
              (fsinfo (set_fsinfo
                 (set_free_count
                    (u32 (free_count (fsinfo w1)
                          + (0 + Z.of_nat (length (start :: cs)))))
                    (fsinfo w1)) w1)))) as [Hlt|Hge];
    cbn [fsinfo set_fsinfo set_free_count set_next_free free_count next_free]
      in *; rewrite ?Hfs in *.
  - split; [f_equal; lia|]. split; [lia|]. split; [exact Hm2 | by right].
  - split; [f_equal; lia|]. split; [lia|].
    split; [intros c Hc; specialize (Hm2 c Hc); lia | by left].
Qed.

(** X5.  [release_cluster_chain] on the chain [cs] of distinct clusters of
    a well-formed volume, with fuel for every cluster and the FSInfo sector
    on the card: it succeeds; every cluster of the chain then reads as
    free and every other cluster of the volume reads as before.  The
    free-count hint has grown by the number of clusters (modulo 2^32,
    whatever it was), and the next-free hint is now the lowest freed
    cluster if that is lower than the hint was. *)
Theorem release_cluster_chain_frees_chain (fuel : nat) (w : world)
    (start : Z) (cs : list Z) :
  volume_ok w -> file_chain w start cs -> (length cs <= fuel)%nat ->
  is_Some (sd_blocks (card w)
             !! u32 (volume_start_block w + fat32_info (boot_sector w))) ->
  exists w',
    release_cluster_chain fuel start w = Ret tt w'
    /\ volume_ok w'
    /\ (forall c, c ∈ cs ->
          value (read_cluster_fat_entry c w') = Some FAT32_FAT_ENTRY_FREE)
    /\ (forall c, in_range w c -> c ∉ cs ->
          value (read_cluster_fat_entry c w')
          = value (read_cluster_fat_entry c w))
    /\ free_count (fsinfo w')
       = u32 (free_count (fsinfo w) + Z.of_nat (length cs))
    /\ next_free (fsinfo w') <= next_free (fsinfo w)
    /\ (forall c, c ∈ cs -> next_free (fsinfo w') <= c)
    /\ (next_free (fsinfo w') = next_free (fsinfo w)
        \/ next_free (fsinfo w') ∈ cs).
Proof.
  intros Hok Hchain Hfuel Hinfo.
  destruct (release_cluster_chain_total fuel w start cs Hok Hchain Hfuel
              Hinfo)
    as (w' & Hrun & Hok' & _ & _ & _ & Hfree & Hframe & Hcount & Hnext).
  exists w'. split; [done|]. split; [done|]. split; [done|].
  split; [done|]. split; [done | exact Hnext].
Qed.

Lemma release_cluster_chain_frees_chain_witness :
  let w := demo_grown.2 in
  exists w',
    release_cluster_chain 10 3 w = Ret tt w'
    /\ volume_ok w'
    /\ (forall c, c ∈ [3; 4] ->
          value (read_cluster_fat_entry c w') = Some FAT32_FAT_ENTRY_FREE)
    /\ (forall c, in_range w c -> c ∉ [3; 4] ->
          value (read_cluster_fat_entry c w')
          = value (read_cluster_fat_entry c w))
    /\ free_count (fsinfo w')
       = u32 (free_count (fsinfo w) + Z.of_nat (length [3; 4]))
    /\ next_free (fsinfo w') <= next_free (fsinfo w)
    /\ (forall c, c ∈ [3; 4] -> next_free (fsinfo w') <= c)
    /\ (next_free (fsinfo w') = next_free (fsinfo w)
        \/ next_free (fsinfo w') ∈ [3; 4]).
Proof.
  apply (release_cluster_chain_frees_chain 10 demo_grown.2 3 [3; 4]).
  - volume_ok_by_evaluation.
  - split; [|split].
    + split; [reflexivity|]. split.
      * split; [vm_compute; reflexivity|].
        split; [vm_compute; reflexivity | exact I].
      * exists 4, FAT32_FAT_ENTRY_EOC. split; [reflexivity|].
        split; [vm_compute; reflexivity | vm_compute; discriminate].
    + apply NoDup_cons_2; [|apply NoDup_singleton].
      intros H. apply list_elem_of_singleton in H. discriminate H.
    + apply Forall_cons_2; [|apply Forall_cons_2; [|apply Forall_nil_2]];
        split; vm_compute; first [reflexivity | discriminate].
  - cbn. lia.
  - vm_compute. eexists. reflexivity.
Defined.

(** ** Clearing a cluster *)

Lemma u32_succ (sec i : Z) : u32 (u32 (sec + 1) + i) = u32 (sec + (i + 1)).
Proof.
  unfold u32. rewrite Zplus_mod_idemp_l. f_equal. lia.
Qed.

Lemma clear_cluster_loop_spec (n : nat) :
  forall (sec : Z) (w : world),
    0 <= sec < 2 ^ 32 ->
    (forall i, 0 <= i < Z.of_nat n ->
       is_Some (sd_blocks (card w)
                  !! u32 (volume_start_block w + u32 (sec + i)))) ->
    exists w',
      clear_cluster_loop n sec w = Ret tt w'
      /\ (forall b,
            sd_blocks (card w') !! b
            = if decide (b ∈ map (fun i => u32 (volume_start_block w
                                                + u32 (sec + i)))
                                 (seqZ 0 (Z.of_nat n)))
              then Some (sector_buffer w)
              else sd_blocks (card w) !! b)
      /\ sector_buffer w' = sector_buffer w
      /\ volume_of w' = volume_of w.
Proof.
  induction n as [|n IH]; intros sec w Hsec Hcard.
  - exists w. split; [reflexivity|]. split; [|done].
    intros b. cbn. by destruct (decide _) as [H|H]; [apply elem_of_nil in H|].
  - cbn [clear_cluster_loop]. cbv [bind get].
    destruct (Hcard 0 ltac:(lia)) as [old Hold].
    rewrite Z.add_0_r, (u32_small sec) in Hold by done.
    unfold write_sector at 1. unfold sd_write_block. cbv [bind get].
    rewrite Hold.
    set (w1 := set_blocks _ w).
    destruct (IH (u32 (sec + 1)) w1 (u32_range _))
      as (w' & Hloop & Hblocks & Hb & Hv).
    { intros i Hi. rewrite u32_succ. subst w1. cbn.
      apply lookup_insert_is_Some'. right. apply Hcard. lia. }
    exists w'. split; [exact Hloop|].
    split; [|split; [done | by rewrite Hv]].
    intros b. rewrite Hblocks.
    replace (Z.of_nat (S n)) with (Z.succ (Z.of_nat n)) by lia.
    rewrite (seqZ_cons 0 (Z.succ (Z.of_nat n))) by lia. cbn [map].
    rewrite Z.add_0_r, (u32_small sec) by done.
    replace (Z.pred (Z.succ (Z.of_nat n))) with (Z.of_nat n) by lia.
    assert (Hmap : map (fun i => u32 (volume_start_block w1
                                      + u32 (u32 (sec + 1) + i)))
                       (seqZ 0 (Z.of_nat n))
                   = map (fun i => u32 (volume_start_block w + u32 (sec + i)))
                         (seqZ (Z.succ 0) (Z.of_nat n))).
    { change (Z.succ 0) with (1 + 0).
      rewrite <- (fmap_add_seqZ 1 0 (Z.of_nat n)).
      change (map ?f (?g <$> ?l)) with (f <$> (g <$> l)).
      rewrite <- list_fmap_compose.
      apply list_fmap_ext. intros _ i _. cbn. rewrite u32_succ.
      subst w1. cbn. f_equal. f_equal. f_equal. lia. }
    rewrite Hmap.
    destruct (decide (b ∈ map _ (seqZ (Z.succ 0) (Z.of_nat n)))) as [Hin|Hnin].
    + rewrite decide_True; [done|]. apply elem_of_cons. by right.
    + subst w1. cbn.
      destruct (decide (b = u32 (volume_start_block w + sec))) as [->|Hne].
      * rewrite lookup_insert_eq. rewrite decide_True; [done|].
        apply elem_of_cons. by left.
      * rewrite lookup_insert_ne by done. rewrite decide_False; [done|].
        intros Hin. apply elem_of_cons in Hin as [?|?]; done.
Qed.

(** X6.  [clear_cluster] on a cluster whose sectors are all on the card:
    it succeeds; afterwards each sector of the cluster holds 512 zero
    bytes, every other block of the card is as it was, and the sector
    buffer is zero as well. *)
Theorem clear_cluster_zeroes_the_cluster (w : world) (c : Z) :
  clusters_on_card w [c] ->
  exists w',
    clear_cluster c w = Ret tt w'
    /\ (forall j, 0 <= j < sectors_per_cluster (boot_sector w) ->
          sd_blocks (card w') !! data_block w c j = Some (replicate 512 0))
    /\ (forall b,
          (forall j, 0 <= j < sectors_per_cluster (boot_sector w) ->
                     b <> data_block w c j) ->
          sd_blocks (card w') !! b = sd_blocks (card w) !! b)
    /\ sector_buffer w' = replicate 512 0
    /\ volume_of w' = volume_of w.
Proof.
  intros Hcard. unfold clear_cluster.
  cbv [bind cluster_to_sector get ret modify].
  cbn [boot_sector set_sector_buffer first_data_sector].
  set (sec := u32 (u32 ((c - 2) * sectors_per_cluster (boot_sector w))
                   + first_data_sector w)).
  set (spc := sectors_per_cluster (boot_sector w)) in *.
  destruct (clear_cluster_loop_spec (Z.to_nat spc) sec
              (set_sector_buffer zero_sector w) (u32_range _))
    as (w' & Hloop & Hblocks & Hb & Hv).
  { intros i Hi. apply (Hcard c i);
      [apply list_elem_of_singleton; reflexivity | fold spc; lia]. }
  exists w'. split; [exact Hloop|].
  assert (Hin : forall b,
             b ∈ map (fun i => u32 (volume_start_block w + u32 (sec + i)))
                     (seqZ 0 (Z.of_nat (Z.to_nat spc)))
             <-> exists j, 0 <= j < spc /\ b = data_block w c j).
  { intros b. rewrite list_elem_of_fmap. split.
    - intros (j & -> & Hj). apply elem_of_seqZ in Hj.
      exists j. split; [lia | reflexivity].
    - intros (j & Hj & ->). exists j. split; [reflexivity|].
      apply elem_of_seqZ. lia. }
  split; [|split; [|split; [exact Hb | exact Hv]]].
  - intros j Hj. rewrite Hblocks. rewrite decide_True; [reflexivity|].
    apply Hin. by exists j.
  - intros b Hb'. rewrite Hblocks. rewrite decide_False; [reflexivity|].
    intros Hx. apply Hin in Hx as (j & Hj & ->). by apply (Hb' j).
Qed.

Lemma clear_cluster_zeroes_the_cluster_witness :
  let w := demo_grown.2 in
  exists w',
    clear_cluster 4 w = Ret tt w'
    /\ (forall j, 0 <= j < sectors_per_cluster (boot_sector w) ->
          sd_blocks (card w') !! data_block w 4 j = Some (replicate 512 0))
    /\ (forall b,
          (forall j, 0 <= j < sectors_per_cluster (boot_sector w) ->
                     b <> data_block w 4 j) ->
          sd_blocks (card w') !! b = sd_blocks (card w) !! b)
    /\ sector_buffer w' = replicate 512 0
    /\ volume_of w' = volume_of w.
Proof.
  apply (clear_cluster_zeroes_the_cluster demo_grown.2 4).
  intros c j Hc Hj. apply list_elem_of_singleton in Hc. subst c.
  assert (Hspc : sectors_per_cluster (boot_sector demo_grown.2) = 2)
    by (vm_compute; reflexivity).
  rewrite Hspc in Hj. clear Hspc.
  assert (Hj' : j = 0 \/ j = 1) by lia. clear Hj.
  destruct Hj' as [-> | ->]; vm_compute; eexists; reflexivity.
Defined.

(** ** Mounting *)

Lemma power_of_two_byte (x : Z) :
  x <= 128 -> x <> 0 -> Z.land x (x - 1) = 0 ->
  x ∈ [1; 2; 4; 8; 16; 32; 64; 128].
Proof.
  intros Hmax Hnz Hland.
  destruct (Z.lt_ge_cases x 0) as [Hneg|Hpos].
  { assert (Z.land x (x - 1) < 0) by (apply Z.land_neg; lia). lia. }
  assert (Hall : forallb (fun y => implb (Z.land y (y - 1) =? 0)
                                        (existsb (Z.eqb y)
                                           [1; 2; 4; 8; 16; 32; 64; 128]))
                         (seqZ 1 128) = true)
    by (vm_compute; reflexivity).
  rewrite forallb_forall in Hall.
  specialize (Hall x). rewrite <- list_elem_of_In, elem_of_seqZ in Hall.
  specialize (Hall ltac:(lia)).
  rewrite Hland in Hall. cbn [Z.eqb implb] in Hall.
  apply existsb_exists in Hall as (y & Hy & Heq).
  apply Z.eqb_eq in Heq as <-. by apply list_elem_of_In.
Qed.

(** What a boot sector that passes [is_valid_fat32_boot_sector] looks
    like; every other boot sector is refused with invalid-format. *)
Lemma is_valid_fat32_boot_sector_spec (bs : fat32_boot_sector_t) :
  (is_valid_fat32_boot_sector bs = FAT32_OK
   \/ is_valid_fat32_boot_sector bs = FAT32_ERROR_INVALID_FORMAT)
  /\ (is_valid_fat32_boot_sector bs = FAT32_OK <->
      bytes_per_sector bs = 512
      /\ sectors_per_cluster bs ∈ [1; 2; 4; 8; 16; 32; 64; 128]
      /\ num_fats bs <> 0 /\ num_fats bs <= 2
      /\ reserved_sectors bs <> 0
      /\ fat_size_16 bs = 0 /\ fat_size_32 bs <> 0
      /\ total_sectors_32 bs <> 0).
Proof.
  unfold is_valid_fat32_boot_sector, FAT32_SECTOR_SIZE, SD_BLOCK_SIZE.
  destruct (Z.eqb_spec (bytes_per_sector bs) 512) as [Hbps|Hbps];
    cbn [negb]; [|split; [by right|]; split; [done | tauto]].
  destruct (Z.eqb_spec (sectors_per_cluster bs) 0) as [H0|H0];
    cbn [orb].
  { split; [by right|]. split; [done|]. intros (_ & Hin & _).
    rewrite H0 in Hin. exfalso. revert Hin. clear.
    rewrite !elem_of_cons, elem_of_nil. lia. }
  destruct (Z.ltb_spec 128 (sectors_per_cluster bs)) as [Hbig|Hmax];
    cbn [orb].
  { split; [by right|]. split; [done|]. intros (_ & Hin & _).
    exfalso. revert Hin Hbig. clear.
    rewrite !elem_of_cons, elem_of_nil. lia. }
  destruct (Z.eqb_spec (Z.land (sectors_per_cluster bs)
                               (sectors_per_cluster bs - 1)) 0)
    as [Hpow|Hpow]; cbn [negb].
  2:{ split; [by right|]. split; [done|]. intros (_ & Hin & _).
      exfalso. apply Hpow. revert Hin. clear.
      rewrite !elem_of_cons, elem_of_nil.
      intros [->|[->|[->|[->|[->|[->|[->|[->|[]]]]]]]]]; reflexivity. }
  pose proof (power_of_two_byte _ Hmax H0 Hpow) as Hspc.
  destruct (Z.eqb_spec (num_fats bs) 0); cbn [orb];
    [split; [by right|]; split; [done | tauto]|].
  destruct (Z.ltb_spec 2 (num_fats bs)); cbn [orb];
    [split; [by right|]; split; [done | intros (_&_&_&?&_); lia]|].
  destruct (Z.eqb_spec (reserved_sectors bs) 0);
    [split; [by right|]; split; [done | tauto]|].
  destruct (Z.eqb_spec (fat_size_16 bs) 0); cbn [negb orb];
    [|split; [by right|]; split; [done | tauto]].
  destruct (Z.eqb_spec (fat_size_32 bs) 0);
    [split; [by right|]; split; [done | tauto]|].
  destruct (Z.eqb_spec (total_sectors_32 bs) 0);
    [split; [by right|]; split; [done | tauto]|].
  split; [by left|]. split; [|done]. intros _. by repeat split.
Qed.

(** X7.  [is_valid_fat32_boot_sector] answers OK or invalid-format and
    nothing else, and it answers OK exactly for a boot sector with 512
    bytes per sector, a number of sectors per cluster that is a power of
    two from 1 to 128, one or two FATs, a reserved area, no 16-bit FAT
    size, a 32-bit FAT size and a 32-bit sector count. *)
Theorem boot_sector_validation_accepts_exactly (bs : fat32_boot_sector_t) :
  (is_valid_fat32_boot_sector bs = FAT32_OK
   \/ is_valid_fat32_boot_sector bs = FAT32_ERROR_INVALID_FORMAT)
  /\ (is_valid_fat32_boot_sector bs = FAT32_OK <->
      bytes_per_sector bs = 512
      /\ sectors_per_cluster bs ∈ [1; 2; 4; 8; 16; 32; 64; 128]
      /\ num_fats bs <> 0 /\ num_fats bs <= 2
      /\ reserved_sectors bs <> 0
      /\ fat_size_16 bs = 0 /\ fat_size_32 bs <> 0
      /\ total_sectors_32 bs <> 0).
Proof. apply is_valid_fat32_boot_sector_spec. Qed.

(** X8.  What a successful [fat32_mount] of a volume that was not mounted
    leaves behind: the card is present and initialised and has not been
    written to; the mounted flag is set; the cached boot sector passes the
    validation; a cluster has [sectors_per_cluster * 512] bytes, at most
    65536; the first data sector is the number of reserved sectors plus
    the sectors of the FATs; the variable [data_region_sectors] is the
    total number of sectors less the sectors of the FATs, the reserved
    sectors not being taken off; the cluster count is that variable
    divided by the sectors per cluster and is at least 65525 (all three
    in 32-bit arithmetic); the current directory is the root directory;
    and the cached FSInfo carries its signatures. *)
Theorem mount_success_establishes_geometry (w w' : world) :
  fat32_mounted w = false ->
  fat32_mount w = Ret tt w' ->
  let bs := boot_sector w' in
  sd_present (card w) = true
  /\ sd_init_result (card w) = FAT32_OK
  /\ card w' = card w
  /\ fat32_mounted w' = true
  /\ is_valid_fat32_boot_sector bs = FAT32_OK
  /\ bytes_per_cluster w' = sectors_per_cluster bs * 512
  /\ bytes_per_cluster w' <= 65536
  /\ first_data_sector w'
     = u32 (reserved_sectors bs + u32 (num_fats bs * fat_size_32 bs))
  /\ data_region_sectors w'
     = u32 (total_sectors_32 bs - u32 (num_fats bs * fat_size_32 bs))
  /\ cluster_count w' = data_region_sectors w' / sectors_per_cluster bs
  /\ 65525 <= cluster_count w'
  /\ current_dir_cluster w' = root_cluster bs
  /\ fsinfo_signatures_ok (fsinfo w') = true.
Proof.
  intros Hm Hmount bs.
  destruct (sd_present (card w)) eqn:Hp.
  2:{ unfold fat32_mount in Hmount. cbv [bind get] in Hmount.
      rewrite Hp in Hmount. cbn in Hmount. discriminate. }
  destruct (sd_init_result (card w)) eqn:Hi.
  2-21: unfold fat32_mount in Hmount; cbv [bind get] in Hmount;
        rewrite Hp, Hm, Hi in Hmount; cbn in Hmount; discriminate.
  destruct (fat32_mount_find_volume w) as [[] w1| |] eqn:Hfind.
  2-3: unfold fat32_mount in Hmount; cbv [bind get] in Hmount;
       rewrite Hp, Hm, Hi in Hmount; cbn [negb return_on_error ret] in Hmount;
       rewrite Hfind in Hmount; discriminate.
  rewrite (fat32_mount_steps w w1 Hp Hm Hi Hfind) in Hmount.
  cbv zeta in Hmount.
  destruct (fat32_mount_find_volume_frame _ _ Hfind) as [Hcard _].
  destruct (is_valid_fat32_boot_sector (decode_boot_sector (sector_buffer w1)))
    eqn:Hvalid; try discriminate.
  destruct (Z.ltb_spec (mount_cluster_count
                          (decode_boot_sector (sector_buffer w1))) 65525)
    as [|Hcc]; [discriminate|].
  unfold fat32_mount_fsinfo, read_sector in Hmount.
  cbv [bind get sd_read_block modify] in Hmount.
  destruct (sd_blocks _ !! _) as [s|]; [|discriminate].
  cbn [sector_buffer set_sector_buffer] in Hmount.
  destruct (fsinfo_signatures_ok (decode_fsinfo s)) eqn:Hsig;
    cbn [negb] in Hmount; [|discriminate].
  injection Hmount as <-. subst bs. cbn.
  pose proof (proj1 (proj2 (is_valid_fat32_boot_sector_spec _)) Hvalid)
    as (_ & Hspc & _).
  split; [done|]. split; [done|]. split; [done|]. split; [done|].
  split; [done|].
  assert (Hsmall : 1 <= sectors_per_cluster
                          (decode_boot_sector (sector_buffer w1)) <= 128).
  { revert Hspc. clear. rewrite !elem_of_cons, elem_of_nil. lia. }
  unfold FAT32_SECTOR_SIZE, SD_BLOCK_SIZE. cbn in Hsmall.
  rewrite (u32_small (byte_at (sector_buffer w1) 13 * 512)) by lia.
  split; [done|]. split; [lia|]. split; [done|]. split; [done|].
  split; [reflexivity|]. split; [done|]. split; [done | exact Hsig].
Qed.

Lemma mount_success_establishes_geometry_witness :
  let w := power_on (demo_card (fsinfo_image 65529 3)) in
  let w' := demo_world 65529 3 in
  let bs := boot_sector w' in
  sd_present (card w) = true
  /\ sd_init_result (card w) = FAT32_OK
  /\ card w' = card w
  /\ fat32_mounted w' = true
  /\ is_valid_fat32_boot_sector bs = FAT32_OK
  /\ bytes_per_cluster w' = sectors_per_cluster bs * 512
  /\ bytes_per_cluster w' <= 65536
  /\ first_data_sector w'
     = u32 (reserved_sectors bs + u32 (num_fats bs * fat_size_32 bs))
  /\ data_region_sectors w'
     = u32 (total_sectors_32 bs - u32 (num_fats bs * fat_size_32 bs))
  /\ cluster_count w' = data_region_sectors w' / sectors_per_cluster bs
  /\ 65525 <= cluster_count w'
  /\ current_dir_cluster w' = root_cluster bs
  /\ fsinfo_signatures_ok (fsinfo w') = true.
Proof.
  apply (mount_success_establishes_geometry
           (power_on (demo_card (fsinfo_image 65529 3)))
           (demo_world 65529 3)).
  - reflexivity.
  - vm_compute. reflexivity.
Defined.

(** ** Names *)

Ltac no_test t :=
  lazymatch t with
  | context [if _ then _ else _] => fail
  | _ => idtac
  end.

Ltac case_letters :=
  repeat (match goal with
          | |- context [Z.leb ?a ?b] =>
              no_test a; no_test b; destruct (Z.leb_spec a b)
          | |- context [Z.eqb ?a ?b] =>
              no_test a; no_test b; destruct (Z.eqb_spec a b)
          end; cbn [andb]);
  first [reflexivity | lia].

Lemma toupper_not_lower (c : Z) : ~ (97 <= toupper c <= 122).
Proof. unfold toupper. case_letters. Qed.

Lemma toupper_toupper (c : Z) : toupper (toupper c) = toupper c.
Proof. unfold toupper. case_letters. Qed.

Lemma toupper_tolower (c : Z) : toupper (tolower c) = toupper c.
Proof. unfold toupper, tolower. case_letters. Qed.

Lemma strrchr_map (g : Z -> Z) (l : list Z) (c : Z) :
  (forall x, (g x =? c) = (x =? c)) ->
  strrchr (map g l) c = strrchr l c.
Proof.
  intros Hg. induction l as [|x l IH]; [done|].
  cbn [map strrchr]. by rewrite IH, Hg.
Qed.

Lemma toupper_dot (x : Z) : (toupper x =? 46) = (x =? 46).
Proof. unfold toupper. case_letters. Qed.

Lemma tolower_dot (x : Z) : (tolower x =? 46) = (x =? 46).
Proof. unfold tolower. case_letters. Qed.

Lemma Forall_pad_spaces (P : Z -> Prop) (n : nat) (l : list Z) :
  P 32 -> Forall P l -> Forall P (pad_spaces n l).
Proof.
  intros Hsp Hl. unfold pad_spaces. apply Forall_take, Forall_app.
  split; [done|]. by apply Forall_replicate.
Qed.

(** The short name depends on the file name through [toupper] only. *)
Lemma filename_to_shortname_map (g : Z -> Z) (filename : list Z) :
  (forall x, (g x =? 46) = (x =? 46)) ->
  (forall x, toupper (g x) = toupper x) ->
  filename_to_shortname (map g filename) = filename_to_shortname filename.
Proof.
  intros Hdot Hup. unfold filename_to_shortname.
  rewrite (strrchr_map g filename 46 Hdot), length_map.
  assert (Hmap : forall l : list Z, map toupper (map g l) = map toupper l).
  { intros l. rewrite map_map. apply map_ext. exact Hup. }
  destruct (strrchr filename 46) as [d|]; cbv zeta;
    rewrite ?skipn_map, ?firstn_map, ?Hmap; reflexivity.
Qed.

(** X9.  [filename_to_shortname] always fills exactly the eleven bytes of
    a short name, none of them a lower-case letter, and it does not see
    the case of the letters of the file name: names that differ in case
    only have the same short name. *)
Theorem shortname_is_eleven_bytes_and_ignores_case (filename : list Z) :
  length (filename_to_shortname filename) = 11%nat
  /\ Forall (fun c => ~ (97 <= c <= 122)) (filename_to_shortname filename)
  /\ filename_to_shortname (map toupper filename)
     = filename_to_shortname filename
  /\ filename_to_shortname (map tolower filename)
     = filename_to_shortname filename.
Proof.
  split; [|split; [|split]].
  - unfold filename_to_shortname. cbv zeta.
    by rewrite length_app, !length_pad_spaces.
  - unfold filename_to_shortname. cbv zeta. apply Forall_app. split.
    + apply Forall_pad_spaces; [lia|].
      apply Forall_forall. intros c Hc.
      apply list_elem_of_fmap in Hc as (x & -> & _). apply toupper_not_lower.
    + apply Forall_pad_spaces; [lia|].
      destruct (strrchr filename 46); [|constructor].
      apply Forall_forall. intros c Hc.
      apply list_elem_of_fmap in Hc as (x & -> & _). apply toupper_not_lower.
  - apply filename_to_shortname_map; [apply toupper_dot | apply toupper_toupper].
  - apply filename_to_shortname_map; [apply tolower_dot | apply toupper_tolower].
Qed.

(** ** Long names *)

Lemma le16_unit (u : Z) :
  0 <= u < 65536 ->
  Z.lor (Z.land u 0xFF) (Z.shiftl (Z.land (Z.shiftr u 8) 0xFF) 8) = u.
Proof.
  intros Hu. apply Z.bits_inj'. intros n Hn.
  rewrite Z.lor_spec, Z.shiftl_spec by lia.
  change 0xFF with (Z.ones 8).
  destruct (Z.lt_ge_cases n 8).
  - rewrite Z.land_spec, Z.ones_spec_low by lia.
    rewrite (Z.testbit_neg_r _ (n - 8)) by lia.
    by rewrite andb_true_r, orb_false_r.
  - rewrite Z.land_spec, Z.ones_spec_high by lia.
    rewrite andb_false_r. cbn [orb].
    rewrite Z.land_spec, Z.shiftr_spec by lia.
    replace (n - 8 + 8) with n by lia.
    destruct (Z.lt_ge_cases n 16).
    + rewrite Z.ones_spec_low by lia. by rewrite andb_true_r.
    + rewrite Z.ones_spec_high by lia. rewrite andb_false_r.
      symmetry. apply (Z.bits_above_log2 u n); [lia|].
      destruct (Z.eq_dec u 0) as [->|]; [cbn; lia|].
      apply Z.log2_lt_pow2; [lia|].
      apply Z.lt_le_trans with (2 ^ 16); [lia|].
      apply Z.pow_le_mono_r; lia.
Qed.

(** The thirteen characters [lfn_to_str] takes from a slot are the
    thirteen units the slot was made of. *)
Lemma lfn_to_str_encode (seq cks : Z) (units : list Z) :
  length units = 13%nat -> Forall (fun u => 0 <= u < 65536) units ->
  lfn_to_str (encode_lfn_entry seq cks units) 0 = map utf16_to_utf8 units.
Proof.
  intros Hlen Hu.
  do 14 (destruct units as [|? units]; [try discriminate|]); [|discriminate].
  repeat match goal with
         | H : Forall _ (_ :: _) |- _ => apply Forall_cons in H as [? H]
         end.
  unfold lfn_to_str, encode_lfn_entry.
  cbn -[Z.land Z.shiftr Z.lor Z.shiftl utf16_to_utf8 Z.add].
  unfold le16, byte_at.
  cbv [default lookup list_lookup Z.to_nat Z.add Pos.add Pos.succ Pos.to_nat
       Pos.iter_op Nat.add Pos.add_carry id].
  by rewrite !le16_unit by done.
Qed.

Lemma concat_parts (F : Z -> Z) (n : nat) :
  concat (map (fun i => map (fun k => F (i * 13 + k)) (seqZ 0 13))
              (seqZ 0 (Z.of_nat n)))
  = map F (seqZ 0 (13 * Z.of_nat n)).
Proof.
  induction n as [|n IH]; [reflexivity|].
  replace (Z.of_nat (S n)) with (Z.of_nat n + 1) by lia.
  rewrite seqZ_app by lia. rewrite map_app, concat_app, IH.
  replace (13 * (Z.of_nat n + 1)) with (13 * Z.of_nat n + 13) by lia.
  rewrite (seqZ_app 0 (13 * Z.of_nat n) 13) by lia. rewrite map_app.
  f_equal. rewrite Z.add_0_l.
  change (seqZ (Z.of_nat n) 1) with [Z.of_nat n]. cbn [map concat].
  rewrite app_nil_r.
  replace (seqZ (0 + 13 * Z.of_nat n) 13)
    with (map (Z.add (13 * Z.of_nat n)) (seqZ 0 13))
    by (change (map ?g ?l) with (g <$> l); rewrite fmap_add_seqZ;
        f_equal; lia).
  rewrite map_map. apply map_ext. intros k. f_equal. lia.
Qed.

Lemma map_nth_seqZ (l : list Z) :
  map (fun j => nth (Z.to_nat j) l 0) (seqZ 0 (Z.of_nat (length l))) = l.
Proof.
  induction l as [|x l IH] using rev_ind; [reflexivity|].
  rewrite length_app. cbn [length].
  replace (Z.of_nat (length l + 1)) with (Z.of_nat (length l) + 1) by lia.
  rewrite seqZ_app by lia. rewrite map_app. f_equal.
  - rewrite <- IH at 2. apply map_ext_in. intros j Hj.
    apply list_elem_of_In, elem_of_seqZ in Hj.
    apply app_nth1. lia.
  - rewrite Z.add_0_l. change (seqZ (Z.of_nat (length l)) 1)
      with [Z.of_nat (length l)]. cbn [map].
    rewrite Nat2Z.id, nth_middle. reflexivity.
Qed.

Lemma cstr_app_nul (l rest : list Z) :
  Forall (fun c => c <> 0) l ->
  (rest = [] \/ exists r, rest = 0 :: r) ->
  cstr (l ++ rest) = l.
Proof.
  intros Hl Hrest. induction Hl as [|c l Hc Hl IH].
  - destruct Hrest as [->|[r ->]]; reflexivity.
  - cbn [app cstr]. destruct (Z.eqb_spec c 0); [done|]. by rewrite IH.
Qed.

(** X10.  The long name survives its slots: for a file name of at most
    243 characters, all of them ASCII, [filename_to_lfn] makes
    [ceil (length / 13)] parts, and whatever sequence numbers and checksum
    the slots are written with, the characters [lfn_to_str] reads from
    the slots in order, cut at the first NUL, are the file name again. *)
Theorem long_name_round_trip (filename : list Z) (slots : list (list Z)) :
  strlen filename <= 243 ->
  Forall (fun c => 1 <= c < 128) filename ->
  Forall2 (fun units slot =>
             exists seq cks, slot = encode_lfn_entry seq cks units)
          (filename_to_lfn filename) slots ->
  Z.of_nat (length slots) = (strlen filename + 12) / 13
  /\ cstr (concat (map (fun slot => lfn_to_str slot 0) slots)) = filename.
Proof.
  intros Hlen Hascii Hslots. unfold strlen in *.
  set (len := Z.of_nat (length filename)) in *.
  set (pc := (len + 12) / 13).
  assert (Hpc : 0 <= pc) by (apply Z.div_pos; lia).
  assert (Hpc1 : len <= 13 * pc < len + 13).
  { pose proof (Z.div_mod (len + 12) 13 ltac:(lia)).
    pose proof (Z.mod_pos_bound (len + 12) 13 ltac:(lia)). lia. }
  set (ch := fun j => utf8_to_lfn_ch (nth (Z.to_nat j) filename 0)
                                     (u8 j) (u8 len)).
  assert (Hparts : filename_to_lfn filename
                   = map (fun i => map (fun k => ch (i * 13 + k)) (seqZ 0 13))
                         (seqZ 0 (Z.of_nat (Z.to_nat pc)))).
  { unfold filename_to_lfn, strlen. fold len. fold pc.
    by rewrite Z2Nat.id by done. }
  assert (Hch : forall j, 0 <= j < 13 * pc ->
                  0 <= ch j < 65536
                  /\ utf16_to_utf8 (ch j)
                     = if j <? len then nth (Z.to_nat j) filename 0
                       else if j =? len then 0 else 63).
  { intros j Hj. unfold ch, utf8_to_lfn_ch, utf8_to_utf16, u8.
    rewrite (Z.mod_small j), (Z.mod_small len) by lia.
    destruct (Z.eqb_spec j len) as [->|Hne].
    - rewrite Z.ltb_irrefl. split; [lia | reflexivity].
    - destruct (Z.ltb_spec len j).
      + destruct (Z.ltb_spec j len); [lia|]. split; [lia | reflexivity].
      + destruct (Z.ltb_spec j len); [|lia].
        assert (Hc : 1 <= nth (Z.to_nat j) filename 0 < 128).
        { rewrite Forall_forall in Hascii. apply Hascii.
          apply list_elem_of_In, nth_In. lia. }
        unfold utf16_to_utf8.
        destruct (Z.ltb_spec (nth (Z.to_nat j) filename 0) 128); [|lia].
        split; [lia | reflexivity]. }
  split.
  { apply Forall2_length in Hslots. rewrite <- Hslots, Hparts.
    rewrite length_map, length_seqZ. lia. }
  assert (Hdecode :
    concat (map (fun slot => lfn_to_str slot 0) slots)
    = map utf16_to_utf8 (concat (filename_to_lfn filename))).
  { rewrite concat_map.
    assert (Hok : Forall (fun p => length p = 13%nat
                                   /\ Forall (fun u => 0 <= u < 65536) p)
                         (filename_to_lfn filename)).
    { rewrite Hparts. apply Forall_forall. intros p Hp.
      apply list_elem_of_In, in_map_iff in Hp as (i & <- & Hi).
      apply list_elem_of_In, elem_of_seqZ in Hi.
      split; [by rewrite length_map|].
      apply Forall_forall. intros u Hin.
      apply list_elem_of_In, in_map_iff in Hin as (k & <- & Hk).
      apply list_elem_of_In, elem_of_seqZ in Hk.
      apply Hch. nia. }
    revert Hok. clear -Hslots.
    induction Hslots as [|units slot parts slots (seq & cks & ->) _ IH];
      intros Hok; [reflexivity|].
    apply Forall_cons in Hok as [[Hl Hu] Hok]. cbn [map concat].
    by rewrite lfn_to_str_encode, IH. }
  rewrite Hdecode, Hparts, concat_parts, Z2Nat.id by done.
  replace (13 * pc) with (len + (13 * pc - len)) by lia.
  rewrite seqZ_app by lia. rewrite !map_app.
  assert (Hname : map utf16_to_utf8 (map ch (seqZ 0 len)) = filename).
  { rewrite map_map.
    rewrite (map_ext_in _ (fun j => nth (Z.to_nat j) filename 0)).
    - subst len. apply map_nth_seqZ.
    - intros j Hj. apply list_elem_of_In, elem_of_seqZ in Hj.
      destruct (Hch j ltac:(lia)) as [_ ->].
      by destruct (Z.ltb_spec j len); [|lia]. }
  rewrite Hname. apply cstr_app_nul.
  - eapply Forall_impl; [exact Hascii|]. intros c Hc. cbn in Hc. lia.
  - rewrite Z.add_0_l.
    destruct (Z.eq_dec (13 * pc - len) 0) as [->|Hne]; [by left|].
    right. rewrite (seqZ_cons len) by lia. cbn [map].
    eexists. f_equal. destruct (Hch len ltac:(lia)) as [_ ->].
    by rewrite Z.ltb_irrefl, Z.eqb_refl.
Qed.

Lemma long_name_round_trip_witness :
  let filename := str "a long file name.txt" in
  let slots := map (encode_lfn_entry 1 0) (filename_to_lfn filename) in
  Z.of_nat (length slots) = (strlen filename + 12) / 13
  /\ cstr (concat (map (fun slot => lfn_to_str slot 0) slots)) = filename.
Proof.
  apply (long_name_round_trip (str "a long file name.txt")).
  - vm_compute. discriminate.
  - apply Forall_forall. intros c Hc.
    assert (H : forallb (fun c => (1 <=? c) && (c <? 128))
                        (str "a long file name.txt") = true)
      by (vm_compute; reflexivity).
    rewrite forallb_forall in H. apply list_elem_of_In in Hc.
    specialize (H c Hc). lia.
  - apply Forall2_fmap_r, Forall_Forall2_diag, Forall_forall.
    intros units _. by exists 1, 0.
Defined.

(** ** What a write leaves behind *)

(** X11.  A successful write of a non-empty buffer to a well-formed file
    (its chain has the clusters its size calls for) that ends at least one
    cluster below 4 GiB: all bytes are reported written, the position
    advances by that number, the size becomes the larger of the old size
    and the new position, the start cluster stays, the old chain is a
    prefix of the new one, and the file and the volume are well formed
    again. *)
Theorem write_advances_and_extends (fuel : nat) (src : list Z)
    (f f' : fat32_file_t) (w w' : world) (cs : list Z) (n : Z) :
  volume_ok w -> file_ok w f cs ->
  Z.of_nat (length cs) = clusters_for w (file_size f) ->
  src <> [] -> 0 <= position f ->
  position f + strlen src + bytes_per_cluster w <= 2 ^ 32 ->
  fat32_write fuel (Some src) (f, w) = Ret n (f', w') ->
  n = strlen src
  /\ position f' = position f + strlen src
  /\ file_size f' = Z.max (file_size f) (position f + strlen src)
  /\ start_cluster f' = start_cluster f
  /\ volume_ok w'
  /\ exists cs', file_ok w' f' cs' /\ cs `prefix_of` cs'
       /\ Z.of_nat (length cs') = clusters_for w' (file_size f').
Proof.
  intros Hok Hfile Hlen Hsrc Hpos Hfit Hwrite.
  destruct (fat32_write_inv _ _ _ _ _ _ _ _ Hok Hfile Hlen Hsrc Hpos Hfit
              Hwrite)
    as (cs' & Hfile' & Hlen' & Hok' & _ & Hn & Hp & Hsize & Hstart & Hpre).
  split; [done|]. split; [done|]. split; [done|]. split; [done|].
  split; [done|]. exists cs'. by split.
Qed.

Lemma demo_created_volume_ok : volume_ok demo_created.2.
Proof.
  split; [|split].
  - repeat apply conj; vm_compute; reflexivity.
  - repeat apply conj; vm_compute; first [reflexivity | discriminate].
  - apply fat_blocks_ok_whole.
    assert (H : bool_decide
                  (map_Forall (fun (_ : Z) (s : sector) =>
                                 length s = 512%nat)
                              (sd_blocks (card demo_created.2))))
      by (vm_compute; exact I).
    exact (bool_decide_unpack _ H).
Qed.

Lemma demo_created_file_ok : file_ok demo_created.2 demo_created.1 [3].
Proof.
  assert (Hfat : fat_entry demo_created.2 3 = Some FAT32_FAT_ENTRY_EOC)
    by (vm_compute; reflexivity).
  split; [vm_compute; reflexivity|]. split; [vm_compute; reflexivity|].
  split; [vm_compute; discriminate|]. split; [vm_compute; discriminate|].
  split; [split; vm_compute; first [reflexivity | discriminate]|].
  split; [|split].
  - split; [vm_compute; reflexivity|]. split; [exact I|].
    exists 3, FAT32_FAT_ENTRY_EOC.
    split; [reflexivity|]. split; [exact Hfat | reflexivity].
  - apply NoDup_cons_2; [apply not_elem_of_nil | apply NoDup_nil_2].
  - apply Forall_cons_2; [|apply Forall_nil_2].
    split; vm_compute; first [reflexivity | discriminate].
Qed.

Lemma write_advances_and_extends_witness :
  1500 = strlen (replicate 1500 65)
  /\ position demo_grown.1
     = position demo_created.1 + strlen (replicate 1500 65)
  /\ file_size demo_grown.1
     = Z.max (file_size demo_created.1)
             (position demo_created.1 + strlen (replicate 1500 65))
  /\ start_cluster demo_grown.1 = start_cluster demo_created.1
  /\ volume_ok demo_grown.2
  /\ exists cs', file_ok demo_grown.2 demo_grown.1 cs'
       /\ [3] `prefix_of` cs'
       /\ Z.of_nat (length cs')
          = clusters_for demo_grown.2 (file_size demo_grown.1).
Proof.
  apply (write_advances_and_extends 100 (replicate 1500 65)
           demo_created.1 demo_grown.1 demo_created.2 demo_grown.2 [3] 1500).
  - exact demo_created_volume_ok.
  - exact demo_created_file_ok.
  - vm_compute. reflexivity.
  - discriminate.
  - vm_compute. discriminate.
  - vm_compute. discriminate.
  - vm_compute. reflexivity.
Defined.

(** ** Without a card *)

Lemma require_ready_no_card (w : world) :
  sd_present (card w) = false ->
  exists w', require_ready w = Fail FAT32_ERROR_NO_CARD w'
             /\ card w' = card w /\ fat32_mounted w' = false
             /\ mount_status w' = FAT32_ERROR_NO_CARD
             /\ cluster_count w' = (if fat32_mounted w then 0
                                    else cluster_count w).
Proof.
  intros Hcard. unfold require_ready, fat32_is_ready.
  cbv [bind get]. rewrite Hcard.
  destruct (fat32_mounted w) eqn:Hm.
  - cbv [fat32_unmount bind modify ret]. world_simpl.
    eexists. split; [reflexivity|]. by world_simpl.
  - cbv [bind modify ret]. world_simpl.
    eexists. split; [reflexivity|]. by world_simpl.
Qed.

(** X12.  With the card out of its slot every operation that needs the
    volume answers [FAT32_ERROR_NO_CARD]: opening, creating, reading,
    writing, listing and deleting.  The driver forgets the mount, the
    blocks of the card are untouched, and the caller's handle is as it was
    (zeroed, for a create). *)
Theorem operations_without_card (w : world) :
  sd_present (card w) = false ->
  exists w',
    card w' = card w /\ fat32_mounted w' = false
    /\ mount_status w' = FAT32_ERROR_NO_CARD
    /\ forall (fuel : nat) (f : fat32_file_t) (path src : list Z) (size : Z)
               (entry : fat32_entry_t),
        (strlen path <= FAT32_MAX_PATH_LEN ->
         fat32_open fuel path (f, w) = Fail FAT32_ERROR_NO_CARD (f, w'))
        /\ fat32_create fuel path (f, w)
           = Fail FAT32_ERROR_NO_CARD (zero_file, w')
        /\ (path <> [] ->
            fat32_delete fuel path w = Fail FAT32_ERROR_NO_CARD w')
        /\ (is_open f = true ->
            Z.land (attributes f) FAT32_ATTR_DIRECTORY = 0 ->
            fat32_read true size (f, w) = Fail FAT32_ERROR_NO_CARD (f, w')
            /\ fat32_write fuel (Some src) (f, w)
               = Fail FAT32_ERROR_NO_CARD (f, w'))
        /\ (is_open f = true ->
            Z.land (attributes f) FAT32_ATTR_DIRECTORY <> 0 ->
            fat32_dir_read fuel entry (f, w)
            = Fail FAT32_ERROR_NO_CARD (f, w')).
Proof.
  intros Hcard.
  destruct (require_ready_no_card w Hcard) as (w' & Hready & Hc & Hm & Hs & _).
  exists w'. split; [done|]. split; [done|]. split; [done|].
  intros fuel f path src size entry.
  split; [|split; [|split; [|split]]].
  - intros Hlen. unfold fat32_open.
    destruct (Z.ltb_spec FAT32_MAX_PATH_LEN (strlen path)); [lia|].
    cbv [bind liftw]. cbn [fst snd]. by rewrite Hready.
  - unfold fat32_create, new_entry, link_entry.
    cbv [bind liftw modify_file]. cbn [fst snd]. by rewrite Hready.
  - intros Hpath. unfold fat32_delete.
    case_bool_decide; [done|]. cbv [bind]. by rewrite Hready.
  - intros Hopen Hfile. split.
    + unfold fat32_read. cbv [bind get_file liftw]. cbn [fst snd].
      rewrite Hopen, Hfile. cbn [negb orb Z.eqb]. world_simpl.
      by rewrite Hready.
    + unfold fat32_write. cbv [bind get_file liftw]. cbn [fst snd].
      rewrite Hopen, Hfile. cbn [negb orb Z.eqb]. world_simpl.
      by rewrite Hready.
  - intros Hopen Hdir. unfold fat32_dir_read.
    cbv [bind get_file liftw]. cbn [fst snd]. rewrite Hopen. cbn [negb].
    destruct (Z.eqb_spec (Z.land (attributes f) FAT32_ATTR_DIRECTORY) 0);
      [done|].
    world_simpl. by rewrite Hready.
Qed.

Lemma operations_without_card_witness :
  let w := card_removed demo_grown.2 in
  exists w',
    card w' = card w /\ fat32_mounted w' = false
    /\ mount_status w' = FAT32_ERROR_NO_CARD
    /\ forall (fuel : nat) (f : fat32_file_t) (path src : list Z) (size : Z)
               (entry : fat32_entry_t),
        (strlen path <= FAT32_MAX_PATH_LEN ->
         fat32_open fuel path (f, w) = Fail FAT32_ERROR_NO_CARD (f, w'))
        /\ fat32_create fuel path (f, w)
           = Fail FAT32_ERROR_NO_CARD (zero_file, w')
        /\ (path <> [] ->
            fat32_delete fuel path w = Fail FAT32_ERROR_NO_CARD w')
        /\ (is_open f = true ->
            Z.land (attributes f) FAT32_ATTR_DIRECTORY = 0 ->
            fat32_read true size (f, w) = Fail FAT32_ERROR_NO_CARD (f, w')
            /\ fat32_write fuel (Some src) (f, w)
               = Fail FAT32_ERROR_NO_CARD (f, w'))
        /\ (is_open f = true ->
            Z.land (attributes f) FAT32_ATTR_DIRECTORY <> 0 ->
            fat32_dir_read fuel entry (f, w)
            = Fail FAT32_ERROR_NO_CARD (f, w')).
Proof.
  apply (operations_without_card (card_removed demo_grown.2)).
  reflexivity.
Defined.

(** ** The volume label *)

(** X13.  [fat32_get_volume_name] never finds a label.  The handle it
    scans the root directory with has no directory attribute, so the first
    [fat32_dir_read] answers [FAT32_ERROR_NOT_A_DIRECTORY] and the scan
    ends at once: on a ready volume the call returns [FAT32_OK] and the
    empty string and changes nothing, and in no state does it return
    anything but the empty string. *)
Theorem volume_name_is_always_empty (fuel : nat) (name_len : Z) (w : world) :
  (ready w -> 12 <= name_len ->
   fat32_get_volume_name (S fuel) true name_len w = Ret [] w)
  /\ forall (n : nat) (name : bool) (label : list Z),
       value (fat32_get_volume_name n name name_len w) = Some label ->
       label = [].
Proof.
  assert (Hscan : forall n f w1,
            attributes f = 0 ->
            fat32_get_volume_name_scan (S n) (S n) name_len zero_entry (f, w1)
            = (if is_open f then Ret [] (f, w1) else Ret [] (f, w1))).
  { intros n f w1 Hattr. cbn [fat32_get_volume_name_scan].
    unfold fat32_dir_read. cbv [bind try get_file]. cbn [fst].
    rewrite Hattr. by destruct (is_open f). }
  split.
  - intros Hready Hlen. unfold fat32_get_volume_name.
    destruct (Z.ltb_spec name_len 12); [lia|]. cbn [negb orb].
    cbv [bind get with_file]. rewrite (require_ready_ready w Hready).
    by rewrite Hscan.
  - intros n name label. unfold fat32_get_volume_name.
    destruct (negb name || (name_len <? 12)); [discriminate|].
    cbv [bind get with_file].
    destruct (require_ready w) as [[] w1| |]; try discriminate.
    destruct n as [|n]; [discriminate|].
    rewrite Hscan by reflexivity. cbn. by intros [= <-].
Qed.

(** ** Operations that only read *)

Lemma card_kept_ret {A} (a : A) : card_kept (ret a).
Proof. by intros w w' [= <-]. Qed.

Lemma card_kept_fail {A} (e : fat32_error_t) : card_kept (@fail world A e).
Proof. by intros w w' [= <-]. Qed.

Lemma card_kept_get : card_kept (@get world).
Proof. by intros w w' [= <-]. Qed.

Lemma card_kept_modify (g : world -> world) :
  (forall w, card (g w) = card w) -> card_kept (modify g).
Proof. intros Hg w w' [= <-]. apply Hg. Qed.

Lemma card_kept_bind {A B} (m : M A) (k : A -> M B) :
  card_kept m -> (forall a, card_kept (k a)) -> card_kept (bind m k).
Proof.
  intros Hm Hk w w'. unfold bind.
  destruct (m w) as [a w1|e w1|] eqn:Hmw; [| |discriminate].
  - intros H. rewrite (Hk a w1 w' H). apply Hm. by rewrite Hmw.
  - intros [= <-]. apply Hm. by rewrite Hmw.
Qed.

Lemma card_kept_try {A} (m : M A) : card_kept m -> card_kept (try m).
Proof.
  intros Hm w w'. unfold try. specialize (Hm w).
  destruct (m w) as [a w1|e w1|]; [| |discriminate];
    intros [= <-]; by apply Hm.
Qed.

Lemma card_kept_file_ret {A} (a : A) : card_kept_file (ret a).
Proof. by intros s s' [= <-]. Qed.

Lemma card_kept_file_fail {A} (e : fat32_error_t) :
  card_kept_file (@fail (fat32_file_t * world) A e).
Proof. by intros s s' [= <-]. Qed.

Lemma card_kept_file_stop {A} (r : stop) :
  card_kept_file (fun _ => @Stop (fat32_file_t * world) A r).
Proof. intros s s'. discriminate. Qed.

Lemma card_kept_file_get_file : card_kept_file get_file.
Proof. by intros s s' [= <-]. Qed.

Lemma card_kept_file_get_world : card_kept_file get_world.
Proof. by intros s s' [= <-]. Qed.

Lemma card_kept_file_modify_file (g : fat32_file_t -> fat32_file_t) :
  card_kept_file (modify_file g).
Proof. by intros s s' [= <-]. Qed.

Lemma card_kept_file_bind {A B} (m : MF A) (k : A -> MF B) :
  card_kept_file m -> (forall a, card_kept_file (k a)) ->
  card_kept_file (bind m k).
Proof.
  intros Hm Hk s s'. unfold bind.
  destruct (m s) as [a s1|e s1|] eqn:Hms; [| |discriminate].
  - intros H. rewrite (Hk a s1 s' H). apply Hm. by rewrite Hms.
  - intros [= <-]. apply Hm. by rewrite Hms.
Qed.

Lemma card_kept_file_try {A} (m : MF A) :
  card_kept_file m -> card_kept_file (try m).
Proof.
  intros Hm s s'. unfold try. specialize (Hm s).
  destruct (m s) as [a s1|e s1|]; [| |discriminate];
    intros [= <-]; by apply Hm.
Qed.

Lemma card_kept_liftw {A} (m : M A) : card_kept m -> card_kept_file (liftw m).
Proof.
  intros Hm [f w] s'. unfold liftw. cbn [fst snd]. specialize (Hm w).
  destruct (m w) as [a w1|e w1|]; [| |discriminate];
    intros [= <-]; by apply Hm.
Qed.

Lemma card_kept_with_file {A} (f : fat32_file_t) (m : MF A) :
  card_kept_file m -> card_kept (with_file f m).
Proof.
  intros Hm w w'. unfold with_file. specialize (Hm (f, w)).
  destruct (m (f, w)) as [a s1|e s1|]; [| |discriminate];
    intros [= <-]; by apply Hm.
Qed.

Ltac kept_step :=
  lazymatch goal with
  | |- card_kept (bind _ _) => apply card_kept_bind; [|intros ?]
  | |- card_kept (ret _) => apply card_kept_ret
  | |- card_kept (fail _) => apply card_kept_fail
  | |- card_kept get => apply card_kept_get
  | |- card_kept (modify _) => apply card_kept_modify; intros ?; reflexivity
  | |- card_kept (try _) => apply card_kept_try
  | |- card_kept (with_file _ _) => apply card_kept_with_file
  | |- card_kept (if ?c then _ else _) => destruct c
  | |- card_kept (match ?x with _ => _ end) => destruct x
  | |- card_kept_file (bind _ _) => apply card_kept_file_bind; [|intros ?]
  | |- card_kept_file (ret _) => apply card_kept_file_ret
  | |- card_kept_file (fail _) => apply card_kept_file_fail
  | |- card_kept_file (fun _ => Stop _) => apply card_kept_file_stop
  | |- card_kept_file get_file => apply card_kept_file_get_file
  | |- card_kept_file get_world => apply card_kept_file_get_world
  | |- card_kept_file (modify_file _) => apply card_kept_file_modify_file
  | |- card_kept_file (try _) => apply card_kept_file_try
  | |- card_kept_file (liftw _) => apply card_kept_liftw
  | |- card_kept_file (if ?c then _ else _) => destruct c
  | |- card_kept_file (match ?x with _ => _ end) => destruct x
  end.

Ltac kept := cbv zeta; repeat (kept_step; cbv zeta).

Lemma card_kept_sd_read_block (block : Z) : card_kept (sd_read_block block).
Proof.
  intros w w'. unfold sd_read_block.
  by destruct (sd_blocks (card w) !! block); intros [= <-].
Qed.

Lemma card_kept_read_sector (sec : Z) : card_kept (read_sector sec).
Proof. unfold read_sector. kept. apply card_kept_sd_read_block. Qed.

Lemma card_kept_cluster_to_sector (c : Z) : card_kept (cluster_to_sector c).
Proof. unfold cluster_to_sector. kept. Qed.

Lemma card_kept_read_cluster_fat_entry (c : Z) :
  card_kept (read_cluster_fat_entry c).
Proof. unfold read_cluster_fat_entry. kept; apply card_kept_read_sector. Qed.

Lemma card_kept_seek_to_cluster (start offset : Z) :
  card_kept (seek_to_cluster start offset).
Proof.
  unfold seek_to_cluster. generalize (Z.to_nat offset) as n.
  intros n. revert start.
  induction n as [|n IH]; intros c; cbn [seek_to_cluster_loop]; kept;
    first [apply card_kept_read_cluster_fat_entry | apply IH].
Qed.

Lemma card_kept_sd_read_into_buffer (block : Z) :
  card_kept (sd_read_into_buffer block).
Proof. unfold sd_read_into_buffer. kept. apply card_kept_sd_read_block. Qed.

Lemma card_kept_scan_partitions (entries : list Z) :
  card_kept (scan_partitions entries).
Proof.
  induction entries as [|i rest IH]; cbn [scan_partitions]; kept;
    first [exact IH | apply card_kept_sd_read_into_buffer].
Qed.

Lemma card_kept_fat32_unmount : card_kept fat32_unmount.
Proof. unfold fat32_unmount. kept. Qed.

Lemma card_kept_return_on_error (e : fat32_error_t) :
  card_kept (return_on_error e).
Proof. destruct e; cbn [return_on_error]; kept. Qed.

Lemma card_kept_fat32_mount : card_kept fat32_mount.
Proof.
  unfold fat32_mount, fat32_mount_find_volume, fat32_mount_fsinfo. kept;
    first [ apply card_kept_fat32_unmount
          | apply card_kept_return_on_error
          | apply card_kept_sd_read_into_buffer
          | apply card_kept_scan_partitions
          | apply card_kept_read_sector ].
Qed.

Lemma card_kept_fat32_is_ready : card_kept fat32_is_ready.
Proof.
  unfold fat32_is_ready. kept;
    first [apply card_kept_fat32_mount | apply card_kept_fat32_unmount].
Qed.

Lemma card_kept_require_ready : card_kept require_ready.
Proof. unfold require_ready. kept. apply card_kept_fat32_is_ready. Qed.

Lemma card_kept_fat32_dir_read_loop (fuel : nat) (l : dir_read_locals) :
  card_kept_file (fat32_dir_read_loop fuel l).
Proof.
  revert l. induction fuel as [|fuel IH]; intros l;
    cbn [fat32_dir_read_loop]; kept;
    first [ apply card_kept_cluster_to_sector
          | apply card_kept_read_sector
          | apply card_kept_read_cluster_fat_entry
          | apply IH ].
Qed.

Lemma card_kept_fat32_dir_read (fuel : nat) (entry : fat32_entry_t) :
  card_kept_file (fat32_dir_read fuel entry).
Proof.
  unfold fat32_dir_read. kept;
    first [ apply card_kept_require_ready
          | apply card_kept_fat32_dir_read_loop ].
Qed.

Lemma card_kept_find_entry_scan (n fuel : nat) (token : list Z)
    (is_last : bool) (entry : fat32_entry_t) :
  card_kept_file (find_entry_scan n fuel token is_last entry).
Proof.
  revert entry. induction n as [|n IH]; intros entry;
    cbn [find_entry_scan]; kept;
    first [apply card_kept_fat32_dir_read | apply IH].
Qed.

Lemma card_kept_find_entry_walk (fuel : nat) (tokens : list (list Z))
    (cluster : Z) :
  card_kept (find_entry_walk fuel tokens cluster).
Proof.
  revert cluster. induction tokens as [|token rest IH]; intros cluster;
    cbn [find_entry_walk]; kept;
    first [apply card_kept_find_entry_scan | apply IH].
Qed.

Lemma card_kept_find_entry (fuel : nat) (path : list Z) :
  card_kept (find_entry fuel path).
Proof. unfold find_entry. kept. apply card_kept_find_entry_walk. Qed.

Lemma card_kept_fat32_open (fuel : nat) (path : list Z) :
  card_kept_file (fat32_open fuel path).
Proof.
  unfold fat32_open. kept;
    first [apply card_kept_require_ready | apply card_kept_find_entry].
Qed.

Lemma card_kept_fat32_read_loop (n : nat) (size total : Z) (dest : list Z) :
  card_kept_file (fat32_read_loop n size total dest).
Proof.
  revert total dest. induction n as [|n IH]; intros total dest;
    cbn [fat32_read_loop]; kept;
    first [ apply card_kept_cluster_to_sector
          | apply card_kept_read_sector
          | apply card_kept_read_cluster_fat_entry
          | apply IH ].
Qed.

Lemma card_kept_fat32_read (buffer : bool) (size : Z) :
  card_kept_file (fat32_read buffer size).
Proof.
  unfold fat32_read. kept;
    first [ apply card_kept_require_ready
          | apply card_kept_seek_to_cluster
          | apply card_kept_fat32_read_loop ].
Qed.

Lemma card_kept_fat32_get_volume_name (fuel : nat) (name : bool)
    (name_len : Z) :
  card_kept (fat32_get_volume_name fuel name name_len).
Proof.
  unfold fat32_get_volume_name. kept;
    [apply card_kept_require_ready|].
  generalize fuel at 1. generalize zero_entry. intros e n. revert e.
  induction n as [|n IH]; intros e; cbn [fat32_get_volume_name_scan]; kept;
    first [apply card_kept_fat32_dir_read | apply IH].
Qed.

(** X14.  Looking things up never writes.  Mounting, the readiness check,
    path lookup, opening, listing a directory, reading a file and asking
    for the volume label leave the card exactly as it was, whether they
    succeed or fail and whatever the card holds. *)
Theorem lookups_never_write (fuel : nat) (path : list Z) (buffer : bool)
    (size : Z) (entry : fat32_entry_t) :
  card_kept fat32_mount
  /\ card_kept fat32_is_ready
  /\ card_kept (find_entry fuel path)
  /\ card_kept_file (fat32_open fuel path)
  /\ card_kept_file (fat32_dir_read fuel entry)
  /\ card_kept_file (fat32_read buffer size)
  /\ card_kept (fat32_get_volume_name fuel buffer size).
Proof.
  split; [apply card_kept_fat32_mount|].
  split; [apply card_kept_fat32_is_ready|].
  split; [apply card_kept_find_entry|].
  split; [apply card_kept_fat32_open|].
  split; [apply card_kept_fat32_dir_read|].
  split; [apply card_kept_fat32_read|].
  apply card_kept_fat32_get_volume_name.
Qed.

(** ** The end of a directory *)

Lemma set_sector_buffer_twice (s s' : sector) (w : world) :
  set_sector_buffer s (set_sector_buffer s' w) = set_sector_buffer s w.
Proof. reflexivity. Qed.

(** The sector and the offset of the slot [fat32_dir_read] looks at
    next. *)
Lemma fat32_dir_read_loop_stop (fuel : nat) (l : dir_read_locals)
    (f : fat32_file_t) (w : world) :
  last_entry_read f || negb (bool_decide (e_filename (dir_entry l) = []))
  = true ->
  fat32_dir_read_loop fuel l (f, w) = Ret (dir_entry l) (f, w).
Proof.
  intros Hstop. destruct fuel; cbn [fat32_dir_read_loop];
    cbv [bind get_file]; cbn [fst]; by rewrite Hstop.
Qed.

(** One iteration of the loop of [fat32_dir_read]. *)
Lemma fat32_dir_read_loop_step (fuel : nat) (l : dir_read_locals)
    (f : fat32_file_t) (w : world) :
  last_entry_read f || negb (bool_decide (e_filename (dir_entry l) = []))
  = false ->
  let sec :=
    u32 (u32 (u32 ((current_cluster f - 2)
                   * sectors_per_cluster (boot_sector w))
              + first_data_sector w)
         + (position f mod bytes_per_cluster w) / FAT32_SECTOR_SIZE) in
  let off := position f mod FAT32_SECTOR_SIZE in
  let here :=
    {| lfn_filename := lfn_filename l;
       expected_checksum := expected_checksum l;
       current_sector := sec; dir_entry := dir_entry l |} in
  fat32_dir_read_loop (S fuel) l (f, w)
  = match (if negb (sec =? current_sector l)
           then read_sector sec w else Ret tt w) with
    | Ret _ w1 =>
        match dir_read_slot sec off (sector_buffer w1) here with
        | None => Undefined
        | Some r =>
            let f1 :=
              set_position (u32 (position f + 32))
                (if fst r then set_last_entry_read true f else f) in
            if position f1 mod bytes_per_cluster w1 =? 0 then
              match read_cluster_fat_entry (current_cluster f1) w1 with
              | Ret next w2 =>
                  if negb (next <? FAT32_FAT_ENTRY_EOC)
                  then Ret (dir_entry (snd r))
                           (set_last_entry_read true f1, w2)
                  else fat32_dir_read_loop fuel (snd r)
                         (set_current_cluster next f1, w2)
              | Fail e w2 => Fail e (f1, w2)
              | Stop x => Stop x
              end
            else fat32_dir_read_loop fuel (snd r) (f1, w1)
        end
    | Fail e w1 => Fail e (f, w1)
    | Stop x => Stop x
    end.
Proof.
  intros Hgo sec off here. cbn [fat32_dir_read_loop].
  cbv [bind get_file]. cbn [fst]. rewrite Hgo.
  cbv [get_world liftw cluster_to_sector bind get ret]. cbn [fst snd].
  fold sec. fold off.
  destruct (negb (sec =? current_sector l)).
  - cbn [fst snd]. destruct (read_sector sec w) as [[] w1| |]; try done.
    cbn [fst snd]. fold here.
    destruct (dir_read_slot sec off (sector_buffer w1) here) as [[[] l1]|];
      [| |done]; cbv [modify_file]; cbn [fst snd]; world_simpl.
    all: destruct (_ =? 0); [|done].
    all: destruct (read_cluster_fat_entry _ _) as [next w2| |]; try done.
    all: cbn [fst snd]; by destruct (negb (next <? FAT32_FAT_ENTRY_EOC)).
  - cbn [fst snd]. fold here.
    destruct (dir_read_slot sec off (sector_buffer w) here) as [[[] l1]|];
      [| |done]; cbv [modify_file]; cbn [fst snd]; world_simpl.
    all: destruct (_ =? 0); [|done].
    all: destruct (read_cluster_fat_entry _ _) as [next w2| |]; try done.
    all: cbn [fst snd]; by destruct (negb (next <? FAT32_FAT_ENTRY_EOC)).
Qed.

Lemma fat32_dir_read_loop_end (fuel : nat) (l : dir_read_locals)
    (f f' : fat32_file_t) (w w' : world) (e : fat32_entry_t) :
  fat32_dir_read_loop fuel l (f, w) = Ret e (f', w') ->
  (exists s, w' = set_sector_buffer s w)
  /\ is_open f' = is_open f /\ attributes f' = attributes f
  /\ (e_filename e = [] -> last_entry_read f' = true).
Proof.
  revert l f w. induction fuel as [|fuel IH]; intros l f w;
    destruct (last_entry_read f
              || negb (bool_decide (e_filename (dir_entry l) = [])))
      eqn:Hstop.
  1,3: rewrite fat32_dir_read_loop_stop by done; intros [= <- <- <-];
       (split; [exists (sector_buffer w); symmetry;
                apply set_sector_buffer_same|]);
       (split; [done|]); (split; [done|]); intros Hname;
       rewrite bool_decide_eq_true_2 in Hstop by done;
       by rewrite orb_false_r in Hstop.
  { cbn [fat32_dir_read_loop]. cbv [bind get_file]. cbn [fst].
    rewrite Hstop. discriminate. }
  rewrite fat32_dir_read_loop_step by done. cbv zeta.
  match goal with
  | |- context [read_sector ?s] => set (sec := s)
  end.
  assert (Hfirst : exists w1,
             ((if negb (sec =? current_sector l)
               then read_sector sec w else Ret tt w) = Ret tt w1
              /\ exists s, w1 = set_sector_buffer s w)
             \/ forall x, (if negb (sec =? current_sector l)
                           then read_sector sec w else Ret tt w)
                          <> Ret tt x).
  { destruct (negb (sec =? current_sector l)).
    - destruct (read_sector sec w) as [[] w1| |] eqn:Hr.
      + exists w1. left. split; [done|].
        apply read_sector_inv in Hr as (s1 & _ & ->). by exists s1.
      + exists w. by right.
      + exists w. by right.
    - exists w. left. split; [done|]. exists (sector_buffer w).
      symmetry. apply set_sector_buffer_same. }
  destruct Hfirst as (w1 & [(Hread & s1 & ->)|Hfail]).
  2:{ destruct (if negb (sec =? current_sector l) then _ else _)
        as [[] x| |]; try discriminate. by destruct (Hfail x). }
  rewrite Hread.
  destruct (dir_read_slot _ _ _ _) as [[b l1]|]; [|discriminate].
  cbn [fst snd]. world_simpl.
  set (f1 := set_position _ _).
  assert (Hf1 : is_open f1 = is_open f /\ attributes f1 = attributes f)
    by (by destruct b).
  destruct Hf1 as [Ho1 Ha1].
  destruct (u32 (position f + 32) mod bytes_per_cluster w =? 0).
  - destruct (read_cluster_fat_entry _ _) as [next w2| |] eqn:Hnext;
      try discriminate.
    apply read_cluster_fat_entry_inv in Hnext as (_ & s2 & ->).
    destruct (negb (next <? FAT32_FAT_ENTRY_EOC)).
    + intros [= <- <- <-]. split; [by exists s2|]. by world_simpl.
    + intros H. apply IH in H as ((s3 & ->) & Ho & Ha & Hend).
      split; [by exists s3|]. world_simpl.
      split; [congruence|]. split; [congruence | done].
  - intros H. apply IH in H as ((s3 & ->) & Ho & Ha & Hend).
    split; [by exists s3|]. split; [congruence|]. split; [congruence | done].
Qed.

(** *** The caller's entry

    What [fat32_dir_read] does, and what it returns with a name, does
    not depend on what the caller's entry holds before the call. *)

Lemma dir_read_slot_entry (sec off : Z) (buf : sector)
    (l : dir_read_locals) (d' : fat32_entry_t) :
  match dir_read_slot sec off buf l,
        dir_read_slot sec off buf
          {| lfn_filename := lfn_filename l;
             expected_checksum := expected_checksum l;
             current_sector := current_sector l; dir_entry := d' |} with
  | Some (b, l1), Some (b', l1') =>
      b = b' /\ lfn_filename l1' = lfn_filename l1
      /\ expected_checksum l1' = expected_checksum l1
      /\ current_sector l1' = current_sector l1
      /\ (dir_entry l1' = dir_entry l1
          \/ (dir_entry l1 = dir_entry l /\ dir_entry l1' = d'))
  | None, None => True
  | _, _ => False
  end.
Proof.
  unfold dir_read_slot.
  cbn [lfn_filename expected_checksum current_sector dir_entry].
  destruct (byte_at buf off =? FAT32_DIR_ENTRY_END_MARKER).
  { destruct l. cbn. tauto. }
  destruct (byte_at buf (off + 11) =? FAT32_ATTR_LONG_NAME).
  { destruct (if _ =? _ then array_store_all _ _ _ else _); [|done].
    cbn. tauto. }
  destruct (negb (byte_at buf off =? FAT32_DIR_ENTRY_FREE)).
  2:{ destruct l. cbn. tauto. }
  destruct (match match lfn_filename l with
                  | Some c :: _ => _
                  | _ => None
                  end with
            | Some true => _
            | Some false => _
            | None => None
            end); [|done].
  cbn. tauto.
Qed.

Lemma fat32_dir_read_loop_entry (fuel : nat) (l : dir_read_locals)
    (d' : fat32_entry_t) (s : fat32_file_t * world) :
  e_filename d' = e_filename (dir_entry l) ->
  match fat32_dir_read_loop fuel l s,
        fat32_dir_read_loop fuel
          {| lfn_filename := lfn_filename l;
             expected_checksum := expected_checksum l;
             current_sector := current_sector l; dir_entry := d' |} s with
  | Ret r s1, Ret r' s1' =>
      s1' = s1 /\ e_filename r' = e_filename r
      /\ (r' = r \/ (r = dir_entry l /\ r' = d'))
  | Fail e s1, Fail e' s1' => e' = e /\ s1' = s1
  | Stop x, Stop x' => x' = x
  | _, _ => False
  end.
Proof.
  revert l d' s. induction fuel as [|fuel IH]; intros l d' [f w] Hname;
    destruct (last_entry_read f
              || negb (bool_decide (e_filename (dir_entry l) = [])))
      eqn:Hstop.
  1,3: rewrite !fat32_dir_read_loop_stop
         by (cbn [dir_entry]; by rewrite ?Hname);
       cbn [dir_entry]; split; [done|]; split; [done|]; by right.
  { cbn [fat32_dir_read_loop]. cbv [bind get_file]. cbn [fst dir_entry].
    by rewrite Hname, Hstop. }
  rewrite !fat32_dir_read_loop_step by (cbn [dir_entry]; by rewrite ?Hname).
  cbv zeta. cbn [lfn_filename expected_checksum current_sector dir_entry].
  match goal with
  | |- context [read_sector ?x] => set (sec := x)
  end.
  destruct (if negb (sec =? current_sector l) then read_sector sec w
            else Ret tt w) as [[] w1|e w1|x]; [|done|done].
  match goal with
  | |- context [dir_read_slot sec ?o ?b ?h] =>
      pose proof (dir_read_slot_entry sec o b h d') as Hslot;
      cbn [lfn_filename expected_checksum current_sector dir_entry] in Hslot;
      destruct (dir_read_slot sec o b h) as [[b1 l1]|]
  end.
  2:{ by destruct (dir_read_slot _ _ _ _). }
  destruct (dir_read_slot _ _ _ _) as [[b1' l1']|]; [|done].
  destruct Hslot as (<- & Hl & Hc & Hs & Hd).
  cbn [fst snd].
  assert (Hl1' : l1' = {| lfn_filename := lfn_filename l1;
                           expected_checksum := expected_checksum l1;
                           current_sector := current_sector l1;
                           dir_entry := dir_entry l1' |}).
  { destruct l1'. cbn in *. by subst. }
  rewrite Hl1'. clear Hl1' Hl Hc Hs.
  assert (Hnames : e_filename (dir_entry l1') = e_filename (dir_entry l1)).
  { destruct Hd as [->|[-> ->]]; done. }
  assert (Hrel : dir_entry l1' = dir_entry l1
                 \/ (dir_entry l1 = dir_entry l /\ dir_entry l1' = d'))
    by exact Hd.
  set (f1 := set_position _ _).
  assert (Hrec : forall s1,
    match fat32_dir_read_loop fuel l1 s1,
          fat32_dir_read_loop fuel
            {| lfn_filename := lfn_filename l1;
               expected_checksum := expected_checksum l1;
               current_sector := current_sector l1;
               dir_entry := dir_entry l1' |} s1 with
    | Ret r s2, Ret r' s2' =>
        s2' = s2 /\ e_filename r' = e_filename r
        /\ (r' = r \/ (r = dir_entry l /\ r' = d'))
    | Fail e s2, Fail e' s2' => e' = e /\ s2' = s2
    | Stop x, Stop x' => x' = x
    | _, _ => False
    end).
  { intros s1. pose proof (IH l1 (dir_entry l1') s1 Hnames) as H.
    destruct (fat32_dir_read_loop fuel l1 s1) as [r s2|e s2|x];
      destruct (fat32_dir_read_loop fuel _ s1) as [r' s2'|e' s2'|x'];
      try done.
    destruct H as (-> & Hn & Hr). split; [done|]. split; [done|].
    destruct Hr as [->|[-> ->]]; [by left|].
    destruct Hrel as [->|[-> ->]]; [by left | by right]. }
  destruct (position f1 mod bytes_per_cluster w1 =? 0); [|apply Hrec].
  destruct (read_cluster_fat_entry _ _) as [next w2| |]; [|done|done].
  destruct (negb (next <? FAT32_FAT_ENTRY_EOC)); [|apply Hrec].
  split; [done|]. split; [done|].
  destruct Hrel as [->|[-> ->]]; [by left | by right].
Qed.

Lemma fat32_dir_read_entry (fuel : nat) (e e' : fat32_entry_t)
    (s : fat32_file_t * world) :
  match fat32_dir_read fuel e s, fat32_dir_read fuel e' s with
  | Ret r s1, Ret r' s1' =>
      s1' = s1 /\ e_filename r' = e_filename r
      /\ (r' = r \/ (e_filename r = [] /\ e_filename r' = []))
  | Fail x s1, Fail x' s1' => x' = x /\ s1' = s1
  | Stop x, Stop x' => x' = x
  | _, _ => False
  end.
Proof.
  destruct s as [f w]. unfold fat32_dir_read. cbv [bind get_file].
  cbn [fst snd].
  destruct (negb (is_open f)); [done|].
  destruct (Z.land (attributes f) FAT32_ATTR_DIRECTORY =? 0); [done|].
  cbv [liftw]. cbn [fst snd].
  destruct (require_ready w) as [[] w1|x w1|x]; [|done|done].
  destruct (last_entry_read f).
  { cbv [ret]. split; [done|]. split; [done|]. by right. }
  pose proof (fat32_dir_read_loop_entry fuel
                {| lfn_filename := fresh_name_buffer; expected_checksum := 0;
                   current_sector := 0xFFFFFFFF;
                   dir_entry := set_e_filename [] e |}
                (set_e_filename [] e') (f, w1) eq_refl) as H.
  cbn [lfn_filename expected_checksum current_sector dir_entry] in H.
  destruct (fat32_dir_read_loop fuel _ (f, w1)) as [r s2|x s2|x];
    destruct (fat32_dir_read_loop fuel _ (f, w1)) as [r' s2'|x' s2'|x'];
    try done.
  destruct H as (-> & Hn & Hr). split; [done|]. split; [done|].
  destruct Hr as [->|[-> ->]]; [by left | by right].
Qed.

(** The scans of the callers do not depend on what their local entry
    holds before the first call. *)
Lemma find_entry_scan_entry (n fuel : nat) (token : list Z) (is_last : bool)
    (e e' : fat32_entry_t) (s : fat32_file_t * world) :
  find_entry_scan n fuel token is_last e' s
  = find_entry_scan n fuel token is_last e s.
Proof.
  revert e e' s. induction n as [|n IH]; intros e e' s; [done|].
  cbn [find_entry_scan]. cbv [bind try].
  pose proof (fat32_dir_read_entry fuel e e' s) as H.
  destruct (fat32_dir_read fuel e s) as [r s1|x s1|x];
    destruct (fat32_dir_read fuel e' s) as [r' s1'|x' s1'|x'];
    try done.
  - destruct H as (-> & Hn & [->|[Hr Hr']]); [done|].
    by rewrite !bool_decide_eq_true_2 by done.
  - by destruct H as (-> & ->).
  - by subst.
Qed.

Lemma shortname_exists_scan_entry (n fuel : nat) (shortname : list Z)
    (e e' : fat32_entry_t) (s : fat32_file_t * world) :
  shortname_exists_scan n fuel shortname e' s
  = shortname_exists_scan n fuel shortname e s.
Proof.
  revert e e' s. induction n as [|n IH]; intros e e' s; [done|].
  cbn [shortname_exists_scan]. cbv [bind try].
  pose proof (fat32_dir_read_entry fuel e e' s) as H.
  destruct (fat32_dir_read fuel e s) as [r s1|x s1|x];
    destruct (fat32_dir_read fuel e' s) as [r' s1'|x' s1'|x'];
    try done.
  - destruct H as (-> & Hn & [->|[Hr Hr']]); [done|].
    by rewrite !bool_decide_eq_true_2 by done.
  - by destruct H as (-> & ->).
  - by subst.
Qed.

Lemma delete_entry_scan_entry (n fuel : nat) (e e' : fat32_entry_t)
    (s : fat32_file_t * world) :
  delete_entry_scan n fuel e' s = delete_entry_scan n fuel e s.
Proof.
  revert e e' s. induction n as [|n IH]; intros e e' s; [done|].
  cbn [delete_entry_scan]. cbv [bind try].
  pose proof (fat32_dir_read_entry fuel e e' s) as H.
  destruct (fat32_dir_read fuel e s) as [r s1|x s1|x];
    destruct (fat32_dir_read fuel e' s) as [r' s1'|x' s1'|x'];
    try done.
  - destruct H as (-> & Hn & [->|[Hr Hr']]); [done|].
    by rewrite !bool_decide_eq_true_2 by done.
  - by destruct H as (-> & ->).
  - by subst.
Qed.

Lemma fat32_get_volume_name_scan_entry (n fuel : nat) (name_len : Z)
    (e e' : fat32_entry_t) (s : fat32_file_t * world) :
  fat32_get_volume_name_scan n fuel name_len e' s
  = fat32_get_volume_name_scan n fuel name_len e s.
Proof.
  revert e e' s. induction n as [|n IH]; intros e e' s; [done|].
  cbn [fat32_get_volume_name_scan]. cbv [bind try].
  pose proof (fat32_dir_read_entry fuel e e' s) as H.
  destruct (fat32_dir_read fuel e s) as [r s1|x s1|x];
    destruct (fat32_dir_read fuel e' s) as [r' s1'|x' s1'|x'];
    try done.
  - destruct H as (-> & Hn & [->|[Hr Hr']]); [done|].
    by rewrite !bool_decide_eq_true_2 by done.
  - by destruct H as (-> & ->).
  - by subst.
Qed.

Lemma scan_partitions_fails (entries : list Z) (w w' : world)
    (e : fat32_error_t) :
  scan_partitions entries w = Fail e w' -> e = FAT32_ERROR_READ_FAILED.
Proof.
  revert w. induction entries as [|i rest IH]; intros w;
    cbn [scan_partitions]; [discriminate|].
  cbv [bind get].
  destruct (negb _ && negb _); [apply IH|].
  destruct (_ || _); [|apply IH].
  cbv [modify sd_read_into_buffer bind sd_read_block].
  destruct (sd_blocks _ !! _); [discriminate|]. by intros [= <- _].
Qed.

Lemma fat32_mount_find_volume_fails (w w' : world) (e : fat32_error_t) :
  fat32_mount_find_volume w = Fail e w' -> e <> FAT32_OK.
Proof.
  unfold fat32_mount_find_volume, sd_read_into_buffer.
  cbv [bind get ret modify fail sd_read_block].
  destruct (sd_blocks (card w) !! 0) as [s0|]; [|by intros [= <- _]].
  cbn [sector_buffer set_sector_buffer].
  destruct (is_sector_mbr s0).
  - destruct (scan_partitions [0; 1; 2; 3] _) as [[] w2|e2 w2|] eqn:Hscan;
      [| |discriminate].
    + destruct (volume_start_block w2 =? 0); [|discriminate].
      by intros [= <- _].
    + apply scan_partitions_fails in Hscan as ->. by intros [= <- _].
  - destruct (is_sector_boot_sector s0); [discriminate|]. by intros [= <- _].
Qed.

(** How a mount of an unmounted volume can end: mounted, or with an error
    code. *)
Lemma fat32_mount_result (w : world) :
  sd_present (card w) = true -> fat32_mounted w = false ->
  match fat32_mount w with
  | Ret _ w' => fat32_mounted w' = true
  | Fail e _ => e <> FAT32_OK
  | Stop _ => True
  end.
Proof.
  intros Hp Hm.
  destruct (sd_init_result (card w)) eqn:Hi.
  2-21: unfold fat32_mount; cbv [bind get]; rewrite Hp, Hm, Hi; cbn;
        discriminate.
  destruct (fat32_mount_find_volume w) as [[] w1|e w1|] eqn:Hfind.
  - rewrite (fat32_mount_steps w w1 Hp Hm Hi Hfind). cbv zeta.
    destruct (is_valid_fat32_boot_sector _); try discriminate.
    destruct (_ <? 65525); [discriminate|].
    unfold fat32_mount_fsinfo, read_sector.
    cbv [bind get sd_read_block modify].
    destruct (sd_blocks _ !! _) as [s|]; [|discriminate].
    cbn [sector_buffer set_sector_buffer].
    destruct (fsinfo_signatures_ok (decode_fsinfo s)); cbn [negb];
      [reflexivity | discriminate].
  - unfold fat32_mount. cbv [bind get]. rewrite Hp, Hm, Hi.
    cbn [negb return_on_error ret]. rewrite Hfind.
    by eapply fat32_mount_find_volume_fails.
  - unfold fat32_mount. cbv [bind get]. rewrite Hp, Hm, Hi.
    cbn [negb return_on_error ret]. by rewrite Hfind.
Qed.

(** A readiness check that passes leaves the volume ready. *)
Lemma require_ready_inv (w w' : world) :
  require_ready w = Ret tt w' -> ready w'.
Proof.
  unfold require_ready, fat32_is_ready. cbv [bind get].
  destruct (sd_present (card w)) eqn:Hp.
  - destruct (fat32_mounted w) eqn:Hm; cbn [negb].
    + cbv [ret]. case_bool_decide as Hs; [|discriminate].
      by intros [= <-].
    + pose proof (fat32_mount_result w Hp Hm) as Hres.
      pose proof (card_kept_fat32_mount w) as Hcard.
      unfold try. destruct (fat32_mount w) as [[] w1|e w1|];
        [| |discriminate]; cbv [modify ret]; world_simpl.
      * rewrite bool_decide_eq_true_2 by done. intros [= <-].
        split; [|split]; world_simpl; [|done|done].
        by rewrite (Hcard w1 eq_refl).
      * rewrite bool_decide_eq_false_2 by done. discriminate.
  - destruct (fat32_mounted w); cbv [fat32_unmount bind modify ret];
      world_simpl; discriminate.
Qed.

(** X15.  The end of a directory is sticky.  When [fat32_dir_read]
    returns an entry with an empty name, it has marked the handle as
    read to its end, and every further call returns at once without
    touching the handle, the card or the sector buffer.  What such a call
    returns is the caller's entry with its name emptied: only the name is
    cleared, and the size, date, time, start cluster, attributes and
    location are whatever the caller's entry held before the call. *)
Theorem directory_end_is_sticky (fuel : nat) (entry : fat32_entry_t)
    (f f' : fat32_file_t) (w w' : world) (e : fat32_entry_t) :
  fat32_dir_read fuel entry (f, w) = Ret e (f', w') ->
  e_filename e = [] ->
  last_entry_read f' = true
  /\ forall (fuel' : nat) (entry' : fat32_entry_t),
       fat32_dir_read fuel' entry' (f', w')
       = Ret (set_e_filename [] entry') (f', w').
Proof.
  intros Hread Hname.
  assert (Hafter : ready w' /\ is_open f' = true
                   /\ Z.land (attributes f') FAT32_ATTR_DIRECTORY <> 0
                   /\ last_entry_read f' = true).
  { revert Hread. unfold fat32_dir_read. cbv [bind get_file liftw ret].
    cbn [fst snd].
    destruct (is_open f) eqn:Hopen; [|discriminate]. cbn [negb].
    destruct (Z.eqb_spec (Z.land (attributes f) FAT32_ATTR_DIRECTORY) 0)
      as [|Hdir]; [discriminate|].
    cbn [fst snd].
    destruct (require_ready w) as [[] w1| |] eqn:Hrdy; try discriminate.
    apply require_ready_inv in Hrdy.
    destruct (last_entry_read f) eqn:Hlast.
    - intros [= <- <- <-]. done.
    - intros Hloop.
      apply fat32_dir_read_loop_end in Hloop as ((s & ->) & Ho & Ha & Hend).
      split; [exact Hrdy|]. split; [congruence|].
      split; [by rewrite Ha | by apply Hend]. }
  destruct Hafter as (Hrdy & Hopen & Hdir & Hlast).
  split; [done|]. intros fuel' entry'. unfold fat32_dir_read.
  cbv [bind get_file liftw ret]. cbn [fst snd]. rewrite Hopen. cbn [negb].
  destruct (Z.eqb_spec (Z.land (attributes f') FAT32_ATTR_DIRECTORY) 0);
    [done|].
  cbn [fst snd]. rewrite (require_ready_ready w' Hrdy). by rewrite Hlast.
Qed.

(** On the demo volume the second call returns the end of the directory
    with the size, the start cluster and the location of the file the
    first call returned. *)
Lemma directory_end_is_sticky_witness :
  (last_entry_read demo_listed_end.1 = true
   /\ forall (fuel' : nat) (entry' : fat32_entry_t),
        fat32_dir_read fuel' entry' (demo_listed_end.1, demo_listed_end.2)
        = Ret (set_e_filename [] entry')
              (demo_listed_end.1, demo_listed_end.2))
  /\ e_start_cluster (set_e_filename [] demo_listed_entry) = 3.
Proof.
  split; [|reflexivity].
  apply (directory_end_is_sticky 100 demo_listed_entry demo_listed.1
           demo_listed_end.1 demo_listed.2 demo_listed_end.2
           (set_e_filename [] demo_listed_entry)).
  - vm_compute. reflexivity.
  - reflexivity.
Defined.

(** ** Removing a directory record *)

Lemma unlink_entry_scan_spec (n : nat) (i offset : Z) (buf : sector) :
  1 <= i -> 0 <= offset < Z.of_nat (length buf) ->
  exists k : Z,
    0 <= k <= Z.of_nat n
    /\ (0 < k -> (i + k - 1) * 32 <= offset)
    /\ (forall j, i <= j < i + k ->
          byte_at buf (offset - j * 32 + 11) = FAT32_ATTR_LONG_NAME)
    /\ (k = Z.of_nat n \/ offset < (i + k) * 32
        \/ ((i + k) * 32 <= offset
            /\ byte_at buf (offset - (i + k) * 32 + 11)
               <> FAT32_ATTR_LONG_NAME))
    /\ length (unlink_entry_scan n i offset buf) = length buf
    /\ (forall j, i <= j < i + k ->
          byte_at (unlink_entry_scan n i offset buf) (offset - j * 32)
          = FAT32_DIR_ENTRY_FREE)
    /\ (forall p, 0 <= p ->
          (forall j, i <= j < i + k -> p <> offset - j * 32) ->
          byte_at (unlink_entry_scan n i offset buf) p = byte_at buf p).
Proof.
  revert i buf. induction n as [|n IH]; intros i buf Hi Hoff.
  { exists 0. cbn [unlink_entry_scan]. repeat split; lia. }
  cbn [unlink_entry_scan].
  destruct (Z.ltb_spec offset (i * 32)) as [Hlt|Hge].
  { exists 0. repeat split; lia. }
  destruct (Z.eqb_spec (byte_at buf (offset - i * 32 + 11))
                       FAT32_ATTR_LONG_NAME) as [Hattr|Hattr].
  2:{ exists 0. repeat split; try lia. right. right.
      rewrite Z.add_0_r. split; [lia | done]. }
  set (buf1 := put_byte buf (offset - i * 32) FAT32_DIR_ENTRY_FREE).
  assert (Hlen1 : length buf1 = length buf) by apply length_put_byte.
  destruct (IH (i + 1) buf1 ltac:(lia) ltac:(lia))
    as (k & Hk & Hfit & Hrun & Hstop & Hlen & Hmark & Hkeep).
  assert (Hsame : forall j, i + 1 <= j -> j * 32 <= offset ->
            byte_at buf1 (offset - j * 32 + 11)
            = byte_at buf (offset - j * 32 + 11)).
  { intros j Hj Hjo. apply byte_at_put_byte_ne; lia. }
  exists (k + 1). split; [lia|]. split; [intros _; lia|].
  split.
  { intros j Hj. destruct (Z.eq_dec j i) as [->|Hne]; [done|].
    rewrite <- Hsame by lia. apply Hrun. lia. }
  split.
  { destruct Hstop as [->|[Hs|[Hs1 Hs2]]]; [left; lia | right; left; lia|].
    right. right.
    replace (i + (k + 1)) with (i + 1 + k) by lia.
    split; [done|]. rewrite <- Hsame by lia. done. }
  split; [by rewrite Hlen|].
  split.
  { intros j Hj. destruct (Z.eq_dec j i) as [->|Hne].
    - rewrite Hkeep by lia. apply byte_at_put_byte_eq; lia.
    - apply Hmark. lia. }
  intros p Hp Hother. rewrite Hkeep.
  - apply byte_at_put_byte_ne; [lia | lia |].
    intros Heq. apply (Hother i); lia.
  - done.
  - intros j Hj. apply Hother. lia.
Qed.

(** X16.  [unlink_entry] refuses a record whose start cluster is 0, with
    invalid-parameter and without reading anything.  For any other record
    that lies in a sector on the card, it succeeds and rewrites that one
    sector only: the first byte of the record becomes 0xE5, and so does
    the first byte of each of the [k] slots before it, where [k] counts
    the long-name slots that precede the record without a gap in the same
    sector (at most 20); every other byte of the sector and every other
    block of the card is as before. *)
Theorem unlink_marks_record_and_name_slots (entry : fat32_entry_t)
    (w : world) (buf : sector) :
  sd_blocks (card w) !! u32 (volume_start_block w + e_sector entry)
  = Some buf ->
  0 <= e_offset entry < Z.of_nat (length buf) ->
  let offset := e_offset entry in
  (e_start_cluster entry = 0 ->
   unlink_entry (Some entry) w = Fail FAT32_ERROR_INVALID_PARAMETER w)
  /\ (e_start_cluster entry <> 0 ->
      exists (buf' : sector) (k : Z),
        unlink_entry (Some entry) w
        = Ret tt (set_blocks
                    (<[u32 (volume_start_block w + e_sector entry) := buf']>
                       (sd_blocks (card w)))
                    (set_sector_buffer buf' w))
        /\ length buf' = length buf
        /\ 0 <= k <= 20 /\ k * 32 <= offset
        /\ (forall j, 1 <= j <= k ->
              byte_at buf (offset - j * 32 + 11) = FAT32_ATTR_LONG_NAME)
        /\ (k = 20 \/ offset < (k + 1) * 32
            \/ byte_at buf (offset - (k + 1) * 32 + 11)
               <> FAT32_ATTR_LONG_NAME)
        /\ (forall j, 0 <= j <= k ->
              byte_at buf' (offset - j * 32) = FAT32_DIR_ENTRY_FREE)
        /\ (forall p, 0 <= p ->
              (forall j, 0 <= j <= k -> p <> offset - j * 32) ->
              byte_at buf' p = byte_at buf p)).
Proof.
  intros Hblock Hoff offset. split.
  - intros Hzero. unfold unlink_entry. by rewrite Hzero.
  - intros Hstart. unfold unlink_entry.
    destruct (Z.eqb_spec (e_start_cluster entry) 0); [done|].
    unfold read_sector, write_sector, sd_read_block, sd_write_block.
    cbv [bind get modify]. rewrite Hblock. world_simpl. rewrite Hblock.
    fold offset.
    destruct (unlink_entry_scan_spec (Z.to_nat MAX_LFN_PART) 1 offset buf
                ltac:(lia) Hoff)
      as (k & Hk & Hfit & Hrun & Hstop & Hlen & Hmark & Hkeep).
    set (scanned := unlink_entry_scan _ 1 offset buf) in *.
    exists (put_byte scanned offset FAT32_DIR_ENTRY_FREE), k.
    split; [reflexivity|].
    split; [by rewrite length_put_byte|].
    split; [exact Hk|].
    split; [destruct (Z.eq_dec k 0); lia|].
    split; [intros j Hj; apply Hrun; lia|].
    split.
    { destruct Hstop as [->|[Hs|[_ Hs]]]; [by left | right; left; lia|].
      right. right. by replace (k + 1) with (1 + k) by lia. }
    split.
    + intros j Hj. destruct (Z.eq_dec j 0) as [->|Hne].
      * rewrite Z.sub_0_r. apply byte_at_put_byte_eq; lia.
      * rewrite byte_at_put_byte_ne by lia. apply Hmark. lia.
    + intros p Hp Hother.
      rewrite byte_at_put_byte_ne; [| lia | lia |].
      * apply Hkeep; [done|]. intros j Hj. apply Hother. lia.
      * intros Heq. apply (Hother 0); lia.
Qed.

Lemma unlink_marks_record_and_name_slots_witness :
  let entry := demo_entry in
  let w := demo_created.2 in
  let buf := demo_directory_sector in
  let offset := e_offset entry in
  (e_start_cluster entry = 0 ->
   unlink_entry (Some entry) w = Fail FAT32_ERROR_INVALID_PARAMETER w)
  /\ (e_start_cluster entry <> 0 ->
      exists (buf' : sector) (k : Z),
        unlink_entry (Some entry) w
        = Ret tt (set_blocks
                    (<[u32 (volume_start_block w + e_sector entry) := buf']>
                       (sd_blocks (card w)))
                    (set_sector_buffer buf' w))
        /\ length buf' = length buf
        /\ 0 <= k <= 20 /\ k * 32 <= offset
        /\ (forall j, 1 <= j <= k ->
              byte_at buf (offset - j * 32 + 11) = FAT32_ATTR_LONG_NAME)
        /\ (k = 20 \/ offset < (k + 1) * 32
            \/ byte_at buf (offset - (k + 1) * 32 + 11)
               <> FAT32_ATTR_LONG_NAME)
        /\ (forall j, 0 <= j <= k ->
              byte_at buf' (offset - j * 32) = FAT32_DIR_ENTRY_FREE)
        /\ (forall p, 0 <= p ->
              (forall j, 0 <= j <= k -> p <> offset - j * 32) ->
              byte_at buf' p = byte_at buf p)).
Proof.
  apply (unlink_marks_record_and_name_slots demo_entry demo_created.2
           demo_directory_sector).
  - vm_compute. reflexivity.
  - split; vm_compute; [discriminate | reflexivity].
Defined.

(** ** The bytes a read returns *)

(** Positions that share a sector. *)
Lemma same_sector (spc pos k : Z) :
  0 < spc -> 0 <= pos -> 0 <= k ->
  (pos mod (spc * 512)) mod 512 + k < 512 ->
  (pos + k) / (spc * 512) = pos / (spc * 512)
  /\ ((pos + k) mod (spc * 512)) / 512 = (pos mod (spc * 512)) / 512
  /\ ((pos + k) mod (spc * 512)) mod 512 = (pos mod (spc * 512)) mod 512 + k.
Proof.
  intros Hspc Hpos Hk Hroom.
  destruct (sector_of_position spc pos Hspc Hpos) as (Ha & Hb & Hr).
  set (B := spc * 512) in *. set (r := pos mod B) in *.
  pose proof (Z.div_mod pos B ltac:(lia)) as Hd. fold r in Hd.
  assert (Hdiv : (pos + k) / B = pos / B).
  { symmetry. apply (Z.div_unique_pos (pos + k) B (pos / B) (r + k)); lia. }
  assert (Hmod : (pos + k) mod B = r + k).
  { symmetry. apply (Z.mod_unique_pos (pos + k) B (pos / B) (r + k)); lia. }
  rewrite Hmod. split; [done|]. split.
  - symmetry.
    apply (Z.div_unique_pos (r + k) 512 (r / 512) (r mod 512 + k)); lia.
  - symmetry.
    apply (Z.mod_unique_pos (r + k) 512 (r / 512) (r mod 512 + k)); lia.
Qed.

Lemma file_sector_buffer (w : world) (s : sector) (cs : list Z) (p : Z) :
  file_sector (set_sector_buffer s w) cs p = file_sector w cs p.
Proof. reflexivity. Qed.

Lemma file_byte_buffer (w : world) (s : sector) (cs : list Z) (p : Z) :
  file_byte (set_sector_buffer s w) cs p = file_byte w cs p.
Proof. reflexivity. Qed.

(** The bytes one iteration of a copy loop handles lie in one sector. *)
Lemma file_bytes_of_sector (w : world) (cs : list Z) (pos n : Z) (c : Z)
    (s1 : sector) :
  bytes_per_cluster w = sectors_per_cluster (boot_sector w) * 512 ->
  0 < sectors_per_cluster (boot_sector w) ->
  0 <= pos -> 0 <= n ->
  (pos mod bytes_per_cluster w) mod 512 + n <= 512 ->
  cs !! Z.to_nat (pos / bytes_per_cluster w) = Some c ->
  sd_blocks (card w)
    !! data_block w c ((pos mod bytes_per_cluster w) / 512) = Some s1 ->
  map (file_byte w cs) (seqZ pos n)
  = map (byte_at s1) (seqZ ((pos mod bytes_per_cluster w) mod 512) n).
Proof.
  intros Hbpc Hspc Hpos Hn Hroom Hc Hs1.
  replace (seqZ pos n) with (map (Z.add pos) (seqZ 0 n))
    by (rewrite <- (Z.add_0_r pos) at 2; apply fmap_add_seqZ).
  set (b := (pos mod bytes_per_cluster w) mod 512) in *.
  replace (seqZ b n) with (map (Z.add b) (seqZ 0 n))
    by (rewrite <- (Z.add_0_r b) at 2; apply fmap_add_seqZ).
  rewrite !map_map.
  apply map_ext_in. intros k Hk.
  apply list_elem_of_In, elem_of_seqZ in Hk.
  destruct (same_sector (sectors_per_cluster (boot_sector w)) pos k
              Hspc Hpos ltac:(lia)) as (Hq & Hsec & Hbyte).
  { rewrite <- Hbpc. fold b. lia. }
  rewrite <- Hbpc in Hq, Hsec, Hbyte. fold b in Hbyte.
  unfold file_byte, file_sector, FAT32_SECTOR_SIZE, SD_BLOCK_SIZE.
  by rewrite Hq, Hc, Hsec, Hs1, Hbyte.
Qed.

Section ReadData.
Variable w : world.
Variable cs : list Z.
Hypothesis Hbpc :
  bytes_per_cluster w = sectors_per_cluster (boot_sector w) * 512.
Hypothesis Hspc : 0 < sectors_per_cluster (boot_sector w).
Hypothesis Hlinked : linked w cs.

Lemma fat32_read_loop_data (n : nat) (size total : Z) (dest : list Z)
    (f : fat32_file_t) (s : sector) :
  (Z.to_nat (size - total) <= n)%nat ->
  0 <= total <= size ->
  0 <= position f ->
  position f + (size - total) < 2 ^ 32 ->
  position f + (size - total) <= Z.of_nat (length cs) * bytes_per_cluster w ->
  (total < size ->
   cs !! Z.to_nat (position f / bytes_per_cluster w)
   = Some (current_cluster f)) ->
  (forall q, position f <= q < position f + (size - total) ->
             is_Some (file_sector w cs q)) ->
  exists f' s',
    fat32_read_loop n size total dest (f, set_sector_buffer s w)
    = Ret (size,
           dest ++ map (file_byte w cs) (seqZ (position f) (size - total)))
          (f', set_sector_buffer s' w)
    /\ position f' = position f + (size - total)
    /\ same_file f f'.
Proof.
  revert total dest f s.
  induction n as [|n IH];
    intros total dest f s Hn Htot Hpos Hmax Hcover Hcur Hdata.
  - assert (total = size) as -> by lia.
    exists f, s. cbn [fat32_read_loop].
    rewrite Z.ltb_irrefl. cbn [negb]. rewrite Z.sub_diag.
    cbn [seqZ map]. rewrite app_nil_r.
    split; [reflexivity|]. split; [lia|]. by repeat split.
  - destruct (Z.ltb_spec total size) as [Hlt|Hge].
    2:{ assert (total = size) as -> by lia.
        exists f, s. cbn [fat32_read_loop].
        rewrite Z.ltb_irrefl. cbn [negb]. rewrite Z.sub_diag.
        cbn [seqZ map]. rewrite app_nil_r.
        split; [reflexivity|]. split; [lia|]. by repeat split. }
    specialize (Hcur Hlt).
    pose proof (sector_of_position (sectors_per_cluster (boot_sector w))
                  (position f) Hspc Hpos) as Hsec.
    cbv zeta in Hsec. rewrite <- Hbpc in Hsec.
    destruct Hsec as (Hsic & Hbis & Hsplit).
    destruct (Hdata (position f) ltac:(lia)) as [s1 Hs1].
    unfold file_sector in Hs1. rewrite Hcur in Hs1.
    rewrite (fat32_read_loop_step w n size total dest f s s1 Hlt Hs1).
    set (bis := (position f mod bytes_per_cluster w) mod FAT32_SECTOR_SIZE)
      in *.
    set (btc := if size - total <? FAT32_SECTOR_SIZE - bis
                then size - total else FAT32_SECTOR_SIZE - bis).
    assert (Hbtc : 0 < btc <= size - total /\ btc <= 512 - bis).
    { subst btc. unfold FAT32_SECTOR_SIZE, SD_BLOCK_SIZE in *.
      destruct (Z.ltb_spec (size - total) (512 - bis)); lia. }
    assert (Hpiece : map (byte_at s1) (seqZ bis btc)
                     = map (file_byte w cs) (seqZ (position f) btc)).
    { symmetry. subst bis. unfold FAT32_SECTOR_SIZE, SD_BLOCK_SIZE in *.
      apply (file_bytes_of_sector w cs (position f) btc (current_cluster f));
        try done; lia. }
    rewrite Hpiece.
    set (dest1 := dest ++ map (file_byte w cs) (seqZ (position f) btc)).
    assert (Hdest : forall rest,
              dest1 ++ map (file_byte w cs)
                           (seqZ (position f + btc) (size - (total + btc)))
              = rest ->
              dest ++ map (file_byte w cs)
                          (seqZ (position f) (size - total)) = rest).
    { intros rest <-. subst dest1. rewrite <- app_assoc, <- map_app.
      rewrite <- seqZ_app by lia. do 3 f_equal. lia. }
    assert (Hu : u32 (position f + btc) = position f + btc)
      by (apply u32_small; lia).
    rewrite Hu.
    assert (Hroom : position f mod bytes_per_cluster w + btc
                    <= bytes_per_cluster w).
    { unfold FAT32_SECTOR_SIZE, SD_BLOCK_SIZE in *. nia. }
    assert (Hbpos : 0 < bytes_per_cluster w) by lia.
    destruct (advance_in_cluster (bytes_per_cluster w) (position f) btc
                Hbpos Hpos ltac:(lia) Hroom) as [Hcross Hstay].
    set (f1 := set_position (position f + btc) f).
    change (position f1) with (position f + btc).
    assert (Hdata1 : forall q,
              position f + btc <= q
              < position f + btc + (size - (total + btc)) ->
              is_Some (file_sector w cs q)).
    { intros q Hq. apply Hdata. lia. }
    destruct (Z.ltb_spec (total + btc) size) as [Hmore|Hdone].
    + destruct (Z.eqb_spec ((position f + btc) mod bytes_per_cluster w) 0)
        as [Hz|Hnz]; cbn [andb].
      * assert (Heq : position f mod bytes_per_cluster w + btc
                      = bytes_per_cluster w).
        { destruct (Z.eq_dec (position f mod bytes_per_cluster w + btc)
                             (bytes_per_cluster w)); [done|].
          destruct Hstay as [Hm _]; [lia|].
          pose proof (Z.mod_pos_bound (position f) (bytes_per_cluster w)
                        Hbpos). lia. }
        destruct (Hcross Heq) as [_ Hdiv].
        assert (Hq : 0 <= position f / bytes_per_cluster w)
          by (apply Z.div_pos; lia).
        assert (Hnext : (Z.to_nat (position f / bytes_per_cluster w + 1)
                         < length cs)%nat).
        { pose proof (Z.div_mod (position f) (bytes_per_cluster w)
                        ltac:(lia)). nia. }
        destruct (lookup_lt_is_Some_2 cs _ Hnext) as [c' Hc'].
        replace (Z.to_nat (position f / bytes_per_cluster w + 1))
          with (S (Z.to_nat (position f / bytes_per_cluster w))) in Hc'
          by lia.
        destruct (linked_step w cs _ _ _ Hlinked Hcur Hc') as [Hfat Hlt'].
        destruct (read_cluster_fat_entry_view _ _ (set_sector_buffer s1 w)
                    Hfat) as [s2 Hread].
        rewrite Hread.
        destruct (Z.ltb_spec c' FAT32_FAT_ENTRY_EOC); [|lia]. cbn [negb].
        destruct (IH (total + btc) dest1 (set_current_cluster c' f1) s2)
          as (f' & s' & Hloop & Hp & Hsame);
          try (cbn [position set_current_cluster f1 set_position]; lia).
        { intros _. cbn [position current_cluster set_current_cluster
                         f1 set_position].
          rewrite Hdiv.
          replace (Z.to_nat (position f / bytes_per_cluster w + 1))
            with (S (Z.to_nat (position f / bytes_per_cluster w))) by lia.
          exact Hc'. }
        { exact Hdata1. }
        exists f', s'.
        change (set_sector_buffer s2 (set_sector_buffer s1 w))
          with (set_sector_buffer s2 w).
        rewrite Hloop.
        split; [f_equal; f_equal; symmetry; by apply Hdest|].
        split; [cbn in Hp; lia | exact Hsame].
      * assert (Hless : position f mod bytes_per_cluster w + btc
                        < bytes_per_cluster w).
        { destruct (Z.eq_dec (position f mod bytes_per_cluster w + btc)
                             (bytes_per_cluster w)) as [Heq|]; [|lia].
          destruct (Hcross Heq) as [Hm _]. lia. }
        destruct (Hstay Hless) as [_ Hdiv].
        destruct (IH (total + btc) dest1 f1 s1)
          as (f' & s' & Hloop & Hp & Hsame);
          try (cbn [position f1 set_position]; lia).
        { intros _. cbn [position current_cluster f1 set_position].
          by rewrite Hdiv. }
        { exact Hdata1. }
        exists f', s'. rewrite Hloop.
        split; [f_equal; f_equal; symmetry; by apply Hdest|].
        split; [cbn in Hp; lia | exact Hsame].
    + rewrite andb_false_r.
      destruct (IH (total + btc) dest1 f1 s1)
        as (f' & s' & Hloop & Hp & Hsame);
        try (cbn [position f1 set_position]; lia).
      exists f', s'. rewrite Hloop.
      split; [f_equal; f_equal; symmetry; by apply Hdest|].
      split; [cbn in Hp; lia | exact Hsame].
Qed.
End ReadData.

(** A read below the end of a file whose sectors at the positions read
    are on the card. *)
Lemma fat32_read_data (f : fat32_file_t) (w : world) (cs : list Z)
    (size : Z) :
  volume_ok w -> file_ok w f cs ->
  file_size f <= Z.of_nat (length cs) * bytes_per_cluster w ->
  0 <= position f < file_size f -> 0 <= size ->
  let m := Z.min size (file_size f - position f) in
  (forall q, position f <= q < position f + m ->
             is_Some (file_sector w cs q)) ->
  exists f' w',
    fat32_read true size (f, w)
    = Ret (m, map (file_byte w cs) (seqZ (position f) m)) (f', w')
    /\ position f' = position f + m
    /\ same_file f f'
    /\ card w' = card w.
Proof.
  intros (Hready & (Hspc & Hbpc & _) & _)
         (Hopen & Hfile & Hsize0 & Hsize & _ & (Hhead & Hlinked & _) & _)
         Hcover Hpos Hsz m Hdata.
  unfold fat32_read.
  cbv [bind get_file get_world liftw]. world_simpl.
  rewrite Hopen, Hfile. cbn [negb orb Z.eqb]. world_simpl.
  rewrite (require_ready_ready w Hready).
  destruct (Z.ltb_spec (position f) (file_size f)); [|lia]. cbn [negb].
  cbv [get_world]. world_simpl.
  set (remaining := file_size f - position f).
  set (size' := if remaining <? size then remaining else size).
  assert (Hsize' : size' = m).
  { subst size' m. destruct (Z.ltb_spec remaining size); lia. }
  assert (Hbpos : 0 < bytes_per_cluster w) by lia.
  assert (Hq : 0 <= position f / bytes_per_cluster w)
    by (apply Z.div_pos; lia).
  assert (Hidx : (Z.to_nat (position f / bytes_per_cluster w)
                  < length cs)%nat).
  { pose proof (Z.div_mod (position f) (bytes_per_cluster w) ltac:(lia)).
    pose proof (Z.mod_pos_bound (position f) (bytes_per_cluster w) Hbpos).
    nia. }
  destruct (lookup_lt_is_Some_2 cs _ Hidx) as [c Hc].
  assert (H0 : cs !! O = Some (start_cluster f)).
  { destruct cs; [done|]. cbn in Hhead. by injection Hhead as ->. }
  unfold seek_to_cluster.
  destruct (seek_to_cluster_loop_linked w cs _ _ _ Hlinked H0 Hc)
    as [s1 Hseek].
  rewrite Hseek. cbv [modify_file]. world_simpl.
  destruct (fat32_read_loop_data w cs Hbpc Hspc Hlinked
              (Z.to_nat size') size' 0 [] (set_current_cluster c f) s1)
    as (f' & s' & Hloop & Hp & Hsame);
    try (world_simpl; lia).
  { intros _. exact Hc. }
  { intros q Hq'. apply Hdata. world_simpl. lia. }
  exists f', (set_sector_buffer s' w).
  rewrite Hloop. world_simpl. rewrite Z.sub_0_r, Hsize'.
  split; [reflexivity|].
  split; [cbn in Hp; lia|].
  split; [exact Hsame | reflexivity].
Qed.

Lemma clusters_on_card_file_sector (w : world) (cs : list Z) (q : Z) :
  bytes_per_cluster w = sectors_per_cluster (boot_sector w) * 512 ->
  0 < sectors_per_cluster (boot_sector w) ->
  clusters_on_card w cs ->
  0 <= q < Z.of_nat (length cs) * bytes_per_cluster w ->
  is_Some (file_sector w cs q).
Proof.
  intros Hbpc Hspc Hcard Hq. unfold file_sector.
  assert (Hidx : (Z.to_nat (q / bytes_per_cluster w) < length cs)%nat).
  { assert (0 <= q / bytes_per_cluster w) by (apply Z.div_pos; lia).
    assert (q / bytes_per_cluster w < Z.of_nat (length cs))
      by (apply Z.div_lt_upper_bound; lia).
    lia. }
  destruct (lookup_lt_is_Some_2 cs _ Hidx) as [c Hc]. rewrite Hc.
  apply Hcard; [by eapply list_elem_of_lookup_2|].
  destruct (sector_of_position (sectors_per_cluster (boot_sector w)) q
              Hspc ltac:(lia)) as (Hs & _).
  by rewrite <- Hbpc in Hs.
Qed.

(** X17.  What a read returns.  On a well-formed volume, a read below the
    end of an open file whose clusters [cs] cover its size and are on the
    card returns the smaller of the request and the rest of the file, and
    the bytes are those of the file at the positions read: byte [q] comes
    from cluster [q / bytes_per_cluster] of the chain, sector
    [(q mod bytes_per_cluster) / 512] of that cluster, offset [q mod 512].
    The position advances by the count and the card is not written to. *)
Theorem read_returns_the_bytes_of_the_file (f : fat32_file_t) (w : world)
    (cs : list Z) (size : Z) :
  volume_ok w -> file_ok w f cs -> clusters_on_card w cs ->
  file_size f <= Z.of_nat (length cs) * bytes_per_cluster w ->
  0 <= position f < file_size f -> 0 <= size ->
  let m := Z.min size (file_size f - position f) in
  exists f' w',
    fat32_read true size (f, w)
    = Ret (m, map (file_byte w cs) (seqZ (position f) m)) (f', w')
    /\ position f' = position f + m
    /\ same_file f f'
    /\ card w' = card w.
Proof.
  intros Hok Hfile Hcard Hcover Hpos Hsize m.
  apply fat32_read_data; try done.
  intros q Hq. pose proof Hok as (_ & (Hspc & Hbpc & _) & _).
  apply clusters_on_card_file_sector; try done. lia.
Qed.

Lemma demo_rewound_volume_ok : volume_ok demo_rewound.2.
Proof. volume_ok_by_evaluation. Qed.

Lemma demo_rewound_file_ok : file_ok demo_rewound.2 demo_rewound.1 [3; 4].
Proof.
  assert (H3 : fat_entry demo_rewound.2 3 = Some 4)
    by (vm_compute; reflexivity).
  assert (H4 : fat_entry demo_rewound.2 4 = Some FAT32_FAT_ENTRY_EOC)
    by (vm_compute; reflexivity).
  split; [vm_compute; reflexivity|]. split; [vm_compute; reflexivity|].
  split; [vm_compute; discriminate|]. split; [vm_compute; discriminate|].
  split; [split; vm_compute; first [reflexivity | discriminate]|].
  split; [|split].
  - split; [reflexivity|]. split.
    + split; [exact H3|]. split; [reflexivity | exact I].
    + exists 4, FAT32_FAT_ENTRY_EOC.
      split; [reflexivity|]. split; [exact H4 | reflexivity].
  - apply NoDup_cons_2; [|apply NoDup_cons_2;
                            [apply not_elem_of_nil | apply NoDup_nil_2]].
    intros H. apply list_elem_of_singleton in H. discriminate.
  - apply Forall_cons_2; [|apply Forall_cons_2; [|apply Forall_nil_2]];
      split; vm_compute; first [reflexivity | discriminate].
Qed.

Lemma demo_rewound_on_card : clusters_on_card demo_rewound.2 [3; 4].
Proof.
  intros c j Hc Hj.
  assert (Hspc : sectors_per_cluster (boot_sector demo_rewound.2) = 2)
    by (vm_compute; reflexivity).
  rewrite Hspc in Hj. clear Hspc.
  assert (Hj' : j = 0 \/ j = 1) by lia. clear Hj.
  destruct (elem_of_two _ _ _ Hc) as [-> | ->];
    destruct Hj' as [-> | ->]; vm_compute; eexists; reflexivity.
Qed.

(** The file of 1500 bytes on the demo volume, read from byte 1000 on:
    the read crosses from cluster 3 into cluster 4. *)
Lemma read_returns_the_bytes_of_the_file_witness :
  let f := demo_rewound.1 in
  let w := demo_rewound.2 in
  let m := Z.min 300 (file_size f - position f) in
  exists f' w',
    fat32_read true 300 (f, w)
    = Ret (m, map (file_byte w [3; 4]) (seqZ (position f) m)) (f', w')
    /\ position f' = position f + m
    /\ same_file f f'
    /\ card w' = card w.
Proof.
  apply (read_returns_the_bytes_of_the_file demo_rewound.1 demo_rewound.2
           [3; 4] 300).
  - exact demo_rewound_volume_ok.
  - exact demo_rewound_file_ok.
  - exact demo_rewound_on_card.
  - vm_compute. discriminate.
  - split; vm_compute; [discriminate | reflexivity].
  - vm_compute. discriminate.
Defined.

(** ** The data region under the steps of a write *)

(** Linking a new cluster leaves the data region alone, and takes a
    cluster that was free: a cluster in use elsewhere stays so. *)
Lemma allocate_and_link_cluster_frame (last new : Z) (w w' : world) :
  volume_ok w -> in_range w last ->
  (exists v, fat_entry w last = Some v /\ v <> 0) ->
  allocate_and_link_cluster last w = Ret new w' ->
  data_kept w w'
  /\ forall cs d, used_elsewhere w cs d -> used_elsewhere w' (cs ++ [new]) d.
Proof.
  intros Hok Hlast Huse Halloc.
  pose proof (allocate_and_link_cluster_inv last new w w' Hok Hlast Huse
                Halloc) as (Hfree & Hnew & Hne & Hstep & Hl' & Hn').
  split.
  - pose proof Hok as (_ & Hlay & _).
    unfold allocate_and_link_cluster in Halloc. cbv [bind] in Halloc.
    destruct (get_next_free_cluster w) as [c w1| |] eqn:Hget;
      try discriminate.
    apply get_next_free_cluster_inv in Hget as (_ & Hc & s & ->); [|done].
    pose proof (fat_step_buffer w s Hok) as Hs1.
    destruct (write_cluster_fat_entry last c _) as [[] w2| |] eqn:Hw1;
      try discriminate.
    assert (Hd2 : data_kept w w2)
      by exact (write_cluster_fat_entry_data last c (set_sector_buffer s w)
                  w2 Hlay Hlast Hw1).
    apply fat_step_write_entry in Hw1 as [Hs2 _]; [|by destruct Hs1|done].
    pose proof Hs2 as (Hok2 & Hv2 & _).
    destruct (write_cluster_fat_entry c _ w2) as [[] w3| |] eqn:Hw2;
      try discriminate.
    assert (Hc2 : in_range w2 c)
      by (by apply (volume_of_in_range (set_sector_buffer s w) w2)).
    pose proof (write_cluster_fat_entry_data _ _ _ _
                  (proj1 (proj2 Hok2)) Hc2 Hw2) as Hd3.
    apply fat_step_write_entry in Hw2 as [Hs3 _]; [|done|done].
    pose proof Hs3 as (Hok3 & Hv3 & _).
    destruct (decrease_free_count w3) as [[] w4| |] eqn:Hdec;
      try discriminate.
    pose proof (decrease_free_count_data _ _ (proj1 (proj2 Hok3)) Hdec)
      as Hd4.
    cbv [ret] in Halloc. injection Halloc as <- <-.
    apply (data_kept_trans w w2); [done | exact Hd2|].
    apply (data_kept_trans w2 w3); [done | exact Hd3 | exact Hd4].
  - intros cs d (Hd & Hnot & v & Hv & Hv0).
    destruct Hstep as (_ & Hvol & Hframe).
    assert (Hdn : d <> new) by (intros ->; congruence).
    split; [by apply (volume_of_in_range w w')|].
    split.
    { rewrite not_elem_of_app. split; [done|].
      intros Hin. by apply list_elem_of_singleton in Hin. }
    destruct (Z.eq_dec d last) as [->|Hdl].
    + exists new. split; [done|]. unfold in_range in Hnew. lia.
    + exists v. split; [|done]. rewrite Hframe; [done | done |].
      intros Hin. apply elem_of_cons in Hin as [?|Hin]; [done|].
      by apply list_elem_of_singleton in Hin.
Qed.

Lemma used_elsewhere_buffer (w : world) (s : sector) (cs : list Z) (d : Z) :
  used_elsewhere w cs d -> used_elsewhere (set_sector_buffer s w) cs d.
Proof. intros H. exact H. Qed.

Lemma growing_last_in_use (w : world) (start last : Z) (pre : list Z) :
  growing w start (pre ++ [last]) ->
  in_range w last /\ exists v, fat_entry w last = Some v /\ v <> 0.
Proof.
  intros (_ & _ & _ & Hr & Hu).
  assert (Hin : last ∈ pre ++ [last]).
  { apply elem_of_app. right. by apply list_elem_of_singleton. }
  split; [|by apply Hu]. rewrite Forall_forall in Hr. by apply Hr.
Qed.

(** The walk of [fat32_write] to the cluster of the position, once more:
    it also leaves the data region alone and takes only clusters that
    were free. *)
Lemma fat32_write_walk_frame (n : nat) :
  forall (w w' : world) (start c0 c : Z) (pre rest : list Z),
    volume_ok w -> file_chain w start (pre ++ c0 :: rest) ->
    fat32_write_walk n c0 w = Ret c w' ->
    exists extra,
      file_chain w' start (pre ++ c0 :: rest ++ extra)
      /\ (c0 :: rest ++ extra) !! n = Some c
      /\ ((n < length (c0 :: rest))%nat -> extra = [])
      /\ ((length (c0 :: rest) <= n)%nat ->
          length (c0 :: rest ++ extra) = S n)
      /\ volume_ok w' /\ volume_of w' = volume_of w
      /\ data_kept w w'
      /\ forall d, used_elsewhere w (pre ++ c0 :: rest) d ->
                   used_elsewhere w' (pre ++ c0 :: rest ++ extra) d.
Proof.
  induction n as [|n IH]; intros w w' start c0 c pre rest Hok Hc Hwalk.
  - cbn in Hwalk. injection Hwalk as <- <-. exists [].
    rewrite app_nil_r. split; [done|]. split; [done|]. split; [done|].
    split; [cbn; lia|].
    split; [done|]. split; [done|]. split; [apply data_kept_refl | done].
  - cbn [fat32_write_walk] in Hwalk. cbv [bind] in Hwalk.
    destruct (read_cluster_fat_entry c0 w) as [v w1| |] eqn:Hread;
      try discriminate.
    apply read_cluster_fat_entry_inv in Hread as (Hv & s & ->).
    pose proof (file_chain_next _ _ _ _ _ _ Hc Hv) as Hnext.
    assert (Hok1 := volume_ok_buffer w s Hok).
    assert (Hc1 := file_chain_buffer w s _ _ Hok Hc).
    destruct (Z.ltb_spec v FAT32_FAT_ENTRY_EOC); cbn [negb] in Hwalk.
    + destruct Hnext as [rest' ->].
      replace (pre ++ c0 :: v :: rest') with ((pre ++ [c0]) ++ v :: rest')
        in Hc1 by (by rewrite <- app_assoc).
      destruct (IH _ _ _ _ _ _ _ Hok1 Hc1 Hwalk)
        as (extra & Hc' & Hn & Hshort & Hlong & Hok' & Hvol & Hdata & Hused).
      exists extra. rewrite <- app_assoc in Hc'. cbn [app] in Hc'.
      split; [done|]. split; [done|].
      split; [intros; apply Hshort; cbn in *; lia|].
      split; [intros Hlen; cbn in *; f_equal; apply Hlong; lia|].
      split; [done|]. split; [done|]. split; [exact Hdata|].
      intros d Hd. specialize (Hused d).
      rewrite <- !app_assoc in Hused. cbn [app] in Hused.
      apply Hused. exact Hd.
    + subst rest.
      destruct (allocate_and_link_cluster c0 (set_sector_buffer s w))
        as [new w2| |] eqn:Halloc; try discriminate.
      pose proof (growing_last_in_use _ _ _ _
                    (file_chain_growing _ _ _ Hc1)) as [Hr0 Hu0].
      destruct (allocate_and_link_cluster_frame c0 new _ w2 Hok1 Hr0 Hu0
                  Halloc) as [Hdata2 Hused2].
      apply (allocate_extends_chain _ _ start c0 new pre) in Halloc
        as (Hc2 & Hok2 & Hvol2);
        [|done | by apply file_chain_growing].
      destruct (IH _ _ _ _ _ _ _ Hok2 Hc2 Hwalk)
        as (extra & Hc' & Hn & Hshort & Hlong & Hok' & Hvol & Hdata & Hused).
      exists (new :: extra). cbn [app] in *.
      rewrite <- app_assoc in Hc'. cbn [app] in Hc'.
      split; [done|]. split; [done|].
      split; [cbn; lia|].
      split.
      { intros _. cbn [length] in *.
        destruct (decide (n < 1)%nat) as [Hlt|Hge].
        - rewrite Hshort by done. cbn. lia.
        - f_equal. apply Hlong. lia. }
      split; [done|]. split; [by rewrite Hvol, Hvol2|].
      split.
      * apply (data_kept_trans w w2); [exact Hvol2 | exact Hdata2 | done].
      * intros d Hd. specialize (Hused d).
        rewrite <- !app_assoc in Hused. cbn [app] in Hused.
        apply Hused. pose proof (Hused2 (pre ++ [c0]) d Hd) as Hd2.
        rewrite <- app_assoc in Hd2. exact Hd2.
Qed.

(** The allocation loop of [fat32_write], once more. *)
Lemma fat32_write_allocate_frame (n : nat) :
  forall (i current last start : Z) (pre : list Z) (f f' : fat32_file_t)
         (w w' : world),
    0 < current -> volume_ok w -> growing w start (pre ++ [last]) ->
    fat32_write_allocate n i current last (f, w) = Ret tt (f', w') ->
    data_kept w w' /\ (n = O -> w' = w)
    /\ exists ms,
        length ms = n
        /\ (n <> O -> file_chain w' start ((pre ++ [last]) ++ ms))
        /\ forall d, used_elsewhere w (pre ++ [last]) d ->
                     used_elsewhere w' ((pre ++ [last]) ++ ms) d.
Proof.
  induction n as [|n IH];
    intros i current last start pre f f' w w' Hcur Hok Hg Hrun.
  - cbn in Hrun. injection Hrun as <- <-.
    split; [apply data_kept_refl|]. split; [done|].
    exists []. rewrite app_nil_r.
    split; [done|]. split; done.
  - cbn [fat32_write_allocate] in Hrun.
    destruct (Z.ltb_spec 0 current); [|lia]. cbn [orb] in Hrun.
    apply bind_inv in Hrun as (new & [f1 w1] & Ha & Hrest).
    apply liftw_inv in Ha as [Hf Ha]. cbn [fst snd] in Hf, Ha. subst f1.
    pose proof (growing_last_in_use _ _ _ _ Hg) as [Hr0 Hu0].
    destruct (allocate_and_link_cluster_frame last new w w1 Hok Hr0 Hu0 Ha)
      as [Hdata1 Hused1].
    apply (allocate_extends_chain _ _ start last new pre) in Ha
      as (Hc2 & Hok2 & Hvol2); [|done|done].
    apply (IH _ _ _ start (pre ++ [last])) in Hrest
      as (Hdata & Hzero & ms & Hlen & Hchain & Hused);
      [|done | done | by apply file_chain_growing].
    split; [by apply (data_kept_trans w w1)|]. split; [done|].
    exists (new :: ms). split; [cbn; lia|].
    replace ((pre ++ [last]) ++ new :: ms)
      with (((pre ++ [last]) ++ [new]) ++ ms)
      by (by rewrite <- (app_assoc _ [new] ms)).
    split.
    + intros _. destruct n as [|n].
      * destruct ms; [|done]. rewrite app_nil_r.
        by rewrite (Hzero eq_refl).
      * by apply Hchain.
    + intros d Hd. apply Hused. by apply Hused1.
Qed.

(** ** The bytes a write stores *)

Lemma length_store_bytes (buf : list Z) (off : Z) (src : list Z) :
  length (store_bytes buf off src) = length buf.
Proof.
  revert buf off. induction src as [|b src IH]; intros buf off; [done|].
  cbn [store_bytes]. by rewrite IH, length_put_byte.
Qed.

Lemma byte_at_store_bytes (buf : list Z) (off : Z) (src : list Z) (i : Z) :
  0 <= off -> 0 <= i -> off + Z.of_nat (length src) <= Z.of_nat (length buf) ->
  byte_at (store_bytes buf off src) i
  = if (off <=? i) && (i <? off + Z.of_nat (length src))
    then Z.land (nth (Z.to_nat (i - off)) src 0) 0xFF
    else byte_at buf i.
Proof.
  revert buf off. induction src as [|b src IH]; intros buf off Hoff Hi Hfit.
  - cbn [store_bytes length]. change (Z.of_nat 0) with 0.
    destruct (Z.leb_spec off i), (Z.ltb_spec i (off + 0));
      cbn [andb]; try done; lia.
  - cbn [store_bytes]. cbn [length] in Hfit.
    rewrite IH by (rewrite ?length_put_byte; lia).
    cbn [length].
    destruct (Z.leb_spec (off + 1) i), (Z.leb_spec off i),
             (Z.ltb_spec i (off + 1 + Z.of_nat (length src))),
             (Z.ltb_spec i (off + Z.of_nat (S (length src))));
      cbn [andb]; try lia.
    + replace (Z.to_nat (i - off)) with (S (Z.to_nat (i - (off + 1))))
        by lia. reflexivity.
    + apply byte_at_put_byte_ne; lia.
    + assert (i = off) as -> by lia. rewrite Z.sub_diag. cbn [Z.to_nat nth].
      apply byte_at_put_byte_eq; lia.
    + apply byte_at_put_byte_ne; lia.
Qed.

(** Two positions in one sector of one cluster differ as their offsets
    in the sector do. *)
Lemma sector_offsets (bpc p q : Z) :
  0 < bpc -> p / bpc = q / bpc ->
  (p mod bpc) / 512 = (q mod bpc) / 512 ->
  q - p = (q mod bpc) mod 512 - (p mod bpc) mod 512.
Proof.
  intros Hb Hc Hs.
  pose proof (Z.div_mod p bpc ltac:(lia)) as Hp.
  pose proof (Z.div_mod q bpc ltac:(lia)) as Hq.
  pose proof (Z.div_mod (p mod bpc) 512 ltac:(lia)) as Hp'.
  pose proof (Z.div_mod (q mod bpc) 512 ltac:(lia)) as Hq'.
  rewrite Hc in Hp. rewrite Hs in Hp'.
  set (a := bpc * (q / bpc)) in *. lia.
Qed.

Section WriteSector.
Variable w : world.
Variable start : Z.
Variable final : list Z.
Variable cluster : Z.
Variable pos : Z.
Variable buf : sector.
Hypothesis Hok : volume_ok w.
Hypothesis Hchain : file_chain w start final.
Hypothesis Hpos : 0 <= pos.
Hypothesis Hcluster :
  final !! Z.to_nat (pos / bytes_per_cluster w) = Some cluster.

Lemma file_sector_written_same (q : Z) :
  q / bytes_per_cluster w = pos / bytes_per_cluster w ->
  (q mod bytes_per_cluster w) / 512 = (pos mod bytes_per_cluster w) / 512 ->
  file_sector (sector_written w cluster pos buf) final q = Some buf.
Proof.
  intros Hq Hs. unfold file_sector, sector_written. world_simpl.
  rewrite Hq, Hcluster.
  change (data_block (set_blocks _ _) ?c ?j) with (data_block w c j).
  unfold FAT32_SECTOR_SIZE, SD_BLOCK_SIZE. rewrite Hs.
  apply lookup_insert_eq.
Qed.

Lemma file_sector_written_other (q : Z) :
  0 <= q ->
  ~ (q / bytes_per_cluster w = pos / bytes_per_cluster w
     /\ (q mod bytes_per_cluster w) / 512
        = (pos mod bytes_per_cluster w) / 512) ->
  file_sector (sector_written w cluster pos buf) final q = file_sector w final q.
Proof.
  intros Hq Hne. unfold file_sector, sector_written. world_simpl.
  destruct (final !! Z.to_nat (q / bytes_per_cluster w)) as [c|] eqn:Hc;
    [|done].
  change (data_block (set_blocks _ _) ?c ?j) with (data_block w c j).
  apply lookup_insert_ne. intros Heq.
  pose proof Hok as (_ & Hlay & _).
  pose proof Hlay as (Hspc & Hbpc & _).
  destruct Hchain as (_ & Hnodup & Hrange).
  rewrite Forall_forall in Hrange.
  destruct (sector_of_position _ q Hspc Hq) as (Hsq & _).
  destruct (sector_of_position _ pos Hspc Hpos) as (Hsp & _).
  rewrite <- Hbpc in Hsq, Hsp.
  unfold FAT32_SECTOR_SIZE, SD_BLOCK_SIZE in Heq.
  apply data_block_inj in Heq as [-> Hj]; try done.
  - apply Hne. split; [|done].
    pose proof (NoDup_lookup _ _ _ _ Hnodup Hc Hcluster) as Hidx.
    assert (0 <= q / bytes_per_cluster w) by (apply Z.div_pos; lia).
    assert (0 <= pos / bytes_per_cluster w) by (apply Z.div_pos; lia).
    lia.
  - apply Hrange. by eapply list_elem_of_lookup_2.
  - apply Hrange. by eapply list_elem_of_lookup_2.
Qed.
End WriteSector.

(** The copy loop of [fat32_write], once more: what it leaves in the
    sectors of the file. *)
Lemma fat32_write_loop_data (n : nat) :
  forall (src : list Z) (size total pos cluster start : Z) (final : list Z)
         (f f' : fat32_file_t) (w w' : world) (r : Z * Z),
    volume_ok w -> file_chain w start final ->
    size <= strlen src ->
    0 <= total <= size -> 0 <= pos ->
    pos + (size - total) <= Z.of_nat (length final) * bytes_per_cluster w ->
    pos + (size - total) < 2 ^ 32 ->
    (total < size ->
     final !! Z.to_nat (pos / bytes_per_cluster w) = Some cluster) ->
    (forall q s, 0 <= q -> file_sector w final q = Some s ->
                 length s = 512%nat) ->
    fat32_write_loop n src size total pos cluster (f, w) = Ret r (f', w') ->
    (forall q, pos <= q < pos + (size - total) ->
       is_Some (file_sector w' final q)
       /\ file_byte w' final q
          = Z.land (nth (Z.to_nat (total + (q - pos))) src 0) 0xFF)
    /\ (forall q, 0 <= q -> ~ (pos <= q < pos + (size - total)) ->
          (is_Some (file_sector w final q) ->
           is_Some (file_sector w' final q))
          /\ file_byte w' final q = file_byte w final q)
    /\ (forall q s, 0 <= q -> file_sector w' final q = Some s ->
                    length s = 512%nat)
    /\ (forall b,
          (forall c j, c ∈ final ->
                       0 <= j < sectors_per_cluster (boot_sector w) ->
                       b <> data_block w c j) ->
          sd_blocks (card w') !! b = sd_blocks (card w) !! b).
Proof.
  induction n as [|n IH];
    intros src size total pos cluster start final f f' w w' r
           Hok Hc Hsrc Htot Hpos Hcover Hfit Hcl H512 Hrun.
  - cbn [fat32_write_loop] in Hrun.
    destruct (Z.ltb_spec total size); [discriminate|]. cbn in Hrun.
    injection Hrun as <- <- <-.
    split; [intros q Hq; lia|]. split; [done|]. split; [done|]. done.
  - cbn [fat32_write_loop] in Hrun.
    destruct (Z.ltb_spec total size) as [Hlt|Hge]; cbn [negb] in Hrun.
    2:{ injection Hrun as <- <- <-.
        split; [intros q Hq; lia|]. split; [done|]. split; [done|]. done. }
    specialize (Hcl Hlt).
    cbv [bind get_world liftw cluster_to_sector get ret] in Hrun.
    world_simpl.
    match type of Hrun with
    | context [read_sector ?s w] => set (sec := s) in *
    end.
    destruct (read_sector sec w) as [[] w1| |] eqn:Hread; try discriminate.
    apply read_sector_inv in Hread as (s1 & Hs1 & ->).
    cbv [modify] in Hrun. world_simpl.
    match type of Hrun with
    | context [write_sector sec ?b _] => set (buf := b) in *
    end.
    match type of Hrun with
    | context [write_sector sec buf ?x] =>
        change x with (set_sector_buffer buf w) in Hrun
    end.
    destruct (write_sector sec buf (set_sector_buffer buf w))
      as [[] w2| |] eqn:Hwrite; try discriminate.
    world_simpl.
    pose proof Hok as (_ & Hlay & _).
    pose proof Hlay as (Hspc & Hbpc & _).
    match type of Hrun with
    | context [total + ?b <? size] => set (btw := b) in *
    end.
    destruct (bytes_to_write_range (sectors_per_cluster (boot_sector w))
                pos (size - total) Hspc Hpos ltac:(lia))
      as (Hbtw & Hin & Hsic).
    rewrite <- Hbpc in Hbtw, Hin, Hsic.
    unfold FAT32_SECTOR_SIZE, SD_BLOCK_SIZE in btw, sec. fold btw in Hbtw, Hin.
    assert (Hbpos : 0 < bytes_per_cluster w) by lia.
    assert (Hrange : in_range w cluster).
    { destruct Hc as (_ & _ & Hr). rewrite Forall_forall in Hr.
      apply Hr. by eapply list_elem_of_lookup_2. }
    assert (Hstep : fat_step [] w w2).
    { apply (fat_step_trans [] [] w (set_sector_buffer buf w));
        [by apply fat_step_buffer|].
      apply (fat_step_write_sector _ _ sec buf);
        [by apply volume_ok_buffer | | done].
      left. by apply (cluster_sector_in_data w Hlay cluster). }
    pose proof Hstep as (Hok2 & Hvol2 & _).
    pose proof (volume_of_bytes_per_cluster _ _ Hvol2) as Hbpc2.
    pose proof (file_chain_fat_step _ _ _ _ Hstep Hc) as Hc2.
    apply write_sector_inv in Hwrite.
    assert (Hw2 : w2 = sector_written w cluster pos buf)
      by (rewrite Hwrite; reflexivity).
    clear Hwrite. subst w2.
    set (w2 := sector_written w cluster pos buf) in *.
    set (bis := (pos mod bytes_per_cluster w) mod 512) in *.
    set (data := take (Z.to_nat btw) (drop (Z.to_nat total) src)) in *.
    assert (Hbis : 0 <= bis < 512) by (apply Z.mod_pos_bound; lia).
    assert (Hroom : bis + btw <= 512).
    { subst btw. fold bis. destruct (Z.ltb_spec (size - total) (512 - bis));
        lia. }
    assert (Hs1' : file_sector w final pos = Some s1).
    { unfold file_sector. rewrite Hcl. exact Hs1. }
    assert (Hlen1 : length s1 = 512%nat) by (by apply (H512 pos)).
    assert (Hdatalen : Z.of_nat (length data) = btw).
    { subst data. unfold strlen in Hsrc.
      rewrite length_take, length_drop. lia. }
    assert (Hlenbuf : length buf = 512%nat).
    { subst buf. by rewrite length_store_bytes. }
    assert (Hnth : forall k, 0 <= k < btw ->
              nth (Z.to_nat k) data 0 = nth (Z.to_nat (total + k)) src 0).
    { intros k Hk. subst data. rewrite !nth_lookup.
      rewrite lookup_take_lt by lia. rewrite lookup_drop.
      do 2 f_equal. lia. }
    assert (Hsame : forall q, 0 <= q ->
              q / bytes_per_cluster w = pos / bytes_per_cluster w ->
              (q mod bytes_per_cluster w) / 512
              = (pos mod bytes_per_cluster w) / 512 ->
              file_sector w2 final q = Some buf
              /\ file_sector w final q = Some s1
              /\ (q mod bytes_per_cluster w) mod 512 = bis + (q - pos)).
    { intros q Hq Hqc Hqs.
      split; [by apply (file_sector_written_same w final cluster pos buf)|].
      split.
      - unfold file_sector, FAT32_SECTOR_SIZE, SD_BLOCK_SIZE.
        rewrite Hqc, Hcl, Hqs. exact Hs1.
      - pose proof (sector_offsets (bytes_per_cluster w) pos q Hbpos
                      (eq_sym Hqc) (eq_sym Hqs)). subst bis. lia. }
    assert (F1 : forall q, pos <= q < pos + btw ->
              file_sector w2 final q = Some buf
              /\ file_byte w2 final q
                 = Z.land (nth (Z.to_nat (total + (q - pos))) src 0) 255).
    { intros q Hq.
      destruct (same_sector (sectors_per_cluster (boot_sector w)) pos
                  (q - pos) Hspc Hpos ltac:(lia)) as (Hqc & Hqs & Hqb).
      { rewrite <- Hbpc. fold bis. lia. }
      rewrite <- Hbpc in Hqc, Hqs, Hqb.
      replace (pos + (q - pos)) with q in Hqc, Hqs, Hqb by lia.
      destruct (Hsame q ltac:(lia) Hqc Hqs) as (Hw2 & _ & Hoff).
      split; [done|].
      unfold file_byte. rewrite Hbpc2, Hw2. cbn [default from_option id].
      unfold FAT32_SECTOR_SIZE, SD_BLOCK_SIZE. rewrite Hoff.
      subst buf. unfold FAT32_SECTOR_SIZE, SD_BLOCK_SIZE. fold bis.
      rewrite byte_at_store_bytes by lia.
      destruct (Z.leb_spec bis (bis + (q - pos))); [|lia].
      destruct (Z.ltb_spec (bis + (q - pos)) (bis + Z.of_nat (length data)));
        [|lia].
      cbn [andb]. replace (bis + (q - pos) - bis) with (q - pos) by lia.
      rewrite Hnth by lia. reflexivity. }
    assert (F2 : forall q, 0 <= q -> ~ (pos <= q < pos + btw) ->
              (is_Some (file_sector w final q) ->
               is_Some (file_sector w2 final q))
              /\ file_byte w2 final q = file_byte w final q).
    { intros q Hq Hout.
      destruct (Z.eq_dec (q / bytes_per_cluster w)
                         (pos / bytes_per_cluster w)) as [Hqc|Hqc];
        [destruct (Z.eq_dec ((q mod bytes_per_cluster w) / 512)
                            ((pos mod bytes_per_cluster w) / 512))
           as [Hqs|Hqs]|].
      - destruct (Hsame q Hq Hqc Hqs) as (Hw2 & Hw & Hoff).
        split; [intros _; by rewrite Hw2|].
        unfold file_byte. rewrite Hbpc2, Hw2, Hw. cbn [default from_option id].
        unfold FAT32_SECTOR_SIZE, SD_BLOCK_SIZE. rewrite Hoff.
        assert (Hiq : 0 <= bis + (q - pos)).
        { rewrite <- Hoff. apply Z.mod_pos_bound. lia. }
        subst buf. unfold FAT32_SECTOR_SIZE, SD_BLOCK_SIZE. fold bis.
        rewrite byte_at_store_bytes by lia.
        destruct (Z.leb_spec bis (bis + (q - pos)));
          destruct (Z.ltb_spec (bis + (q - pos))
                               (bis + Z.of_nat (length data)));
          cbn [andb]; try reflexivity. lia.
      - unfold file_byte. rewrite Hbpc2.
        rewrite <- (file_sector_written_other w start final cluster pos buf
                      Hok Hc Hpos Hcl q Hq) by tauto.
        split; done.
      - unfold file_byte. rewrite Hbpc2.
        rewrite <- (file_sector_written_other w start final cluster pos buf
                      Hok Hc Hpos Hcl q Hq) by tauto.
        split; done. }
    assert (F3 : forall q s, 0 <= q -> file_sector w2 final q = Some s ->
                             length s = 512%nat).
    { intros q s Hq Hs.
      destruct (Z.eq_dec (q / bytes_per_cluster w)
                         (pos / bytes_per_cluster w)) as [Hqc|Hqc];
        [destruct (Z.eq_dec ((q mod bytes_per_cluster w) / 512)
                            ((pos mod bytes_per_cluster w) / 512))
           as [Hqs|Hqs]|].
      - destruct (Hsame q Hq Hqc Hqs) as (Hw2 & _).
        rewrite Hw2 in Hs. by injection Hs as <-.
      - unfold w2 in Hs.
        rewrite (file_sector_written_other w start final cluster pos buf
                   Hok Hc Hpos Hcl q Hq) in Hs by tauto.
        by apply (H512 q).
      - unfold w2 in Hs.
        rewrite (file_sector_written_other w start final cluster pos buf
                   Hok Hc Hpos Hcl q Hq) in Hs by tauto.
        by apply (H512 q). }
    assert (F4 : forall b,
              (forall c j, c ∈ final ->
                           0 <= j < sectors_per_cluster (boot_sector w) ->
                           b <> data_block w c j) ->
              sd_blocks (card w2) !! b = sd_blocks (card w) !! b).
    { intros b Hb. subst w2. unfold sector_written. world_simpl.
      apply lookup_insert_ne. apply not_eq_sym. apply Hb; [|done].
      by eapply list_elem_of_lookup_2. }
    rewrite (u32_small (pos + btw)) in Hrun by lia.
    destruct (advance_in_cluster (bytes_per_cluster w) pos btw
                Hbpos Hpos ltac:(lia) Hin) as [Hfull Hpart].
    assert (Hdone : forall (g : fat32_file_t) (s3 : sector) (c : Z),
               (total + btw < size ->
                final !! Z.to_nat ((pos + btw) / bytes_per_cluster w)
                = Some c) ->
               fat32_write_loop n src size (total + btw) (pos + btw) c
                                (g, set_sector_buffer s3 w2) = Ret r (f', w') ->
               (forall q, pos <= q < pos + (size - total) ->
                  is_Some (file_sector w' final q)
                  /\ file_byte w' final q
                     = Z.land (nth (Z.to_nat (total + (q - pos))) src 0) 255)
               /\ (forall q, 0 <= q -> ~ (pos <= q < pos + (size - total)) ->
                     (is_Some (file_sector w final q) ->
                      is_Some (file_sector w' final q))
                     /\ file_byte w' final q = file_byte w final q)
               /\ (forall q s, 0 <= q -> file_sector w' final q = Some s ->
                               length s = 512%nat)
               /\ (forall b,
                     (forall c j, c ∈ final ->
                        0 <= j < sectors_per_cluster (boot_sector w) ->
                        b <> data_block w c j) ->
                     sd_blocks (card w') !! b = sd_blocks (card w) !! b)).
    { intros g s3 c Hc3 Hloop.
      apply (IH _ _ _ _ _ start final) in Hloop as (A & C & F & G);
        [ | by apply volume_ok_buffer | by apply file_chain_buffer
          | done | lia | lia
          | change (bytes_per_cluster (set_sector_buffer s3 w2))
              with (bytes_per_cluster w); lia
          | lia
          | exact Hc3
          | exact F3 ].
      split; [|split; [|split]].
      - intros q Hq. destruct (Z.lt_ge_cases q (pos + btw)) as [Hlo|Hhi].
        + destruct (C q ltac:(lia) ltac:(lia)) as [Cp Cb].
          destruct (F1 q ltac:(lia)) as [F1s F1b].
          split; [apply Cp; change (is_Some (file_sector w2 final q));
                  by rewrite F1s|].
          rewrite Cb. exact F1b.
        + destruct (A q ltac:(lia)) as [Ap Ab]. split; [done|].
          rewrite Ab. do 3 f_equal. lia.
      - intros q Hq Hout.
        destruct (C q Hq ltac:(lia)) as [Cp Cb].
        destruct (F2 q Hq ltac:(lia)) as [Fp Fb].
        split; [intros Hs; apply Cp; by apply Fp|].
        rewrite Cb. exact Fb.
      - exact F.
      - intros b Hb. rewrite G; [by apply F4|]. exact Hb. }
    destruct (Z.eqb_spec ((pos + btw) mod bytes_per_cluster w) 0)
      as [Hz|Hnz];
      destruct (Z.ltb_spec (total + btw) size) as [Hmore|Hend];
      cbn [andb] in Hrun.
    + cbv beta in Hrun. cbn [fst snd] in Hrun. unfold try in Hrun.
      destruct (read_cluster_fat_entry cluster w2) as [next w3| |] eqn:Hread;
        try discriminate.
      apply read_cluster_fat_entry_inv in Hread as (Hnext & s3 & ->).
      destruct (Z.ltb_spec next FAT32_FAT_ENTRY_EOC); [|discriminate].
      cbv [modify_file] in Hrun. cbn [fst snd] in Hrun.
      apply Hdone in Hrun; [done|].
      intros _.
      assert (Hfull' : pos mod bytes_per_cluster w + btw
                       = bytes_per_cluster w).
      { destruct (Z.lt_ge_cases (pos mod bytes_per_cluster w + btw)
                                (bytes_per_cluster w)) as [Hl|Hg]; [|lia].
        destruct (Hpart Hl) as [Hm _].
        pose proof (Z.mod_pos_bound pos (bytes_per_cluster w) Hbpos). lia. }
      destruct (Hfull Hfull') as [_ Hdiv]. rewrite Hdiv.
      assert (Hq : 0 <= pos / bytes_per_cluster w)
        by (apply Z.div_pos; lia).
      assert (Hlen : (pos + btw) / bytes_per_cluster w
                     < Z.of_nat (length final)).
      { apply Z.div_lt_upper_bound; [lia|]. nia. }
      rewrite Hdiv in Hlen.
      replace (Z.to_nat (pos / bytes_per_cluster w + 1))
        with (S (Z.to_nat (pos / bytes_per_cluster w))) by lia.
      destruct (lookup_lt_is_Some_2 final
                  (S (Z.to_nat (pos / bytes_per_cluster w))))
        as [c' Hc']; [lia|].
      destruct Hc2 as ((_ & Hl2 & _) & _).
      destruct (linked_step w2 final _ cluster c' Hl2 Hcl Hc') as [Hfat _].
      rewrite Hfat in Hnext. by injection Hnext as <-.
    + apply (Hdone f buf cluster); [lia|]. exact Hrun.
    + apply (Hdone f buf cluster); [|exact Hrun].
      intros _.
      destruct (Z.lt_ge_cases (pos mod bytes_per_cluster w + btw)
                              (bytes_per_cluster w)) as [Hl|Hg].
      * destruct (Hpart Hl) as [_ ->]. done.
      * destruct (Hfull ltac:(lia)) as [Hm _]. lia.
    + apply (Hdone f buf cluster); [lia|]. exact Hrun.
Qed.

(** ** [fat32_write] and the bytes of the file *)

Lemma file_sector_same (w w' : world) (cs : list Z) (q : Z) :
  volume_of w' = volume_of w ->
  bytes_per_cluster w = sectors_per_cluster (boot_sector w) * 512 ->
  0 < sectors_per_cluster (boot_sector w) ->
  0 <= q ->
  (forall c j, c ∈ cs -> 0 <= j < sectors_per_cluster (boot_sector w) ->
               sd_blocks (card w') !! data_block w c j
               = sd_blocks (card w) !! data_block w c j) ->
  file_sector w' cs q = file_sector w cs q.
Proof.
  intros Hvol Hbpc Hspc Hq Hsame. unfold file_sector.
  rewrite (volume_of_bytes_per_cluster _ _ Hvol).
  destruct (cs !! Z.to_nat (q / bytes_per_cluster w)) as [c|] eqn:Hc; [|done].
  rewrite (volume_of_data_block w w' _ _ Hvol).
  apply Hsame; [by eapply list_elem_of_lookup_2|].
  destruct (sector_of_position _ q Hspc Hq) as (Hs & _).
  by rewrite <- Hbpc in Hs.
Qed.

Lemma file_byte_same (w w' : world) (cs : list Z) (q : Z) :
  volume_of w' = volume_of w ->
  file_sector w' cs q = file_sector w cs q ->
  file_byte w' cs q = file_byte w cs q.
Proof.
  intros Hvol Hs. unfold file_byte.
  by rewrite Hs, (volume_of_bytes_per_cluster _ _ Hvol).
Qed.

(** The sectors of the clusters a file had, under steps that keep the
    data region and extend the chain. *)
Lemma file_sector_prefix (w w' : world) (cs fin : list Z) (q : Z) :
  volume_of w' = volume_of w ->
  bytes_per_cluster w = sectors_per_cluster (boot_sector w) * 512 ->
  0 < sectors_per_cluster (boot_sector w) ->
  cs `prefix_of` fin -> Forall (in_range w) cs -> data_kept w w' ->
  0 <= q < Z.of_nat (length cs) * bytes_per_cluster w ->
  file_sector w' fin q = file_sector w cs q.
Proof.
  intros Hvol Hbpc Hspc [ext ->] Hr Hdata Hq. unfold file_sector.
  rewrite (volume_of_bytes_per_cluster _ _ Hvol).
  assert (Hidx : (Z.to_nat (q / bytes_per_cluster w) < length cs)%nat).
  { assert (0 <= q / bytes_per_cluster w) by (apply Z.div_pos; lia).
    assert (q / bytes_per_cluster w < Z.of_nat (length cs))
      by (apply Z.div_lt_upper_bound; lia).
    lia. }
  rewrite lookup_app_l by done.
  destruct (lookup_lt_is_Some_2 cs _ Hidx) as [c Hc]. rewrite Hc.
  rewrite (volume_of_data_block w w' _ _ Hvol).
  apply Hdata.
  - rewrite Forall_forall in Hr. apply Hr. by eapply list_elem_of_lookup_2.
  - destruct (sector_of_position _ q Hspc ltac:(lia)) as (Hs & _).
    by rewrite <- Hbpc in Hs.
Qed.

(** The update of the size in the directory record rewrites the sector of
    the record and nothing else. *)
Lemma fat32_write_update_entry_blocks (f f' : fat32_file_t) (w w' : world) :
  fat32_write_update_entry (f, w) = Ret tt (f', w') ->
  forall b, b <> u32 (volume_start_block w + dir_entry_sector f) ->
            sd_blocks (card w') !! b = sd_blocks (card w) !! b.
Proof.
  unfold fat32_write_update_entry.
  cbv [bind get_file]. cbn [fst snd].
  destruct (_ && _).
  - cbv [liftw get_world modify]. cbn [fst snd].
    destruct (read_sector (dir_entry_sector f) w) as [[] w1| |] eqn:Hread;
      try discriminate.
    apply read_sector_inv in Hread as (s1 & _ & ->).
    cbn [fst snd sector_buffer set_sector_buffer].
    match goal with
    | |- context [write_sector _ ?b ?x] =>
        change x with (set_sector_buffer b w)
    end.
    destruct (write_sector _ _ _) as [[] w2| |] eqn:Hwrite; try discriminate.
    apply write_sector_inv in Hwrite as ->.
    intros [= <- <-] b Hb. cbn. by rewrite lookup_insert_ne.
  - by intros [= <- <-].
Qed.

(** A successful write: the file as [fat32_write_inv] describes it, and
    its bytes.  The directory record lies in a cluster [d] that is in use
    and is none of the file's. *)
Lemma fat32_write_data (fuel : nat) (src : list Z) (f f' : fat32_file_t)
    (w w' : world) (cs : list Z) (n : Z) (d jd : Z) :
  volume_ok w -> file_ok w f cs ->
  Z.of_nat (length cs) = clusters_for w (file_size f) ->
  src <> [] -> 0 <= position f ->
  position f + strlen src + bytes_per_cluster w <= 2 ^ 32 ->
  (forall c j s, in_range w c ->
                 0 <= j < sectors_per_cluster (boot_sector w) ->
                 sd_blocks (card w) !! data_block w c j = Some s ->
                 length s = 512%nat) ->
  used_elsewhere w cs d ->
  0 <= jd < sectors_per_cluster (boot_sector w) ->
  u32 (volume_start_block w + dir_entry_sector f) = data_block w d jd ->
  fat32_write fuel (Some src) (f, w) = Ret n (f', w') ->
  exists cs',
    file_ok w' f' cs'
    /\ Z.of_nat (length cs') = clusters_for w' (file_size f')
    /\ volume_ok w' /\ volume_of w' = volume_of w
    /\ n = strlen src
    /\ position f' = position f + strlen src
    /\ file_size f' = Z.max (file_size f) (position f + strlen src)
    /\ start_cluster f' = start_cluster f
    /\ cs `prefix_of` cs'
    /\ (forall q, position f <= q < position f + strlen src ->
          is_Some (file_sector w' cs' q)
          /\ file_byte w' cs' q
             = Z.land (nth (Z.to_nat (q - position f)) src 0) 255)
    /\ (forall q, 0 <= q < Z.of_nat (length cs) * bytes_per_cluster w ->
          ~ (position f <= q < position f + strlen src) ->
          file_byte w' cs' q = file_byte w cs q).
Proof.
  intros Hok (Hopen & Hattr & Hsize0 & Hsizefit & Hdes & Hchain) Hlen Hsrc
         Hpos Hfit H512 Hused Hjd Hdir Hrun.
  pose proof Hok as (Hready & Hlay & _).
  pose proof Hlay as (Hspc & Hbpc & _).
  assert (Hb : 0 < bytes_per_cluster w) by lia.
  assert (Hlensrc : 0 < strlen src).
  { unfold strlen. destruct src; [done | cbn; lia]. }
  unfold fat32_write in Hrun.
  apply bind_inv in Hrun as (f0 & s0 & Hget & Hrun).
  injection Hget as <- <-. rewrite Hopen, Hattr in Hrun.
  cbn [negb Z.eqb] in Hrun.
  apply bind_inv in Hrun as ([] & [f1 w1] & Hrdy & Hrun).
  apply liftw_inv in Hrdy as [Hf Hrdy]. cbn [fst snd] in Hf, Hrdy.
  rewrite require_ready_ready in Hrdy by done.
  injection Hrdy as <-. subst f1.
  apply bind_inv in Hrun as (w0 & s0 & Hget & Hrun).
  injection Hget as <- <-.
  (* the walk to the cluster of the position *)
  apply bind_inv in Hrun as (cluster & [f1 w1] & Hwalk & Hrun).
  apply liftw_inv in Hwalk as [Hf Hwalk]. cbn [fst snd] in Hf, Hwalk.
  subst f1.
  destruct cs as [|c0 rest]; [by destruct Hchain as ((? & _) & _)|].
  assert (c0 = start_cluster f) as ->.
  { destruct Hchain as ((Hh & _) & _). by injection Hh. }
  apply (fat32_write_walk_frame _ _ _ (start_cluster f) _ _ [] rest) in Hwalk
    as (extra & Hc1 & Hq & Hshort & Hlong & Hok1 & Hvol1 & Hdata1 & Hused1);
    [|done|done].
  cbn [app] in Hc1. specialize (Hused1 d Hused). cbn [app] in Hused1.
  apply bind_inv in Hrun as ([] & [f1 w1'] & Hm & Hrun).
  injection Hm as <- <-.
  rewrite current_clusters_for in Hrun by lia.
  rewrite <- Hlen in Hrun.
  rewrite (u32_small (position f + strlen src)) in Hrun by lia.
  rewrite (u32_small (position f + strlen src + bytes_per_cluster w - 1))
    in Hrun by lia.
  destruct (needed_clusters_range (bytes_per_cluster w) (position f)
              (strlen src) Hb Hpos Hlensrc) as [Hneed1 Hneed2].
  pose proof (clusters_for_after_write w (file_size f) (position f)
                (strlen src) Hb Hsize0 Hpos Hlensrc) as Hafter.
  cbv zeta in Hafter. rewrite <- Hlen in Hafter.
  set (needed := (position f + strlen src + bytes_per_cluster w - 1)
                 / bytes_per_cluster w) in *.
  set (q := position f / bytes_per_cluster w) in *.
  assert (Hq0 : 0 <= q) by (apply Z.div_pos; lia).
  destruct (Z.ltb_spec 0 (Z.of_nat (length (start_cluster f :: rest))))
    as [Hcur|Hbad]; [|cbn in Hbad; lia].
  (* the last cluster of the chain the file had *)
  apply bind_inv in Hrun as (lastc & [f1 w2] & Hfind & Hrun).
  apply liftw_inv in Hfind as [Hf Hfind]. cbn [fst snd] in Hf, Hfind.
  subst f1. unfold find_last_cluster in Hfind.
  destruct (exists_last (l := start_cluster f :: rest) ltac:(done))
    as (pre0 & lastc0 & Hcs).
  assert (Hlen0 : length (start_cluster f :: rest) = S (length pre0)).
  { rewrite Hcs, length_app. cbn. lia. }
  replace (Z.to_nat (Z.of_nat (length (start_cluster f :: rest)) - 1))
    with (length pre0) in Hfind by lia.
  change (start_cluster f :: rest ++ extra)
    with ((start_cluster f :: rest) ++ extra) in Hc1, Hq, Hlong, Hused1.
  destruct (find_last_cluster_loop_linked w1
              ((start_cluster f :: rest) ++ extra) (length pre0)
              (start_cluster f) lastc0) as [s2 Hfind'].
  { by destruct Hc1 as ((_ & ? & _) & _). }
  { done. }
  { rewrite Hcs, <- app_assoc. by apply (list_lookup_middle pre0 extra). }
  rewrite Hfind' in Hfind. injection Hfind as <- <-.
  (* the allocation loop *)
  apply bind_inv in Hrun as ([] & [f2 w3] & Halloc & Hrun).
  assert (Hg2 : growing (set_sector_buffer s2 w1) (start_cluster f)
                        (pre0 ++ [lastc0])).
  { apply (growing_fat_step w1); [by apply fat_step_buffer|].
    apply (growing_prefix _ _ _ extra); [by destruct pre0|].
    rewrite <- Hcs. by apply file_chain_growing. }
  assert (Hused2 : used_elsewhere (set_sector_buffer s2 w1)
                                  (start_cluster f :: rest) d).
  { destruct Hused1 as (Hd1 & Hd2 & Hd3). split; [done|]. split; [|done].
    intros Hin. apply Hd2. apply elem_of_app. by left. }
  destruct (fat32_write_allocate_frame _ _ _ _ (start_cluster f) pre0 _ _ _ _
              Hcur (volume_ok_buffer w1 s2 Hok1) Hg2 Halloc)
    as (Hdata3 & Hzero & ms & Hlenms & Hchain3 & Hused3).
  rewrite <- Hcs in Hchain3, Hused3. specialize (Hused3 d Hused2).
  apply (fat32_write_allocate_inv _ _ _ _ (start_cluster f) pre0) in Halloc
    as (-> & Hok3 & Hvol3 & _);
    [|done | by apply volume_ok_buffer | done].
  assert (Hfin : exists fin,
             file_chain w3 (start_cluster f) fin
             /\ (start_cluster f :: rest) `prefix_of` fin
             /\ Z.of_nat (length fin)
                = Z.max (Z.of_nat (length (start_cluster f :: rest))) needed
             /\ used_elsewhere w3 fin d).
  { destruct (Z.to_nat (needed - Z.of_nat (length (start_cluster f :: rest))))
      as [|k] eqn:Hk.
    - rewrite (Hzero eq_refl) in *. exists (start_cluster f :: rest).
      rewrite Hshort in Hc1 by lia. rewrite app_nil_r in Hc1.
      split; [by apply file_chain_buffer|]. split; [done|].
      split; [lia | exact Hused2].
    - exists ((start_cluster f :: rest) ++ ms).
      split; [by apply Hchain3|]. split; [by apply prefix_app_r|].
      split; [rewrite length_app; lia | exact Hused3]. }
  destruct Hfin as (fin & Hc3 & Hprefix & Hlenfin & Husedfin).
  assert (Hbpc3 : bytes_per_cluster w3 = bytes_per_cluster w).
  { apply volume_of_bytes_per_cluster. by rewrite Hvol3. }
  assert (Hvol3' : volume_of w3 = volume_of w) by (by rewrite Hvol3).
  assert (Hdata03 : data_kept w w3).
  { apply (data_kept_trans w w1); [done | done|]. exact Hdata3. }
  (* the cluster of the position, and the copy *)
  apply bind_inv in Hrun as (f0 & s0 & Hget & Hrun).
  injection Hget as <- <-. cbn [fst] in Hrun.
  apply bind_inv in Hrun as (cq & [f1 w4] & Hseek & Hrun).
  apply liftw_inv in Hseek as [Hf Hseek]. cbn [fst snd] in Hf, Hseek.
  subst f1. unfold seek_to_cluster in Hseek. world_simpl.
  destruct (lookup_lt_is_Some_2 fin (Z.to_nat q)) as [cq' Hcq]; [lia|].
  destruct (seek_to_cluster_loop_linked w3 fin (Z.to_nat q)
              (start_cluster f) cq') as [s4 Hseek'].
  { by destruct Hc3 as ((_ & ? & _) & _). }
  { destruct Hc3 as ((Hh & _) & _). by destruct fin. }
  { done. }
  rewrite Hseek' in Hseek. injection Hseek as <- <-.
  apply bind_inv in Hrun as ([] & s0 & Hm & Hrun).
  injection Hm as <-. cbn [fst snd] in Hrun.
  apply bind_inv in Hrun as (r & [f5 w5] & Hloop & Hrun).
  assert (Hfinr : Forall (in_range w) fin).
  { destruct Hc3 as (_ & _ & Hr). eapply Forall_impl; [exact Hr|].
    intros x Hx. by apply (volume_of_in_range w w3). }
  assert (H512' : forall q0 s, 0 <= q0 ->
            file_sector (set_sector_buffer s4 w3) fin q0 = Some s ->
            length s = 512%nat).
  { intros q0 s Hq0' Hs. unfold file_sector in Hs. world_simpl.
    rewrite Hbpc3 in Hs.
    destruct (fin !! Z.to_nat (q0 / bytes_per_cluster w)) as [c|] eqn:Hc;
      [|done].
    change (data_block (set_sector_buffer s4 w3) ?c ?j)
      with (data_block w3 c j) in Hs.
    rewrite (volume_of_data_block w w3 _ _ Hvol3') in Hs.
    assert (Hcr : in_range w c).
    { rewrite Forall_forall in Hfinr. apply Hfinr.
      by eapply list_elem_of_lookup_2. }
    destruct (sector_of_position _ q0 Hspc Hq0') as (Hsq & _).
    rewrite <- Hbpc in Hsq.
    unfold FAT32_SECTOR_SIZE, SD_BLOCK_SIZE in Hs.
    rewrite (Hdata03 c _ Hcr Hsq) in Hs. by apply (H512 c _ s Hcr Hsq). }
  pose proof Hloop as Hloop'.
  apply (fat32_write_loop_data _ _ _ _ _ _ (start_cluster f) fin) in Hloop'
    as (A5 & C5 & _ & G5);
    [| by apply volume_ok_buffer | by apply file_chain_buffer
     | lia | lia | done | world_simpl; nia | lia
     | intros _; world_simpl; rewrite Hbpc3; exact Hcq
     | exact H512'].
  apply (fat32_write_loop_inv _ _ _ _ _ _ (start_cluster f) fin) in Hloop
    as (-> & Hstep5 & Hsame);
    [| by apply volume_ok_buffer | by apply file_chain_buffer
     | lia | done | world_simpl; nia | lia
     | intros _; world_simpl; rewrite Hbpc3; exact Hcq].
  cbn [fst snd] in Hrun.
  apply bind_inv in Hrun as ([] & s0 & Hm & Hrun).
  injection Hm as <-. cbn [fst snd] in Hrun.
  apply bind_inv in Hrun as ([] & s0 & Hm & Hrun).
  injection Hm as <-. cbn [fst snd] in Hrun.
  destruct Hsame as (Ho5 & Hl5 & Ha5 & Hs5 & Hz5 & Hd5 & Hdo5).
  world_simpl.
  replace (strlen src - 0) with (strlen src) in Hrun, A5, C5 by lia.
  match type of Hrun with
  | bind _ _ (?g0, w5) = _ => set (g := g0) in *
  end.
  assert (Hg : is_open g = true
               /\ Z.land (attributes g) FAT32_ATTR_DIRECTORY = 0
               /\ start_cluster g = start_cluster f
               /\ dir_entry_sector g = dir_entry_sector f
               /\ position g = position f + strlen src
               /\ file_size g
                  = Z.max (file_size f) (position f + strlen src)).
  { subst g.
    destruct (Z.ltb_spec (file_size f5) (position f + strlen src));
      world_simpl; rewrite ?Ho5, ?Ha5; repeat split; try done; lia. }
  destruct Hg as (Hgo & Hga & Hgs & Hgd & Hgp & Hgz).
  clearbody g.
  apply bind_inv in Hrun as ([] & s0 & Htr & Hrun).
  rewrite fat32_write_truncate_grown in Htr by lia. injection Htr as <-.
  apply bind_inv in Hrun as ([] & [f6 w6] & Hup & Hrun).
  injection Hrun as <- <- <-.
  pose proof Hstep5 as (Hok5 & Hvol5 & _).
  pose proof (fat32_write_update_entry_blocks _ _ _ _ Hup) as Hblocks6.
  apply fat32_write_update_entry_inv in Hup as (-> & Hstep6); [|done|].
  2:{ rewrite Hgd, (volume_of_first_data_sector w w5); [done|].
      by rewrite Hvol5. }
  pose proof Hstep6 as (Hok6 & Hvol6 & _).
  assert (Hvol5' : volume_of w5 = volume_of w) by (by rewrite Hvol5).
  assert (Hvol : volume_of w6 = volume_of w) by (by rewrite Hvol6, Hvol5).
  pose proof (volume_of_bytes_per_cluster _ _ Hvol) as Hbpc6.
  (* the sector of the directory record is no sector of the file *)
  assert (Hkeep6 : forall c j, c ∈ fin ->
            0 <= j < sectors_per_cluster (boot_sector w5) ->
            sd_blocks (card w6) !! data_block w5 c j
            = sd_blocks (card w5) !! data_block w5 c j).
  { intros c j Hc Hj. apply Hblocks6.
    rewrite Hgd.
    replace (volume_start_block w5) with (volume_start_block w)
      by (revert Hvol5'; unfold volume_of; by intros [= _ _ _ _ -> _ _ _]).
    rewrite Hdir, (volume_of_data_block w w5 _ _ Hvol5').
    rewrite (volume_of_spc w w5 Hvol5') in Hj.
    intros Heq.
    destruct Husedfin as (Hdr & Hdn & _).
    apply data_block_inj in Heq as [-> _]; try done.
    - rewrite Forall_forall in Hfinr. by apply Hfinr.
    - by apply (volume_of_in_range w w3). }
  assert (Hsec6 : forall q0, 0 <= q0 ->
            file_sector w6 fin q0 = file_sector w5 fin q0).
  { intros q0 Hq0'. apply file_sector_same; try done.
    - revert Hbpc. rewrite <- (volume_of_bytes_per_cluster _ _ Hvol5').
      by rewrite <- (volume_of_spc w w5 Hvol5').
    - by rewrite (volume_of_spc w w5 Hvol5'). }
  exists fin. unfold file_ok, clusters_for.
  rewrite Hbpc6, Hgz, Hgs.
  split; [|split; [by rewrite Hlenfin, <- Hafter|]].
  { split; [done|]. split; [done|]. split; [lia|]. split; [lia|].
    split.
    - rewrite Hgd, (volume_of_first_data_sector w w6); done.
    - apply (file_chain_fat_step w5); [done|].
      apply (file_chain_fat_step (set_sector_buffer s4 w3)); [done|].
      by apply file_chain_buffer. }
  split; [done|]. split; [done|]. split; [done|]. split; [done|].
  split; [done|]. split; [done|]. split; [done|].
  split.
  - intros q0 Hq0'. destruct (A5 q0 Hq0') as [Ap Ab].
    rewrite (Hsec6 q0 ltac:(lia)). split; [done|].
    rewrite (file_byte_same w5 w6 fin q0 Hvol6 (Hsec6 q0 ltac:(lia))).
    rewrite Ab. reflexivity.
  - intros q0 Hq0' Hout.
    rewrite (file_byte_same w5 w6 fin q0 Hvol6 (Hsec6 q0 ltac:(lia))).
    destruct (C5 q0 ltac:(lia) Hout) as [_ ->].
    unfold file_byte.
    change (bytes_per_cluster (set_sector_buffer s4 w3))
      with (bytes_per_cluster w3).
    change (file_sector (set_sector_buffer s4 w3) fin q0)
      with (file_sector w3 fin q0).
    rewrite Hbpc3.
    rewrite (file_sector_prefix w w3 (start_cluster f :: rest) fin q0);
      try done.
    by destruct Hchain as (_ & _ & ?).
Qed.

(** ** Writing and reading back *)

Lemma map_nth_shifted (l : list Z) (p : Z) :
  map (fun q => nth (Z.to_nat (q - p)) l 0) (seqZ p (Z.of_nat (length l)))
  = l.
Proof.
  replace (seqZ p (Z.of_nat (length l)))
    with (map (Z.add p) (seqZ 0 (Z.of_nat (length l))))
    by (rewrite <- (Z.add_0_r p) at 2; apply fmap_add_seqZ).
  rewrite map_map.
  transitivity (map (fun j => nth (Z.to_nat j) l 0)
                    (seqZ 0 (Z.of_nat (length l))));
    [|apply map_nth_seqZ].
  apply map_ext. intros j. do 2 f_equal. lia.
Qed.

Lemma clusters_cover_size (w : world) (cs : list Z) (size : Z) :
  0 < bytes_per_cluster w ->
  Z.of_nat (length cs) = clusters_for w size ->
  size <= Z.of_nat (length cs) * bytes_per_cluster w.
Proof.
  intros Hb ->. unfold clusters_for.
  pose proof (ceil_bounds (bytes_per_cluster w) size Hb). nia.
Qed.

(** X18.  What is written can be read back.  Take a well-formed open
    file on a well-formed volume whose cluster sectors hold 512 bytes
    each, with its directory record in a cluster that is in use and is
    not one of the file's.  After a successful write of the bytes [src]
    at the current position, a seek back to that position succeeds, and
    a read of as many bytes returns exactly [src] and leaves the
    position behind the bytes; the read does not change the card. *)
Theorem write_then_read_gives_the_bytes (fuel : nat) (src : list Z)
    (f f1 : fat32_file_t) (w w1 : world) (cs : list Z) (n d jd : Z) :
  volume_ok w -> file_ok w f cs ->
  Z.of_nat (length cs) = clusters_for w (file_size f) ->
  src <> [] -> Forall (fun b => 0 <= b < 256) src ->
  0 <= position f ->
  position f + strlen src + bytes_per_cluster w <= 2 ^ 32 ->
  (forall c j s, in_range w c ->
                 0 <= j < sectors_per_cluster (boot_sector w) ->
                 sd_blocks (card w) !! data_block w c j = Some s ->
                 length s = 512%nat) ->
  used_elsewhere w cs d ->
  0 <= jd < sectors_per_cluster (boot_sector w) ->
  u32 (volume_start_block w + dir_entry_sector f) = data_block w d jd ->
  fat32_write fuel (Some src) (f, w) = Ret n (f1, w1) ->
  exists f2 f3 w3,
    fat32_seek (position f) (f1, w1) = Ret tt (f2, w1)
    /\ fat32_read true (strlen src) (f2, w1)
       = Ret (strlen src, src) (f3, w3)
    /\ position f3 = position f + strlen src
    /\ card w3 = card w1.
Proof.
  intros Hok Hfile Hlen Hsrc Hbytes Hpos Hfit H512 Hused Hjd Hdir Hwrite.
  destruct (fat32_write_data fuel src f f1 w w1 cs n d jd Hok Hfile Hlen
              Hsrc Hpos Hfit H512 Hused Hjd Hdir Hwrite)
    as (cs' & Hfile1 & Hlen1 & Hok1 & Hvol1 & _ & Hpos1 & Hsize1 & _ & _
        & Hdata & _).
  assert (Hlensrc : 0 < strlen src).
  { unfold strlen. destruct src; [done | cbn; lia]. }
  destruct Hfile1 as (Hopen1 & Hattr1 & Hs0 & Hsfit & Hdes1 & Hchain1).
  exists (set_position (position f) f1).
  assert (Hseek : fat32_seek (position f) (f1, w1)
                  = Ret tt (set_position (position f) f1, w1)).
  { unfold fat32_seek. cbv [bind get_file modify_file]. cbn [fst snd].
    by rewrite Hopen1. }
  pose proof Hok1 as (_ & (Hspc1 & Hbpc1 & _) & _).
  destruct (fat32_read_data (set_position (position f) f1) w1 cs'
              (strlen src) Hok1) as (f3 & w3 & Hread & Hp3 & _ & Hcard).
  - exact (conj Hopen1 (conj Hattr1 (conj Hs0 (conj Hsfit
             (conj Hdes1 Hchain1))))).
  - world_simpl. apply clusters_cover_size; [lia | done].
  - world_simpl. lia.
  - lia.
  - world_simpl. intros q Hq. apply Hdata. lia.
  - exists f3, w3. split; [done|]. world_simpl.
    replace (Z.min (strlen src) (file_size f1 - position f))
      with (strlen src) in Hread, Hp3 by lia.
    split; [|split; [lia | done]].
    rewrite Hread. do 2 f_equal.
    rewrite (map_ext_in _ (fun q => nth (Z.to_nat (q - position f)) src 0)).
    + apply map_nth_shifted.
    + intros q Hq. apply list_elem_of_In, elem_of_seqZ in Hq.
      destruct (Hdata q Hq) as [_ ->].
      assert (Hb : 0 <= nth (Z.to_nat (q - position f)) src 0 < 256).
      { rewrite Forall_forall in Hbytes. apply Hbytes.
        apply list_elem_of_In, nth_In. unfold strlen in Hq. lia. }
      change 255 with (Z.ones 8). rewrite Z.land_ones by lia.
      apply Z.mod_small. lia.
Qed.

(** X19.  A write changes no other byte of the file.  Under the
    conditions of X18, every byte of the clusters the file had that lies
    outside the positions written reads after the write as it read
    before, and the clusters the file had are still the first clusters
    of its chain. *)
Theorem write_keeps_the_other_bytes (fuel : nat) (src : list Z)
    (f f1 : fat32_file_t) (w w1 : world) (cs : list Z) (n d jd : Z) :
  volume_ok w -> file_ok w f cs ->
  Z.of_nat (length cs) = clusters_for w (file_size f) ->
  src <> [] -> 0 <= position f ->
  position f + strlen src + bytes_per_cluster w <= 2 ^ 32 ->
  (forall c j s, in_range w c ->
                 0 <= j < sectors_per_cluster (boot_sector w) ->
                 sd_blocks (card w) !! data_block w c j = Some s ->
                 length s = 512%nat) ->
  used_elsewhere w cs d ->
  0 <= jd < sectors_per_cluster (boot_sector w) ->
  u32 (volume_start_block w + dir_entry_sector f) = data_block w d jd ->
  fat32_write fuel (Some src) (f, w) = Ret n (f1, w1) ->
  exists cs',
    file_ok w1 f1 cs' /\ cs `prefix_of` cs'
    /\ forall q, 0 <= q < Z.of_nat (length cs) * bytes_per_cluster w ->
                 ~ (position f <= q < position f + strlen src) ->
                 file_byte w1 cs' q = file_byte w cs q.
Proof.
  intros Hok Hfile Hlen Hsrc Hpos Hfit H512 Hused Hjd Hdir Hwrite.
  destruct (fat32_write_data fuel src f f1 w w1 cs n d jd Hok Hfile Hlen
              Hsrc Hpos Hfit H512 Hused Hjd Hdir Hwrite)
    as (cs' & Hfile1 & _ & _ & _ & _ & _ & _ & _ & Hpre & _ & Hkeep).
  exists cs'. split; [done|]. split; [done|]. exact Hkeep.
Qed.

Lemma demo_rewound_sectors (c j : Z) (s : sector) :
  in_range demo_rewound.2 c ->
  0 <= j < sectors_per_cluster (boot_sector demo_rewound.2) ->
  sd_blocks (card demo_rewound.2) !! data_block demo_rewound.2 c j = Some s ->
  length s = 512%nat.
Proof.
  intros _ _ Hs.
  assert (H : bool_decide
                (map_Forall (fun (_ : Z) (s : sector) => length s = 512%nat)
                            (sd_blocks (card demo_rewound.2))))
    by (vm_compute; exact I).
  exact (bool_decide_unpack _ H _ _ Hs).
Qed.

Lemma demo_rewound_directory : used_elsewhere demo_rewound.2 [3; 4] 2.
Proof.
  split; [split; vm_compute; first [reflexivity | discriminate]|].
  split.
  - intros H. apply elem_of_two in H as [H|H]; discriminate.
  - exists 0x0FFFFFFF. split; [vm_compute; reflexivity|].
    discriminate.
Qed.

Lemma demo_sentence_bytes : Forall (fun b => 0 <= b < 256) demo_sentence.
Proof.
  apply Forall_forall. intros b Hb.
  assert (H : forallb (fun b => (0 <=? b) && (b <? 256)) demo_sentence
              = true) by (vm_compute; reflexivity).
  rewrite forallb_forall in H. apply list_elem_of_In in Hb.
  specialize (H b Hb). lia.
Qed.

(** A sentence written at byte 1000 of the file of 1500 bytes on the demo
    volume, across the end of its first cluster, and read back. *)
Lemma write_then_read_gives_the_bytes_witness :
  exists f2 f3 w3,
    fat32_seek (position demo_rewound.1) (demo_patched.1, demo_patched.2)
    = Ret tt (f2, demo_patched.2)
    /\ fat32_read true (strlen demo_sentence) (f2, demo_patched.2)
       = Ret (strlen demo_sentence, demo_sentence) (f3, w3)
    /\ position f3 = position demo_rewound.1 + strlen demo_sentence
    /\ card w3 = card demo_patched.2.
Proof.
  apply (write_then_read_gives_the_bytes 100 demo_sentence demo_rewound.1
           demo_patched.1 demo_rewound.2 demo_patched.2 [3; 4] 43 2 0).
  - exact demo_rewound_volume_ok.
  - exact demo_rewound_file_ok.
  - vm_compute. reflexivity.
  - vm_compute. discriminate.
  - exact demo_sentence_bytes.
  - vm_compute. discriminate.
  - vm_compute. discriminate.
  - exact demo_rewound_sectors.
  - exact demo_rewound_directory.
  - split; vm_compute; [discriminate | reflexivity].
  - vm_compute. reflexivity.
  - vm_compute. reflexivity.
Defined.

Lemma write_keeps_the_other_bytes_witness :
  exists cs',
    file_ok demo_patched.2 demo_patched.1 cs' /\ [3; 4] `prefix_of` cs'
    /\ forall q,
         0 <= q < Z.of_nat (length [3; 4])
                  * bytes_per_cluster demo_rewound.2 ->
         ~ (position demo_rewound.1 <= q
            < position demo_rewound.1 + strlen demo_sentence) ->
         file_byte demo_patched.2 cs' q = file_byte demo_rewound.2 [3; 4] q.
Proof.
  apply (write_keeps_the_other_bytes 100 demo_sentence demo_rewound.1
           demo_patched.1 demo_rewound.2 demo_patched.2 [3; 4] 43 2 0).
  - exact demo_rewound_volume_ok.
  - exact demo_rewound_file_ok.
  - vm_compute. reflexivity.
  - vm_compute. discriminate.
  - vm_compute. discriminate.
  - vm_compute. discriminate.
  - exact demo_rewound_sectors.
  - exact demo_rewound_directory.
  - split; vm_compute; [discriminate | reflexivity].
  - vm_compute. reflexivity.
  - vm_compute. reflexivity.
Defined.

(** ** Creating what exists *)

(** X20.  [fat32_create] never replaces an entry.  On a ready volume,
    when the lookup of [path] finds an entry, the call fails with
    [FAT32_ERROR_FILE_EXISTS]; by then the caller's handle has been
    zeroed, and the card is exactly as it was: only the driver's sector
    buffer shows the lookup. *)
Theorem create_refuses_existing_name (fuel : nat) (path : list Z)
    (f : fat32_file_t) (w w1 : world) (e : fat32_entry_t) :
  ready w ->
  find_entry fuel path w = Ret e w1 ->
  fat32_create fuel path (f, w)
  = Fail FAT32_ERROR_FILE_EXISTS (zero_file, w1)
  /\ card w1 = card w.
Proof.
  intros Hready Hfind. split.
  - unfold fat32_create, new_entry, link_entry.
    cbv [bind liftw modify_file try]. cbn [fst snd].
    by rewrite (require_ready_ready w Hready), Hfind.
  - apply (card_kept_find_entry fuel path w w1). by rewrite Hfind.
Qed.

Lemma create_refuses_existing_name_witness :
  fat32_create 100 (str "a.txt") (demo_created.1, demo_created.2)
  = Fail FAT32_ERROR_FILE_EXISTS (zero_file, demo_found)
  /\ card demo_found = card demo_created.2.
Proof.
  apply (create_refuses_existing_name 100 (str "a.txt") demo_created.1
           demo_created.2 demo_found demo_entry).
  - repeat apply conj; vm_compute; reflexivity.
  - vm_compute. reflexivity.
Defined.

(** ** The status of the volume *)

(** However the search for the volume ends, it leaves the mounted flag
    alone. *)
Lemma scan_partitions_mounted (entries : list Z) (w w' : world) :
  final (scan_partitions entries w) = Some w' ->
  fat32_mounted w' = fat32_mounted w.
Proof.
  revert w. induction entries as [|i rest IH]; intros w;
    cbn [scan_partitions].
  - by intros [= <-].
  - cbv [bind get].
    destruct (negb _ && negb _); [apply IH|].
    destruct (_ || _); [|apply IH].
    cbv [modify sd_read_into_buffer bind sd_read_block]. world_simpl.
    destruct (sd_blocks _ !! _); by intros [= <-].
Qed.

Lemma fat32_mount_find_volume_mounted (w w' : world) :
  final (fat32_mount_find_volume w) = Some w' ->
  fat32_mounted w' = fat32_mounted w.
Proof.
  unfold fat32_mount_find_volume, sd_read_into_buffer.
  cbv [bind get ret modify fail sd_read_block].
  destruct (sd_blocks (card w) !! 0) as [s0|]; [|by intros [= <-]].
  world_simpl.
  destruct (is_sector_mbr s0).
  - pose proof (scan_partitions_mounted [0; 1; 2; 3]
                  (set_volume_start_block 0 (set_sector_buffer s0 w)))
      as Hscan.
    destruct (scan_partitions [0; 1; 2; 3] _) as [[] w2|e2 w2|];
      [| |discriminate].
    + specialize (Hscan w2 eq_refl).
      destruct (volume_start_block w2 =? 0); by intros [= <-].
    + specialize (Hscan w2 eq_refl). by intros [= <-].
  - destruct (is_sector_boot_sector s0); by intros [= <-].
Qed.

(** A mount that fails leaves the volume unmounted. *)
Lemma fat32_mount_failure (w w' : world) (e : fat32_error_t) :
  fat32_mounted w = false ->
  fat32_mount w = Fail e w' ->
  fat32_mounted w' = false.
Proof.
  intros Hm. unfold fat32_mount. cbv [bind get].
  destruct (sd_present (card w)); cbn [negb].
  2:{ cbv [fat32_unmount bind modify fail]. by intros [= _ <-]. }
  rewrite Hm.
  destruct (sd_init_result (card w)); cbn [return_on_error];
    cbv [ret fail]; try (by intros [= _ <-]).
  pose proof (fat32_mount_find_volume_mounted w) as Hfind.
  destruct (fat32_mount_find_volume w) as [[] w1|e1 w1|];
    [| |discriminate].
  2:{ intros [= _ <-]. rewrite (Hfind w1 eq_refl). exact Hm. }
  specialize (Hfind w1 eq_refl). cbv [modify]. world_simpl.
  destruct (is_valid_fat32_boot_sector _); cbn [return_on_error];
    cbv [ret fail]; try (intros [= _ <-]; world_simpl; congruence).
  destruct (_ <? 65525); [intros [= _ <-]; world_simpl; congruence|].
  unfold fat32_mount_fsinfo, read_sector.
  cbv [bind get sd_read_block modify]. world_simpl.
  destruct (sd_blocks _ !! _) as [s|];
    [|intros [= _ <-]; world_simpl; congruence].
  world_simpl.
  destruct (fsinfo_signatures_ok (decode_fsinfo s)); cbn [negb];
    [discriminate|].
  intros [= _ <-]. world_simpl. congruence.
Qed.

(** X21.  [fat32_get_status] returns the mount status as the readiness
    check leaves it, and never writes to the card.  Without a card the
    status is [FAT32_ERROR_NO_CARD] and the volume is not mounted.  With a
    card and no volume mounted, the check mounts the volume, and the
    status is [FAT32_OK] exactly when the volume is mounted afterwards.
    With a card and a volume that is mounted already, nothing is checked
    and nothing changes: the status comes back as it is stored, whatever
    it is.  A status of [FAT32_OK] always comes with the card present and
    the volume mounted. *)
Theorem status_tells_readiness (w w' : world) (e : fat32_error_t) :
  fat32_get_status w = Ret e w' ->
  mount_status w' = e
  /\ card w' = card w
  /\ (e = FAT32_OK ->
      sd_present (card w') = true /\ fat32_mounted w' = true)
  /\ (sd_present (card w) = false ->
      e = FAT32_ERROR_NO_CARD /\ fat32_mounted w' = false)
  /\ (sd_present (card w) = true -> fat32_mounted w = false ->
      (e = FAT32_OK <-> fat32_mounted w' = true))
  /\ (sd_present (card w) = true -> fat32_mounted w = true ->
      e = mount_status w /\ w' = w).
Proof.
  intros Hstatus.
  assert (Hcard : card w' = card w).
  { assert (Hk : card_kept fat32_get_status).
    { unfold fat32_get_status. kept. apply card_kept_fat32_is_ready. }
    apply Hk. by rewrite Hstatus. }
  split; [|split; [exact Hcard|]]; revert Hstatus;
    unfold fat32_get_status, fat32_is_ready; cbv [bind get ret].
  { destruct (sd_present (card w)).
    - destruct (fat32_mounted w); cbn [negb].
      + by intros [= <- <-].
      + unfold try. destruct (fat32_mount w) as [[] w1|e1 w1|];
          [| |discriminate]; cbv [modify]; by intros [= <- <-].
    - destruct (fat32_mounted w); cbv [fat32_unmount bind modify];
        by intros [= <- <-]. }
  rewrite Hcard.
  destruct (sd_present (card w)) eqn:Hp.
  - destruct (fat32_mounted w) eqn:Hm; cbn [negb].
    + intros [= <- <-].
      split; [done|]. split; [done|]. split; [done|]. done.
    + pose proof (fat32_mount_result w Hp Hm) as Hres.
      pose proof (fat32_mount_failure w) as Hfail.
      unfold try. destruct (fat32_mount w) as [[] w1|e1 w1|];
        [| |discriminate]; cbv [modify]; world_simpl;
        intros [= <- <-]; world_simpl.
      * split; [done|]. split; [done|]. split; [done|]. done.
      * specialize (Hfail w1 e1 Hm eq_refl).
        split; [done|]. split; [done|].
        split; [|done]. intros _ _. rewrite Hfail. split; [done|done].
  - destruct (fat32_mounted w) eqn:Hm; cbv [fat32_unmount bind modify];
      world_simpl; intros [= <- <-]; world_simpl; rewrite ?Hm.
    all: split; [by intros [=]|]; split; [done|]; split; intros [=].
Qed.

(** After [fat32_unmount] and a direct [fat32_mount] the volume is
    mounted and the status is still [FAT32_ERROR_NO_CARD]. *)
Lemma status_tells_readiness_witness :
  let w := demo_direct_mount in
  fat32_mounted w = true
  /\ mount_status w = FAT32_ERROR_NO_CARD
  /\ card w = card w
  /\ (FAT32_ERROR_NO_CARD = FAT32_OK ->
      sd_present (card w) = true /\ fat32_mounted w = true)
  /\ (sd_present (card w) = false ->
      FAT32_ERROR_NO_CARD = FAT32_ERROR_NO_CARD /\ fat32_mounted w = false)
  /\ (sd_present (card w) = true -> fat32_mounted w = false ->
      (FAT32_ERROR_NO_CARD = FAT32_OK <-> fat32_mounted w = true))
  /\ (sd_present (card w) = true -> fat32_mounted w = true ->
      FAT32_ERROR_NO_CARD = mount_status w /\ w = w).
Proof.
  split; [reflexivity|].
  apply (status_tells_readiness demo_direct_mount demo_direct_mount
           FAT32_ERROR_NO_CARD).
  vm_compute. reflexivity.
Defined.

(** ** Deleting a file *)

(** Storing a sector of a cluster of the volume changes no FAT entry. *)
Lemma fat_step_store_cluster_sector (w : world) (d j : Z)
    (buf shown : sector) :
  volume_ok w -> in_range w d ->
  0 <= j < sectors_per_cluster (boot_sector w) ->
  fat_step [] w (set_blocks (<[data_block w d j := buf]>
                               (sd_blocks (card w)))
                            (set_sector_buffer shown w)).
Proof.
  intros (Hr & Hl & Hb) Hd Hj.
  assert (Hne : forall c, in_range w c -> data_block w d j <> fat_block w c).
  { intros c Hc. by apply data_block_not_fat. }
  split; [|split; [done|]].
  - split; [done|]. split; [done|].
    intros c s Hc. cbn.
    change (fat_block (set_blocks _ _) c) with (fat_block w c).
    rewrite lookup_insert_ne by by apply Hne. by apply Hb.
  - intros c Hc _. unfold fat_entry. cbn.
    change (fat_block (set_blocks _ _) c) with (fat_block w c).
    by rewrite lookup_insert_ne by by apply Hne.
Qed.

(** The state [unlink_entry] leaves for a record in a sector on the
    card. *)
Lemma unlink_entry_result (entry : fat32_entry_t) (w : world)
    (buf : sector) :
  e_start_cluster entry <> 0 ->
  sd_blocks (card w) !! u32 (volume_start_block w + e_sector entry)
  = Some buf ->
  unlink_entry (Some entry) w
  = Ret tt
      (set_blocks
         (<[u32 (volume_start_block w + e_sector entry) :=
              put_byte (unlink_entry_scan (Z.to_nat MAX_LFN_PART) 1
                          (e_offset entry) buf)
                       (e_offset entry) FAT32_DIR_ENTRY_FREE]>
            (sd_blocks (card w)))
         (set_sector_buffer
            (put_byte (unlink_entry_scan (Z.to_nat MAX_LFN_PART) 1
                         (e_offset entry) buf)
                      (e_offset entry) FAT32_DIR_ENTRY_FREE) w)).
Proof.
  intros Hstart Hblock. unfold unlink_entry.
  destruct (Z.eqb_spec (e_start_cluster entry) 0); [done|].
  unfold read_sector, write_sector, sd_read_block, sd_write_block.
  cbv [bind get modify]. rewrite Hblock. world_simpl. rewrite Hblock.
  reflexivity.
Qed.

(** X22.  Deleting a regular file.  Let the lookup of [path] on a ready
    volume find a record that is not a directory, in a sector of a
    cluster of the volume, and let the record's start cluster head a
    well-formed chain [cs] (with enough fuel to walk it, and the FSInfo
    sector on the card).  Then [fat32_delete] succeeds: the first byte
    of the record on the card is 0xE5, every cluster of the chain is
    free, the FAT entries of all other clusters are as the lookup left
    them, the free count has grown by the length of the chain, and the
    volume is still well formed. *)
Theorem delete_frees_the_file (fuel : nat) (path : list Z) (w w1 : world)
    (entry : fat32_entry_t) (cs : list Z) (buf : sector) (d jd : Z) :
  ready w -> path <> [] ->
  find_entry fuel path w = Ret entry w1 ->
  Z.land (e_attr entry) FAT32_ATTR_DIRECTORY = 0 ->
  volume_ok w1 ->
  file_chain w1 (e_start_cluster entry) cs -> (length cs <= fuel)%nat ->
  in_range w1 d -> 0 <= jd < sectors_per_cluster (boot_sector w1) ->
  u32 (volume_start_block w1 + e_sector entry) = data_block w1 d jd ->
  sd_blocks (card w1) !! data_block w1 d jd = Some buf ->
  0 <= e_offset entry < Z.of_nat (length buf) ->
  is_Some (sd_blocks (card w1)
             !! u32 (volume_start_block w1 + fat32_info (boot_sector w1))) ->
  exists w',
    fat32_delete fuel path w = Ret tt w'
    /\ volume_ok w'
    /\ (exists buf',
          sd_blocks (card w') !! data_block w1 d jd = Some buf'
          /\ byte_at buf' (e_offset entry) = FAT32_DIR_ENTRY_FREE)
    /\ (forall c, c ∈ cs ->
          value (read_cluster_fat_entry c w') = Some FAT32_FAT_ENTRY_FREE)
    /\ (forall c, in_range w1 c -> c ∉ cs ->
          value (read_cluster_fat_entry c w')
          = value (read_cluster_fat_entry c w1))
    /\ free_count (fsinfo w')
       = u32 (free_count (fsinfo w1) + Z.of_nat (length cs)).
Proof.
  intros Hready Hpath Hfind Hattr Hok1 Hchain Hfuel Hd Hjd Hrec Hblock Hoff
    Hinfo.
  assert (Hstart : e_start_cluster entry <> 0).
  { destruct Hchain as ((Hhead & _) & _ & Hr).
    destruct cs as [|c0 cs]; [done|]. injection Hhead as ->.
    apply Forall_cons in Hr as [Hc0 _]. unfold in_range in Hc0. lia. }
  pose proof (unlink_entry_scan_spec (Z.to_nat MAX_LFN_PART) 1
                (e_offset entry) buf ltac:(lia) Hoff)
    as (k & _ & _ & _ & _ & Hlen & _ & _).
  rewrite <- Hrec in Hblock.
  pose proof (unlink_entry_result entry w1 buf Hstart Hblock) as Hunlink.
  rewrite Hrec in Hunlink.
  set (buf' := put_byte _ (e_offset entry) FAT32_DIR_ENTRY_FREE) in Hunlink.
  set (w2 := set_blocks _ (set_sector_buffer buf' w1)) in Hunlink.
  assert (Hstep : fat_step [] w1 w2)
    by (by apply fat_step_store_cluster_sector).
  pose proof Hstep as (Hok2 & Hvol2 & Hfat2).
  assert (Hchain2 : file_chain w2 (e_start_cluster entry) cs)
    by (by apply (file_chain_fat_step w1)).
  assert (Hinfo2 : is_Some (sd_blocks (card w2)
             !! u32 (volume_start_block w2 + fat32_info (boot_sector w2)))).
  { change (is_Some ((<[data_block w1 d jd := buf']> (sd_blocks (card w1)))
             !! u32 (volume_start_block w1 + fat32_info (boot_sector w1)))).
    apply lookup_insert_is_Some'. by right. }
  destruct (release_cluster_chain_total fuel w2 (e_start_cluster entry) cs
              Hok2 Hchain2 Hfuel Hinfo2)
    as (w' & Hrun & Hok' & _ & Hdata & _ & Hfree & Hframe & Hcount & _).
  exists w'. split.
  { unfold fat32_delete. rewrite bool_decide_eq_false_2 by done.
    cbv [bind]. rewrite (require_ready_ready w Hready).
    unfold delete_entry. cbv [bind]. rewrite Hfind, Hattr.
    cbn [Z.eqb negb]. cbv [ret]. rewrite Hunlink. exact Hrun. }
  split; [exact Hok'|]. split.
  { exists buf'. split.
    - rewrite <- (volume_of_data_block w1 w2 d jd Hvol2).
      rewrite (Hdata d jd).
      + rewrite (volume_of_data_block w1 w2 d jd Hvol2).
        apply lookup_insert_eq.
      + by apply (volume_of_in_range w1 w2).
      + by rewrite (volume_of_spc w1 w2).
    - apply byte_at_put_byte_eq; lia. }
  split; [exact Hfree|]. split; [|exact Hcount].
  intros c Hc Hout. rewrite Hframe; [|by apply (volume_of_in_range w1 w2)|done].
  rewrite !read_cluster_fat_entry_value. apply Hfat2; [done|].
  apply not_elem_of_nil.
Qed.

Lemma demo_grown_found_volume_ok : volume_ok demo_grown_found.
Proof. volume_ok_by_evaluation. Qed.

Lemma demo_grown_found_chain :
  file_chain demo_grown_found (e_start_cluster demo_grown_entry) [3; 4].
Proof.
  assert (H3 : fat_entry demo_grown_found 3 = Some 4)
    by (vm_compute; reflexivity).
  assert (H4 : fat_entry demo_grown_found 4 = Some FAT32_FAT_ENTRY_EOC)
    by (vm_compute; reflexivity).
  split; [|split].
  - split; [vm_compute; reflexivity|]. split.
    + split; [exact H3|]. split; [reflexivity | exact I].
    + exists 4, FAT32_FAT_ENTRY_EOC.
      split; [reflexivity|]. split; [exact H4 | reflexivity].
  - apply NoDup_cons_2; [|apply NoDup_cons_2;
                            [apply not_elem_of_nil | apply NoDup_nil_2]].
    intros H. apply list_elem_of_singleton in H. discriminate.
  - apply Forall_cons_2; [|apply Forall_cons_2; [|apply Forall_nil_2]];
      split; vm_compute; first [reflexivity | discriminate].
Qed.

Lemma delete_frees_the_file_witness :
  exists w',
    fat32_delete 100 (str "a.txt") demo_grown.2 = Ret tt w'
    /\ volume_ok w'
    /\ (exists buf',
          sd_blocks (card w') !! data_block demo_grown_found 2 0 = Some buf'
          /\ byte_at buf' (e_offset demo_grown_entry) = FAT32_DIR_ENTRY_FREE)
    /\ (forall c, c ∈ [3; 4] ->
          value (read_cluster_fat_entry c w') = Some FAT32_FAT_ENTRY_FREE)
    /\ (forall c, in_range demo_grown_found c -> c ∉ [3; 4] ->
          value (read_cluster_fat_entry c w')
          = value (read_cluster_fat_entry c demo_grown_found))
    /\ free_count (fsinfo w')
       = u32 (free_count (fsinfo demo_grown_found) + Z.of_nat (length [3; 4])).
Proof.
  refine (delete_frees_the_file 100 (str "a.txt") demo_grown.2
            demo_grown_found demo_grown_entry [3; 4]
            demo_grown_directory_sector 2 0 _ _ _ _
            demo_grown_found_volume_ok demo_grown_found_chain _ _ _ _ _ _ _).
  - repeat apply conj; vm_compute; reflexivity.
  - vm_compute. discriminate.
  - vm_compute. reflexivity.
  - vm_compute. reflexivity.
  - cbn. lia.
  - split; vm_compute; first [reflexivity | discriminate].
  - split; vm_compute; first [reflexivity | discriminate].
  - vm_compute. reflexivity.
  - vm_compute. reflexivity.
  - split; vm_compute; first [reflexivity | discriminate].
  - vm_compute. eexists. reflexivity.
Defined.

(** ** Refusals *)

Lemma fails_with_ret {A} (codes : list fat32_error_t) (a : A) :
  fails_with codes (ret a : M A).
Proof. intros w e w'. discriminate. Qed.

Lemma fails_with_fail {A} (codes : list fat32_error_t) (e : fat32_error_t) :
  e ∈ codes -> fails_with codes (fail e : M A).
Proof. intros He w e' w' [= <- _]. exact He. Qed.

Lemma fails_with_get (codes : list fat32_error_t) :
  fails_with codes (get : M world).
Proof. intros w e w'. discriminate. Qed.

Lemma fails_with_modify (codes : list fat32_error_t) (g : world -> world) :
  fails_with codes (modify g : M unit).
Proof. intros w e w'. discriminate. Qed.

Lemma fails_with_stop {A} (codes : list fat32_error_t) (r : stop) :
  fails_with codes ((fun _ => Stop r) : M A).
Proof. intros w e w'. discriminate. Qed.

Lemma fails_with_bind {A B} (codes : list fat32_error_t) (m : M A)
    (k : A -> M B) :
  fails_with codes m -> (forall a, fails_with codes (k a)) ->
  fails_with codes (bind m k).
Proof.
  intros Hm Hk w e w'. cbv [bind].
  destruct (m w) as [a w1|e1 w1|] eqn:Hrun; [|intros [= <- _]|discriminate].
  - apply Hk.
  - by apply (Hm w e1 w1).
Qed.

Ltac fails_step :=
  lazymatch goal with
  | |- fails_with _ (bind _ _) => apply fails_with_bind; [|intros ?]
  | |- fails_with _ (ret _) => apply fails_with_ret
  | |- fails_with _ (fail _) =>
      apply fails_with_fail; unfold access_errors;
      repeat first [apply list_elem_of_here | apply list_elem_of_further]
  | |- fails_with _ get => apply fails_with_get
  | |- fails_with _ (modify _) => apply fails_with_modify
  | |- fails_with _ (fun _ => Stop _) => apply fails_with_stop
  | |- fails_with _ (if ?c then _ else _) => destruct c
  | |- fails_with _ (match ?x with _ => _ end) => destruct x
  end.

Ltac fails := cbv zeta; repeat (fails_step; cbv zeta).

Lemma fails_with_read_sector (sec : Z) :
  fails_with access_errors (read_sector sec).
Proof.
  unfold read_sector. fails. intros w e w'. unfold sd_read_block.
  destruct (sd_blocks (card w) !! _); [discriminate|]. intros [= <- _].
  unfold access_errors. apply list_elem_of_further, list_elem_of_here.
Qed.

Lemma fails_with_write_sector (sec : Z) (buf : sector) :
  fails_with access_errors (write_sector sec buf).
Proof.
  unfold write_sector. fails. intros w e w'. unfold sd_write_block.
  destruct (sd_blocks (card w) !! _); [discriminate|]. intros [= <- _].
  unfold access_errors.
  apply list_elem_of_further, list_elem_of_further, list_elem_of_here.
Qed.

Lemma fails_with_read_cluster_fat_entry (c : Z) :
  fails_with access_errors (read_cluster_fat_entry c).
Proof.
  unfold read_cluster_fat_entry. fails. apply fails_with_read_sector.
Qed.

Lemma fails_with_write_cluster_fat_entry (c v : Z) :
  fails_with access_errors (write_cluster_fat_entry c v).
Proof.
  unfold write_cluster_fat_entry. fails;
    first [apply fails_with_read_sector | apply fails_with_write_sector].
Qed.

Lemma fails_with_release_cluster_chain_loop (fuel : nat) (c t l : Z) :
  fails_with access_errors (release_cluster_chain_loop fuel c t l).
Proof.
  revert c t l. induction fuel as [|fuel IH]; intros c t l;
    cbn [release_cluster_chain_loop]; fails;
    first [ apply fails_with_read_cluster_fat_entry
          | apply fails_with_write_cluster_fat_entry
          | apply IH ].
Qed.

Lemma fails_with_release_cluster_chain (fuel : nat) (start : Z) :
  fails_with access_errors (release_cluster_chain fuel start).
Proof.
  unfold release_cluster_chain. fails;
    first [ apply fails_with_release_cluster_chain_loop
          | apply fails_with_write_sector ].
Qed.

Lemma fails_with_unlink_entry (entry : option fat32_entry_t) :
  fails_with access_errors (unlink_entry entry).
Proof.
  unfold unlink_entry. fails;
    first [apply fails_with_read_sector | apply fails_with_write_sector].
Qed.

Lemma card_kept_delete_entry_scan (n fuel : nat) (entry : fat32_entry_t) :
  card_kept_file (delete_entry_scan n fuel entry).
Proof.
  revert entry. induction n as [|n IH]; intros entry;
    cbn [delete_entry_scan]; kept;
    first [apply card_kept_fat32_dir_read | apply IH].
Qed.

(** The part of [delete_entry] before the record is unlinked. *)
Lemma card_kept_delete_check (fuel : nat) (path : list Z)
    (entry : fat32_entry_t) :
  card_kept
    (if negb (Z.land (e_attr entry) FAT32_ATTR_DIRECTORY =? 0) then
       d ← with_file zero_file
             (fat32_open fuel path;; delete_entry_scan fuel fuel zero_entry);
       if (fst d : bool) then fail FAT32_ERROR_DIR_NOT_EMPTY else ret tt
     else ret tt).
Proof.
  kept; first [ apply card_kept_fat32_open
              | apply card_kept_delete_entry_scan ].
Qed.

(** X23.  A delete that is refused for another reason than a failed
    access ([FAT32_ERROR_INVALID_PARAMETER], [FAT32_ERROR_READ_FAILED],
    [FAT32_ERROR_WRITE_FAILED]) has written nothing: when [fat32_delete]
    reports that the directory is not empty, that the file is not found,
    that no card is present and the like, the card is as it was. *)
Theorem refused_delete_writes_nothing (fuel : nat) (path : list Z)
    (w w' : world) (e : fat32_error_t) :
  fat32_delete fuel path w = Fail e w' ->
  e ∉ access_errors ->
  card w' = card w.
Proof.
  intros Hrun He. revert Hrun. unfold fat32_delete.
  destruct (bool_decide (path = [])).
  { intros [= <- _]. exfalso. apply He. apply list_elem_of_here. }
  cbv [bind].
  pose proof (card_kept_require_ready w) as Hready.
  destruct (require_ready w) as [[] w0|e0 w0|]; [|intros [= _ <-]|discriminate].
  2:{ by apply Hready. }
  assert (H0 : card w0 = card w) by (by apply Hready).
  unfold delete_entry. cbv [bind].
  pose proof (card_kept_find_entry fuel path w0) as Hfind.
  destruct (find_entry fuel path w0) as [entry w1|e1 w1|];
    [|intros [= _ <-]|discriminate].
  2:{ rewrite <- H0. by apply Hfind. }
  assert (H1 : card w1 = card w0) by (by apply Hfind).
  pose proof (card_kept_delete_check fuel path entry w1) as Hcheck.
  cbv [bind] in Hcheck.
  destruct (_ w1) as [[] w2|e2 w2|] in Hcheck |- *;
    [|intros [= _ <-]|discriminate].
  2:{ rewrite <- H0, <- H1. by apply Hcheck. }
  pose proof (fails_with_unlink_entry (Some entry) w2) as Hunlink.
  destruct (unlink_entry (Some entry) w2) as [[] w3|e3 w3|];
    [|intros [= <- _]|discriminate].
  2:{ exfalso. apply He. by apply (Hunlink e3 w3). }
  intros Hrel. exfalso. apply He.
  exact (fails_with_release_cluster_chain fuel _ w3 e w' Hrel).
Qed.

Lemma refused_delete_writes_nothing_witness :
  card (after demo_created.2 (fat32_delete 100 (str "/") demo_created.2))
  = card demo_created.2.
Proof.
  refine (refused_delete_writes_nothing 100 (str "/") demo_created.2
            _ FAT32_ERROR_DIR_NOT_EMPTY _ _).
  - vm_compute. reflexivity.
  - unfold access_errors. intros H.
    repeat (apply elem_of_cons in H as [H|H]; [discriminate|]).
    by apply elem_of_nil in H.
Defined.

(** X24.  A file without clusters can be neither deleted nor renamed.
    When the lookup finds a record of a file whose start cluster is 0 (an
    empty file as other systems make it), [fat32_delete] fails with
    [FAT32_ERROR_INVALID_PARAMETER], and so does [fat32_rename] to a name
    that is not in use; neither writes to the card. *)
Theorem empty_file_cannot_be_removed (fuel : nat) (path new_path : list Z)
    (w w1 w2 : world) (entry : fat32_entry_t) :
  ready w -> path <> [] -> new_path <> [] ->
  find_entry fuel path w = Ret entry w1 ->
  Z.land (e_attr entry) FAT32_ATTR_DIRECTORY = 0 ->
  e_start_cluster entry = 0 ->
  find_entry fuel new_path w1 = Fail FAT32_ERROR_FILE_NOT_FOUND w2 ->
  fat32_delete fuel path w = Fail FAT32_ERROR_INVALID_PARAMETER w1
  /\ fat32_rename fuel path new_path w
     = Fail FAT32_ERROR_INVALID_PARAMETER w2
  /\ card w1 = card w /\ card w2 = card w.
Proof.
  intros Hready Hpath Hnew Hfind Hattr Hstart Hmiss.
  assert (H1 : card w1 = card w).
  { apply (card_kept_find_entry fuel path w w1). by rewrite Hfind. }
  assert (H2 : card w2 = card w1).
  { apply (card_kept_find_entry fuel new_path w1 w2). by rewrite Hmiss. }
  split; [|split; [|split; [done | congruence]]].
  - unfold fat32_delete. rewrite bool_decide_eq_false_2 by done.
    cbv [bind]. rewrite (require_ready_ready w Hready).
    unfold delete_entry. cbv [bind]. rewrite Hfind, Hattr.
    cbn [Z.eqb negb]. cbv [ret]. unfold unlink_entry. by rewrite Hstart.
  - unfold fat32_rename. rewrite !bool_decide_eq_false_2 by done.
    cbn [orb]. cbv [bind]. rewrite (require_ready_ready w Hready), Hfind.
    cbv [try]. rewrite Hmiss. unfold unlink_entry. by rewrite Hstart.
Qed.

Lemma empty_file_cannot_be_removed_witness :
  fat32_delete 100 (str "a.txt") demo_foreign
  = Fail FAT32_ERROR_INVALID_PARAMETER demo_foreign_found
  /\ fat32_rename 100 (str "a.txt") (str "b.txt") demo_foreign
     = Fail FAT32_ERROR_INVALID_PARAMETER demo_foreign_missing
  /\ card demo_foreign_found = card demo_foreign
  /\ card demo_foreign_missing = card demo_foreign.
Proof.
  refine (empty_file_cannot_be_removed 100 (str "a.txt") (str "b.txt")
            demo_foreign demo_foreign_found demo_foreign_missing
            demo_foreign_entry _ _ _ _ _ _ _).
  - repeat apply conj; vm_compute; reflexivity.
  - vm_compute. discriminate.
  - vm_compute. discriminate.
  - vm_compute. reflexivity.
  - vm_compute. reflexivity.
  - vm_compute. reflexivity.
  - vm_compute. reflexivity.
Defined.

(** X25.  [fat32_rename] never replaces an existing file: when both the
    old and the new path are found, it fails with
    [FAT32_ERROR_FILE_EXISTS] and the card is as it was.  Renaming a file
    to its own name is such a case. *)
Theorem rename_refuses_existing_name (fuel : nat) (old_path new_path : list Z)
    (w w1 w2 : world) (entry found : fat32_entry_t) :
  ready w -> old_path <> [] -> new_path <> [] ->
  find_entry fuel old_path w = Ret entry w1 ->
  find_entry fuel new_path w1 = Ret found w2 ->
  fat32_rename fuel old_path new_path w = Fail FAT32_ERROR_FILE_EXISTS w2
  /\ card w2 = card w.
Proof.
  intros Hready Hold Hnew Hfind Hfound. split.
  - unfold fat32_rename. rewrite !bool_decide_eq_false_2 by done.
    cbn [orb]. cbv [bind]. rewrite (require_ready_ready w Hready), Hfind.
    cbv [try]. by rewrite Hfound.
  - transitivity (card w1).
    + apply (card_kept_find_entry fuel new_path w1 w2). by rewrite Hfound.
    + apply (card_kept_find_entry fuel old_path w w1). by rewrite Hfind.
Qed.

Lemma rename_refuses_existing_name_witness :
  fat32_rename 100 (str "a.txt") (str "a.txt") demo_created.2
  = Fail FAT32_ERROR_FILE_EXISTS demo_found
  /\ card demo_found = card demo_created.2.
Proof.
  refine (rename_refuses_existing_name 100 (str "a.txt") (str "a.txt")
            demo_created.2 demo_found demo_found demo_entry demo_entry
            _ _ _ _ _).
  - repeat apply conj; vm_compute; reflexivity.
  - vm_compute. discriminate.
  - vm_compute. discriminate.
  - vm_compute. reflexivity.
  - vm_compute. reflexivity.
Defined.

(** X26.  A closed handle is refused.  [fat32_close] always succeeds and
    changes nothing but the handle, and the handle it leaves is not open:
    reading, writing and seeking with it fail with
    [FAT32_ERROR_INVALID_PARAMETER], listing with it fails with
    [FAT32_ERROR_READ_FAILED], and none of them changes the handle or
    the state of the driver. *)
Theorem closed_handle_is_refused (f : fat32_file_t) (w : world)
    (fuel : nat) (size pos : Z) (src : list Z) (entry : fat32_entry_t) :
  exists f',
    fat32_close (Some f) w = Ret (Some f') w
    /\ is_open f' = false
    /\ fat32_read true size (f', w)
       = Fail FAT32_ERROR_INVALID_PARAMETER (f', w)
    /\ fat32_write fuel (Some src) (f', w)
       = Fail FAT32_ERROR_INVALID_PARAMETER (f', w)
    /\ fat32_seek pos (f', w) = Fail FAT32_ERROR_INVALID_PARAMETER (f', w)
    /\ fat32_dir_read fuel entry (f', w)
       = Fail FAT32_ERROR_READ_FAILED (f', w).
Proof.
  assert (Hclosed : forall f', is_open f' = false ->
    fat32_read true size (f', w)
    = Fail FAT32_ERROR_INVALID_PARAMETER (f', w)
    /\ fat32_write fuel (Some src) (f', w)
       = Fail FAT32_ERROR_INVALID_PARAMETER (f', w)
    /\ fat32_seek pos (f', w) = Fail FAT32_ERROR_INVALID_PARAMETER (f', w)
    /\ fat32_dir_read fuel entry (f', w)
       = Fail FAT32_ERROR_READ_FAILED (f', w)).
  { intros f' Hf'.
    unfold fat32_read, fat32_write, fat32_seek, fat32_dir_read.
    cbv [bind get_file]. cbn [fst snd]. rewrite Hf'. done. }
  unfold fat32_close. destruct (is_open f) eqn:Hopen.
  - exists zero_file. split; [done|]. split; [done|]. by apply Hclosed.
  - exists f. split; [done|]. split; [done|]. by apply Hclosed.
Qed.

(** ** Changing the card *)

(** Mounting does not look at the cached boot sector, the cached FSInfo
    or the sector buffer it starts with. *)
Lemma scan_partitions_over (b : fat32_boot_sector_t) (i : fat32_fsinfo_t)
    (entries : list Z) (w w1 : world) :
  scan_partitions entries w = Ret tt w1 ->
  scan_partitions entries (set_boot_sector b (set_fsinfo i w))
  = Ret tt (set_boot_sector b (set_fsinfo i w1)).
Proof.
  revert w. induction entries as [|k rest IH]; intros w;
    cbn [scan_partitions].
  - cbv [ret]. by intros [= <-].
  - cbv [bind get]. world_simpl.
    destruct (negb (byte_at (sector_buffer w) (446 + k * 16) =? 0)
              && negb (byte_at (sector_buffer w) (446 + k * 16) =? 128));
      [apply IH|].
    destruct ((byte_at (sector_buffer w) (446 + k * 16 + 4) =? 11)
              || (byte_at (sector_buffer w) (446 + k * 16 + 4) =? 12));
      [|apply IH].
    cbv [modify sd_read_into_buffer bind sd_read_block]. world_simpl.
    destruct (sd_blocks (card w) !! _); [|discriminate].
    by intros [= <-].
Qed.

Lemma fat32_mount_find_volume_over (b : fat32_boot_sector_t)
    (i : fat32_fsinfo_t) (s : sector) (w w1 : world) :
  fat32_mount_find_volume w = Ret tt w1 ->
  fat32_mount_find_volume
    (set_boot_sector b (set_fsinfo i (set_sector_buffer s w)))
  = Ret tt (set_boot_sector b (set_fsinfo i w1)).
Proof.
  unfold fat32_mount_find_volume, sd_read_into_buffer.
  cbv [bind get ret modify fail sd_read_block]. world_simpl.
  destruct (sd_blocks (card w) !! 0) as [s0|]; [|discriminate].
  world_simpl.
  destruct (is_sector_mbr s0).
  - destruct (scan_partitions [0; 1; 2; 3] _) as [[] w2| |] eqn:Hscan;
      try discriminate.
    apply (scan_partitions_over b i) in Hscan.
    intros Hrest.
    match goal with
    | |- context [scan_partitions ?l ?x] =>
        change (scan_partitions l x)
          with (scan_partitions l
                  (set_boot_sector b
                     (set_fsinfo i
                        (set_volume_start_block 0 (set_sector_buffer s0 w)))))
    end.
    rewrite Hscan. world_simpl.
    destruct (volume_start_block w2 =? 0); [discriminate|].
    by injection Hrest as <-.
  - destruct (is_sector_boot_sector s0); [|discriminate].
    by intros [= <-].
Qed.

Lemma fat32_mount_over (b : fat32_boot_sector_t) (i : fat32_fsinfo_t)
    (s : sector) (w w' : world) :
  fat32_mounted w = false ->
  fat32_mount w = Ret tt w' ->
  fat32_mount (set_boot_sector b (set_fsinfo i (set_sector_buffer s w)))
  = Ret tt w'.
Proof.
  intros Hm Hmount.
  destruct (sd_present (card w)) eqn:Hp.
  2:{ unfold fat32_mount in Hmount. cbv [bind get] in Hmount.
      rewrite Hp in Hmount. cbn in Hmount. discriminate. }
  destruct (sd_init_result (card w)) eqn:Hi.
  2-21: unfold fat32_mount in Hmount; cbv [bind get] in Hmount;
        rewrite Hp, Hm, Hi in Hmount; cbn in Hmount; discriminate.
  destruct (fat32_mount_find_volume w) as [[] w1| |] eqn:Hfind.
  2-3: unfold fat32_mount in Hmount; cbv [bind get] in Hmount;
       rewrite Hp, Hm, Hi in Hmount; cbn [negb return_on_error ret] in Hmount;
       rewrite Hfind in Hmount; discriminate.
  rewrite (fat32_mount_steps w w1 Hp Hm Hi Hfind) in Hmount.
  rewrite (fat32_mount_steps
             (set_boot_sector b (set_fsinfo i (set_sector_buffer s w)))
             (set_boot_sector b (set_fsinfo i w1)) Hp Hm Hi
             (fat32_mount_find_volume_over b i s w w1 Hfind)).
  cbv zeta in Hmount |- *. world_simpl.
  destruct (is_valid_fat32_boot_sector (decode_boot_sector (sector_buffer w1)));
    try discriminate.
  destruct (mount_cluster_count (decode_boot_sector (sector_buffer w1))
            <? 65525); [discriminate|].
  revert Hmount. unfold fat32_mount_fsinfo, read_sector.
  cbv [bind get sd_read_block modify]. world_simpl.
  destruct (sd_blocks _ !! _) as [s1|]; [|discriminate].
  world_simpl.
  destruct (fsinfo_signatures_ok (decode_fsinfo s1)); cbn [negb];
    [|discriminate].
  by intros [= <-].
Qed.

(** X27.  Changing the card.  While the volume is mounted the readiness
    check only asks whether a card is in the slot: if the card is replaced
    by [c] and neither a readiness check nor the card-detect timer has
    seen the slot empty, the check passes without reading anything and the
    driver goes on with the geometry of the old volume.  If the timer has
    run while the slot was empty, the next readiness check mounts [c], and
    when it passes the whole state of the driver is determined by [c]
    alone: it is the same for any two volumes [w] and [v] that were
    mounted before. *)
Theorem changed_card_is_mounted_afresh (w v w' : world) (c : sd_card) :
  ready w -> ready v -> sd_present c = true ->
  fat32_is_ready (card_swapped c w) = Ret true w' ->
  fat32_is_ready (card_inserted c w) = Ret true (card_inserted c w)
  /\ fat32_is_ready (card_swapped c v) = Ret true w'
  /\ card w' = c.
Proof.
  intros (Hpw & Hmw & Hsw) (Hpv & Hmv & Hsv) Hc Hready.
  split.
  { unfold fat32_is_ready. cbv [bind get ret]. world_simpl.
    cbn [card_inserted card fat32_mounted mount_status].
    rewrite Hc, Hmw. cbn [negb card_inserted mount_status]. rewrite Hsw.
    by rewrite bool_decide_eq_true_2. }
  revert Hready. unfold card_swapped, on_sd_card_detect.
  cbv [bind get]. cbn [card_removed card sd_present fat32_mounted negb].
  rewrite Hmw, Hmv. cbn [andb].
  cbv [fat32_unmount bind modify after final]. world_simpl.
  set (w0 := card_inserted c _). set (v0 := card_inserted c _).
  assert (Hv0 : v0 = set_boot_sector (boot_sector v)
                       (set_fsinfo (fsinfo v)
                          (set_sector_buffer (sector_buffer v) w0)))
    by reflexivity.
  assert (Hm0 : fat32_mounted w0 = false) by reflexivity.
  assert (Hp0 : sd_present (card w0) = true) by exact Hc.
  pose proof (fat32_mount_result w0 Hp0 Hm0) as Hres.
  pose proof (card_kept_fat32_mount w0) as Hcard.
  unfold fat32_is_ready. cbv [bind get].
  change (sd_present (card w0)) with (sd_present c).
  change (sd_present (card v0)) with (sd_present c).
  change (fat32_mounted w0) with false.
  change (fat32_mounted v0) with false.
  rewrite Hc. cbn [negb]. cbv [try].
  destruct (fat32_mount w0) as [[] w1|e w1|] eqn:Hmount; [| |discriminate].
  - rewrite Hv0, (fat32_mount_over _ _ _ w0 w1 Hm0 Hmount).
    cbv [modify ret]. world_simpl. intros [= <-].
    split; [by rewrite bool_decide_eq_true_2|].
    world_simpl. apply (Hcard w1). done.
  - cbv [modify ret]. world_simpl.
    rewrite bool_decide_eq_false_2 by done. discriminate.
Qed.

Lemma changed_card_is_mounted_afresh_witness :
  let c := demo_card (fsinfo_image 65529 3) in
  let w' := after (card_swapped c demo_grown.2)
                  (fat32_is_ready (card_swapped c demo_grown.2)) in
  fat32_is_ready (card_inserted c demo_grown.2)
  = Ret true (card_inserted c demo_grown.2)
  /\ fat32_is_ready (card_swapped c demo_created.2) = Ret true w'
  /\ card w' = c.
Proof.
  refine (changed_card_is_mounted_afresh demo_grown.2 demo_created.2 _
            (demo_card (fsinfo_image 65529 3)) _ _ _ _).
  - repeat apply conj; vm_compute; reflexivity.
  - repeat apply conj; vm_compute; reflexivity.
  - reflexivity.
  - vm_compute. reflexivity.
Defined.

(** ** Free space *)

Lemma filter_map_length {A B} (p : B -> bool) (g : A -> B) (l : list A) :
  length (List.filter p (map g l))
  = length (List.filter (fun a => p (g a)) l).
Proof.
  induction l as [|a l IH]; [done|]. cbn [map List.filter].
  destruct (p (g a)); cbn [length]; by rewrite IH.
Qed.

(** For cluster numbers the entry by position is the FAT entry. *)
Lemma fat_word_fat_entry (w : world) (c : Z) :
  2 <= c < 2 ^ 30 -> fat_word w c = fat_entry w c.
Proof.
  intros Hc. unfold fat_word, fat_entry, fat_block, fat_sector_block,
    fat_sector_of, fat_offset_of.
  destruct (Z.ltb_spec c 2); [lia|].
  rewrite (u32_small (c * 4)) by lia.
  unfold FAT32_SECTOR_SIZE, SD_BLOCK_SIZE.
  replace (c * 4 / 512) with (c / 128)
    by (replace 512 with (4 * 128) by done;
        rewrite Z.mul_comm, Z.div_mul_cancel_l; lia).
  replace (c * 4 mod 512) with (4 * (c mod 128)); [done|].
  replace 512 with (4 * 128) by done. rewrite (Z.mul_comm c 4).
  rewrite Zmult_mod_distr_l. done.
Qed.

(** The entries of one FAT sector, by position. *)
Lemma free_entries_in_sector (w : world) (k : Z) (s : sector) :
  0 <= k ->
  sd_blocks (card w) !! fat_sector_block w k = Some s ->
  free_entries_in s
  = Z.of_nat (length (List.filter
                        (fun c => bool_decide (fat_word w c = Some 0))
                        (seqZ (128 * k) 128))).
Proof.
  intros Hk Hs. unfold free_entries_in. f_equal.
  replace (seqZ (128 * k) 128) with (Z.add (128 * k) <$> seqZ 0 128)
    by (rewrite fmap_add_seqZ; f_equal; lia).
  change (length (List.filter _ (Z.add (128 * k) <$> seqZ 0 128)))
    with (length (List.filter
                    (fun c => bool_decide (fat_word w c = Some 0))
                    (map (Z.add (128 * k)) (seqZ 0 128)))).
  rewrite filter_map_length. f_equal.
  apply List.filter_ext_in. intros i Hi.
  apply list_elem_of_In, elem_of_seqZ in Hi.
  unfold fat_word.
  replace ((128 * k + i) / 128) with k
    by (rewrite Z.mul_comm, Z.div_add_l by lia;
        rewrite (Z.div_small i 128) by lia; lia).
  replace ((128 * k + i) mod 128) with i
    by (rewrite Z.add_comm, Z.mul_comm, Z.mod_add by lia;
        by rewrite Z.mod_small by lia).
  rewrite Hs.
  destruct (Z.eqb_spec (Z.land (le32 s (4 * i)) 268435455) 0) as [->|Hne].
  - by rewrite bool_decide_eq_true_2.
  - rewrite bool_decide_eq_false_2; [done|]. by intros [= ?].
Qed.

Lemma filter_length_bound {A} (p : A -> bool) (l : list A) :
  (length (List.filter p l) <= length l)%nat.
Proof.
  induction l as [|a l IH]; [done|]. cbn [List.filter].
  destruct (p a); cbn [length]; lia.
Qed.

(** The loop over the FAT sectors counts the zero entries by position. *)
Lemma fat32_get_free_space_count_spec (n : nat) (k acc : Z) (w : world) :
  0 <= k -> k + Z.of_nat n < 2 ^ 32 ->
  0 <= acc -> acc + 128 * Z.of_nat n < 2 ^ 64 ->
  (forall j, k <= j < k + Z.of_nat n ->
     is_Some (sd_blocks (card w) !! fat_sector_block w j)) ->
  exists s,
    fat32_get_free_space_count n k acc w
    = Ret (acc + Z.of_nat (length (List.filter
                             (fun c => bool_decide (fat_word w c = Some 0))
                             (seqZ (128 * k) (128 * Z.of_nat n)))))
          (set_sector_buffer s w).
Proof.
  revert k acc w. induction n as [|n IH]; intros k acc w Hk Hkn Hacc Hfit Hon.
  { exists (sector_buffer w). cbn [fat32_get_free_space_count].
    rewrite set_sector_buffer_same. cbv [ret].
    replace (128 * Z.of_nat 0) with 0 by lia. cbn. by rewrite Z.add_0_r. }
  cbn [fat32_get_free_space_count]. cbv [bind get].
  destruct (Hon k ltac:(lia)) as [s Hs].
  unfold read_sector, sd_read_block. cbv [bind get modify].
  change (u32 (volume_start_block w
               + u32 (reserved_sectors (boot_sector w) + k)))
    with (fat_sector_block w k).
  rewrite Hs. world_simpl.
  pose proof (free_entries_in_sector w k s Hk Hs) as Hcount.
  assert (Hsmall : 0 <= free_entries_in s <= 128).
  { unfold free_entries_in. split; [lia|].
    pose proof (filter_length_bound
                  (fun i => Z.land (le32 s (4 * i)) 0x0FFFFFFF =? 0)
                  (seqZ 0 128)) as Hb.
    rewrite length_seqZ in Hb. lia. }
  unfold u64 at 1. rewrite Z.mod_small by lia.
  rewrite (u32_small (k + 1)) by lia.
  destruct (IH (k + 1) (acc + free_entries_in s) (set_sector_buffer s w)
              ltac:(lia) ltac:(lia) ltac:(lia) ltac:(lia))
    as [s' Hrun].
  { intros j Hj. apply Hon. lia. }
  exists s'. rewrite Hrun. f_equal.
  replace (128 * Z.of_nat (S n)) with (128 + 128 * Z.of_nat n) by lia.
  rewrite seqZ_app by lia. rewrite List.filter_app, length_app.
  rewrite Hcount.
  replace (128 * (k + 1)) with (128 * k + 128) by lia.
  change (fun c => bool_decide (fat_word (set_sector_buffer s w) c = Some 0))
    with (fun c => bool_decide (fat_word w c = Some 0)).
  lia.
Qed.

(** X28.  Free space without a usable hint.  When the free-count hint of
    a ready volume is unknown or larger than the cluster count and the
    sectors of the first FAT and the FSInfo sector are on the card,
    [fat32_get_free_space] succeeds and answers the number of zero
    entries of the first FAT times the bytes per cluster.  The count runs
    over all 128 positions of every FAT sector: besides the entries of
    the clusters (for a cluster number the entry by position is its FAT
    entry), positions 0 and 1 and the positions behind the last cluster
    are counted when they hold zero.  The count becomes the free-count
    hint and the FSInfo sector is rewritten with it; no other block of
    the card changes. *)
Theorem free_space_counts_the_fat (w : world) :
  ready w ->
  free_count (fsinfo w) = 0xFFFFFFFF
  \/ cluster_count w < free_count (fsinfo w) ->
  0 <= fat_size_32 (boot_sector w) < 2 ^ 32 ->
  (forall k, 0 <= k < fat_size_32 (boot_sector w) ->
     is_Some (sd_blocks (card w) !! fat_sector_block w k)) ->
  is_Some (sd_blocks (card w)
             !! u32 (volume_start_block w + fat32_info (boot_sector w))) ->
  exists w',
    fat32_get_free_space w
    = Ret (u64 (free_fat_entries w * bytes_per_cluster w)) w'
    /\ free_count (fsinfo w') = u32 (free_fat_entries w)
    /\ sd_blocks (card w')
       = <[u32 (volume_start_block w + fat32_info (boot_sector w)) :=
             encode_fsinfo (fsinfo w')]> (sd_blocks (card w))
    /\ volume_of w' = volume_of w
    /\ (forall c, 2 <= c < 2 ^ 30 -> fat_word w c = fat_entry w c).
Proof.
  intros Hready Hhint Hsize Hfat [old Hinfo].
  destruct (fat32_get_free_space_count_spec
              (Z.to_nat (fat_size_32 (boot_sector w))) 0 0 w
              ltac:(lia) ltac:(lia) ltac:(lia) ltac:(lia))
    as [s Hcount].
  { intros j Hj. apply Hfat. lia. }
  rewrite Z2Nat.id, Z.mul_0_r, Z.add_0_l in Hcount by lia.
  fold (free_fat_entries w) in Hcount.
  eexists. split.
  { unfold fat32_get_free_space. cbv [bind].
    rewrite (require_ready_ready w Hready). cbv [get].
    replace (negb (free_count (fsinfo w) =? 4294967295)
             && (free_count (fsinfo w) <=? cluster_count w)) with false.
    2:{ destruct Hhint as [->|Hbig]; [done|].
        destruct (Z.leb_spec (free_count (fsinfo w)) (cluster_count w));
          [lia|]. by rewrite andb_false_r. }
    rewrite Hcount. cbv [modify]. unfold write_sector, sd_write_block.
    cbv [bind get ret]. world_simpl. rewrite Hinfo. reflexivity. }
  world_simpl. split; [done|]. split; [done|]. split; [done|].
  intros c Hc. by apply fat_word_fat_entry.
Qed.

Lemma demo_whole_fat_on_card (k : Z) :
  0 <= k < fat_size_32 (boot_sector demo_whole) ->
  is_Some (sd_blocks (card demo_whole) !! fat_sector_block demo_whole k).
Proof.
  intros Hk.
  assert (Hall : forallb
            (fun j => bool_decide
               (is_Some (sd_blocks (card demo_whole)
                           !! fat_sector_block demo_whole j)))
            (seqZ 0 512) = true) by (vm_compute; reflexivity).
  assert (Hfs : fat_size_32 (boot_sector demo_whole) = 512)
    by (vm_compute; reflexivity).
  rewrite forallb_forall in Hall.
  assert (Hin : In k (seqZ 0 512)).
  { apply list_elem_of_In, elem_of_seqZ. lia. }
  exact (proj1 (bool_decide_eq_true _) (Hall k Hin)).
Qed.

Lemma free_space_counts_the_fat_witness :
  exists w',
    fat32_get_free_space demo_whole
    = Ret (u64 (free_fat_entries demo_whole * bytes_per_cluster demo_whole))
          w'
    /\ free_count (fsinfo w') = u32 (free_fat_entries demo_whole)
    /\ sd_blocks (card w')
       = <[u32 (volume_start_block demo_whole
                + fat32_info (boot_sector demo_whole)) :=
             encode_fsinfo (fsinfo w')]> (sd_blocks (card demo_whole))
    /\ volume_of w' = volume_of demo_whole
    /\ (forall c, 2 <= c < 2 ^ 30 ->
          fat_word demo_whole c = fat_entry demo_whole c).
Proof.
  refine (free_space_counts_the_fat demo_whole _ _ _
            demo_whole_fat_on_card _).
  - repeat apply conj; vm_compute; reflexivity.
  - left. vm_compute. reflexivity.
  - split; vm_compute; first [reflexivity | discriminate].
  - vm_compute. eexists. reflexivity.
Defined.

(** ** Partitions *)

Lemma scan_partitions_skip (entries : list Z) (w : world) :
  Forall (fun j => partition_matches (sector_buffer w) j = false) entries ->
  scan_partitions entries w = Ret tt w.
Proof.
  induction 1 as [|j rest Hj _ IH]; cbn [scan_partitions]; [done|].
  cbv [bind get]. unfold partition_matches in Hj.
  destruct (byte_at (sector_buffer w) (446 + j * 16) =? 0);
    destruct (byte_at (sector_buffer w) (446 + j * 16) =? 128);
    cbn [negb andb orb] in Hj |- *; try exact IH;
    destruct (byte_at (sector_buffer w) (446 + j * 16 + 4) =? 11);
    destruct (byte_at (sector_buffer w) (446 + j * 16 + 4) =? 12);
    cbn [orb] in Hj |- *; first [discriminate | exact IH].
Qed.

Lemma scan_partitions_first (pre post : list Z) (i : Z) (w : world)
    (s1 : sector) :
  Forall (fun j => partition_matches (sector_buffer w) j = false) pre ->
  partition_matches (sector_buffer w) i = true ->
  sd_blocks (card w) !! le32 (sector_buffer w) (446 + i * 16 + 8) = Some s1 ->
  scan_partitions (pre ++ i :: post) w
  = Ret tt (set_sector_buffer s1
              (set_volume_start_block
                 (le32 (sector_buffer w) (446 + i * 16 + 8)) w)).
Proof.
  intros Hpre Hi Hs1.
  induction Hpre as [|j rest Hj _ IH]; cbn [app scan_partitions].
  - cbv [bind get]. unfold partition_matches in Hi.
    destruct (byte_at (sector_buffer w) (446 + i * 16) =? 0);
      destruct (byte_at (sector_buffer w) (446 + i * 16) =? 128);
      cbn [negb andb orb] in Hi |- *; try discriminate;
      rewrite Hi;
      cbv [modify sd_read_into_buffer bind sd_read_block]; world_simpl;
      by rewrite Hs1.
  - cbv [bind get]. unfold partition_matches in Hj.
    destruct (byte_at (sector_buffer w) (446 + j * 16) =? 0);
      destruct (byte_at (sector_buffer w) (446 + j * 16) =? 128);
      cbn [negb andb orb] in Hj |- *; try exact IH;
      destruct (byte_at (sector_buffer w) (446 + j * 16 + 4) =? 11);
      destruct (byte_at (sector_buffer w) (446 + j * 16 + 4) =? 12);
      cbn [orb] in Hj |- *; first [discriminate | exact IH].
Qed.

(** The "Read boot sector" step of [fat32_mount] on a card with a
    partition table. *)
Lemma fat32_mount_find_volume_partition (w : world) (s0 s1 : sector)
    (i : Z) :
  sd_blocks (card w) !! 0 = Some s0 ->
  is_sector_mbr s0 = true ->
  0 <= i < 4 -> partition_matches s0 i = true ->
  (forall j, 0 <= j < i -> partition_matches s0 j = false) ->
  le32 s0 (446 + i * 16 + 8) <> 0 ->
  sd_blocks (card w) !! le32 s0 (446 + i * 16 + 8) = Some s1 ->
  fat32_mount_find_volume w
  = Ret tt (set_sector_buffer s1
              (set_volume_start_block (le32 s0 (446 + i * 16 + 8)) w)).
Proof.
  intros Hs0 Hmbr Hi Hmatch Hfirst Hlba Hs1.
  unfold fat32_mount_find_volume, sd_read_into_buffer.
  cbv [bind get modify sd_read_block]. rewrite Hs0. world_simpl.
  rewrite Hmbr.
  set (w0 := set_volume_start_block 0 (set_sector_buffer s0 w)).
  assert (Hsplit : exists pre post,
             [0; 1; 2; 3] = pre ++ i :: post
             /\ Forall (fun j => 0 <= j < i) pre).
  { assert (Hcases : i = 0 \/ i = 1 \/ i = 2 \/ i = 3) by lia.
    destruct Hcases as [-> | [-> | [-> | ->]]].
    - exists [], [1; 2; 3]. split; [done | constructor].
    - exists [0], [2; 3]. split; [done|]. repeat constructor; lia.
    - exists [0; 1], [3]. split; [done|]. repeat constructor; lia.
    - exists [0; 1; 2], []. split; [done|]. repeat constructor; lia. }
  destruct Hsplit as (pre & post & Heq & Hpre).
  rewrite Heq, (scan_partitions_first pre post i w0 s1).
  - subst w0. world_simpl.
    destruct (Z.eqb_spec (le32 s0 (446 + i * 16 + 8)) 0); [done|].
    reflexivity.
  - eapply Forall_impl; [exact Hpre|]. intros j Hj. by apply Hfirst.
  - exact Hmatch.
  - exact Hs1.
Qed.

(** X29.  A card with a partition table.  When block 0 carries the
    signature and a non-zero partition type, [fat32_mount] takes the
    first of the four table entries whose boot indicator is 0x00 or 0x80
    and whose type is 0x0B or 0x0C.  If that entry starts at a non-zero
    block that is on the card, a mount that succeeds has mounted the
    volume of that partition: the volume starts at the entry's first
    block, the cached boot sector is the one read from there, and the
    card is untouched. *)
Theorem mount_takes_first_fat32_partition (w w' : world) (s0 s1 : sector)
    (i : Z) :
  fat32_mounted w = false ->
  sd_blocks (card w) !! 0 = Some s0 ->
  is_sector_mbr s0 = true ->
  0 <= i < 4 -> partition_matches s0 i = true ->
  (forall j, 0 <= j < i -> partition_matches s0 j = false) ->
  le32 s0 (446 + i * 16 + 8) <> 0 ->
  sd_blocks (card w) !! le32 s0 (446 + i * 16 + 8) = Some s1 ->
  fat32_mount w = Ret tt w' ->
  volume_start_block w' = le32 s0 (446 + i * 16 + 8)
  /\ boot_sector w' = decode_boot_sector s1
  /\ fat32_mounted w' = true
  /\ card w' = card w.
Proof.
  intros Hm Hs0 Hmbr Hi Hmatch Hfirst Hlba Hs1 Hmount.
  pose proof (fat32_mount_find_volume_partition w s0 s1 i Hs0 Hmbr Hi Hmatch
                Hfirst Hlba Hs1) as Hfind.
  destruct (sd_present (card w)) eqn:Hp.
  2:{ unfold fat32_mount in Hmount. cbv [bind get] in Hmount.
      rewrite Hp in Hmount. cbn in Hmount. discriminate. }
  destruct (sd_init_result (card w)) eqn:Hinit.
  2-21: unfold fat32_mount in Hmount; cbv [bind get] in Hmount;
        rewrite Hp, Hm, Hinit in Hmount; cbn in Hmount; discriminate.
  rewrite (fat32_mount_steps w _ Hp Hm Hinit Hfind) in Hmount.
  cbv zeta in Hmount. world_simpl.
  destruct (is_valid_fat32_boot_sector (decode_boot_sector s1));
    try discriminate.
  destruct (mount_cluster_count (decode_boot_sector s1) <? 65525);
    [discriminate|].
  unfold fat32_mount_fsinfo, read_sector in Hmount.
  cbv [bind get sd_read_block modify] in Hmount. world_simpl.
  revert Hmount. clear Hs0 Hs1 Hfind.
  destruct (sd_blocks _ !! _) as [s|]; [|discriminate].
  world_simpl.
  destruct (fsinfo_signatures_ok (decode_fsinfo s)); cbn [negb];
    [|discriminate].
  intros [= <-]. by world_simpl.
Qed.

Lemma mount_takes_first_fat32_partition_witness :
  volume_start_block demo_partitioned = le32 demo_mbr_image (446 + 1 * 16 + 8)
  /\ boot_sector demo_partitioned = decode_boot_sector demo_boot_image
  /\ fat32_mounted demo_partitioned = true
  /\ card demo_partitioned = card (power_on demo_partitioned_card).
Proof.
  refine (mount_takes_first_fat32_partition
            (power_on demo_partitioned_card) demo_partitioned
            demo_mbr_image demo_boot_image 1 _ _ _ _ _ _ _ _ _).
  - reflexivity.
  - vm_compute. reflexivity.
  - vm_compute. reflexivity.
  - lia.
  - vm_compute. reflexivity.
  - intros j Hj. replace j with 0 by lia. vm_compute. reflexivity.
  - vm_compute. discriminate.
  - vm_compute. reflexivity.
  - vm_compute. reflexivity.
Defined.

(** X30.  The test for a partition table comes first.  When block 0
    carries the signature and one of the four bytes at the place of the
    partition types is not zero, [fat32_mount] reads it as a partition
    table, also when the block is the boot sector of a volume without
    partitions; if none of the four entries is then one it takes, the
    mount fails with [FAT32_ERROR_INVALID_FORMAT], the volume is not
    mounted and the card is untouched. *)
Theorem partition_table_test_comes_first (w : world) (s0 : sector) :
  sd_present (card w) = true -> fat32_mounted w = false ->
  sd_init_result (card w) = FAT32_OK ->
  sd_blocks (card w) !! 0 = Some s0 ->
  is_sector_mbr s0 = true ->
  (forall j, 0 <= j < 4 -> partition_matches s0 j = false) ->
  exists w',
    fat32_mount w = Fail FAT32_ERROR_INVALID_FORMAT w'
    /\ fat32_mounted w' = false /\ card w' = card w.
Proof.
  intros Hp Hm Hinit Hs0 Hmbr Hnone.
  eexists. split.
  { unfold fat32_mount. cbv [bind get]. rewrite Hp, Hm, Hinit.
    cbn [negb return_on_error ret].
    unfold fat32_mount_find_volume, sd_read_into_buffer.
    cbv [bind get modify sd_read_block]. rewrite Hs0. world_simpl.
    rewrite Hmbr. rewrite scan_partitions_skip.
    - world_simpl. reflexivity.
    - world_simpl. repeat constructor; apply Hnone; lia. }
  by world_simpl.
Qed.

Lemma partition_table_test_comes_first_witness :
  is_sector_boot_sector (poke [(450, 0x90)] demo_boot_image) = true
  /\ exists w',
       fat32_mount (power_on demo_boot_code_card)
       = Fail FAT32_ERROR_INVALID_FORMAT w'
       /\ fat32_mounted w' = false
       /\ card w' = card (power_on demo_boot_code_card).
Proof.
  split; [vm_compute; reflexivity|].
  refine (partition_table_test_comes_first (power_on demo_boot_code_card)
            (poke [(450, 0x90)] demo_boot_image) _ _ _ _ _ _).
  - reflexivity.
  - reflexivity.
  - reflexivity.
  - vm_compute. reflexivity.
  - vm_compute. reflexivity.
  - intros j Hj.
    assert (Hcases : j = 0 \/ j = 1 \/ j = 2 \/ j = 3) by lia.
    destruct Hcases as [-> | [-> | [-> | ->]]]; vm_compute; reflexivity.
Defined.
